(* ===== verification/_CoqProject ===== *)
-Q . S2P
Prelude.v
GoStrings.v
GoFloat.v
GoTime.v
GoFlag.v
GoSort.v
TabWriter.v
GoPrintf.v
ConfigFile.v
ServerLoop.v
ServerLoopProps.v
Protocol.v
VectorClock.v
Conflict.v
Gossip.v
GossipProps.v
GossipNet.v
GossipSpread.v
Baseline.v
BaselineNet.v
Fault.v
Commands.v
CommandProps.v
NodeConfig.v
Experiment.v
ExperimentProps.v
NodeSession.v
Messages.v
NodeRuntime.v
RuntimeProps.v
ReactorLoop.v
Cluster.v
Metrics.v
Sessions.v
Service.v
World.v
CPServer.v
CPServerProps.v
Reporting.v
NodeServer.v
RuntimeNet.v
NodeMain.v
NodeBoot.v
GoPath.v
GoFmt.v
GossipLog.v
Actor.v
ControlPlane.v
ActorProps.v
ActorLoop.v
Launch.v
ActorNet.v
Http.v
Rest.v
RestProps.v
Listener.v
ListenerProps.v
ListenerReflect.v
ListenerText.v
Bootstrap.v
Cli.v
CliScreen.v
Transport.v
