(* ===== verification/Prelude.v ===== *)
(** * FaultLab: a verification development

    FaultLab runs small clusters of nodes under a protocol (gossip replication or
    a baseline membership protocol), injects faults into them and measures how
    the cluster behaves.  It has three programs: the node (cmd/node), the control
    plane (cmd/controlplane) and a command-line client (cmd/cpcli).  This library
    models the Go code under src/ and proves what makes it correct.

    ** The parts and how they interact

    A node is a protocol inside a runtime.  The runtime owns an event loop, the
    peer list, the connections to the peers and a fault engine, and takes calls
    from peers and from the control plane.  The control plane is an actor that
    runs one command at a time on a service; the service keeps the clusters and
    nodes (the cluster manager), calls the nodes, and records metrics sessions.
    Commands come from the REST API, from the command listener the client talks
    to, from the configuration at start, and from experiments ("hypotheses"),
    which compile to command lines with times.

    ** Files

    What the program takes from Go (each file models the functions the program
    calls, on the inputs it calls them with):
    - GoStrings: strings and strconv.  GoFloat: strconv.ParseFloat.  GoTime:
      time.Duration, its text and time.ParseDuration.  GoFmt: the verb %.2f and
      time.RFC3339.  GoPrintf: a format without operands.  GoFlag: flag.  GoSort: sort.  GoPath: path/filepath.
      TabWriter: text/tabwriter.  Http: net/http methods and codes.
    - World: the clock and the processes of the operating system, as interfaces.
    - ServerLoop, ServerLoopProps: a goroutine that takes commands from a channel,
      and its clients, in any interleaving; the actor and the reactor of a node
      are its two uses.

    The node (src/internal/node, src/internal/fault, src/cmd/node):
    - Protocol: protocol/envelope.go, codec.go, protocol.go, registry.go.
    - VectorClock, Conflict, Gossip: protocol/gossip.  [GossipProtocol] is the
      struct; each method is one definition of the same name.  GossipProps: what
      one call does.  GossipNet: a network of gossip nodes as a step relation.
      GossipSpread: what exchanges between pairs of them achieve.  GossipLog:
      gossip/logging.go.
    - Baseline: protocol/baseline.  BaselineNet: a cluster of such nodes.
    - Fault: internal/fault, internal/node/exec.  NodeConfig: node/config.go.
      ConfigFile: node/config/runtime.go.  NodeSession: node/session/node.go.
    - NodeRuntime, RuntimeProps: node/runtime.  ReactorLoop: the reactor with its
      channel and callers.  RuntimeNet: the processes of a cluster that runs
      gossip, as a network of runtimes.  NodeServer: node/server.go with the
      control plane's clients of it.  NodeMain: cmd/node.  NodeBoot: the start of a
      node, from its registration to its first protocol.
    - Messages: the messages of internal/protocol/*.proto.  Transport:
      internal/transport.

    The control plane (src/internal/controlplane, cluster, metrics, experiment,
    engine, src/cmd/controlplane):
    - Cluster: internal/cluster and its manager.  Metrics, Sessions:
      internal/metrics.  Service: controlplane/service.
    - CPServer, CPServerProps: controlplane/rpc/server.go and the session of a
      node to it.  Reporting: node/runtime/logger.go, and the way of a log line
      from a protocol to the timeline.
    - Commands, CommandProps: command.go, parser.go, runtime_commands.go.
    - Experiment, ExperimentProps: internal/experiment.
    - Actor, ActorProps: actor.go.  ControlPlane: the states it reaches.
      ActorLoop: its channel, its loop and its clients.  Launch, ActorNet: from a
      command to the nodes.
    - Rest, RestProps: rest/server.go.  Listener, ListenerProps:
      command_listener.go; ListenerReflect: its reading of replies by reflection;
      ListenerText: the bytes it answers.  Bootstrap: cmd/controlplane and
      internal/engine.  Cli, CliScreen: cmd/cpcli, what it sends and what it
      shows.

    ** Conventions

    A Go map is a [gmap], nil and empty alike; where a statement ranges over a
    map, the order comes from [RangeOrder] and every theorem holds for all
    orders.  An [int] is a [Z] and is wrapped where the code computes with it; a
    float64 is a [spec_float]; a string is its bytes.  A function that returns an
    error has type [result] or returns [option error]; one that can dereference
    nil has type [outcome].  Nodes that the source shares by pointer are in a
    heap (Cluster).  A method that holds a lock is one step, and so is a call of the
    actor or of a runtime: ActorLoop and ReactorLoop show that such a call is what
    a client sees of the goroutines behind it, however they are scheduled.  [time.Now] and
    random draws are arguments, through [Env], [SendEnv] or an argument of the
    operation.  What other goroutines do while the actor waits is a function on
    the world ([waits], [others], [settle]), about which nothing is assumed but
    where a theorem says so; for the commands of a hypothesis, hypothesis_is_client
    (ActorLoop) finds such a function for every interleaving.

    Interfaces, each a class with the laws its clients use: [Codec] (the JSON of
    messages: what is encoded is decoded), [Protobuf] (the generated code),
    [PeerRPC] and [NodeOperator] (the calls to a node), [Orchestrator] (what the
    node calls of the control plane), [Clock] and [Processes], [RequestJSON] (the
    bodies of REST requests).  NodeServer implements [NodeOperator] and CPServer
    [Orchestrator], so the theorems about their clients apply to the composed
    system.  The YAML decoder and the conversion of a float64 out of the range of
    int64, which Go leaves to the implementation, are arguments, and so are the
    offset of the local time zone and what [%+v] prints.

    ** What the theorems show

    - Replication: a store is a last-writer-wins register, values are never
      invented, delivery order is irrelevant, exchanges converge (GossipProps,
      GossipNet, GossipSpread), and the processes of a cluster behave as that
      network does, as long as they keep the protocol they were given
      (RuntimeNet).
    - Membership: what a node holds of a peer follows from how many of its ticks
      have gone by without a message of that peer; but the news of others is
      never believed and a lasting partition never heals (BaselineNet).
    - Faults: a crashed node says nothing to its peers and serves no call, fault
      requests are atomic, a partition separates the groups of a healthy cluster
      and a heal joins them (NodeServer, RuntimeProps, ActorProps, ActorNet).
    - Topology: the three layers of a node agree, registered nodes meet, and a
      node starts gossip with the peers it was given, unless a message comes too
      early (RuntimeProps, CPServerProps, NodeBoot).
    - Concurrency: the clients of the actor and the callers of a reactor see one
      command after another in the order of the channel, with the changes other
      goroutines make between two of them, and are all answered until the actor
      stops, after which none is (ActorLoop, ReactorLoop).
    - Control plane: its tables stay consistent, answers have the type of their
      command, hypotheses run what their steps mean (Cluster, ControlPlane,
      ActorProps).
    - Measurements: the metrics meet their definitions, and a write reaches the
      timeline as it was made unless it holds a percent sign (Metrics, Sessions,
      Service, Reporting).
    - Interfaces and languages: the parser; the compiler of experiments, against
      what a step means (step_means in ExperimentProps, said without the
      resolvers of the compiler); the configuration files, the REST API, the
      listener, the tables of nodes and clusters it answers, which can be read
      back, and the client, whose requests may fail or time out and whose help
      tells lines the parser takes (CommandProps, ExperimentProps, ConfigFile,
      RestProps, ListenerProps, ListenerReflect, ListenerText, Cli, CliScreen,
      Launch, Bootstrap).

    ** Fuel

    Recursion is structural but for three loops.  [parse_units] (GoTime) and
    [sprintf_loop] (GoPrintf) eat a character of their text in each round and get
    its length (parse_units_fuel, sprintf_fuel).  The polling loop of Service gets one round per second of
    its timeout and one more, which is enough for it to return
    (WaitForConvergence_total).  A hypothesis waits for the time of a batch: what
    happens meanwhile is a function on the state.  The loops that never end (the
    actor, the reactor, the ticker) are step relations.

    ** Not modelled

    - The generated protocol buffers, the web frontend (TypeScript), the scratch
      program.
    - Starting and stopping the servers and goroutines, signals, and the lines
      that only a person reads: of those a node logs, the timeline events and the
      traces are modelled.
    - What [%+v] prints for data without a table of its own, and the database of
      time zones.
    - The debug dumps (State) of the two protocols. *)

From Stdlib Require Export ZArith Lia Ascii.
From stdpp Require Export base gmap strings list fin_maps pretty.

#[global] Open Scope string_scope.
#[global] Open Scope list_scope.
#[global] Open Scope Z_scope.

Declare Scope go_scope.
Delimit Scope go_scope with go.

(** ** Errors and fallible results

    An error keeps the format string and the arguments the source passes to
    [fmt.Errorf]; a wrapping error ([%w]) also keeps its cause.  Rendering the
    message is not modelled, so two errors are equal exactly when the source
    would build them from the same format and arguments. *)

Inductive fmt_arg : Type :=
  | AStr (s : string)
  | AInt (z : Z)
  | ABool (b : bool)
  | AStrs (l : list string).

Inductive error : Type :=
  | Errorf (format : string) (args : list fmt_arg)
  | Wrapf (format : string) (args : list fmt_arg) (cause : error).

#[export] Instance fmt_arg_eq_dec : EqDecision fmt_arg.
Proof. solve_decision. Defined.

#[export] Instance error_eq_dec : EqDecision error.
Proof. solve_decision. Defined.

(** A Go function that returns [(T, error)]. *)
Inductive result (A : Type) : Type :=
  | Ok (a : A)
  | Err (e : error).
Arguments Ok {_} _.
Arguments Err {_} _.

#[export] Instance result_eq_dec {A} `{EqDecision A} : EqDecision (result A).
Proof. solve_decision. Defined.

#[export] Instance result_ret : MRet result := @Ok.

#[export] Instance result_bind : MBind result := λ A B f m,
  match m with Ok a => f a | Err e => Err e end.

Definition is_ok {A} (r : result A) : bool :=
  match r with Ok _ => true | Err _ => false end.

Lemma result_bind_Ok {A B} (m : result A) (f : A → result B) b :
  m ≫= f = Ok b ↔ ∃ a, m = Ok a ∧ f a = Ok b.
Proof. destruct m; simpl; naive_solver. Qed.

(** [mapM] in the result monad, stopping at the first error. *)
Fixpoint result_mapM {A B} (f : A → result B) (l : list A) : result (list B) :=
  match l with
  | [] => Ok []
  | x :: l' =>
      match f x with
      | Err e => Err e
      | Ok y =>
          match result_mapM f l' with
          | Err e => Err e
          | Ok ys => Ok (y :: ys)
          end
      end
  end.

Lemma result_mapM_Ok {A B} (f : A → result B) l k :
  result_mapM f l = Ok k ↔ Forall2 (λ x y, f x = Ok y) l k.
Proof.
  revert k; induction l as [|x l IH]; intros k; simpl.
  { split; [by intros [= <-] | by intros ->%Forall2_nil_inv_l]. }
  destruct (f x) as [y|e] eqn:Hx.
  - destruct (result_mapM f l) as [ys|e] eqn:Hl; split.
    + intros [= <-]. constructor; [done | by apply IH].
    + intros (y' & k' & ? & Hk%IH & ->)%Forall2_cons_inv_l. congruence.
    + done.
    + intros (y' & k' & ? & Hk%IH & ->)%Forall2_cons_inv_l. congruence.
  - split; [done|]. intros (y' & k' & ? & _ & ->)%Forall2_cons_inv_l. congruence.
Qed.

(** A statement that can crash the goroutine (a nil dereference). *)
Inductive outcome (A : Type) : Type :=
  | Done (a : A)
  | Panic (why : string).
Arguments Done {_} _.
Arguments Panic {_} _.

(** ** Machine integers *)

Definition two63 : Z := 2 ^ 63.
Definition two64 : Z := 2 ^ 64.

(** Wrap-around of [int64] (and of [int] on a 64-bit platform) and [uint64]. *)
Definition wrap_i64 (z : Z) : Z := (z + two63) `mod` two64 - two63.
Definition wrap_u64 (z : Z) : Z := z `mod` two64.
Definition wrap_i32 (z : Z) : Z := (z + 2 ^ 31) `mod` 2 ^ 32 - 2 ^ 31.
Definition wrap_u32 (z : Z) : Z := z `mod` 2 ^ 32.

Definition in_i64 (z : Z) : Prop := - two63 ≤ z < two63.
Definition in_u64 (z : Z) : Prop := 0 ≤ z < two64.

#[export] Instance in_i64_dec z : Decision (in_i64 z).
Proof. unfold in_i64. apply _. Defined.
#[export] Instance in_u64_dec z : Decision (in_u64 z).
Proof. unfold in_u64. apply _. Defined.

Lemma wrap_i64_id z : in_i64 z → wrap_i64 z = z.
Proof.
  unfold in_i64, wrap_i64, two63, two64. intros ?.
  rewrite Z.mod_small; lia.
Qed.

Lemma wrap_u64_id z : in_u64 z → wrap_u64 z = z.
Proof. unfold in_u64, wrap_u64. intros ?. by apply Z.mod_small. Qed.

Lemma wrap_i64_range z : in_i64 (wrap_i64 z).
Proof.
  unfold in_i64, wrap_i64.
  pose proof (Z.mod_pos_bound (z + two63) two64 ltac:(done)).
  unfold two63, two64 in *. lia.
Qed.

Lemma wrap_u64_range z : in_u64 (wrap_u64 z).
Proof. apply Z.mod_pos_bound. done. Qed.

(** ** Lists and maps *)

Lemma foldl_ext_in {A B} (f g : A → B → A) l a :
  (∀ a x, x ∈ l → f a x = g a x) → foldl f a l = foldl g a l.
Proof.
  revert a; induction l as [|x l IH]; intros a Hfg; simpl; [done|].
  rewrite (Hfg a x) by left. apply IH. intros a' y Hy. apply Hfg. by right.
Qed.

Lemma foldl_invariant {A B} (P : A → Prop) (f : A → B → A) l a :
  P a → (∀ a x, x ∈ l → P a → P (f a x)) → P (foldl f a l).
Proof.
  revert a; induction l as [|x l IH]; intros a Ha Hf; simpl; [done|].
  apply IH; [by apply Hf; [left|]|]. intros a' y Hy. apply Hf. by right.
Qed.

Lemma elem_of_fmap_app {A B} (f : A → B) (l1 l2 : list A) x :
  x ∈ f <$> l1 ++ l2 ↔ x ∈ f <$> l1 ∨ x ∈ f <$> l2.
Proof. by rewrite fmap_app, elem_of_app. Qed.

Lemma existsb_elem_of {A} (f : A → bool) l :
  existsb f l = true ↔ ∃ x, x ∈ l ∧ f x = true.
Proof. rewrite existsb_exists. by setoid_rewrite list_elem_of_In. Qed.

Lemma forallb_elem_of {A} (f : A → bool) l :
  forallb f l = true ↔ ∀ x, x ∈ l → f x = true.
Proof. rewrite forallb_forall. by setoid_rewrite list_elem_of_In. Qed.

Lemma map_nonempty {V} (m : gmap string V) : m ≠ ∅ ↔ ∃ k v, m !! k = Some v.
Proof.
  split; [apply map_choose|]. intros (k & v & Hk) ->. by rewrite lookup_empty in Hk.
Qed.

(** Wrap-around can be done once, at the end. *)
Lemma wrap_i64_add a b : wrap_i64 (wrap_i64 a + b) = wrap_i64 (a + b).
Proof.
  unfold wrap_i64. f_equal.
  replace (_ - two63 + b + two63) with ((a + two63) `mod` two64 + b) by lia.
  rewrite Zplus_mod_idemp_l. f_equal. lia.
Qed.

Lemma wrap_i64_add_r a b : wrap_i64 (a + wrap_i64 b) = wrap_i64 (a + b).
Proof. by rewrite Z.add_comm, wrap_i64_add, Z.add_comm. Qed.

(** ** Ranging over Go maps

    [for k, v := range m] visits the entries of a map in an unspecified order.
    A [RangeOrder] fixes one order for every range statement of the program:
    [range site m] is the order in which the statement numbered [site] visits
    [m].  The definitions take the order as a parameter, so the theorems hold
    for every order a run may produce. *)

Class RangeOrder := {
  range {V : Type} (site : nat) (m : gmap string V) : list (string * V);
  range_perm {V : Type} (site : nat) (m : gmap string V) :
    range site m ≡ₚ map_to_list m;
}.

(** The order of stdpp's enumeration, used to evaluate the definitions. *)
Definition canonical_order : RangeOrder := {|
  range := λ V _ m, map_to_list m;
  range_perm := λ V _ m, Permutation_refl _;
|}.

(** The opposite order, to show that a result depends on the order. *)
Definition reverse_order : RangeOrder := {|
  range := λ V _ m, rev (map_to_list m);
  range_perm := λ V _ m, Permutation_sym (Permutation_rev _);
|}.

Section Range.
Context `{RO : RangeOrder}.

Lemma range_NoDup {V} n (m : gmap string V) : NoDup (range n m).*1.
Proof. rewrite range_perm. apply NoDup_fst_map_to_list. Qed.

Lemma range_to_map {V} n (m : gmap string V) : list_to_map (range n m) = m.
Proof.
  rewrite <-(list_to_map_to_list m) at 2.
  apply list_to_map_proper; [apply range_NoDup | apply range_perm].
Qed.

Lemma elem_of_range {V} n (m : gmap string V) k v :
  (k, v) ∈ range n m ↔ m !! k = Some v.
Proof. rewrite range_perm. apply elem_of_map_to_list. Qed.

Lemma length_range {V} n (m : gmap string V) : length (range n m) = size m.
Proof. rewrite range_perm. apply length_map_to_list. Qed.

Lemma range_nil_inv {V} n (m : gmap string V) : range n m = [] → m = ∅.
Proof. intros H. by rewrite <-(range_to_map n m), H. Qed.
End Range.

(** A loop over map entries whose body reads and writes only the entry of the
    visited key in an accumulator map. *)
Section KeyedLoop.
Context {V W : Type} (f : string → option V → W → option V).

Definition keyed_step (s : gmap string V) (kw : string * W) : gmap string V :=
  match f kw.1 (s !! kw.1) kw.2 with
  | Some v => <[kw.1 := v]> s
  | None => s
  end.

Definition keyed_loop (s : gmap string V) (l : list (string * W)) : gmap string V :=
  foldl keyed_step s l.

(** The new entry at a key, given the old one and what the loop visits there. *)
Definition keyed_entry (k : string) (old : option V) (w : option W) : option V :=
  match w with
  | None => old
  | Some w' => match f k old w' with Some v => Some v | None => old end
  end.

Lemma lookup_keyed_step s kw k :
  keyed_step s kw !! k =
  if decide (kw.1 = k) then keyed_entry k (s !! k) (Some kw.2) else s !! k.
Proof.
  unfold keyed_step, keyed_entry. case_decide as Hk; [subst|].
  - destruct (f _ _ _); by simplify_map_eq.
  - destruct (f _ _ _); by simplify_map_eq.
Qed.

Lemma lookup_keyed_loop s l k :
  NoDup l.*1 →
  keyed_loop s l !! k = keyed_entry k (s !! k) ((list_to_map l : gmap string W) !! k).
Proof.
  revert s; induction l as [|[k' w] l IH]; intros s Hnd; simpl.
  { by simplify_map_eq. }
  inversion_clear Hnd as [|?? Hni Hnd'].
  rewrite (IH _ Hnd'), lookup_keyed_step; simpl.
  case_decide as Hk; [subst|].
  - rewrite lookup_insert_eq.
    assert (list_to_map (M:=gmap string W) l !! k = None) as ->
      by (by apply not_elem_of_list_to_map_1).
    done.
  - by rewrite lookup_insert_ne.
Qed.

Lemma lookup_keyed_loop_range `{RangeOrder} s n (m : gmap string W) k :
  keyed_loop s (range n m) !! k = keyed_entry k (s !! k) (m !! k).
Proof. rewrite lookup_keyed_loop by apply range_NoDup. by rewrite range_to_map. Qed.
End KeyedLoop.

(** Two orders of the same entries leave the same map. *)
Lemma keyed_loop_perm {V W} (f : string → option V → W → option V) s l1 l2 :
  NoDup l1.*1 → l1 ≡ₚ l2 → keyed_loop f s l1 = keyed_loop f s l2.
Proof.
  intros Hnd Hp. apply map_eq; intros k.
  rewrite !lookup_keyed_loop; [|by rewrite <-Hp|done].
  by rewrite (list_to_map_proper (M:=gmap string) l1 l2).
Qed.

(** [for k, v := range m { out[k] = g(v) }] into an empty map. *)
Definition copy_loop {V W} (g : W → V) (l : list (string * W)) : gmap string V :=
  foldl (λ s kw, <[kw.1 := g kw.2]> s) ∅ l.

Lemma copy_loop_range {V W} `{RangeOrder} (g : W → V) n (m : gmap string W) :
  copy_loop g (range n m) = g <$> m.
Proof.
  apply map_eq; intros k.
  change (copy_loop g (range n m)) with (keyed_loop (λ _ _ w, Some (g w)) ∅ (range n m)).
  rewrite lookup_keyed_loop_range, lookup_fmap, lookup_empty.
  by destruct (m !! k).
Qed.

(** ** Record updates

    [r <| F := v |>] is [r] with its field [F] set to [v].  A record type takes
    part once an instance of [Settable] rebuilds it from its fields; the setter
    of a field is derived from that instance. *)

Class Settable (R : Type) := rebuild : R → R.

Class Setter {R T : Type} (F : R → T) := update_field : (T → T) → R → R.
Arguments update_field {R T} F {_}.

Ltac derive_setter :=
  match goal with
  | |- @Setter ?R ?T ?F =>
      let inst := constr:(_ : Settable R) in
      let whole := eval hnf in inst in
      match eval pattern F in whole with
      | ?f F => exact (λ (g : T → T) (r : R), f (λ r', g (F r')) r)
      end
  end.

#[export] Hint Extern 1 (Setter _) => derive_setter : typeclass_instances.

Notation "r <| F := v |>" := (update_field F (λ _, v) r)
  (at level 1, left associativity, format "r  <| F  :=  v |>") : go_scope.

#[global] Open Scope go_scope.

(** ** Automation shared by the files *)

(** Case analysis on every test of an executable definition. *)
Ltac cases :=
  repeat (case_match || case_decide); simplify_eq/=.

(** A decidable statement about concrete data, by evaluation. *)
Ltac by_evaluation := apply (bool_decide_unpack _); vm_compute; exact I.

Create HintDb faultlab.
#[export] Hint Resolve wrap_i64_range wrap_u64_range : faultlab.
