(* ===== verification/GoStrings.v ===== *)
(** * The Go standard library's strings and strconv, as the program uses them

    A Go string is a sequence of bytes, which is what [string] is here.  This
    file defines the functions of the packages strings and strconv that the
    modelled code calls, with the lemmas about them that the components share.
    White space is that of [unicode.IsSpace] on UTF-8 text. *)

From S2P Require Import Prelude.

(** ** Bytes *)

Definition byte_of (a : Ascii.ascii) : N := Ascii.N_of_ascii a.

Definition byte_between (lo hi : N) (a : Ascii.ascii) : bool :=
  (lo <=? byte_of a)%N && (byte_of a <=? hi)%N.

Definition is_byte (n : N) (a : Ascii.ascii) : bool := (byte_of a =? n)%N.

Definition quote_char : Ascii.ascii := Ascii.ascii_of_nat 34.
Definition quote : string := String quote_char EmptyString.

(** ** White space *)

Definition ascii_space (a : Ascii.ascii) : bool :=
  byte_between 9 13 a || is_byte 32 a.

(** Bytes of the white-space rune the string starts with, 0 when there is none:
    U+0009 to U+000D, U+0020, U+0085, U+00A0, U+1680, U+2000 to U+200A, U+2028,
    U+2029, U+202F, U+205F and U+3000 in their UTF-8 encodings. *)
Definition space_len (s : string) : nat :=
  match s with
  | EmptyString => 0
  | String a r =>
      if ascii_space a then 1
      else if is_byte 0xC2 a then
        match r with
        | String b _ => if is_byte 0x85 b || is_byte 0xA0 b then 2 else 0
        | EmptyString => 0
        end
      else
        match r with
        | String b (String c _) =>
            if is_byte 0xE1 a && is_byte 0x9A b && is_byte 0x80 c then 3
            else if is_byte 0xE2 a && is_byte 0x80 b &&
                    (byte_between 0x80 0x8A c || is_byte 0xA8 c || is_byte 0xA9 c || is_byte 0xAF c) then 3
            else if is_byte 0xE2 a && is_byte 0x81 b && is_byte 0x9F c then 3
            else if is_byte 0xE3 a && is_byte 0x80 b && is_byte 0x80 c then 3
            else 0
        | _ => 0
        end
  end%nat.

(** Drops the leading white space; [skip] counts the bytes left of a rune. *)
Fixpoint trim_left (skip : nat) (s : string) : string :=
  match s with
  | EmptyString => EmptyString
  | String a r =>
      match skip with
      | S k => trim_left k r
      | O => match space_len s with S k => trim_left k r | O => s end
      end
  end.

Fixpoint all_space (skip : nat) (s : string) : bool :=
  match s with
  | EmptyString => true
  | String a r =>
      match skip with
      | S k => all_space k r
      | O => match space_len s with S k => all_space k r | O => false end
      end
  end.

Fixpoint trim_right (s : string) : string :=
  match s with
  | EmptyString => EmptyString
  | String a r => if all_space 0 s then EmptyString else String a (trim_right r)
  end.

Definition TrimSpace (s : string) : string := trim_right (trim_left 0 s).

(** The pieces between white-space runes, empty ones included. *)
Fixpoint space_pieces (skip : nat) (s : string) : list string :=
  match s with
  | EmptyString => [EmptyString]
  | String a r =>
      match skip with
      | S k => space_pieces k r
      | O =>
          match space_len s with
          | S k => EmptyString :: space_pieces k r
          | O =>
              match space_pieces 0 r with
              | [] => [String a EmptyString]
              | w :: ws => String a w :: ws
              end
          end
      end
  end.

Definition non_empty (s : string) : bool :=
  match s with EmptyString => false | String _ _ => true end.

Definition Fields (s : string) : list string :=
  List.filter non_empty (space_pieces 0 s).

(** No white space starts anywhere in the string. *)
Fixpoint no_space (s : string) : bool :=
  match s with
  | EmptyString => true
  | String a r => (space_len s =? 0)%nat && no_space r
  end.

(** A word: what [Fields] can return. *)
Definition is_word (s : string) : bool := non_empty s && no_space s.

(** ** Searching and cutting *)

Definition HasPrefix (s p : string) : bool := String.prefix p s.

Fixpoint str_drop (n : nat) (s : string) : string :=
  match n, s with
  | O, _ => s
  | S k, String _ r => str_drop k r
  | S _, EmptyString => EmptyString
  end.

Fixpoint str_take (n : nat) (s : string) : string :=
  match n, s with
  | O, _ => EmptyString
  | S k, String a r => String a (str_take k r)
  | S _, EmptyString => EmptyString
  end.

Definition TrimPrefix (s p : string) : string :=
  if HasPrefix s p then str_drop (String.length p) s else s.

Definition HasSuffix (s t : string) : bool := bool_decide (str_drop (String.length s - String.length t) s = t).
Definition TrimSuffix (s t : string) : string :=
  if HasSuffix s t then str_take (String.length s - String.length t) s else s.

(** Position of the first and of the last occurrence of a byte. *)
Fixpoint IndexByte (s : string) (c : Ascii.ascii) : option nat :=
  match s with
  | EmptyString => None
  | String a r => if Ascii.eqb a c then Some 0%nat else S <$> IndexByte r c
  end.

Fixpoint LastIndexByte (s : string) (c : Ascii.ascii) : option nat :=
  match s with
  | EmptyString => None
  | String a r =>
      match LastIndexByte r c with
      | Some n => Some (S n)
      | None => if Ascii.eqb a c then Some 0%nat else None
      end
  end.

Definition ContainsByte (s : string) (c : Ascii.ascii) : bool :=
  match IndexByte s c with Some _ => true | None => false end.

(** [strings.Contains] *)
Fixpoint Contains (s sub : string) : bool :=
  HasPrefix s sub || match s with EmptyString => false | String _ r => Contains r sub end.

(** [strings.Split] for a one-byte separator. *)
Fixpoint Split (s : string) (c : Ascii.ascii) : list string :=
  match s with
  | EmptyString => [EmptyString]
  | String a r =>
      if Ascii.eqb a c then EmptyString :: Split r c
      else match Split r c with
           | [] => [String a EmptyString]
           | w :: ws => String a w :: ws
           end
  end.

(** [strings.SplitN(s, c, 2)] for a one-byte separator. *)
Definition SplitN2 (s : string) (c : Ascii.ascii) : list string :=
  match IndexByte s c with
  | None => [s]
  | Some i => [str_take i s; str_drop (S i) s]
  end.

Definition Join (l : list string) (sep : string) : string := String.concat sep l.

(** [strings.ToLower].  Letters A to Z are mapped, and the two runes outside
    ASCII whose lower case is an ASCII letter (U+0130 and U+212A); other bytes
    are kept.  The program only compares the result with ASCII literals, which
    this decides as the full Unicode mapping does. *)
Fixpoint to_lower (skip : nat) (s : string) : string :=
  match s with
  | EmptyString => EmptyString
  | String a r =>
      match skip with
      | S k => to_lower k r
      | O =>
          if byte_between 65 90 a then String (Ascii.ascii_of_N (byte_of a + 32)) (to_lower 0 r)
          else match r with
               | String b r' =>
                   if is_byte 0xC4 a && is_byte 0xB0 b then String "i"%char (to_lower 1 r)
                   else match r' with
                        | String c _ =>
                            if is_byte 0xE2 a && is_byte 0x84 b && is_byte 0xAA c
                            then String "k"%char (to_lower 2 r)
                            else String a (to_lower 0 r)
                        | EmptyString => String a (to_lower 0 r)
                        end
               | EmptyString => String a (to_lower 0 r)
               end
      end
  end.

Definition ToLower (s : string) : string := to_lower 0 s.

(** [strings.Trim(s, cutset)] for a one-byte cutset. *)
Fixpoint trim_byte_left (c : Ascii.ascii) (s : string) : string :=
  match s with
  | EmptyString => EmptyString
  | String a r => if Ascii.eqb a c then trim_byte_left c r else s
  end.

Fixpoint trim_byte_right (c : Ascii.ascii) (s : string) : string :=
  match s with
  | EmptyString => EmptyString
  | String a r =>
      match trim_byte_right c r with
      | EmptyString => if Ascii.eqb a c then EmptyString else String a EmptyString
      | r' => String a r'
      end
  end.

Definition TrimByte (s : string) (c : Ascii.ascii) : string :=
  trim_byte_right c (trim_byte_left c s).

(** Byte-wise order of strings, Go's [<] and [>]. *)
Definition str_lt (a b : string) : bool := String.ltb a b.

(** ** strconv *)

Definition digit_val (a : Ascii.ascii) : option N :=
  if byte_between 48 57 a then Some (byte_of a - 48)%N else None.

Fixpoint digits_from (acc : N) (s : string) : option N :=
  match s with
  | EmptyString => Some acc
  | String a r => d ← digit_val a; digits_from (10 * acc + d)%N r
  end.

Definition ParseDigits (s : string) : option N :=
  match s with EmptyString => None | _ => digits_from 0 s end.

(** A decimal integer with an optional sign, of any size. *)
Definition ParseDecimal (s : string) : option Z :=
  match s with
  | String "-"%char r => (λ n, - Z.of_N n) <$> ParseDigits r
  | String "+"%char r => Z.of_N <$> ParseDigits r
  | _ => Z.of_N <$> ParseDigits s
  end.

(** [strconv.Atoi], with [int] of 64 bits; [None] is any of its errors. *)
Definition Atoi (s : string) : option Z :=
  z ← ParseDecimal s; if decide (in_i64 z) then Some z else None.

(** The value [strconv.ParseInt(s, 10, 64)] returns when its error is ignored:
    0 on a syntax error, the nearest [int64] when out of range. *)
Definition ParseInt_value (s : string) : Z :=
  match ParseDecimal s with
  | None => 0
  | Some z => if decide (in_i64 z) then z else if (z <? 0)%Z then - two63 else two63 - 1
  end.

(** The same for [strconv.ParseUint(s, 10, 64)], which accepts no sign. *)
Definition ParseUint_value (s : string) : Z :=
  match ParseDigits s with
  | None => 0
  | Some n => if decide (in_u64 (Z.of_N n)) then Z.of_N n else two64 - 1
  end.

Definition ParseBool (s : string) : option bool :=
  if bool_decide (s ∈ ["1"; "t"; "T"; "TRUE"; "true"; "True"]) then Some true
  else if bool_decide (s ∈ ["0"; "f"; "F"; "FALSE"; "false"; "False"]) then Some false
  else None.

(** The verbs %d and %t of [fmt.Sprintf]. *)
Definition itoa (z : Z) : string := pretty z.
Definition btoa (b : bool) : string := if b then "true" else "false".

(** ** Lemmas: the order of strings *)

Lemma ascii_compare_trans a b c o :
  Ascii.compare a b = o → Ascii.compare b c = o → Ascii.compare a c = o.
Proof.
  unfold Ascii.compare. destruct o.
  - rewrite !N.compare_eq_iff. congruence.
  - rewrite !N.compare_lt_iff. lia.
  - rewrite !N.compare_gt_iff. lia.
Qed.

Lemma ascii_compare_refl a : Ascii.compare a a = Eq.
Proof. apply N.compare_refl. Qed.

Lemma str_compare_refl s : String.compare s s = Eq.
Proof. induction s; simpl; [done|]. by rewrite ascii_compare_refl. Qed.

Lemma str_compare_lt_trans a b c :
  String.compare a b = Lt → String.compare b c = Lt → String.compare a c = Lt.
Proof.
  revert b c; induction a as [|x a IH]; intros [|y b] [|z c]; simpl; try done.
  destruct (Ascii.compare x y) eqn:Hxy; [|intros _|done].
  - apply Ascii.compare_eq_iff in Hxy as ->.
    destruct (Ascii.compare y z); eauto.
  - destruct (Ascii.compare y z) eqn:Hyz; [intros _|intros _|done].
    + apply Ascii.compare_eq_iff in Hyz as ->. by rewrite Hxy.
    + by rewrite (ascii_compare_trans _ _ _ Lt Hxy Hyz).
Qed.

Lemma str_lt_irrefl s : str_lt s s = false.
Proof. unfold str_lt, String.ltb. by rewrite str_compare_refl. Qed.

Lemma str_lt_trans a b c : str_lt a b = true → str_lt b c = true → str_lt a c = true.
Proof.
  unfold str_lt, String.ltb.
  destruct (String.compare a b) eqn:Hab, (String.compare b c) eqn:Hbc; try done.
  by rewrite (str_compare_lt_trans _ _ _ Hab Hbc).
Qed.

Lemma str_lt_asym a b : str_lt a b = true → str_lt b a = false.
Proof.
  intros Hab. destruct (str_lt b a) eqn:Hba; [|done].
  by rewrite <-(str_lt_irrefl a), (str_lt_trans _ _ _ Hab Hba).
Qed.

Lemma str_lt_total a b : a ≠ b → str_lt a b = true ∨ str_lt b a = true.
Proof.
  unfold str_lt, String.ltb. rewrite (String.compare_antisym b a).
  destruct (String.compare a b) eqn:Hab; simpl; auto.
  by apply String.compare_eq_iff in Hab.
Qed.

(** ** Lemmas: white space and fields *)

Lemma append_nil_r s : s +:+ EmptyString = s.
Proof.
  induction s as [|a s IH]; [done|].
  change (String a (s +:+ EmptyString) = String a s). by rewrite IH.
Qed.

Lemma append_assoc s t u : s +:+ (t +:+ u) = (s +:+ t) +:+ u.
Proof.
  induction s as [|a s IH]; [done|].
  change (String a (s +:+ (t +:+ u)) = String a ((s +:+ t) +:+ u)). by rewrite IH.
Qed.

Lemma space_len_app_stop s t :
  (if t is String a _ then (byte_of a <? 0x80)%N else true) = true →
  s ≠ EmptyString → space_len s = 0%nat → space_len (s +:+ t) = 0%nat.
Proof.
  intros Ht Hs. destruct s as [|a r]; [done|clear Hs].
  assert (∀ n b, (0x80 ≤ n)%N → (byte_of b <? 0x80)%N = true → is_byte n b = false) as Hn.
  { intros n b Hn Hb. unfold is_byte. apply N.eqb_neq. apply N.ltb_lt in Hb. lia. }
  assert (∀ lo hi b, (0x80 ≤ lo)%N → (byte_of b <? 0x80)%N = true → byte_between lo hi b = false) as Hb.
  { intros lo hi b Hlo Hlt. unfold byte_between. apply N.ltb_lt in Hlt.
    apply andb_false_iff. left. apply N.leb_gt. lia. }
  destruct r as [|b [|c r]]; simpl; [| |done].
  - destruct t as [|x [|y t]]; simpl in *; [done| |].
    + repeat (rewrite !(Hn _ x) by (lia || done)). repeat case_match; done.
    + repeat (rewrite !(Hn _ x) by (lia || done)). rewrite !andb_false_r. simpl.
      repeat case_match; done.
  - destruct t as [|x t]; simpl in *; [done|].
    rewrite !(Hn _ x), !(Hb _ _ x) by (lia || done). simpl.
    rewrite !andb_false_r. repeat case_match; done.
Qed.

Lemma space_pieces_word w t :
  no_space w = true → (if t is String a _ then (byte_of a <? 0x80)%N else true) = true →
  space_pieces 0 (w +:+ t) =
  match space_pieces 0 t with [] => [w] | p :: ps => (w +:+ p) :: ps end.
Proof.
  intros Hw Ht. induction w as [|a w IH].
  { change (EmptyString +:+ t) with t. assert (space_pieces 0 t ≠ []) as Hne.
    { destruct t as [|x t]; cbn [space_pieces]; [done|].
      destruct (space_len _); [destruct (space_pieces 0 t); done|done]. }
    destruct (space_pieces 0 t); [done|done]. }
  cbn [no_space] in Hw. apply andb_true_iff in Hw as [Ha Hw].
  apply Nat.eqb_eq in Ha.
  change (String a w +:+ t) with (String a (w +:+ t)). cbn [space_pieces].
  change (String a (w +:+ t)) with (String a w +:+ t).
  rewrite space_len_app_stop by done. rewrite IH by done.
  by destruct (space_pieces 0 t).
Qed.

Lemma Fields_space t : Fields (String " " t) = Fields t.
Proof. reflexivity. Qed.

Lemma Fields_word_cons w t :
  is_word w = true → Fields (w +:+ String " " t) = w :: Fields t.
Proof.
  unfold is_word. intros [Hne Hw]%andb_true_iff. unfold Fields.
  rewrite space_pieces_word by done. cbn [space_pieces space_len].
  change (ascii_space " ") with true. cbn [List.filter].
  rewrite append_nil_r.
  by rewrite Hne.
Qed.

Lemma Fields_word w : is_word w = true → Fields w = [w].
Proof.
  unfold is_word. intros [Hne Hw]%andb_true_iff. unfold Fields.
  rewrite <-(append_nil_r w) at 1. rewrite space_pieces_word by done. simpl.
  by rewrite append_nil_r, Hne.
Qed.

(** Words joined by single spaces are split back into the same words. *)
Lemma Fields_Join ws : forallb is_word ws = true → Fields (Join ws " ") = ws.
Proof.
  unfold Join. induction ws as [|w ws IH]; [done|].
  cbn [forallb]. intros [Hw Hws]%andb_true_iff.
  destruct ws as [|w' ws]; [by apply Fields_word|].
  change (String.concat " " (w :: w' :: ws)) with (w +:+ String " " (String.concat " " (w' :: ws))).
  by rewrite Fields_word_cons, IH.
Qed.

Lemma trim_left_no_space s : no_space s = true → trim_left 0 s = s.
Proof.
  destruct s as [|a r]; [done|]. cbn [no_space trim_left].
  intros [->%Nat.eqb_eq _]%andb_true_iff. done.
Qed.

Lemma trim_right_no_space s : no_space s = true → trim_right s = s.
Proof.
  induction s as [|a r IH]; [done|]. cbn [no_space trim_right all_space].
  intros [->%Nat.eqb_eq Hr]%andb_true_iff. by rewrite IH.
Qed.

Lemma TrimSpace_no_space s : no_space s = true → TrimSpace s = s.
Proof. intros H. unfold TrimSpace. by rewrite trim_left_no_space, trim_right_no_space. Qed.

Lemma word_no_space w : is_word w = true → no_space w = true.
Proof. by intros [_ ?]%andb_true_iff. Qed.

Lemma word_non_empty w : is_word w = true → w ≠ EmptyString.
Proof. by destruct w. Qed.

(** ** Lemmas: numbers *)

Lemma digit_val_pretty x : (x < 10)%N → digit_val (pretty_N_char x) = Some x.
Proof.
  intros Hx.
  assert (x = 0 ∨ x = 1 ∨ x = 2 ∨ x = 3 ∨ x = 4 ∨ x = 5 ∨ x = 6 ∨ x = 7 ∨ x = 8 ∨ x = 9)%N
    as Hc by lia.
  by destruct_or!; subst.
Qed.

Lemma digits_from_pretty_go x s :
  digits_from 0 (pretty_N_go x s) = digits_from x s.
Proof.
  revert s. induction (N.lt_wf_0 x) as [x _ IH]; intros s.
  destruct (decide (0 < x)%N) as [Hx|Hx].
  - rewrite pretty_N_go_step by done.
    rewrite IH by (apply N.div_lt; lia).
    cbn [digits_from]. rewrite digit_val_pretty by (apply N.mod_lt; lia). simpl.
    f_equal. pose proof (N.div_mod x 10 ltac:(lia)). lia.
  - assert (x = 0%N) as -> by lia. by rewrite pretty_N_go_0.
Qed.

Lemma pretty_N_go_non_empty x s : s ≠ EmptyString → pretty_N_go x s ≠ EmptyString.
Proof.
  revert s. induction (N.lt_wf_0 x) as [x _ IH]; intros s Hs.
  destruct (decide (0 < x)%N) as [Hx|Hx].
  - rewrite pretty_N_go_step by done. apply IH; [apply N.div_lt; lia|done].
  - assert (x = 0%N) as -> by lia. by rewrite pretty_N_go_0.
Qed.

(** Every byte of the string satisfies [P]. *)
Fixpoint str_forallb (P : Ascii.ascii → bool) (s : string) : bool :=
  match s with
  | EmptyString => true
  | String a r => P a && str_forallb P r
  end.

Definition is_digit (a : Ascii.ascii) : bool := byte_between 48 57 a.

Lemma is_digit_pretty x : (x < 10)%N → is_digit (pretty_N_char x) = true.
Proof.
  intros Hx. pose proof (digit_val_pretty x Hx) as H.
  unfold digit_val in H. unfold is_digit. by destruct (byte_between _ _ _).
Qed.

Lemma pretty_N_go_digits x s :
  str_forallb is_digit s = true → str_forallb is_digit (pretty_N_go x s) = true.
Proof.
  revert s. induction (N.lt_wf_0 x) as [x _ IH]; intros s Hs.
  destruct (decide (0 < x)%N) as [Hx|Hx].
  - rewrite pretty_N_go_step by done. apply IH; [apply N.div_lt; lia|].
    cbn [str_forallb]. rewrite Hs, is_digit_pretty; [done|apply N.mod_lt; lia].
  - assert (x = 0%N) as -> by lia. by rewrite pretty_N_go_0.
Qed.

Lemma pretty_N_digits (n : N) :
  str_forallb is_digit (pretty n) = true ∧ pretty n ≠ EmptyString.
Proof.
  unfold pretty, pretty_N. case_decide as Hn; [done|]. split.
  - by apply pretty_N_go_digits.
  - rewrite pretty_N_go_step by lia. by apply pretty_N_go_non_empty.
Qed.

Lemma ParseDigits_pretty (n : N) : ParseDigits (pretty n) = Some n.
Proof.
  pose proof (pretty_N_digits n) as [_ Hne].
  unfold ParseDigits. destruct (pretty n) as [|a r] eqn:Hp; [done|]. rewrite <-Hp.
  unfold pretty, pretty_N. case_decide; [by subst|].
  by rewrite digits_from_pretty_go.
Qed.

Lemma ParseDecimal_digits s :
  str_forallb is_digit s = true → ParseDecimal s = Z.of_N <$> ParseDigits s.
Proof.
  destruct s as [|a r]; [done|]. cbn [str_forallb].
  intros [Ha _]%andb_true_iff. unfold ParseDecimal.
  by destruct a as [[] [] [] [] [] [] [] []].
Qed.

Lemma ParseDecimal_itoa z : ParseDecimal (itoa z) = Some z.
Proof.
  unfold itoa. destruct z as [|p|p].
  - done.
  - change (pretty (Zpos p)) with (pretty (Npos p)). rewrite ParseDecimal_digits by apply pretty_N_digits.
    by rewrite ParseDigits_pretty.
  - change (ParseDecimal (pretty (Zneg p)))
      with ((λ n, - Z.of_N n) <$> ParseDigits (pretty (Npos p))).
    by rewrite ParseDigits_pretty.
Qed.

(** Printing an [int] with %d and reading it back with [Atoi]. *)
Lemma Atoi_itoa z : in_i64 z → Atoi (itoa z) = Some z.
Proof.
  intros Hz. unfold Atoi. rewrite ParseDecimal_itoa. simpl. by rewrite decide_True.
Qed.

Lemma ParseInt_itoa z : in_i64 z → ParseInt_value (itoa z) = z.
Proof.
  intros Hz. unfold ParseInt_value. rewrite ParseDecimal_itoa. by rewrite decide_True.
Qed.

Lemma ParseUint_itoa z : in_u64 z → ParseUint_value (itoa z) = z.
Proof.
  intros Hz. unfold ParseUint_value, itoa.
  destruct z as [|p|p]; [done| |by destruct Hz].
  change (pretty (Zpos p)) with (pretty (Npos p)).
  rewrite ParseDigits_pretty. by rewrite decide_True.
Qed.

(** Bytes that are ASCII and not white space. *)
Definition plain (a : Ascii.ascii) : bool :=
  (byte_of a <? 0x80)%N && negb (ascii_space a).

Lemma plain_no_space s : str_forallb plain s = true → no_space s = true.
Proof.
  induction s as [|a r IH]; [done|]. cbn [str_forallb no_space].
  intros [Ha Hr]%andb_true_iff. rewrite IH by done.
  assert (space_len (String a r) = 0%nat) as ->; [|done].
  apply andb_true_iff in Ha as [Hlt Hns%negb_true_iff].
  cbn [space_len]. rewrite Hns.
  assert (∀ n, (0x80 ≤ n)%N → is_byte n a = false) as Hn.
  { intros n Hle. unfold is_byte. apply N.eqb_neq. apply N.ltb_lt in Hlt. lia. }
  rewrite !(Hn _) by lia. by destruct r as [|b [|c r]].
Qed.

Lemma str_forallb_impl (P Q : Ascii.ascii → bool) s :
  (∀ a, P a = true → Q a = true) → str_forallb P s = true → str_forallb Q s = true.
Proof.
  intros HPQ. induction s as [|a r IH]; [done|]. cbn [str_forallb].
  intros [? ?]%andb_true_iff. rewrite HPQ, IH; done.
Qed.

Lemma str_forallb_app (P : Ascii.ascii → bool) s t :
  str_forallb P (s +:+ t) = str_forallb P s && str_forallb P t.
Proof.
  induction s as [|a s IH]; [done|].
  change (String a s +:+ t) with (String a (s +:+ t)). cbn [str_forallb]. by rewrite IH, andb_assoc.
Qed.

Lemma str_forallb_Join (P : Ascii.ascii → bool) ws c :
  P c = true → forallb (str_forallb P) ws = true → str_forallb P (Join ws (String c EmptyString)) = true.
Proof.
  intros Hc. unfold Join. induction ws as [|w ws IH]; [done|]. cbn [forallb].
  intros [Hw Hws]%andb_true_iff. destruct ws as [|w' ws]; [done|].
  change (String.concat ?s (w :: ?l)) with (w +:+ s +:+ String.concat s l).
  rewrite !str_forallb_app, Hw, IH by done. cbn. by rewrite Hc.
Qed.

Lemma Join_non_empty w ws sep : w ≠ EmptyString → Join (w :: ws) sep ≠ EmptyString.
Proof.
  intros Hw. unfold Join. destruct ws as [|w' ws]; [done|].
  change (String.concat sep (w :: w' :: ws)) with (w +:+ sep +:+ String.concat sep (w' :: ws)).
  by destruct w.
Qed.

Lemma is_digit_plain a : is_digit a = true → plain a = true.
Proof.
  unfold is_digit, plain, ascii_space, is_byte, byte_between.
  intros [Hl%N.leb_le Hu%N.leb_le]%andb_true_iff.
  apply andb_true_iff; split; [apply N.ltb_lt; lia|].
  apply negb_true_iff, orb_false_iff; split.
  - apply andb_false_iff. right. apply N.leb_gt. lia.
  - apply N.eqb_neq. lia.
Qed.

(** The bytes of a printed integer are digits, after an optional sign. *)
Lemma itoa_bytes (P : Ascii.ascii → bool) z :
  (∀ a, is_digit a = true → P a = true) → P "-"%char = true →
  str_forallb P (itoa z) = true ∧ itoa z ≠ EmptyString.
Proof.
  intros HP Hm. unfold itoa. destruct z as [|p|p].
  - split; [|done]. cbn. rewrite HP; done.
  - change (pretty (Zpos p)) with (pretty (Npos p)).
    destruct (pretty_N_digits (Npos p)). split; [|done]. by eapply str_forallb_impl.
  - change (pretty (Zneg p)) with (String "-" (pretty (Npos p))).
    destruct (pretty_N_digits (Npos p)). split; [|done]. cbn [str_forallb].
    rewrite Hm. by eapply str_forallb_impl.
Qed.

Lemma itoa_word z : is_word (itoa z) = true.
Proof.
  destruct (itoa_bytes plain z is_digit_plain eq_refl) as [Hp Hne].
  unfold is_word. rewrite plain_no_space by done. by destruct (itoa z).
Qed.

Lemma btoa_word b : is_word (btoa b) = true.
Proof. by destruct b. Qed.

Lemma ParseBool_btoa b : ParseBool (btoa b) = Some b.
Proof. by destruct b. Qed.

(** ** Lemmas: searching and cutting *)

Definition byte_free (c : Ascii.ascii) (s : string) : bool :=
  str_forallb (λ a, negb (Ascii.eqb a c)) s.

Lemma itoa_byte_free c z : is_digit c = false → c ≠ "-"%char → byte_free c (itoa z) = true.
Proof.
  intros Hc Hm. apply itoa_bytes.
  - intros a Ha. apply negb_true_iff, Ascii.eqb_neq. intros ->. congruence.
  - apply negb_true_iff, Ascii.eqb_neq. congruence.
Qed.

Lemma IndexByte_app_free c s t :
  byte_free c s = true → IndexByte (s +:+ t) c = Nat.add (String.length s) <$> IndexByte t c.
Proof.
  unfold byte_free. induction s as [|a s IH].
  { intros _. change (EmptyString +:+ t) with t. by destruct (IndexByte t c). }
  change (String a s +:+ t) with (String a (s +:+ t)). cbn [str_forallb IndexByte String.length].
  intros [->%negb_true_iff Hs]%andb_true_iff. rewrite IH by done.
  by destruct (IndexByte t c).
Qed.

Lemma IndexByte_free c s : byte_free c s = true → IndexByte s c = None.
Proof. intros H. rewrite <-(append_nil_r s). by rewrite IndexByte_app_free. Qed.

Lemma LastIndexByte_free c s : byte_free c s = true → LastIndexByte s c = None.
Proof.
  unfold byte_free. induction s as [|a s IH]; [done|]. cbn [str_forallb LastIndexByte].
  intros [->%negb_true_iff Hs]%andb_true_iff. by rewrite IH.
Qed.

Lemma LastIndexByte_app c s t :
  byte_free c t = true → LastIndexByte (s +:+ String c t) c = Some (String.length s).
Proof.
  intros Ht. induction s as [|a s IH].
  - change (EmptyString +:+ String c t) with (String c t). cbn [LastIndexByte].
    rewrite LastIndexByte_free by done. by rewrite Ascii.eqb_refl.
  - change (String a s +:+ String c t) with (String a (s +:+ String c t)).
    cbn [LastIndexByte String.length]. by rewrite IH.
Qed.

Lemma str_take_app s t : str_take (String.length s) (s +:+ t) = s.
Proof.
  induction s as [|a s IH]; [done|].
  change (String a s +:+ t) with (String a (s +:+ t)). cbn [String.length str_take]. by rewrite IH.
Qed.

Lemma str_drop_app s t : str_drop (String.length s) (s +:+ t) = t.
Proof. induction s as [|a s IH]; [done|]. exact IH. Qed.

Lemma str_drop_app_S s a t : str_drop (S (String.length s)) (s +:+ String a t) = t.
Proof. induction s as [|b s IH]; [done|]. exact IH. Qed.

Lemma Split_free c s : byte_free c s = true → Split s c = [s].
Proof.
  unfold byte_free. induction s as [|a s IH]; [done|]. cbn [str_forallb Split].
  intros [->%negb_true_iff Hs]%andb_true_iff. by rewrite IH.
Qed.

Lemma Split_app c s t :
  byte_free c s = true → Split (s +:+ String c t) c = s :: Split t c.
Proof.
  unfold byte_free. induction s as [|a s IH].
  - intros _. change (EmptyString +:+ String c t) with (String c t).
    cbn [Split]. by rewrite Ascii.eqb_refl.
  - change (String a s +:+ String c t) with (String a (s +:+ String c t)).
    cbn [str_forallb Split]. intros [->%negb_true_iff Hs]%andb_true_iff. by rewrite IH.
Qed.

(** Pieces without the separator, joined by it, are split back. *)
Lemma Split_Join c ws :
  ws ≠ [] → forallb (byte_free c) ws = true → Split (Join ws (String c EmptyString)) c = ws.
Proof.
  intros Hne. unfold Join. induction ws as [|w ws IH]; [done|clear Hne].
  cbn [forallb]. intros [Hw Hws]%andb_true_iff.
  destruct ws as [|w' ws]; [by apply Split_free|].
  change (String.concat (String c EmptyString) (w :: w' :: ws))
    with (w +:+ String c (String.concat (String c EmptyString) (w' :: ws))).
  rewrite Split_app by done. by rewrite IH.
Qed.

Lemma HasPrefix_app p t : HasPrefix (p +:+ t) p = true.
Proof.
  unfold HasPrefix. induction p as [|a p IH]; [by destruct t|].
  change (String a p +:+ t) with (String a (p +:+ t)). cbn. destruct (Ascii.ascii_dec a a); [done|congruence].
Qed.

Lemma TrimPrefix_app p t : TrimPrefix (p +:+ t) p = t.
Proof. unfold TrimPrefix. by rewrite HasPrefix_app, str_drop_app. Qed.

Lemma HasPrefix_cut p s : HasPrefix s p = true → s = p +:+ TrimPrefix s p.
Proof.
  intros Hp. unfold TrimPrefix. rewrite Hp. revert s Hp. induction p as [|a p IH]; intros s Hp; [done|].
  destruct s as [|b s]; [done|]. unfold HasPrefix in Hp. cbn in Hp. destruct (Ascii.ascii_dec a b) as [->|]; [|done].
  cbn [String.length str_drop]. change (String b p +:+ ?x) with (String b (p +:+ x)). by rewrite <-IH.
Qed.

(** ** Lemmas: what Fields and Split return *)

Lemma space_len_prefix s t : space_len (s +:+ t) = 0%nat → space_len s = 0%nat.
Proof.
  destruct s as [|a [|b [|c s]]]; [done| | |done].
  - change (String a EmptyString +:+ t) with (String a t). cbn [space_len].
    destruct (ascii_space a); [done|]. by destruct (is_byte 0xC2 a).
  - change (String a (String b EmptyString) +:+ t) with (String a (String b t)). cbn [space_len].
    destruct (ascii_space a); [done|]. by destruct (is_byte 0xC2 a).
Qed.

Lemma no_space_app_l s t : no_space (s +:+ t) = true → no_space s = true.
Proof.
  induction s as [|a s IH]; [done|].
  change (String a s +:+ t) with (String a (s +:+ t)). cbn [no_space].
  intros [Hl%Nat.eqb_eq Hs]%andb_true_iff. apply andb_true_iff. split; [|by apply IH].
  apply Nat.eqb_eq. by apply (space_len_prefix (String a s) t).
Qed.

Lemma space_pieces_no_space skip s :
  Forall (λ w, no_space w = true) (space_pieces skip s) ∧
  (skip = 0%nat → ∃ w ws t, space_pieces skip s = w :: ws ∧ s = w +:+ t).
Proof.
  revert skip; induction s as [|a r IH]; intros skip.
  { split; [by repeat constructor|]. intros _. by exists EmptyString, [], EmptyString. }
  cbn [space_pieces]. destruct skip as [|k].
  - destruct (space_len (String a r)) as [|k] eqn:Hl.
    + destruct (IH 0%nat) as [Hf Hp]. destruct (Hp eq_refl) as (w & ws & t & Hw & ->). rewrite Hw in *.
      split; [|intros _; by exists (String a w), ws, t].
      apply Forall_cons in Hf as [Hn Hf]. constructor; [|done]. cbn [no_space]. rewrite Hn, andb_true_r.
      apply Nat.eqb_eq. by apply (space_len_prefix (String a w) t).
    + split; [|intros _; by eexists EmptyString, _, _]. constructor; [done|apply IH].
  - split; [apply IH|done].
Qed.

Lemma Fields_words s : forallb is_word (Fields s) = true.
Proof.
  apply forallb_elem_of. intros w Hw. apply list_elem_of_In, List.filter_In in Hw as [Hw Hne].
  apply list_elem_of_In in Hw. destruct (space_pieces_no_space 0 s) as [Hf _].
  rewrite Forall_forall in Hf. unfold is_word. by rewrite Hne, (Hf w Hw).
Qed.

Lemma Split_byte_free c s : forallb (byte_free c) (Split s c) = true ∧ Split s c ≠ [].
Proof.
  induction s as [|a s [IH Hne]]; [done|]. cbn [Split]. destruct (Ascii.eqb a c) eqn:Ha.
  - split; [|done]. cbn [forallb]. by rewrite IH.
  - destruct (Split s c) as [|w ws]; [done|]. split; [|done]. cbn [forallb] in *.
    apply andb_true_iff in IH as [Hw ->]. unfold byte_free in *. cbn [str_forallb]. by rewrite Ha, Hw.
Qed.

Lemma Join_cons2 w w' ws sep : Join (w :: w' :: ws) sep = w +:+ sep +:+ Join (w' :: ws) sep.
Proof. done. Qed.

Lemma Join_Split c s : Join (Split s c) (String c EmptyString) = s.
Proof.
  induction s as [|a s IH]; [done|]. cbn [Split]. pose proof (proj2 (Split_byte_free c s)) as Hne.
  destruct (Ascii.eqb a c) eqn:Ha.
  - apply Ascii.eqb_eq in Ha as ->. destruct (Split s c) as [|w ws]; [done|]. rewrite Join_cons2, IH. done.
  - destruct (Split s c) as [|w [|w' ws]]; [done| |].
    + unfold Join in *. cbn in *. by rewrite IH.
    + rewrite Join_cons2 in *. rewrite <-IH. done.
Qed.

(** ** Lemmas: trimming a byte *)

Lemma trim_byte_left_app c s t :
  (∃ a r, t = String a r ∧ a ≠ c) → trim_byte_left c (s +:+ t) = trim_byte_left c s +:+ t.
Proof.
  intros (a & r & -> & Hne). induction s as [|b s IH].
  - change (EmptyString +:+ ?x) with x. cbn [trim_byte_left]. rewrite (proj2 (Ascii.eqb_neq a c)) by done. done.
  - change (String b s +:+ String a r) with (String b (s +:+ String a r)). cbn [trim_byte_left].
    by destruct (Ascii.eqb b c).
Qed.

Lemma trim_byte_right_app c s a t :
  a ≠ c → trim_byte_right c (s +:+ String a t) = s +:+ String a (trim_byte_right c t).
Proof.
  intros Hne. apply Ascii.eqb_neq in Hne. induction s as [|b s IH].
  - change (EmptyString +:+ ?x) with x. cbn [trim_byte_right]. rewrite Hne. by destruct (trim_byte_right c t).
  - change (String b s +:+ String a t) with (String b (s +:+ String a t)). cbn [trim_byte_right]. rewrite IH.
    by destruct s.
Qed.

Lemma trim_byte_left_suffix c s : ∃ p, s = p +:+ trim_byte_left c s.
Proof.
  induction s as [|a s [p IH]]; [by exists EmptyString|]. cbn [trim_byte_left].
  destruct (Ascii.eqb a c); [|by exists EmptyString].
  exists (String a p). change (String a p +:+ ?x) with (String a (p +:+ x)). by rewrite <-IH.
Qed.

Lemma trim_byte_right_prefix c s : ∃ t, s = trim_byte_right c s +:+ t.
Proof.
  induction s as [|a s [t IH]]; [by exists EmptyString|]. cbn [trim_byte_right].
  destruct (trim_byte_right c s) as [|b r].
  - destruct (Ascii.eqb a c); [by exists (String a s)|]. exists s. done.
  - exists t. change (String a (String b r) +:+ t) with (String a (String b r +:+ t)). by rewrite <-IH.
Qed.

Lemma no_space_app_r s t : no_space (s +:+ t) = true → no_space t = true.
Proof.
  induction s as [|a s IH]; [done|]. change (String a s +:+ t) with (String a (s +:+ t)). cbn [no_space].
  by intros [_ ?%IH]%andb_true_iff.
Qed.

Lemma trim_left_keeps_no_space c s : no_space s = true → no_space (trim_byte_left c s) = true.
Proof.
  intros Hs. destruct (trim_byte_left_suffix c s) as [p Hp]. rewrite Hp in Hs. by apply no_space_app_r in Hs.
Qed.

Lemma trim_right_keeps_no_space c s : no_space s = true → no_space (trim_byte_right c s) = true.
Proof.
  intros Hs. destruct (trim_byte_right_prefix c s) as [t Ht]. rewrite Ht in Hs. by apply no_space_app_l in Hs.
Qed.

Lemma trim_byte_left_own c s : trim_byte_left c (String c s) = trim_byte_left c s.
Proof. cbn [trim_byte_left]. by rewrite Ascii.eqb_refl. Qed.

Lemma trim_byte_right_own c s : trim_byte_right c (s +:+ String c EmptyString) = trim_byte_right c s.
Proof.
  induction s as [|a s IH]; [change (EmptyString +:+ ?x) with x; cbn [trim_byte_right]; by rewrite Ascii.eqb_refl|].
  change (String a s +:+ ?t) with (String a (s +:+ t)). cbn [trim_byte_right]. by rewrite IH.
Qed.

(** What is left does not start with the byte. *)
Lemma trim_byte_left_head c s :
  trim_byte_left c s = EmptyString ∨ ∃ a r, trim_byte_left c s = String a r ∧ a ≠ c.
Proof.
  induction s as [|a s IH]; [by left|]. cbn [trim_byte_left]. destruct (Ascii.eqb a c) eqn:Ha; [done|].
  right. exists a, s. split; [done|]. by apply Ascii.eqb_neq.
Qed.

Lemma trim_byte_right_idem c s : trim_byte_right c (trim_byte_right c s) = trim_byte_right c s.
Proof.
  induction s as [|a s IH]; [done|]. cbn [trim_byte_right]. destruct (trim_byte_right c s) as [|b r] eqn:Hs.
  - destruct (Ascii.eqb a c) eqn:Ha; [done|]. cbn. by rewrite Ha.
  - cbn [trim_byte_right] in *. destruct (trim_byte_right c r); [|by rewrite IH].
    destruct (Ascii.eqb b c); [done|by rewrite IH].
Qed.

(** ** Lemmas: a line of words has no space around it *)

Lemma all_space_pieces skip s : all_space skip s = true → List.filter non_empty (space_pieces skip s) = [].
Proof.
  revert skip; induction s as [|a r IH]; intros skip; [done|]. cbn [all_space space_pieces].
  destruct skip as [|k]; [|apply IH]. destruct (space_len (String a r)) as [|k]; [done|]. apply IH.
Qed.

Lemma trim_left_line w s : is_word w = true → trim_left 0 (w +:+ String " " s) = w +:+ String " " s.
Proof.
  intros [Hne Hw]%andb_true_iff. destruct w as [|a w]; [done|].
  change (String a w +:+ ?x) with (String a (w +:+ x)). cbn [trim_left].
  change (String a (w +:+ ?x)) with (String a w +:+ x). rewrite space_len_app_stop; [done|done|done|].
  cbn [no_space] in Hw. apply andb_true_iff in Hw as [Hl _]. by apply Nat.eqb_eq.
Qed.

(** ** Lemmas: lines with empty places between their words *)

Lemma Fields_piece p s :
  no_space p = true → Fields (p +:+ String " " s) = (if non_empty p then [p] else []) ++ Fields s.
Proof.
  intros Hp. destruct (non_empty p) eqn:Hn.
  - rewrite Fields_word_cons; [done|]. unfold is_word. by rewrite Hn.
  - by destruct p.
Qed.

Lemma trim_right_piece p s :
  no_space p = true → Fields s ≠ [] → trim_right s = s → trim_right (p +:+ String " " s) = p +:+ String " " s.
Proof.
  intros Hp Hne Hs.
  assert (Hns : ∀ q, no_space q = true → all_space 0 (q +:+ String " " s) = false).
  { intros q Hq. destruct (all_space 0 _) eqn:Ha; [|done]. apply all_space_pieces in Ha. exfalso.
    pose proof (Fields_piece q s Hq) as HF. unfold Fields in HF at 1. rewrite Ha in HF.
    symmetry in HF. by apply app_nil in HF as [_ ?]. }
  induction p as [|a p IH].
  - change (EmptyString +:+ ?x) with x. cbn [trim_right]. rewrite Hs. pose proof (Hns EmptyString eq_refl) as Ha.
    change (EmptyString +:+ ?x) with x in Ha. by rewrite Ha.
  - change (String a p +:+ ?x) with (String a (p +:+ x)). cbn [trim_right].
    pose proof (Hns (String a p) Hp) as Ha. change (String a p +:+ ?x) with (String a (p +:+ x)) in Ha. rewrite Ha.
    cbn [no_space] in Hp. apply andb_true_iff in Hp as [_ Hp]. by rewrite IH.
Qed.

Lemma line_pieces ps ws :
  forallb no_space ps = true → forallb is_word ws = true → ws ≠ [] →
  trim_right (Join (ps ++ ws) " ") = Join (ps ++ ws) " " ∧
  Fields (Join (ps ++ ws) " ") = List.filter non_empty ps ++ ws.
Proof.
  intros Hps Hws Hne. induction ps as [|p ps IH]; cbn [app].
  { split; [|by apply Fields_Join]. induction ws as [|w ws IHw]; [done|].
    cbn [forallb] in Hws. apply andb_true_iff in Hws as [Hw Hws]. destruct ws as [|w' ws].
    - by apply trim_right_no_space, word_no_space.
    - rewrite Join_cons2. change (" " +:+ ?x) with (String " " x).
      apply trim_right_piece; [by apply word_no_space|by rewrite Fields_Join|by apply IHw]. }
  cbn [forallb] in Hps. apply andb_true_iff in Hps as [Hp Hps]. destruct (IH Hps) as [Ht HF].
  assert (∃ q qs, ps ++ ws = q :: qs) as (q & qs & Hq).
  { destruct ps; [destruct ws; [done|]|]; cbn; eauto. }
  rewrite Hq in *. rewrite Join_cons2. change (" " +:+ ?x) with (String " " x). split.
  - apply trim_right_piece; [done| |done]. rewrite HF. intros [_ ?]%app_nil. done.
  - rewrite Fields_piece by done. rewrite HF. cbn [List.filter]. by destruct (non_empty p).
Qed.

Lemma TrimSpace_pieces w ps ws :
  is_word w = true → forallb no_space ps = true → forallb is_word ws = true → ws ≠ [] →
  TrimSpace (Join (w :: ps ++ ws) " ") = Join (w :: ps ++ ws) " ".
Proof.
  intros Hw Hps Hws Hne. unfold TrimSpace.
  assert (trim_left 0 (Join (w :: ps ++ ws) " ") = Join (w :: ps ++ ws) " ") as ->.
  { assert (∃ q qs, ps ++ ws = q :: qs) as (q & qs & ->).
    { destruct ps; [destruct ws; [done|]|]; cbn; eauto. }
    rewrite Join_cons2. change (" " +:+ ?x) with (String " " x). by apply trim_left_line. }
  apply (line_pieces (w :: ps) ws); [|done..]. cbn [forallb]. by rewrite (word_no_space w).
Qed.

Lemma TrimSpace_Join ws : forallb is_word ws = true → TrimSpace (Join ws " ") = Join ws " ".
Proof.
  destruct ws as [|w [|w' ws]]; [done| |].
  - intros [Hw _]%andb_true_iff. by apply TrimSpace_no_space, word_no_space.
  - intros [Hw Hws]%andb_true_iff. by apply (TrimSpace_pieces w []).
Qed.

Lemma TrimSpace_space s : TrimSpace (String " " s) = TrimSpace s.
Proof. reflexivity. Qed.

(** ** Lemmas: trimming twice *)

Lemma space_len_app_pos s t : space_len s ≠ 0%nat → space_len (s +:+ t) = space_len s ∧ (space_len s ≤ String.length s)%nat.
Proof.
  destruct s as [|a s]; [done|]. change (String a s +:+ t) with (String a (s +:+ t)). cbn [space_len String.length].
  destruct (ascii_space a); [split; [done|lia]|]. destruct (is_byte 0xC2 a).
  - destruct s as [|b s]; [done|]. change (String b s +:+ t) with (String b (s +:+ t)). cbn [String.length].
    destruct (is_byte 0x85 b || is_byte 0xA0 b); [split; [done|lia]|done].
  - destruct s as [|b [|c s]]; [done|done|]. change (String b (String c s) +:+ t) with (String b (String c (s +:+ t))).
    cbn [String.length]. repeat case_match; try done; intros _; split; [done|lia|done|lia|done|lia|done|lia].
Qed.

Lemma all_space_app k s t : (k ≤ String.length s)%nat → all_space k s = true → all_space 0 t = true → all_space k (s +:+ t) = true.
Proof.
  revert k. induction s as [|a s IH]; intros k Hk Hs Ht; [cbn in Hk; replace k with 0%nat by lia; done|].
  change (String a s +:+ t) with (String a (s +:+ t)). cbn [all_space String.length] in *. destruct k as [|k]; [|apply IH; [lia|done..]].
  destruct (space_len (String a s)) as [|k] eqn:Hl; [done|].
  destruct (space_len_app_pos (String a s) t) as [Ha Hn]; [by rewrite Hl|]. rewrite Hl in Ha, Hn.
  change (String a s +:+ t) with (String a (s +:+ t)) in Ha. rewrite Ha. cbn [String.length] in Hn. apply IH; [lia|done..].
Qed.

Lemma trim_right_cut s : ∃ z, s = trim_right s +:+ z ∧ all_space 0 z = true.
Proof.
  induction s as [|a s (z & Hz & Hs)]; [by exists EmptyString|]. cbn [trim_right].
  destruct (all_space 0 (String a s)) eqn:Ha; [by exists (String a s)|].
  exists z. split; [|done]. change (String a (trim_right s) +:+ z) with (String a (trim_right s +:+ z)). by rewrite <-Hz.
Qed.

Lemma trim_right_idem s : trim_right (trim_right s) = trim_right s.
Proof.
  induction s as [|a s IH]; [done|]. cbn [trim_right]. destruct (all_space 0 (String a s)) eqn:Ha; [done|]. cbn [trim_right].
  destruct (all_space 0 (String a (trim_right s))) eqn:Hb; [|by rewrite IH].
  destruct (trim_right_cut s) as (z & Hz & Hs). pose proof (all_space_app 0 _ z ltac:(lia) Hb Hs) as Hc.
  change (String a (trim_right s) +:+ z) with (String a (trim_right s +:+ z)) in Hc. by rewrite <-Hz, Ha in Hc.
Qed.

Lemma trim_left_head k s : trim_left k s = EmptyString ∨ space_len (trim_left k s) = 0%nat.
Proof.
  revert k. induction s as [|a s IH]; intros k; [by left|]. cbn [trim_left]. destruct k as [|k]; [|apply IH].
  destruct (space_len (String a s)) eqn:Hl; [by right|apply IH].
Qed.

Lemma TrimSpace_idem s : TrimSpace (TrimSpace s) = TrimSpace s.
Proof.
  unfold TrimSpace at 1. assert (trim_left 0 (TrimSpace s) = TrimSpace s) as ->; [|apply trim_right_idem].
  unfold TrimSpace. destruct (trim_left_head 0 s) as [->|Hl]; [done|]. set (x := trim_left 0 s) in *.
  destruct (trim_right_cut x) as (z & Hz & _). destruct (trim_right x) as [|a r]; [done|].
  rewrite Hz in Hl. apply space_len_prefix in Hl. cbn [trim_left]. by rewrite Hl.
Qed.
