(* ===== verification/GoFloat.v ===== *)
(** * strconv.ParseFloat

    The function of the Go standard library that reads a float64: decimal and
    hexadecimal literals with underscores, infinities and not-a-number.  The
    digits are read exactly and rounded once, to the nearest float64, ties to
    even; a value that rounds to an infinity is a range error. *)

From Stdlib Require Import SpecFloat.
From S2P Require Import Prelude GoStrings.

Definition f64_prec : Z := 53.
Definition f64_emax : Z := 1024.

(** [c | 0x20], what strconv uses to fold the case of a letter. *)
Definition fold_case (a : Ascii.ascii) : Ascii.ascii := Ascii.ascii_of_N (N.lor (byte_of a) 32).

Fixpoint ascii_lower (s : string) : string :=
  match s with
  | EmptyString => EmptyString
  | String a r =>
      String (if byte_between 65 90 a then Ascii.ascii_of_N (byte_of a + 32) else a) (ascii_lower r)
  end.

(** The sign a literal starts with, and the rest. *)
Definition read_sign (s : string) : bool * string :=
  match s with
  | String a r => if Ascii.eqb a "-" then (true, r) else if Ascii.eqb a "+" then (false, r) else (false, s)
  | EmptyString => (false, s)
  end.

(** The names of the values that are not finite; a sign goes with an infinity
    only. *)
Definition special (s : string) : option spec_float :=
  if bool_decide (ascii_lower s = "nan") then Some S754_nan
  else
    let '(neg, r) := read_sign s in
    if bool_decide (ascii_lower r ∈ ["inf"; "infinity"]) then Some (S754_infinity neg) else None.

(** ** The digits *)

Record digits := {
  d_seen : bool;      (* a digit was read *)
  d_dot : bool;       (* the point was read *)
  d_under : bool;     (* an underscore was read *)
  d_mant : N;         (* the digits as one number *)
  d_frac : N;         (* how many of them follow the point *)
}.

Definition no_digits : digits := {| d_seen := false; d_dot := false; d_under := false; d_mant := 0; d_frac := 0 |}.

Definition float_digit (hex : bool) (a : Ascii.ascii) : option N :=
  match digit_val a with
  | Some d => Some d
  | None =>
      let l := fold_case a in
      if hex && byte_between 97 102 l then Some (byte_of l - 87)%N else None
  end.

Fixpoint read_digits (hex : bool) (d : digits) (s : string) : digits * string :=
  match s with
  | EmptyString => (d, s)
  | String a r =>
      if Ascii.eqb a "_" then
        read_digits hex {| d_seen := d_seen d; d_dot := d_dot d; d_under := true; d_mant := d_mant d; d_frac := d_frac d |} r
      else if Ascii.eqb a "." then
        if d_dot d then (d, s)
        else read_digits hex {| d_seen := d_seen d; d_dot := true; d_under := d_under d; d_mant := d_mant d; d_frac := d_frac d |} r
      else
        match float_digit hex a with
        | None => (d, s)
        | Some v =>
            read_digits hex
              {| d_seen := true; d_dot := d_dot d; d_under := d_under d;
                 d_mant := ((if hex then 16 else 10) * d_mant d + v)%N;
                 d_frac := if d_dot d then N.succ (d_frac d) else d_frac d |} r
        end
  end.

(** The digits of an exponent: once the value reaches 10000, further digits are
    skipped. *)
Fixpoint read_exponent (e : N) (under : bool) (s : string) : N * bool * string :=
  match s with
  | EmptyString => (e, under, s)
  | String a r =>
      if Ascii.eqb a "_" then read_exponent e true r
      else match digit_val a with
           | None => (e, under, s)
           | Some d => read_exponent (if (e <? 10000)%N then 10 * e + d else e)%N under r
           end
  end.

(** The exponent after the digits: its value, whether it held an underscore, and
    the rest.  A hexadecimal literal must have one. *)
Definition exponent (hex : bool) (s : string) : option (Z * bool * string) :=
  match s with
  | String c r =>
      if Ascii.eqb (fold_case c) (if hex then "p" else "e") then
        let '(neg, r) := read_sign r in
        match r with
        | String a _ =>
            match digit_val a with
            | None => None
            | Some _ =>
                let '(e, under, rest) := read_exponent 0 false r in
                Some (if neg then - Z.of_N e else Z.of_N e, under, rest)
            end
        | EmptyString => None
        end
      else if hex then None else Some (0, false, s)
  | EmptyString => if hex then None else Some (0, false, s)
  end.

(** ** Underscores

    They must stand between two digits, or between a base prefix and a digit. *)
Inductive saw := SawStart | SawDigit | SawUnderscore | SawOther.

Fixpoint underscores_between (hex : bool) (st : saw) (s : string) : bool :=
  match s with
  | EmptyString => match st with SawUnderscore => false | _ => true end
  | String a r =>
      if is_Some_dec (float_digit hex a) then underscores_between hex SawDigit r
      else if Ascii.eqb a "_" then
        match st with SawDigit => underscores_between hex SawUnderscore r | _ => false end
      else match st with SawUnderscore => false | _ => underscores_between hex SawOther r end
  end.

Definition underscoreOK (s : string) : bool :=
  let '(_, r) := read_sign s in
  match r with
  | String a (String b rest) =>
      if Ascii.eqb a "0" && bool_decide (fold_case b ∈ ["b"%char; "o"%char; "x"%char])
      then underscores_between (Ascii.eqb (fold_case b) "x") SawDigit rest
      else underscores_between false SawStart r
  | _ => underscores_between false SawStart r
  end.

(** ** The value *)

(** [mant * 10^e] or [mant * 2^e], rounded once. *)
Definition round_decimal (neg : bool) (mant : N) (e : Z) : spec_float :=
  match mant with
  | N0 => S754_zero neg
  | Npos m =>
      match e with
      | Zneg k => SFdiv f64_prec f64_emax (S754_finite neg m 0) (S754_finite false (10 ^ k) 0)
      | Z0 => binary_round f64_prec f64_emax neg m 0
      | Zpos k => binary_round f64_prec f64_emax neg (m * 10 ^ k) 0
      end
  end.

Definition round_binary (neg : bool) (mant : N) (e : Z) : spec_float :=
  match mant with
  | N0 => S754_zero neg
  | Npos m => binary_round f64_prec f64_emax neg m e
  end.

(** The literal after its sign: hexadecimal with a prefix [0x] and at least one
    more byte. *)
Definition base_prefix (s : string) : bool * string :=
  match s with
  | String a (String b (String c r)) =>
      if Ascii.eqb a "0" && Ascii.eqb (fold_case b) "x" then (true, String c r) else (false, s)
  | _ => (false, s)
  end.

Definition read_float (s : string) : option spec_float :=
  let '(neg, r) := read_sign s in
  let '(hex, r) := base_prefix r in
  let '(d, r) := read_digits hex no_digits r in
  if negb (d_seen d) then None else
  match exponent hex r with
  | None => None
  | Some (e, under, rest) =>
      if (d_under d || under) && negb (underscoreOK s) then None
      else if non_empty rest then None
      else Some (if hex then round_binary neg (d_mant d) (e - 4 * Z.of_N (d_frac d))
                 else round_decimal neg (d_mant d) (e - Z.of_N (d_frac d)))
  end.

(** [strconv.ParseFloat(s, 64)]; [None] is any of its errors. *)
Definition ParseFloat (s : string) : option spec_float :=
  match special s with
  | Some f => Some f
  | None =>
      match read_float s with
      | Some (S754_infinity _) => None
      | other => other
      end
  end.

(** ** Examples *)

Definition f64_of (m : positive) (e : Z) : spec_float := S754_finite false m e.

Example ParseFloat_literals :
  map ParseFloat ["0"; "1"; "0.25"; ".5"; "5e-1"; "0x1p-1"; "1_0.0e-1"; "NaN"; "-Inf"] =
  [Some (S754_zero false); Some (f64_of 4503599627370496 (-52)); Some (f64_of 4503599627370496 (-54));
   Some (f64_of 4503599627370496 (-53)); Some (f64_of 4503599627370496 (-53)); Some (f64_of 4503599627370496 (-53));
   Some (f64_of 4503599627370496 (-52)); Some S754_nan; Some (S754_infinity true)].
Proof. vm_compute. reflexivity. Qed.

Example ParseFloat_rounds :
  map ParseFloat ["0.1"; "0.30000000000000004"; "4.9e-324"; "2e-324"; "1.7976931348623157e308"; "1e309"] =
  [Some (f64_of 7205759403792794 (-56)); Some (f64_of 5404319552844596 (-54)); Some (f64_of 1 (-1074));
   Some (S754_zero false); Some (f64_of 9007199254740991 971); None].
Proof. vm_compute. reflexivity. Qed.

Example ParseFloat_rejects :
  map ParseFloat [EmptyString; "."; "1_"; "_1"; "1__0"; "1e"; "0x1"; "+nan"; "1.2.3"; "1f"; "-_1.5"; "--1"] =
  replicate 12 None.
Proof. vm_compute. reflexivity. Qed.

(** ** Exact arithmetic

    [float64(z)] of an integer, and [uint64(f)] of a float64, towards zero. *)

Definition f64_of_Z (z : Z) : spec_float := binary_normalize f64_prec f64_emax z 0 false.
Definition f64_mul : spec_float → spec_float → spec_float := SFmul f64_prec f64_emax.
Definition f64_div : spec_float → spec_float → spec_float := SFdiv f64_prec f64_emax.

Definition f64_trunc (f : spec_float) : Z :=
  match f with
  | S754_finite false m e => if 0 <=? e then Zpos m * 2 ^ e else Zpos m / 2 ^ (- e)
  | S754_finite true m e => - (if 0 <=? e then Zpos m * 2 ^ e else Zpos m / 2 ^ (- e))
  | _ => 0
  end.

Lemma digits2_bounds m : 2 ^ (Zpos (digits2_pos m) - 1) ≤ Zpos m < 2 ^ Zpos (digits2_pos m).
Proof.
  induction m as [m IH|m IH|]; cbn [digits2_pos]; [| |done]; rewrite Pos2Z.inj_succ.
  - replace (Z.succ (Zpos (digits2_pos m)) - 1) with (Z.succ (Zpos (digits2_pos m) - 1)) by lia.
    rewrite !Z.pow_succ_r by lia. lia.
  - replace (Z.succ (Zpos (digits2_pos m)) - 1) with (Z.succ (Zpos (digits2_pos m) - 1)) by lia.
    rewrite !Z.pow_succ_r by lia. lia.
Qed.

Lemma digits2_unique m d : 0 < d → 2 ^ (d - 1) ≤ Zpos m < 2 ^ d → Zpos (digits2_pos m) = d.
Proof.
  intros Hd [Hl Hu]. destruct (digits2_bounds m) as [Hl' Hu'].
  assert (d - 1 < Zpos (digits2_pos m)) by (apply (Z.pow_lt_mono_r_iff 2); lia).
  assert (Zpos (digits2_pos m) - 1 < d) by (apply (Z.pow_lt_mono_r_iff 2); lia). lia.
Qed.

(** Shifting zero bits out. *)
Lemma shr_exact p q :
  SpecFloat.iter_pos shr_1 p {| shr_m := Zpos q * 2 ^ Zpos p; shr_r := false; shr_s := false |} =
  {| shr_m := Zpos q; shr_r := false; shr_s := false |}.
Proof.
  revert q. induction p as [p IH|p IH|]; intros q; cbn [SpecFloat.iter_pos].
  - replace (Zpos q * 2 ^ Zpos p~1) with (Zpos ((Pos.mul (Pos.mul q (Pos.pow 2 p)) (Pos.pow 2 p)))~0).
    + cbn [shr_1 orb]. rewrite !Pos2Z.inj_mul, Pos2Z.inj_pow. specialize (IH (Pos.mul q (Pos.pow 2 p))) as IH1.
      rewrite Pos2Z.inj_mul, Pos2Z.inj_pow in IH1. by rewrite IH1, IH.
    + rewrite Pos2Z.inj_xO, !Pos2Z.inj_mul, Pos2Z.inj_pow, Pos2Z.inj_xI.
      replace (2 * Zpos p + 1) with (Zpos p + Zpos p + 1) by lia. rewrite !Z.pow_add_r by lia. change (2 ^ 1) with 2. ring.
  - replace (Zpos q * 2 ^ Zpos p~0) with (Zpos (Pos.mul q (Pos.pow 2 p)) * 2 ^ Zpos p).
    + rewrite IH, Pos2Z.inj_mul, Pos2Z.inj_pow. apply IH.
    + rewrite Pos2Z.inj_mul, Pos2Z.inj_pow, (Pos2Z.inj_xO p).
      replace (2 * Zpos p) with (Zpos p + Zpos p) by lia. rewrite Z.pow_add_r by lia. ring.
  - by rewrite Z.mul_comm.
Qed.

Lemma fexp_normal e : -1074 ≤ e - 53 → fexp f64_prec f64_emax e = e - 53.
Proof. intros He. unfold fexp, SpecFloat.emin, f64_prec, f64_emax. lia. Qed.

(** A mantissa of 53 bits is left as it is; one that ends in zeros past the 53rd
    bit loses them. *)
Lemma round_aux_53 q e : Zpos (digits2_pos q) = 53 → -1000 ≤ e ≤ 971 →
  binary_round_aux f64_prec f64_emax false (Zpos q) e loc_Exact = S754_finite false q e.
Proof.
  intros Hq He. unfold binary_round_aux, shr_fexp. cbn [Zdigits2 shr_record_of_loc].
  rewrite Hq, fexp_normal by lia. replace (53 + e - 53 - e) with 0 by lia.
  cbn [shr shr_m loc_of_shr_record round_nearest_even Zdigits2]. rewrite Hq, fexp_normal by lia.
  replace (53 + e - 53 - e) with 0 by lia. cbn [shr shr_m].
  by rewrite (proj2 (Z.leb_le e (f64_emax - f64_prec))) by (unfold f64_emax, f64_prec; lia).
Qed.

Lemma round_aux_zeros M q p e : Zpos M = Zpos q * 2 ^ Zpos p → Zpos (digits2_pos q) = 53 → -1000 ≤ e → e + Zpos p ≤ 971 →
  binary_round_aux f64_prec f64_emax false (Zpos M) e loc_Exact = S754_finite false q (e + Zpos p).
Proof.
  intros HM Hq He Hep.
  assert (Zpos (digits2_pos M) = 53 + Zpos p) as HD.
  { apply digits2_unique; [lia|]. rewrite HM. destruct (digits2_bounds q) as [Hl Hu]. rewrite Hq in Hl, Hu.
    replace (53 + Zpos p - 1) with (53 - 1 + Zpos p) by lia. rewrite !Z.pow_add_r by lia.
    assert (0 < 2 ^ Zpos p) by (apply Z.pow_pos_nonneg; lia). nia. }
  rewrite <-(round_aux_53 q (e + Zpos p)) by (done || lia). unfold binary_round_aux at 1, shr_fexp at 1.
  cbn [Zdigits2 shr_record_of_loc]. rewrite HD, fexp_normal by lia. replace (53 + Zpos p + e - 53 - e) with (Zpos p) by lia.
  cbn [shr]. rewrite HM, shr_exact. unfold binary_round_aux, shr_fexp at 2. cbn [Zdigits2 shr_record_of_loc].
  rewrite Hq, fexp_normal by lia. replace (53 + (e + Zpos p) - 53 - (e + Zpos p)) with 0 by lia.
  reflexivity.
Qed.

Lemma iter_xO m k : Zpos (Pos.iter xO m k) = Zpos m * 2 ^ Zpos k.
Proof.
  induction k as [|k IH] using Pos.peano_ind; [cbn [Pos.iter]; lia|].
  rewrite Pos.iter_succ, Pos2Z.inj_succ, Z.pow_succ_r by lia. rewrite (Pos2Z.inj_xO (Pos.iter _ _ _)), IH. ring.
Qed.

(** An integer below [2 ^ 53] is a float64. *)
Lemma f64_of_Z_exact f : 0 < f < 2 ^ 53 →
  ∃ q a, f64_of_Z f = S754_finite false q (- a) ∧ 0 ≤ a ≤ 52 ∧ Zpos q = f * 2 ^ a ∧ Zpos (digits2_pos q) = 53.
Proof.
  intros Hf. destruct f as [|m|]; [lia| |lia]. destruct (digits2_bounds m) as [Hl Hu].
  set (d := Zpos (digits2_pos m)) in *. assert (d <= 53) as Hd.
  { assert (d - 1 < 53); [|lia]. apply (Z.pow_lt_mono_r_iff 2); lia. }
  assert (1 ≤ d) by (unfold d; lia).
  unfold f64_of_Z. cbn [binary_normalize]. unfold binary_round, shl_align. fold d. rewrite Z.add_0_r, fexp_normal by lia.
  rewrite Z.sub_0_r. destruct (d - 53) as [|k|k] eqn:Hk; [|lia|].
  - exists m, 0. rewrite round_aux_53 by lia. split_and!; [done|lia|lia|lia|]. lia.
  - assert (Zpos (digits2_pos (Pos.iter xO m k)) = 53) as HD.
    { apply digits2_unique; [lia|]. rewrite iter_xO. replace (53 - 1) with (d - 1 + Zpos k) by lia.
      replace 53 with (d + Zpos k) by lia. rewrite !Z.pow_add_r by lia.
      assert (0 < 2 ^ Zpos k) by (apply Z.pow_pos_nonneg; lia). nia. }
    exists (Pos.iter xO m k), (Zpos k). rewrite round_aux_53 by lia. split_and!; [done|lia|lia|by rewrite iter_xO|done].
Qed.

(** The product of two such integers, if it is one, is exact. *)
Lemma f64_mul_exact f g : 0 < f → 0 < g → f * g < 2 ^ 53 → f64_trunc (f64_mul (f64_of_Z f) (f64_of_Z g)) = f * g.
Proof.
  intros Hf Hg Hfg.
  destruct (f64_of_Z_exact f) as (q1 & a & -> & Ha & Hq1 & Hd1); [nia|].
  destruct (f64_of_Z_exact g) as (q2 & b & -> & Hb & Hq2 & Hd2); [nia|].
  unfold f64_mul, SFmul. cbn [xorb].
  destruct (digits2_bounds q1) as [Hl1 Hu1]. destruct (digits2_bounds q2) as [Hl2 Hu2]. rewrite Hd1 in Hl1, Hu1. rewrite Hd2 in Hl2, Hu2.
  set (M := Pos.mul q1 q2). assert (Zpos M = f * g * 2 ^ (a + b)) as HM.
  { unfold M. rewrite Pos2Z.inj_mul, Hq1, Hq2, Z.pow_add_r by lia. ring. }
  destruct (digits2_bounds M) as [HlM HuM]. set (dM := Zpos (digits2_pos M)) in *.
  assert (2 ^ 104 ≤ Zpos M < 2 ^ 106) as HMb.
  { unfold M. rewrite Pos2Z.inj_mul. change (2 ^ 104) with (2 ^ 52 * 2 ^ 52). change (2 ^ 106) with (2 ^ 53 * 2 ^ 53).
    change (53 - 1) with 52 in *. clearbody M dM. nia. }
  assert (104 < dM) by (apply (Z.pow_lt_mono_r_iff 2); lia).
  assert (dM - 1 < 106) by (apply (Z.pow_lt_mono_r_iff 2); lia).
  assert (dM ≤ 53 + (a + b)) as Hs.
  { assert (dM - 1 < 53 + (a + b)); [|lia]. apply (Z.pow_lt_mono_r_iff 2); [lia|lia|].
    rewrite Z.pow_add_r by lia. assert (0 < 2 ^ (a + b)) by (apply Z.pow_pos_nonneg; lia). nia. }
  destruct (dM - 53) as [|p|p] eqn:Hp; [lia| |lia].
  destruct (f * g * 2 ^ (a + b - Zpos p)) as [|q|q] eqn:Hq.
  1, 3: assert (0 < 2 ^ (a + b - Zpos p)) by (apply Z.pow_pos_nonneg; lia); nia.
  assert (Zpos M = Zpos q * 2 ^ Zpos p) as HMq.
  { rewrite HM, <-Hq. replace (a + b) with (a + b - Zpos p + Zpos p) at 1 by lia. rewrite Z.pow_add_r by lia. ring. }
  assert (Zpos (digits2_pos q) = 53) as Hdq.
  { apply digits2_unique; [lia|]. replace (dM - 1) with (53 - 1 + Zpos p) in HlM by lia. replace dM with (53 + Zpos p) in HuM by lia.
    rewrite HMq in HlM, HuM. rewrite !Z.pow_add_r in HlM, HuM by lia.
    assert (0 < 2 ^ Zpos p) by (apply Z.pow_pos_nonneg; lia). split; nia. }
  rewrite (round_aux_zeros M q p) by (done || lia). cbn [f64_trunc]. rewrite <-Hq.
  destruct (Z.leb_spec 0 (- a + - b + Zpos p)).
  - replace (- a + - b + Zpos p) with 0 by lia. replace (a + b - Zpos p) with 0 by lia. lia.
  - replace (- (- a + - b + Zpos p)) with (a + b - Zpos p) by lia. apply Z.div_mul, Z.pow_nonzero; lia.
Qed.
