(* ===== verification/GoTime.v ===== *)
(** * Durations (time.Duration)

    A duration is a 64-bit number of nanoseconds: its text, what
    [time.ParseDuration] reads, fractions in float64 as the library computes
    them, and that a printed duration is read back. *)

From Stdlib Require Import SpecFloat.
From S2P Require Import Prelude GoStrings GoFloat.

Definition ns_per_second : Z := 1000000000.

(** [n] digits of [v], the least significant last. *)
Fixpoint low_digits (n : nat) (v : Z) : string :=
  match n with
  | O => EmptyString
  | S n => low_digits n (v / 10) +:+ itoa (v `mod` 10)
  end.

(** The fraction of [v] below [10 ^ n], less its zeros at the end. *)
Definition fmtFrac (n : nat) (v : Z) : string :=
  let digits := trim_byte_right "0" (low_digits n v) in
  if bool_decide (digits = EmptyString) then EmptyString else "." +:+ digits.

Definition micro : string := String (Ascii.ascii_of_nat 194) (String (Ascii.ascii_of_nat 181) EmptyString).

(** Hours, minutes and seconds; below a second one smaller unit. *)
Definition seconds_text (u : Z) : string := itoa ((u / ns_per_second) `mod` 60) +:+ fmtFrac 9 u +:+ "s".

Definition Duration_body (u : Z) : string :=
  if u <? 1000 then itoa u +:+ "ns"
  else if u <? 1000000 then itoa (u / 1000) +:+ fmtFrac 3 u +:+ micro +:+ "s"
  else if u <? ns_per_second then itoa (u / 1000000) +:+ fmtFrac 6 u +:+ "ms"
  else
    let m := u / ns_per_second / 60 in
    if m =? 0 then seconds_text u
    else
      let mins := itoa (m `mod` 60) +:+ "m" +:+ seconds_text u in
      let h := m / 60 in
      if h =? 0 then mins else itoa h +:+ "h" +:+ mins.

Definition Duration_String (d : Z) : string :=
  if d =? 0 then "0s"
  else if d <? 0 then "-" +:+ Duration_body (Z.abs d)
  else Duration_body (Z.abs d).

Example Duration_zero : Duration_String 0 = "0s". Proof. reflexivity. Qed.
Example Duration_ms : Duration_String 1500000 = "1.5ms". Proof. vm_compute. reflexivity. Qed.
Example Duration_minute : Duration_String (90 * ns_per_second) = "1m30s". Proof. vm_compute. reflexivity. Qed.
Example Duration_fraction : Duration_String (3600 * ns_per_second + 50) = "1h0m0.00000005s". Proof. vm_compute. reflexivity. Qed.
Example Duration_least : Duration_String (- 2 ^ 63) = "-2562047h47m16.854775808s". Proof. vm_compute. reflexivity. Qed.

(** ** time.ParseDuration *)

Definition micro_greek : string := String (Ascii.ascii_of_nat 206) (String (Ascii.ascii_of_nat 188) EmptyString).

Definition unit_ns (u : string) : option Z :=
  if bool_decide (u = "ns") then Some 1
  else if bool_decide (u ∈ ["us"; micro +:+ "s"; micro_greek +:+ "s"]) then Some 1000
  else if bool_decide (u = "ms") then Some 1000000
  else if bool_decide (u = "s") then Some ns_per_second
  else if bool_decide (u = "m") then Some (60 * ns_per_second)
  else if bool_decide (u = "h") then Some (3600 * ns_per_second)
  else None.

(** The digits a text starts with, at most [2 ^ 63]. *)
Fixpoint leadingInt (x : Z) (s : string) : option (Z * string) :=
  match s with
  | EmptyString => Some (x, s)
  | String a r =>
      match digit_val a with
      | None => Some (x, s)
      | Some d =>
          if two63 / 10 <? x then None
          else let x := x * 10 + Z.of_N d in if two63 <? x then None else leadingInt x r
      end
  end.

(** The digits of a fraction and its scale; digits that no longer fit are
    skipped. *)
Fixpoint leadingFraction (x : Z) (scale : spec_float) (overflow : bool) (s : string) : Z * spec_float * string :=
  match s with
  | EmptyString => (x, scale, s)
  | String a r =>
      match digit_val a with
      | None => (x, scale, s)
      | Some d =>
          if overflow then leadingFraction x scale true r
          else if (two63 - 1) / 10 <? x then leadingFraction x scale true r
          else
            let y := x * 10 + Z.of_N d in
            if two63 <? y then leadingFraction x scale true r
            else leadingFraction y (f64_mul scale (f64_of_Z 10)) false r
      end
  end.

(** The name of a unit: up to the next point or digit. *)
Fixpoint leadingUnit (s : string) : string * string :=
  match s with
  | EmptyString => (EmptyString, s)
  | String a r =>
      if Ascii.eqb a "." || is_digit a then (EmptyString, s)
      else let '(u, rest) := leadingUnit r in (String a u, rest)
  end.

Definition fraction (s : string) : Z * spec_float * string * bool :=
  match s with
  | String a r =>
      if Ascii.eqb a "." then
        let '(f, scale, rest) := leadingFraction 0 (f64_of_Z 1) false r in
        (f, scale, rest, negb (String.length r =? String.length rest)%nat)
      else (0, f64_of_Z 1, s, false)
  | EmptyString => (0, f64_of_Z 1, s, false)
  end.

(** [f] of [scale] parts of a unit. *)
Definition part_of (unit f : Z) (scale : spec_float) : Z :=
  if 0 <? f then f64_trunc (f64_mul (f64_of_Z f) (f64_div (f64_of_Z unit) scale)) else 0.

(** The amounts, one after the other; each is at least one byte, so the length of
    the text is fuel enough. *)
Fixpoint parse_units (fuel : nat) (d : Z) (s : string) : option Z :=
  match s, fuel with
  | EmptyString, _ => Some d
  | _, O => None
  | String a _, S fuel =>
      if negb (Ascii.eqb a "." || is_digit a) then None else
      '(v, s1) ← leadingInt 0 s;
      let pre := negb (String.length s =? String.length s1)%nat in
      let '(f, scale, s2, post) := fraction s1 in
      if negb pre && negb post then None else
      let '(u, s3) := leadingUnit s2 in
      unit ← unit_ns u;
      if two63 / unit <? v then None else
      let v := v * unit + part_of unit f scale in
      if two63 <? v then None else
      let d := wrap_u64 (d + v) in
      if two63 <? d then None else parse_units fuel d s3
  end.

Definition ParseDuration (s : string) : option Z :=
  let '(neg, r) := read_sign s in
  if bool_decide (r = "0") then Some 0
  else if bool_decide (r = EmptyString) then None
  else
    d ← parse_units (String.length r) 0 r;
    if neg then Some (wrap_i64 (- d)) else if two63 - 1 <? d then None else Some d.

Example ParseDuration_reads :
  map ParseDuration ["3s"; "1h15m30.918s"; "-1.5h"; "+.5s"; "0"; "100ms"; "9223372036854775807ns"; "-9223372036854775808ns"; "1.00000000000000000000000000s"; "0.3333333333333333333h"] =
  [Some 3000000000; Some 4530918000000; Some (-5400000000000); Some 500000000; Some 0; Some 100000000; Some 9223372036854775807; Some (-9223372036854775808);
   Some 1000000000; Some 1200000000000].
Proof. vm_compute. reflexivity. Qed.

Example ParseDuration_rejects :
  map ParseDuration [EmptyString; "3"; "-"; "s"; "."; ".s"; "1.2.3s"; "3days"; "9223372036854775808ns"; "3000000h"; "3 s"] = replicate 11 None.
Proof. vm_compute. reflexivity. Qed.

(** *** The length of the text is fuel enough *)

Lemma leadingInt_shorter x s v t : leadingInt x s = Some (v, t) → (String.length t ≤ String.length s)%nat.
Proof.
  revert x. induction s as [|a s IH]; intros x; cbn [leadingInt String.length]; [intros [= _ <-]; cbn; lia|].
  destruct (digit_val a); [|intros [= _ <-]; cbn; lia]. cbv zeta. repeat case_match; try done. intros ?%IH. lia.
Qed.

Lemma leadingFraction_shorter x sc o s : (String.length (leadingFraction x sc o s).2 ≤ String.length s)%nat.
Proof.
  revert x sc o. induction s as [|a s IH]; intros x sc o; cbn [leadingFraction String.length]; [done|].
  destruct (digit_val a) as [d|]; [|cbn; lia]. cbv zeta.
  destruct o; [|destruct (_ <? _); [|destruct (_ <? _)]]; etransitivity; [apply IH|lia|apply IH|lia|apply IH|lia|apply IH|lia].
Qed.

Lemma fraction_shorter s : (String.length (fraction s).1.2 ≤ String.length s)%nat.
Proof.
  destruct s as [|a s]; [done|]. cbn [fraction]. destruct (Ascii.eqb a "."); [|done].
  pose proof (leadingFraction_shorter 0 (f64_of_Z 1) false s). destruct (leadingFraction _ _ _ _) as [[f sc] t]. cbn in *. lia.
Qed.

Lemma leadingUnit_length s : String.length s = (String.length (leadingUnit s).1 + String.length (leadingUnit s).2)%nat.
Proof.
  induction s as [|a s IH]; [done|]. cbn [leadingUnit]. destruct (Ascii.eqb a "." || is_digit a); [done|].
  destruct (leadingUnit s) as [u t]. cbn in *. lia.
Qed.

(** No text uses up more fuel than it has bytes. *)
Lemma parse_units_fuel fuel fuel' d s :
  (String.length s ≤ fuel)%nat → (String.length s ≤ fuel')%nat → parse_units fuel d s = parse_units fuel' d s.
Proof.
  revert fuel' d s. induction fuel as [|fuel IH]; intros [|fuel'] d s Hf Hf'; try (by destruct s; cbn in *; try lia).
  destruct s as [|a s]; [done|]. cbn [parse_units]. destruct (negb _); [done|].
  destruct (leadingInt 0 (String a s)) as [[v s1]|] eqn:Hi; [|done]. apply leadingInt_shorter in Hi. cbn [mbind option_bind].
  pose proof (fraction_shorter s1) as Hs. destruct (fraction s1) as [[[f sc] s2] post]. cbn in Hs.
  destruct (negb _ && negb _); [done|]. pose proof (leadingUnit_length s2) as Hu. destruct (leadingUnit s2) as [u s3]. cbn [fst snd] in Hu.
  destruct (unit_ns u) as [unit|] eqn:Hn; [|done]. cbn [mbind option_bind].
  assert (1 ≤ String.length u)%nat by (destruct u; [done|cbn; lia]).
  repeat case_match; try done. apply IH; cbn [String.length] in *; lia.
Qed.

(** ** A printed duration is read back *)

Definition no_digit_first (s : string) : bool := match s with EmptyString => true | String a _ => negb (is_digit a) end.

Lemma digit_val_None a : is_digit a = false → digit_val a = None.
Proof. unfold digit_val, is_digit. by intros ->. Qed.

Lemma digit_val_Some a : is_digit a = true → ∃ d, digit_val a = Some d.
Proof. unfold digit_val, is_digit. intros ->. by eexists. Qed.

Lemma digits_from_app acc s t : digits_from acc (s +:+ t) = (a ← digits_from acc s; digits_from a t).
Proof.
  revert acc. induction s as [|c s IH]; intros acc; [done|]. change (String c s +:+ t) with (String c (s +:+ t)).
  cbn [digits_from]. destruct (digit_val c); [|done]. apply IH.
Qed.

Lemma digits_from_le acc s v : digits_from acc s = Some v → (acc ≤ v)%N.
Proof.
  revert acc. induction s as [|c s IH]; intros acc; cbn [digits_from]; [intros [= ->]; lia|].
  destruct (digit_val c) as [d|]; [|done]. intros Hv%IH. lia.
Qed.

Lemma digits_from_digits acc s v : digits_from acc s = Some v → str_forallb is_digit s = true.
Proof.
  revert acc. induction s as [|c s IH]; intros acc; cbn [digits_from str_forallb]; [done|].
  unfold digit_val, is_digit at 1. destruct (byte_between 48 57 c); [|done]. apply IH.
Qed.

Lemma leadingInt_digits acc s v rest :
  digits_from (Z.to_N acc) s = Some v → 0 ≤ acc → Z.of_N v ≤ two63 → no_digit_first rest = true →
  leadingInt acc (s +:+ rest) = Some (Z.of_N v, rest).
Proof.
  revert acc. induction s as [|c s IH]; intros acc; cbn [digits_from]; intros Hv Hacc Hle Hr.
  - injection Hv as <-. change (EmptyString +:+ rest) with rest. rewrite Z2N.id by lia.
    destruct rest as [|a r]; [done|]. cbn [leadingInt]. cbn in Hr. apply negb_true_iff in Hr. by rewrite digit_val_None.
  - change (String c s +:+ rest) with (String c (s +:+ rest)). cbn [leadingInt]. destruct (digit_val c) as [d|]; [|done].
    pose proof (digits_from_le _ _ _ Hv) as Hge. unfold two63 in *. change (2 ^ 63 / 10) with 922337203685477580.
    rewrite (proj2 (Z.ltb_ge _ _)) by lia. cbv zeta. rewrite (proj2 (Z.ltb_ge _ _)) by lia.
    apply IH; [|lia|done|done]. rewrite <-Hv. cbn [mbind option_bind]. f_equal. lia.
Qed.

Lemma itoa_digits z : 0 ≤ z → digits_from 0 (itoa z) = Some (Z.to_N z).
Proof.
  intros Hz. pose proof (ParseDecimal_itoa z) as Hp. destruct z as [|p|p]; [done| |lia].
  unfold itoa in *. change (pretty (Zpos p)) with (pretty (Npos p)) in *. rewrite ParseDecimal_digits in Hp by apply pretty_N_digits.
  pose proof (ParseDigits_pretty (Npos p)) as Hd. unfold ParseDigits in Hd. by destruct (pretty (Npos p)).
Qed.

Lemma leadingInt_itoa z rest : 0 ≤ z ≤ two63 → no_digit_first rest = true → leadingInt 0 (itoa z +:+ rest) = Some (z, rest).
Proof.
  intros Hz Hr. rewrite (leadingInt_digits 0 (itoa z) (Z.to_N z)); [by rewrite Z2N.id by lia|by apply itoa_digits; lia|lia|lia|done].
Qed.

(** *** Fractions *)

(** The text of one digit. *)
Lemma itoa_digit z acc : 0 ≤ z < 10 → digits_from acc (itoa z) = Some (10 * acc + Z.to_N z)%N ∧ String.length (itoa z) = 1%nat.
Proof.
  intros Hz. assert (z = 0 ∨ z = 1 ∨ z = 2 ∨ z = 3 ∨ z = 4 ∨ z = 5 ∨ z = 6 ∨ z = 7 ∨ z = 8 ∨ z = 9) as Hc by lia.
  by destruct_or!; subst.
Qed.

Lemma low_digits_value n v acc : 0 ≤ v →
  digits_from acc (low_digits n v) = Some (acc * 10 ^ N.of_nat n + Z.to_N (v `mod` 10 ^ Z.of_nat n))%N.
Proof.
  revert v acc. induction n as [|n IH]; intros v acc Hv; [cbn; f_equal; rewrite Z.mod_1_r; lia|].
  cbn [low_digits]. rewrite digits_from_app, IH by (apply Z.div_pos; lia). cbn [mbind option_bind].
  assert (0 ≤ v `mod` 10 < 10) as Hm by (apply Z.mod_pos_bound; lia). rewrite (proj1 (itoa_digit _ _ Hm)).
  f_equal. rewrite Nat2N.inj_succ, N.pow_succ_r'. rewrite Nat2Z.inj_succ, Z.pow_succ_r by lia.
  assert (0 < 10 ^ Z.of_nat n) by (apply Z.pow_pos_nonneg; lia).
  rewrite (Z.rem_mul_r v 10) by lia. assert (0 ≤ (v / 10) `mod` 10 ^ Z.of_nat n) by (apply Z.mod_pos_bound; lia). lia.
Qed.

Lemma str_length_app s t : String.length (s +:+ t) = (String.length s + String.length t)%nat.
Proof. induction s as [|a s IH]; [done|]. cbn. by rewrite <-IH. Qed.

Lemma low_digits_length n v : 0 ≤ v → String.length (low_digits n v) = n.
Proof.
  revert v. induction n as [|n IH]; intros v Hv; [done|]. cbn [low_digits]. rewrite str_length_app, IH by (apply Z.div_pos; lia).
  rewrite (proj2 (itoa_digit (v `mod` 10) 0%N (Z.mod_pos_bound v 10 ltac:(lia)))). lia.
Qed.

Fixpoint zeros (k : nat) : string := match k with O => EmptyString | S k => String "0" (zeros k) end.

(** What is cut off at the end. *)
Lemma trim_byte_right_zeros s : ∃ k, s = trim_byte_right "0" s +:+ zeros k.
Proof.
  induction s as [|a s (k & IH)]; [by exists 0%nat|]. cbn [trim_byte_right].
  destruct (trim_byte_right "0" s) as [|b t] eqn:Ht.
  - destruct (Ascii.eqb_spec a "0") as [->|]; [exists (S k)|exists k]; cbn; rewrite IH at 1; done.
  - exists k. change (String a (String b t) +:+ ?x) with (String a (String b t +:+ x)). by rewrite <-IH.
Qed.

Lemma digits_from_zeros acc k : digits_from acc (zeros k) = Some (acc * 10 ^ N.of_nat k)%N.
Proof.
  revert acc. induction k as [|k IH]; intros acc; cbn [zeros digits_from]; [by rewrite N.pow_0_r, N.mul_1_r|].
  change (digit_val "0") with (Some 0%N). cbn [mbind option_bind]. rewrite IH. f_equal. rewrite Nat2N.inj_succ, N.pow_succ_r'. lia.
Qed.

Lemma leadingFraction_digits x scale s v rest :
  digits_from (Z.to_N x) s = Some v → 0 ≤ x → Z.of_N v < 10 ^ 18 → no_digit_first rest = true →
  leadingFraction x scale false (s +:+ rest) = (Z.of_N v, Nat.iter (String.length s) (λ sc, f64_mul sc (f64_of_Z 10)) scale, rest).
Proof.
  revert x scale. induction s as [|c s IH]; intros x scale; cbn [digits_from String.length]; intros Hv Hx Hle Hr.
  - injection Hv as <-. change (EmptyString +:+ rest) with rest. rewrite Z2N.id by lia.
    destruct rest as [|a r]; [done|]. cbn [leadingFraction]. cbn in Hr. apply negb_true_iff in Hr. by rewrite digit_val_None.
  - change (String c s +:+ rest) with (String c (s +:+ rest)). cbn [leadingFraction]. destruct (digit_val c) as [d|]; [|done].
    pose proof (digits_from_le _ _ _ Hv) as Hge. unfold two63 in *. change ((2 ^ 63 - 1) / 10) with 922337203685477580.
    rewrite (proj2 (Z.ltb_ge _ _)) by lia. cbv zeta. rewrite (proj2 (Z.ltb_ge _ _)) by lia.
    rewrite Nat.iter_succ_r. apply IH; [|lia|done|done]. rewrite <-Hv. cbn [mbind option_bind]. f_equal. lia.
Qed.

(** The precision of the three units that have a fraction. *)
Definition precision (n : nat) : Prop := n ∈ [3; 6; 9]%nat.

Lemma fmtFrac_digits n v : 0 ≤ v →
  (fmtFrac n v = EmptyString ∧ v `mod` 10 ^ Z.of_nat n = 0) ∨
  ∃ w f, fmtFrac n v = "." +:+ w ∧ w ≠ EmptyString ∧ (String.length w ≤ n)%nat ∧ digits_from 0 w = Some f ∧
    Z.of_N f * 10 ^ (Z.of_nat n - Z.of_nat (String.length w)) = v `mod` 10 ^ Z.of_nat n.
Proof.
  intros Hv. unfold fmtFrac. destruct (trim_byte_right_zeros (low_digits n v)) as (k & Hk).
  set (w := trim_byte_right "0" (low_digits n v)) in *.
  pose proof (low_digits_length n v Hv) as Hl. pose proof (low_digits_value n v 0 Hv) as Hd.
  assert (0 ≤ v `mod` 10 ^ Z.of_nat n) by (apply Z.mod_pos_bound, Z.pow_pos_nonneg; lia).
  rewrite Hk in Hl, Hd. rewrite str_length_app in Hl. rewrite digits_from_app in Hd. rewrite N.mul_0_l, N.add_0_l in Hd.
  assert (String.length (zeros k) = k) as Hz by (clear; induction k as [|k IH]; cbn; lia). rewrite Hz in Hl.
  destruct (digits_from 0 w) as [f|] eqn:Hf; [|done]. cbn [mbind option_bind] in Hd. rewrite digits_from_zeros in Hd. injection Hd as Hd.
  assert (Z.of_N f * 10 ^ Z.of_nat k = v `mod` 10 ^ Z.of_nat n) as Hfk.
  { apply (f_equal Z.of_N) in Hd. rewrite N2Z.inj_mul, N2Z.inj_pow, Z2N.id, nat_N_Z in Hd by lia. exact Hd. }
  case_bool_decide as Hw.
  - left. split; [done|]. rewrite Hw in Hf. cbn in Hf. injection Hf as <-. lia.
  - right. exists w, f. split_and!; [done|done|lia|done|]. replace (Z.of_nat n - _) with (Z.of_nat k) by lia. done.
Qed.

Definition scale_after (l : nat) : spec_float := Nat.iter l (λ sc, f64_mul sc (f64_of_Z 10)) (f64_of_Z 1).

Lemma scale_div n l : precision n → (l ≤ n)%nat →
  f64_div (f64_of_Z (10 ^ Z.of_nat n)) (scale_after l) = f64_of_Z (10 ^ (Z.of_nat n - Z.of_nat l)).
Proof.
  unfold precision. intros Hn Hl.
  assert (l = 0 ∨ l = 1 ∨ l = 2 ∨ l = 3 ∨ l = 4 ∨ l = 5 ∨ l = 6 ∨ l = 7 ∨ l = 8 ∨ l = 9)%nat as Hc by set_solver by lia.
  set_unfold in Hn. destruct_or!; subst; try lia; vm_compute; reflexivity.
Qed.

(** The fraction is read exactly. *)
Lemma fraction_fmt n v rest : precision n → 0 ≤ v → no_digit_first rest = true → HasPrefix rest "." = false →
  ∃ f scale post, fraction (fmtFrac n v +:+ rest) = (f, scale, rest, post) ∧ part_of (10 ^ Z.of_nat n) f scale = v `mod` 10 ^ Z.of_nat n.
Proof.
  intros Hn Hv Hr Hp. destruct (fmtFrac_digits n v Hv) as [[-> ->]|(w & f & -> & Hw & Hl & Hd & Hf)].
  - change (EmptyString +:+ rest) with rest. exists 0, (f64_of_Z 1), false. split; [|done].
    destruct rest as [|a r]; [done|]. cbn [fraction]. destruct (Ascii.eqb_spec a ".") as [->|]; [by destruct r|done].
  - change (("." +:+ w) +:+ rest) with (String "." (w +:+ rest)).
    assert (Z.of_nat n ≤ 9) as Hn9 by (unfold precision in Hn; set_unfold in Hn; lia).
    assert (v `mod` 10 ^ Z.of_nat n < 10 ^ 9) as Hm.
    { apply Z.lt_le_trans with (10 ^ Z.of_nat n); [apply Z.mod_pos_bound, Z.pow_pos_nonneg; lia|apply Z.pow_le_mono_r; lia]. }
    assert (0 < 10 ^ (Z.of_nat n - Z.of_nat (String.length w))) as Hs by (apply Z.pow_pos_nonneg; lia).
    assert (Z.of_N f < 10 ^ 9) as Hf9 by nia.
    unfold fraction. rewrite Ascii.eqb_refl. rewrite (leadingFraction_digits 0 (f64_of_Z 1) w f rest) by (done || lia).
    do 3 eexists. split; [reflexivity|]. change (Nat.iter (String.length w) _ _) with (scale_after (String.length w)).
    unfold part_of. rewrite scale_div by done. destruct (Z.ltb_spec 0 (Z.of_N f)).
    + rewrite f64_mul_exact; [done|done|done|]. rewrite Hf. lia.
    + assert (f = 0%N) as -> by lia. lia.
Qed.

(** A unit after an amount. *)
Definition unit_char (a : Ascii.ascii) : bool := negb (Ascii.eqb a "." || is_digit a).
Definition starts_amount (s : string) : bool := match s with EmptyString => true | String a _ => negb (unit_char a) end.

Lemma leadingUnit_name u rest : str_forallb unit_char u = true → starts_amount rest = true → leadingUnit (u +:+ rest) = (u, rest).
Proof.
  intros Hu Hr. induction u as [|a u IH].
  - change (EmptyString +:+ rest) with rest. destruct rest as [|a r]; [done|]. cbn in *. unfold unit_char in Hr.
    rewrite negb_involutive in Hr. by rewrite Hr.
  - change (String a u +:+ rest) with (String a (u +:+ rest)). cbn [str_forallb leadingUnit] in *.
    apply andb_true_iff in Hu as [Ha%negb_true_iff Hu]. rewrite Ha. by rewrite IH.
Qed.

Lemma unit_first u rest : u ≠ EmptyString → str_forallb unit_char u = true →
  no_digit_first (u +:+ rest) = true ∧ HasPrefix (u +:+ rest) "." = false.
Proof.
  destruct u as [|a u]; [done|]. intros _. cbn [str_forallb]. intros [Ha _]%andb_true_iff. unfold unit_char in Ha.
  apply negb_true_iff, orb_false_iff in Ha as [Hd Hn]. change (String a u +:+ rest) with (String a (u +:+ rest)).
  split; [cbn; by rewrite Hn|]. unfold HasPrefix. cbn -[Ascii.ascii_dec]. destruct (Ascii.ascii_dec "." a) as [Hda|]; [|done].
  subst a. by rewrite Ascii.eqb_refl in Hd.
Qed.

(** One amount: its integer part, its fraction and its unit. *)
Lemma parse_amount fuel d v F u U fr rest :
  (1 ≤ fuel)%nat → unit_ns u = Some U → 0 < U → str_forallb unit_char u = true → u ≠ EmptyString → starts_amount rest = true →
  no_digit_first (F +:+ u +:+ rest) = true →
  (∃ f scale post, fraction (F +:+ u +:+ rest) = (f, scale, u +:+ rest, post) ∧ part_of U f scale = fr) →
  0 ≤ v → 0 ≤ fr → 0 ≤ d → d + (v * U + fr) ≤ two63 →
  parse_units fuel d (itoa v +:+ F +:+ u +:+ rest) = parse_units (Nat.pred fuel) (d + (v * U + fr)) rest.
Proof.
  intros Hfuel HU HU0 Hu Hne Hrest HF (f & scale & post & Hfrac & Hpart) Hv Hfr Hd Hmax.
  assert (v ≤ two63) by nia.
  destruct fuel as [|fuel]; [lia|]. cbn [Nat.pred].
  pose proof (itoa_digits v Hv) as Hdig. pose proof (digits_from_digits _ _ _ Hdig) as Hall.
  assert (itoa v ≠ EmptyString) as Hine by (apply (itoa_bytes (λ _, true)); done).
  pose proof (leadingInt_itoa v (F +:+ u +:+ rest) ltac:(lia) HF) as Hlead.
  destruct (itoa v) as [|a r] eqn:Ha; [done|]. change (String a r +:+ ?x) with (String a (r +:+ x)) in *.
  cbn [parse_units]. cbn [str_forallb] in Hall. apply andb_true_iff in Hall as [Hda _]. rewrite Hda, orb_true_r. cbn [negb].
  rewrite Hlead. cbn [mbind option_bind]. rewrite Hfrac.
  assert ((String.length (String a (r +:+ F +:+ u +:+ rest)) =? String.length (F +:+ u +:+ rest))%nat = false) as ->.
  { apply Nat.eqb_neq. cbn [String.length]. rewrite str_length_app. lia. }
  cbn [negb andb]. rewrite leadingUnit_name by done. rewrite HU. cbn [mbind option_bind].
  rewrite (proj2 (Z.ltb_ge _ _)) by (apply Z.div_le_lower_bound; lia). rewrite Hpart. cbv zeta.
  rewrite (proj2 (Z.ltb_ge _ _)) by lia. unfold wrap_u64. rewrite (Z.mod_small (d + _)) by (unfold two63, two64 in *; lia).
  by rewrite (proj2 (Z.ltb_ge _ _)) by lia.
Qed.

Lemma parse_units_nil fuel d : parse_units fuel d EmptyString = Some d.
Proof. by destruct fuel. Qed.

(** An amount without a fraction. *)
Lemma parse_whole fuel d v u U rest :
  (1 ≤ fuel)%nat → unit_ns u = Some U → 0 < U → str_forallb unit_char u = true → u ≠ EmptyString → starts_amount rest = true →
  0 ≤ v → 0 ≤ d → d + v * U ≤ two63 →
  parse_units fuel d (itoa v +:+ u +:+ rest) = parse_units (Nat.pred fuel) (d + v * U) rest.
Proof.
  intros Hf HU HU0 Hu Hne Hr Hv Hd Hm. destruct (unit_first u rest Hne Hu) as [Hn Hp].
  pose proof (parse_amount fuel d v EmptyString u U 0 rest) as Hpa. rewrite Z.add_0_r in Hpa.
  apply Hpa; try done. change (EmptyString +:+ ?x) with x.
  exists 0, (f64_of_Z 1), false. split; [|done].
  destruct (u +:+ rest) as [|a r]; [done|]. cbn [fraction]. destruct (Ascii.eqb_spec a ".") as [->|]; [by destruct r|done].
Qed.

(** An amount with one. *)
Lemma parse_fractional fuel d n x v u :
  (1 ≤ fuel)%nat → precision n → unit_ns u = Some (10 ^ Z.of_nat n) → str_forallb unit_char u = true → u ≠ EmptyString →
  0 ≤ v → 0 ≤ x → 0 ≤ d → d + (v * 10 ^ Z.of_nat n + x `mod` 10 ^ Z.of_nat n) ≤ two63 →
  parse_units fuel d (itoa v +:+ fmtFrac n x +:+ u) = Some (d + (v * 10 ^ Z.of_nat n + x `mod` 10 ^ Z.of_nat n)).
Proof.
  intros Hf Hn HU Hu Hne Hv Hx Hd Hm. assert (0 < 10 ^ Z.of_nat n) by (apply Z.pow_pos_nonneg; lia).
  destruct (unit_first u EmptyString Hne Hu) as [Hfst Hp].
  pose proof (parse_amount fuel d v (fmtFrac n x) u (10 ^ Z.of_nat n) (x `mod` 10 ^ Z.of_nat n) EmptyString) as Hpa.
  pose proof (fraction_fmt n x (u +:+ EmptyString) Hn Hx Hfst Hp) as Hfr. rewrite append_nil_r in *. rewrite Hpa; try done.
  - apply parse_units_nil.
  - destruct (fmtFrac_digits n x Hx) as [[-> _]|(w & f & -> & _)]; [done|done].
  - by apply Z.mod_pos_bound.
Qed.

Lemma seconds_parse fuel d u : (1 ≤ fuel)%nat → 0 ≤ u → 0 ≤ d → d + (u `mod` (60 * ns_per_second)) ≤ two63 →
  parse_units fuel d (seconds_text u) = Some (d + u `mod` (60 * ns_per_second)).
Proof.
  intros Hf Hu Hd Hm.
  assert (u `mod` (60 * ns_per_second) = (u / ns_per_second) `mod` 60 * ns_per_second + u `mod` ns_per_second) as He.
  { rewrite (Z.mul_comm 60), Z.rem_mul_r by done. lia. }
  rewrite He in *. unfold seconds_text. apply (parse_fractional fuel d 9 u ((u / ns_per_second) `mod` 60) "s"); try done.
  - unfold precision. set_solver.
  - apply Z.mod_pos_bound. lia.
Qed.

Lemma itoa_length z : (1 ≤ String.length (itoa z))%nat.
Proof. destruct (itoa_bytes (λ _, true) z) as [_ Hne]; [done|done|]. destruct (itoa z); [done|]. cbn. lia. Qed.

Lemma starts_amount_itoa z s : 0 ≤ z → starts_amount (itoa z +:+ s) = true.
Proof.
  intros Hz. pose proof (digits_from_digits _ _ _ (itoa_digits z Hz)) as Hd.
  destruct (itoa_bytes (λ _, true) z) as [_ Hne]; [done|done|]. destruct (itoa z) as [|a r]; [done|].
  cbn [str_forallb] in Hd. apply andb_true_iff in Hd as [Hd _].
  change (String a r +:+ s) with (String a (r +:+ s)). cbn [starts_amount]. unfold unit_char. by rewrite Hd, orb_true_r.
Qed.

(** The last amount of a text. *)
Lemma last_fractional fuel n u v name :
  (1 ≤ fuel)%nat → precision n → unit_ns name = Some (10 ^ Z.of_nat n) → str_forallb unit_char name = true → name ≠ EmptyString →
  0 ≤ u ≤ two63 → v = u / 10 ^ Z.of_nat n → parse_units fuel 0 (itoa v +:+ fmtFrac n u +:+ name) = Some u.
Proof.
  intros Hf Hn HU Hu Hne Hb ->. assert (0 < 10 ^ Z.of_nat n) as Hp by (apply Z.pow_pos_nonneg; lia).
  pose proof (Z.div_mod u (10 ^ Z.of_nat n) ltac:(lia)) as Hdm.
  rewrite (parse_fractional fuel 0 n u (u / 10 ^ Z.of_nat n) name); try done; [f_equal; lia|apply Z.div_pos; lia|lia|lia].
Qed.

Lemma texts_fuel z s fuel : (String.length (itoa z +:+ s) ≤ fuel)%nat → (1 ≤ fuel)%nat.
Proof. rewrite str_length_app. pose proof (itoa_length z). lia. Qed.

Lemma body_parse u fuel : 0 < u ≤ two63 → (String.length (Duration_body u) ≤ fuel)%nat → parse_units fuel 0 (Duration_body u) = Some u.
Proof.
  intros Hu. unfold Duration_body.
  destruct (Z.ltb_spec u 1000).
  { intros Hf%texts_fuel. rewrite <-(append_nil_r "ns"). rewrite (parse_whole _ _ _ _ 1) by (done || lia). rewrite parse_units_nil. f_equal. lia. }
  destruct (Z.ltb_spec u 1000000).
  { intros Hf%texts_fuel. apply (last_fractional fuel 3); try done; first [lia|unfold precision; set_solver]. }
  destruct (Z.ltb_spec u ns_per_second).
  { intros Hf%texts_fuel. apply (last_fractional fuel 6); try done; first [lia|unfold precision; set_solver]. }
  cbv zeta. unfold ns_per_second in *. set (m := u / 1000000000 / 60).
  assert (u = m * (60 * 1000000000) + u `mod` (60 * 1000000000)) as Hsplit.
  { unfold m. rewrite Z.div_div, (Z.mul_comm 1000000000) by lia. pose proof (Z.div_mod u (60 * 1000000000) ltac:(lia)). lia. }
  assert (0 ≤ u `mod` (60 * 1000000000) < 60 * 1000000000) as Hr by (apply Z.mod_pos_bound; lia).
  assert (0 ≤ m) by lia.
  destruct (Z.eqb_spec m 0) as [Hm|Hm].
  { intros Hf%texts_fuel. rewrite seconds_parse by (unfold ns_per_second; lia). unfold ns_per_second. f_equal. lia. }
  assert (m = m / 60 * 60 + m `mod` 60) as Hms by (pose proof (Z.div_mod m 60 ltac:(lia)); lia).
  assert (0 ≤ m `mod` 60 < 60) as Hmr by (apply Z.mod_pos_bound; lia).
  assert (Hmin : ∀ d f, (2 ≤ f)%nat → 0 ≤ d → d + m `mod` 60 * (60 * 1000000000) + u `mod` (60 * 1000000000) ≤ two63 →
    parse_units f d (itoa (m `mod` 60) +:+ "m" +:+ seconds_text u) = Some (d + m `mod` 60 * (60 * 1000000000) + u `mod` (60 * 1000000000))).
  { intros d f Hf2 Hd Hle. rewrite (parse_whole _ _ _ _ (60 * ns_per_second)); try done; try lia.
    - rewrite seconds_parse by (unfold ns_per_second in *; lia). done.
    - apply starts_amount_itoa. apply Z.mod_pos_bound; lia.
    - unfold ns_per_second. lia. }
  destruct (Z.eqb_spec (m / 60) 0) as [Hh|Hh].
  { intros Hf. rewrite !str_length_app in Hf. pose proof (itoa_length (m `mod` 60)). cbn [String.length] in Hf. rewrite Hmin by lia. f_equal. lia. }
  intros Hf. rewrite !str_length_app in Hf. pose proof (itoa_length (m `mod` 60)). pose proof (itoa_length (m / 60)). cbn [String.length] in Hf.
  rewrite (parse_whole _ _ _ _ (3600 * ns_per_second)); try done; try lia.
  - rewrite Hmin by (unfold ns_per_second; lia). unfold ns_per_second. f_equal. lia.
  - apply starts_amount_itoa. lia.
  - unfold ns_per_second. lia.
Qed.

Lemma body_text u : 0 < u → ∃ a b s, Duration_body u = String a (String b s) ∧ is_digit a = true.
Proof.
  intros Hu. assert (∃ z s, Duration_body u = itoa z +:+ s ∧ 0 ≤ z ∧ s ≠ EmptyString) as (z & s & -> & Hz & Hs).
  { assert (∀ f c, f +:+ String c EmptyString ≠ EmptyString) as Hne by (intros [] ?; done).
    assert (0 < ns_per_second) by done.
    unfold Duration_body, seconds_text. repeat case_match; do 2 eexists; (split; [reflexivity|]); split;
      first [done | by apply Hne | by destruct (fmtFrac _ _) | lia | by apply Z.mod_pos_bound | repeat apply Z.div_pos; lia]. }
  pose proof (digits_from_digits _ _ _ (itoa_digits z Hz)) as Hd.
  destruct (itoa_bytes (λ _, true) z) as [_ Hne]; [done|done|]. destruct (itoa z) as [|a r]; [done|].
  cbn [str_forallb] in Hd. apply andb_true_iff in Hd as [Hd _].
  destruct r as [|b r]; [destruct s as [|b s]; [done|]|]; by do 3 eexists.
Qed.

(** A printed duration is read back. *)
Lemma ParseDuration_String d : in_i64 d → ParseDuration (Duration_String d) = Some d.
Proof.
  unfold in_i64. intros Hd. unfold Duration_String. destruct (Z.eqb_spec d 0) as [->|Hz]; [done|].
  assert (0 < Z.abs d ≤ two63) as Hu by lia.
  pose proof (body_parse (Z.abs d) _ Hu (Nat.le_refl _)) as Hp.
  destruct (body_text (Z.abs d)) as (a & b & s & Hb & Ha); [lia|]. rewrite Hb in *. unfold ParseDuration.
  destruct (Z.ltb_spec d 0).
  - change ("-" +:+ ?x) with (String "-" x). cbn [read_sign]. rewrite Ascii.eqb_refl.
    rewrite !bool_decide_false by done. rewrite Hp. cbn [mbind option_bind]. f_equal. rewrite wrap_i64_id; unfold in_i64; lia.
  - assert (read_sign (String a (String b s)) = (false, String a (String b s))) as ->.
    { cbn [read_sign]. destruct (Ascii.eqb_spec a "-") as [->|]; [done|]. by destruct (Ascii.eqb_spec a "+") as [->|]. }
    rewrite !bool_decide_false by done. rewrite Hp. cbn [mbind option_bind].
    rewrite (proj2 (Z.ltb_ge _ _)) by lia. f_equal. lia.
Qed.

(** A number of seconds is read back. *)
Lemma ParseDuration_seconds n : 0 ≤ n → n * ns_per_second < two63 → ParseDuration (itoa n +:+ "s") = Some (n * ns_per_second).
Proof.
  intros Hn Hlt. pose proof (texts_fuel n "s" _ (Nat.le_refl _)) as Hfuel.
  pose proof (parse_whole (String.length (itoa n +:+ "s")) 0 n "s" ns_per_second EmptyString) as Hp. rewrite append_nil_r, parse_units_nil in Hp.
  pose proof (digits_from_digits _ _ _ (itoa_digits n Hn)) as Hd.
  assert (itoa n ≠ EmptyString) as Hne by (by apply (itoa_bytes (λ _, true))).
  unfold ParseDuration. destruct (itoa n) as [|a r]; [done|]. change (String a r +:+ ?x) with (String a (r +:+ x)) in *.
  cbn [str_forallb] in Hd. apply andb_true_iff in Hd as [Ha _].
  assert (read_sign (String a (r +:+ "s")) = (false, String a (r +:+ "s"))) as ->.
  { cbn [read_sign]. destruct (Ascii.eqb_spec a "-") as [->|]; [done|]. by destruct (Ascii.eqb_spec a "+") as [->|]. }
  rewrite (bool_decide_false (_ = "0")) by (by destruct r). rewrite bool_decide_false, Hp by (done || lia). cbn [mbind option_bind].
  by rewrite (proj2 (Z.ltb_ge _ _)) by lia.
Qed.

(** A duration that is read is an int64. *)
Lemma parse_units_range fuel d s v : 0 ≤ d ≤ two63 → parse_units fuel d s = Some v → 0 ≤ v ≤ two63.
Proof.
  revert d s. induction fuel as [|fuel IH]; intros d [|a s] Hd; cbn [parse_units]; try (by intros [= <-]).
  destruct (negb _); [done|]. destruct (leadingInt _ _) as [[x s1]|]; [|done]. cbn [mbind option_bind].
  destruct (fraction s1) as [[[f scale] s2] post]. destruct (_ && _); [done|]. destruct (leadingUnit s2) as [u s3].
  destruct (unit_ns u) as [U|]; [|done]. cbn [mbind option_bind]. cbv zeta. destruct (two63 / U <? x); [done|].
  destruct (_ <? x * U + _); [done|]. destruct (Z.ltb_spec two63 (wrap_u64 (d + (x * U + part_of U f scale)))); [done|].
  apply IH. split; [apply wrap_u64_range|done].
Qed.

Lemma ParseDuration_range s d : ParseDuration s = Some d → in_i64 d.
Proof.
  unfold ParseDuration. destruct (read_sign s) as [neg r]. case_bool_decide; [by intros [= <-]|]. case_bool_decide; [done|].
  destruct (parse_units _ 0 r) as [v|] eqn:Hv; [|done]. cbn [mbind option_bind].
  apply parse_units_range in Hv; [|by unfold two63]. destruct neg; [intros [= <-]; apply wrap_i64_range|].
  destruct (Z.ltb_spec (two63 - 1) v); [done|]. intros [= <-]. unfold in_i64. lia.
Qed.

(** ** Whole numbers as float64 literals *)

Lemma read_digits_decimal d s n : digits_from (d_mant d) s = Some n → d_dot d = false → s ≠ EmptyString →
  read_digits false d s = ({| d_seen := true; d_dot := false; d_under := d_under d; d_mant := n; d_frac := d_frac d |}, EmptyString).
Proof.
  intros Hn Hd Hs. assert (d_seen d = true ∨ s ≠ EmptyString) as Hseen by (by right). clear Hs.
  revert d Hn Hd Hseen. induction s as [|a s IH]; intros d; cbn [digits_from read_digits].
  { intros [= <-] Hd [Hs|Hs]; [|done]. destruct d. cbn in *. by subst. }
  destruct (digit_val a) as [v|] eqn:Hv; [|done]. cbn [mbind option_bind]. intros Hn Hd _.
  assert (is_digit a = true) as Ha by (unfold digit_val in Hv; unfold is_digit; by destruct (byte_between 48 57 a)).
  destruct (Ascii.eqb_spec a "_") as [->|]; [done|]. destruct (Ascii.eqb_spec a ".") as [->|]; [done|].
  unfold float_digit. rewrite Hv, Hd, IH by (try done; by left). done.
Qed.

Lemma digit_lower a : is_digit a = true → byte_between 65 90 a = false ∧ a ≠ "-"%char ∧ a ≠ "+"%char ∧ fold_case a ≠ "x"%char.
Proof. destruct a as [[][][][][][][][]]; by vm_compute. Qed.

Lemma special_digits s : str_forallb is_digit s = true → s ≠ EmptyString → special s = None.
Proof.
  intros Hs Hne. unfold special. assert (ascii_lower s = s) as ->.
  { clear Hne. induction s as [|a s IH]; [done|]. cbn [str_forallb] in Hs. apply andb_true_iff in Hs as [Ha Hs].
    cbn [ascii_lower]. destruct (digit_lower a Ha) as (-> & _). by rewrite IH. }
  destruct s as [|a s]; [done|]. cbn [str_forallb] in Hs. apply andb_true_iff in Hs as [Ha _].
  destruct (digit_lower a Ha) as (Hl & Hm & Hp & _). cbn [read_sign].
  destruct (Ascii.eqb_spec a "-"); [done|]. destruct (Ascii.eqb_spec a "+"); [done|].
  rewrite !bool_decide_false; [done|..]; cbn [ascii_lower]; rewrite ?Hl; clear -Ha.
  - intros He. apply elem_of_cons in He as [[= -> _]|He]; [done|]. apply list_elem_of_singleton in He as [= -> _]. done.
  - intros [= -> _]. done.
Qed.

Lemma ParseFloat_itoa n : 0 ≤ n → n < 2 ^ 53 → ParseFloat (itoa n) = Some (f64_of_Z n).
Proof.
  intros Hn Hlt. pose proof (itoa_digits n Hn) as Hd. pose proof (digits_from_digits _ _ _ Hd) as Hds.
  assert (itoa n ≠ EmptyString) as Hne by (intros He; pose proof (itoa_length n); rewrite He in *; cbn in *; lia).
  unfold ParseFloat. rewrite special_digits by done. unfold read_float.
  assert (read_sign (itoa n) = (false, itoa n) ∧ base_prefix (itoa n) = (false, itoa n)) as [-> ->].
  { destruct (itoa n) as [|a s]; [done|]. cbn [str_forallb] in Hds. apply andb_true_iff in Hds as [Ha Hs].
    destruct (digit_lower a Ha) as (_ & Hm & Hp & _). cbn [read_sign base_prefix].
    destruct (Ascii.eqb_spec a "-"); [done|]. destruct (Ascii.eqb_spec a "+"); [done|]. split; [done|].
    destruct s as [|b [|c r]]; [done..|]. cbn [str_forallb] in Hs. apply andb_true_iff in Hs as [Hb _].
    destruct (digit_lower b Hb) as (_ & _ & _ & Hx). destruct (Ascii.eqb_spec (fold_case b) "x"); [done|]. by rewrite andb_false_r. }
  rewrite (read_digits_decimal no_digits _ _ Hd) by done. cbn [d_seen negb exponent d_under no_digits orb andb non_empty d_frac d_mant].
  destruct n as [|p|p]; [done| |lia].
  change (Z.to_N (Zpos p)) with (Npos p). change (0 - Z.of_N 0) with 0. cbn [round_decimal].
  destruct (f64_of_Z_exact (Zpos p)) as (q & a & Hf & _); [lia|]. unfold f64_of_Z in *. cbn [binary_normalize] in *. by rewrite Hf.
Qed.
