(* ===== verification/GoFlag.v ===== *)
(** * Command-line flags (the Go package flag)

    The flags of the three programs: strings, integers, durations and switches. *)

From S2P Require Import Prelude GoStrings GoFloat GoTime.

(** ** Integers *)

(** [strconv.ParseInt(s, 0, 64)]: the prefix gives the base, digits may be
    separated by underscores.  [None] is any of its errors. *)
Definition base_digit (base : N) (a : Ascii.ascii) : option N :=
  let v :=
    if is_digit a then Some (byte_of a - 48)%N
    else let l := fold_case a in if byte_between 97 122 l then Some (byte_of l - 87)%N else None in
  v ← v; if (v <? base)%N then Some v else None.

Fixpoint read_base (base acc : N) (under : bool) (s : string) : option (N * bool) :=
  match s with
  | EmptyString => Some (acc, under)
  | String a r =>
      if Ascii.eqb a "_" then read_base base acc true r
      else d ← base_digit base a; read_base base (acc * base + d)%N under r
  end.

Definition int_base (s : string) : N * string :=
  match s with
  | String a r =>
      if negb (Ascii.eqb a "0") then (10%N, s)
      else match r with
           | String b (String c rest) =>
               let l := fold_case b in
               if Ascii.eqb l "b" then (2%N, String c rest)
               else if Ascii.eqb l "o" then (8%N, String c rest)
               else if Ascii.eqb l "x" then (16%N, String c rest)
               else (8%N, r)
           | _ => (8%N, r)
           end
  | EmptyString => (10%N, s)
  end.

Definition ParseUint0 (s : string) : option N :=
  if bool_decide (s = EmptyString) then None else
  let '(base, digits) := int_base s in
  '(n, under) ← read_base base 0 false digits;
  if under && negb (underscoreOK s) then None else Some n.

Definition ParseInt0 (s : string) : option Z :=
  let '(neg, r) := read_sign s in
  n ← ParseUint0 r;
  let z := if neg then - Z.of_N n else Z.of_N n in
  if decide (in_i64 z) then Some z else None.

Example ParseInt0_reads :
  map ParseInt0 ["0"; "9001"; "-17"; "+5"; "0x1F"; "0b101"; "017"; "1_000"; "0_7"; "-9223372036854775808"] =
  [Some 0; Some 9001; Some (-17); Some 5; Some 31; Some 5; Some 15; Some 1000; Some 7; Some (- 2 ^ 63)].
Proof. vm_compute. reflexivity. Qed.

Example ParseInt0_rejects :
  map ParseInt0 [EmptyString; "-"; "x"; "0x"; "08"; "1__0"; "1_"; "9223372036854775808"; "1.5"; " 1"] = replicate 10 None.
Proof. vm_compute. reflexivity. Qed.

(** ** Flags *)

Inductive flag_kind (F : Type) :=
  | FString (set : string → F → F)
  | FInt (set : Z → F → F)
  | FDuration (set : Z → F → F)
  | FBool (set : bool → F → F).
Arguments FString {F} set.
Arguments FInt {F} set.
Arguments FDuration {F} set.
Arguments FBool {F} set.

Definition set_or {A F} (set : A → F → F) (v : option A) (name value : string) (f : F) : result F :=
  match v with
  | Some v => Ok (set v f)
  | None => Err (Errorf "invalid value %q for flag -%s" [AStr value; AStr name])
  end.

Definition set_flag {F} (kind : flag_kind F) (name value : string) (f : F) : result F :=
  match kind with
  | FString set => Ok (set value f)
  | FInt set => set_or set (ParseInt0 value) name value f
  | FDuration set => set_or set (ParseDuration value) name value f
  | FBool set => set_or set (ParseBool value) name value f
  end.

(** The name and, after an equals sign, the value of an argument; nothing for an
    argument that is not a flag. *)
Definition flag_of (arg : string) : option (string * option string) :=
  match arg with
  | String a (String b r) =>
      if negb (Ascii.eqb a "-") then None
      else if bool_decide (arg = "--") then None
      else
        let name := if Ascii.eqb b "-" then r else String b r in
        Some (match IndexByte name "=" with
              | Some (S i) => (str_take (S i) name, Some (str_drop (S (S i)) name))
              | _ => (name, None)
              end)
  | _ => None
  end.

(** [flag.Parse]: the flags, left to right, up to the first argument that is not
    one, and the arguments after them.  The name of a flag that does not exist
    ends the program, help among them. *)
Section Parse.
Context {F : Type} (flags : string → option (flag_kind F)).

Fixpoint parse_flags (args : list string) (f : F) : result (F * list string) :=
  match args with
  | [] => Ok (f, [])
  | arg :: rest =>
      match flag_of arg with
      | None => Ok (f, if bool_decide (arg = "--") then rest else args)
      | Some (name, value) =>
          if bool_decide (name = EmptyString) || HasPrefix name "-" || HasPrefix name "="
          then Err (Errorf "bad flag syntax: %s" [AStr arg])
          else match flags name with
          | None => Err (Errorf "flag provided but not defined: -%s" [AStr name])
          | Some kind =>
              match kind, value, rest with
              | FBool _, None, _ => match set_flag kind name "true" f with Err e => Err e | Ok f => parse_flags rest f end
              | _, Some v, _ => match set_flag kind name v f with Err e => Err e | Ok f => parse_flags rest f end
              | _, None, v :: rest => match set_flag kind name v f with Err e => Err e | Ok f => parse_flags rest f end
              | _, None, [] => Err (Errorf "flag needs an argument: -%s" [AStr name])
              end
          end
      end
  end.
End Parse.

(** ** Integers as the program prints them *)

Definition no_leading_zero (s : string) : Prop := match s with String a _ => a ≠ "0"%char | EmptyString => False end.

Lemma pretty_go_leading x s : (0 < x)%N → no_leading_zero (pretty_N_go x s).
Proof.
  revert s. induction (N.lt_wf_0 x) as [x _ IH]; intros s Hx. rewrite pretty_N_go_step by done.
  destruct (decide (0 < x `div` 10)%N) as [Hd|Hd]; [apply IH; [apply N.div_lt; lia|done]|].
  apply N.nlt_ge, N.le_0_r in Hd. rewrite Hd. rewrite pretty_N_go_0. cbn [no_leading_zero].
  pose proof (N.div_mod x 10 ltac:(lia)) as Hm. assert (x `mod` 10 < 10)%N as Hlt by (apply N.mod_lt; lia).
  pose proof (digit_val_pretty _ Hlt) as Hv. intros He. rewrite He in Hv. change (digit_val "0") with (Some 0%N) in Hv. injection Hv as Hv. lia.
Qed.

Lemma read_base_digits acc under s n : digits_from acc s = Some n → read_base 10 acc under s = Some (n, under).
Proof.
  revert acc. induction s as [|a s IH]; intros acc; cbn [digits_from read_base]; [by intros [= ->]|].
  destruct (digit_val a) as [d|] eqn:Hd; [|done]. cbn [mbind option_bind]. intros Hn.
  assert (is_digit a = true) as Ha by (unfold digit_val in Hd; unfold is_digit; by destruct (byte_between 48 57 a)).
  destruct (Ascii.eqb_spec a "_") as [->|]; [done|].
  assert (base_digit 10 a = Some d) as ->.
  { unfold base_digit. rewrite Ha. unfold digit_val in Hd. unfold is_digit in Ha. rewrite Ha in Hd. injection Hd as <-. cbn [mbind option_bind].
    unfold byte_between in Ha. apply andb_true_iff in Ha as [_ Hle%N.leb_le]. by rewrite (proj2 (N.ltb_lt _ _)) by lia. }
  cbn [mbind option_bind]. rewrite <-(IH (10 * acc + d)%N) by done. f_equal. lia.
Qed.

Lemma ParseUint0_pretty p : ParseUint0 (pretty (Npos p)) = Some (Npos p).
Proof.
  pose proof (pretty_N_digits (Npos p)) as [_ Hne]. pose proof (ParseDigits_pretty (Npos p)) as Hp.
  assert (no_leading_zero (pretty (Npos p))) as Hz.
  { unfold pretty, pretty_N. rewrite decide_False by done. by apply pretty_go_leading. }
  unfold ParseUint0. destruct (pretty (Npos p)) as [|a s]; [done|]. rewrite bool_decide_false by done.
  cbn [int_base]. cbn [no_leading_zero] in Hz. rewrite (proj2 (Ascii.eqb_neq a "0")) by done. cbn [negb].
  unfold ParseDigits in Hp. by rewrite (read_base_digits _ _ _ _ Hp).
Qed.

Lemma ParseInt0_itoa z : in_i64 z → ParseInt0 (itoa z) = Some z.
Proof.
  intros Hz. unfold ParseInt0, itoa. destruct z as [|p|p]; [done| |].
  - change (pretty (Zpos p)) with (pretty (Npos p)).
    assert (read_sign (pretty (Npos p)) = (false, pretty (Npos p))) as ->.
    { pose proof (pretty_N_digits (Npos p)) as [Hd Hne]. destruct (pretty (Npos p)) as [|a s]; [done|].
      cbn [str_forallb] in Hd. apply andb_true_iff in Hd as [Ha _]. cbn [read_sign].
      destruct (Ascii.eqb_spec a "-") as [->|]; [done|]. by destruct (Ascii.eqb_spec a "+") as [->|]. }
    rewrite ParseUint0_pretty. cbn [mbind option_bind]. by rewrite decide_True.
  - change (pretty (Zneg p)) with (String "-" (pretty (Npos p))). cbn [read_sign]. rewrite Ascii.eqb_refl.
    rewrite ParseUint0_pretty. cbn [mbind option_bind]. by rewrite decide_True.
Qed.
