(* ===== verification/GoSort.v ===== *)
(** * Sorting (the Go package sort)

    sort.SliceStable by an integer key and sort.Strings, with what the
    components need of them: the result is a permutation, in order, and a stable
    sort keeps the order of equal keys. *)

From Stdlib Require Import Sorted.
From S2P Require Import Prelude GoStrings.

(** [sort.SliceStable] by a key: the one stable sort of the list. *)
Fixpoint insert_by {A} (key : A → Z) (x : A) (l : list A) : list A :=
  match l with
  | [] => [x]
  | y :: l' => if (key x <=? key y) then x :: l else y :: insert_by key x l'
  end.

Fixpoint SliceStable {A} (key : A → Z) (l : list A) : list A :=
  match l with
  | [] => []
  | x :: l' => insert_by key x (SliceStable key l')
  end.

(** [sort.Strings] *)
Fixpoint insert_string (x : string) (l : list string) : list string :=
  match l with
  | [] => [x]
  | y :: l' => if str_lt y x then y :: insert_string x l' else x :: l
  end.

Fixpoint sort_Strings (l : list string) : list string :=
  match l with
  | [] => []
  | x :: l' => insert_string x (sort_Strings l')
  end.

(** ** Lemmas: the stable sort *)

Lemma insert_by_perm {A} (key : A → Z) x l : insert_by key x l ≡ₚ x :: l.
Proof.
  induction l as [|y l IH]; cbn [insert_by]; [done|]. destruct (_ <=? _); [done|].
  rewrite IH. constructor.
Qed.

Lemma SliceStable_perm {A} (key : A → Z) l : SliceStable key l ≡ₚ l.
Proof. induction l as [|x l IH]; cbn [SliceStable]; [done|]. by rewrite insert_by_perm, IH. Qed.

Definition by_key {A} (key : A → Z) (x y : A) : Prop := key x ≤ key y.

Lemma SliceStable_sorted {A} (key : A → Z) l : StronglySorted (by_key key) (SliceStable key l).
Proof.
  induction l as [|x l IH]; cbn [SliceStable]; [constructor|].
  induction IH as [|y l' Hs IH' Hy]; cbn [insert_by]; [by repeat constructor|].
  unfold by_key in *. destruct (Z.leb_spec (key x) (key y)).
  - constructor; [by constructor|]. constructor; [done|]. eapply Forall_impl; [exact Hy|]. simpl. lia.
  - constructor; [done|]. rewrite insert_by_perm. constructor; [lia|done].
Qed.

Lemma elem_of_SliceStable {A} (key : A → Z) l x : x ∈ SliceStable key l ↔ x ∈ l.
Proof. by rewrite SliceStable_perm. Qed.

(** An element no smaller than the others comes last. *)
Lemma last_insert_by {A} (key : A → Z) x l y :
  last l = Some y → key x ≤ key y → last (insert_by key x l) = Some y.
Proof.
  induction l as [|z l IH]; [done|]. cbn [insert_by]. intros Hl Hle.
  destruct (Z.leb_spec (key x) (key z)); [by rewrite last_cons, Hl|].
  destruct l as [|z' l]; [injection Hl as ->; lia|].
  rewrite last_cons in Hl |- *. rewrite IH; [done| |done]. by destruct (last (z' :: l)) eqn:?; [|apply last_None in Heqo].
Qed.

Lemma last_SliceStable_snoc {A} (key : A → Z) l x :
  Forall (λ y, key y ≤ key x) l → last (SliceStable key (l ++ [x])) = Some x.
Proof. induction 1 as [|y l Hy _ IH]; [done|]. cbn [SliceStable app]. by apply last_insert_by. Qed.

(** Elements of equal keys keep their order. *)
Lemma insert_by_filter {A} (key : A → Z) (k : Z) x l :
  filter (λ y, key y = k) (insert_by key x l) = filter (λ y, key y = k) (x :: l).
Proof.
  induction l as [|y l IH]; [done|]. cbn [insert_by]. destruct (Z.leb_spec (key x) (key y)) as [|Hlt]; [done|].
  rewrite filter_cons, IH, !filter_cons. repeat case_decide; try done. lia.
Qed.

Lemma SliceStable_stable {A} (key : A → Z) (k : Z) l :
  filter (λ y, key y = k) (SliceStable key l) = filter (λ y, key y = k) l.
Proof.
  induction l as [|x l IH]; [done|]. cbn [SliceStable]. rewrite insert_by_filter, !filter_cons. by rewrite IH.
Qed.

(** A sorted list is left as it is. *)
Lemma SliceStable_id {A} (key : A → Z) l : StronglySorted (by_key key) l → SliceStable key l = l.
Proof.
  induction 1 as [|x l _ IH Hx]; [done|]. cbn [SliceStable]. rewrite IH. destruct l as [|y l]; [done|].
  cbn [insert_by]. apply Forall_inv in Hx. unfold by_key in Hx. by rewrite (proj2 (Z.leb_le _ _)).
Qed.

(** The order and the order of equal keys determine a list. *)
Lemma sorted_unique {A} (key : A → Z) l1 l2 :
  StronglySorted (by_key key) l1 → StronglySorted (by_key key) l2 →
  (∀ k, filter (λ y, key y = k) l1 = filter (λ y, key y = k) l2) → l1 = l2.
Proof.
  intros Hs1. revert l2. induction Hs1 as [|x l1 _ IH Hx]; intros l2 Hs2 Hf.
  { destruct l2 as [|y l2]; [done|]. specialize (Hf (key y)). by rewrite filter_cons_True in Hf. }
  destruct l2 as [|y l2]; [specialize (Hf (key x)); by rewrite filter_cons_True in Hf|].
  apply StronglySorted_inv in Hs2 as [Hs2 Hy].
  assert (key x = key y) as Hk.
  { assert (x ∈ filter (λ z, key z = key x) (y :: l2)) as [_ Hx2]%list_elem_of_filter
      by (rewrite <-Hf, filter_cons_True by done; by left).
    assert (y ∈ filter (λ z, key z = key y) (x :: l1)) as [_ Hy1]%list_elem_of_filter
      by (rewrite Hf, filter_cons_True by done; by left).
    rewrite Forall_forall in Hx, Hy. unfold by_key in Hx, Hy.
    apply elem_of_cons in Hx2 as [->|Hx2]; [done|]. apply elem_of_cons in Hy1 as [->|Hy1]; [done|].
    specialize (Hx y Hy1). specialize (Hy x Hx2). lia. }
  assert (x = y) as ->.
  { specialize (Hf (key x)). rewrite !filter_cons_True in Hf by done. congruence. }
  f_equal. apply IH; [done|]. intros k. specialize (Hf k). rewrite !filter_cons in Hf. case_decide; congruence.
Qed.

(** ** Lemmas: sorted strings *)

Lemma insert_string_perm x l : insert_string x l ≡ₚ x :: l.
Proof.
  induction l as [|y l IH]; cbn [insert_string]; [done|]. destruct (str_lt y x); [|done].
  rewrite IH. constructor.
Qed.

Lemma sort_Strings_perm l : sort_Strings l ≡ₚ l.
Proof. induction l as [|x l IH]; cbn [sort_Strings]; [done|]. by rewrite insert_string_perm, IH. Qed.

(** Sorting forgets the order. *)
Lemma insert_string_comm x y l : insert_string x (insert_string y l) = insert_string y (insert_string x l).
Proof.
  destruct (decide (x = y)) as [->|Hne]; [done|].
  induction l as [|z l IH]; cbn [insert_string].
  - by destruct (str_lt_total x y Hne) as [Hl|Hl]; rewrite Hl, (str_lt_asym _ _ Hl).
  - destruct (str_lt z y) eqn:Hzy, (str_lt z x) eqn:Hzx; cbn [insert_string]; rewrite ?Hzy, ?Hzx; try done.
    + by rewrite IH.
    + destruct (str_lt_total x y Hne) as [Hl|Hl]; [by rewrite Hl|]. by rewrite (str_lt_trans _ _ _ Hzy Hl) in Hzx.
    + destruct (str_lt_total x y Hne) as [Hl|Hl]; [|by rewrite Hl]. by rewrite (str_lt_trans _ _ _ Hzx Hl) in Hzy.
    + destruct (str_lt_total x y Hne) as [Hl|Hl]; by rewrite Hl, (str_lt_asym _ _ Hl), ?Hzx, ?Hzy.
Qed.

Lemma sort_Strings_unique l1 l2 : l1 ≡ₚ l2 → sort_Strings l1 = sort_Strings l2.
Proof.
  induction 1 as [|x l1 l2 _ IH|x y l|l1 l2 l3 _ IH1 _ IH2]; cbn [sort_Strings]; [done|by rewrite IH| |congruence].
  apply insert_string_comm.
Qed.
