(* ===== verification/TabWriter.v ===== *)
(** * Tables of text (the Go package text/tabwriter)

    The writer the listener builds its tables with: no minimal width, a padding
    of two spaces, no flags.  A column is the cells of a run of lines that have
    one there and one after it; the last cell of a line belongs to no column.
    The width of a cell counts its runes. *)

From S2P Require Import Prelude GoStrings.

(** ** Runes (unicode/utf8) *)

Definition continuation (a : Ascii.ascii) : bool := byte_between 128 191 a.

(** The bytes of the rune the string starts with: 1 for a byte that starts none. *)
Definition rune_len (s : string) : nat :=
  match s with
  | String a s1 =>
      match s1 with
      | EmptyString => 1
      | String b s2 =>
          let two := byte_between 194 223 a && continuation b in
          let second3 :=
            (is_byte 224 a && byte_between 160 191 b) || ((byte_between 225 236 a || byte_between 238 239 a) && continuation b) ||
            (is_byte 237 a && byte_between 128 159 b) in
          let second4 :=
            (is_byte 240 a && byte_between 144 191 b) || (byte_between 241 243 a && continuation b) ||
            (is_byte 244 a && byte_between 128 143 b) in
          if two then 2
          else match s2 with
               | EmptyString => 1
               | String c s3 =>
                   if second3 && continuation c then 3
                   else match s3 with
                        | EmptyString => 1
                        | String d _ => if second4 && continuation c && continuation d then 4 else 1
                        end
               end
      end
  | EmptyString => 0
  end.

(** [utf8.RuneCountInString]; [skip] counts the bytes left of a rune. *)
Fixpoint rune_count (skip : nat) (s : string) : nat :=
  match s with
  | EmptyString => 0
  | String _ s' =>
      match skip with
      | S k => rune_count k s'
      | O => S (rune_count (Nat.pred (rune_len s)) s')
      end
  end.

Definition RuneCount (s : string) : Z := Z.of_nat (rune_count 0 s).

Lemma rune_len_ascii a s : (byte_of a < 128)%N → rune_len (String a s) = 1%nat.
Proof.
  intros Ha. assert (∀ lo hi, (128 ≤ lo)%N → byte_between lo hi a = false) as Hb.
  { intros lo hi Hlo. unfold byte_between. apply andb_false_iff. left. by apply N.leb_gt; lia. }
  assert (∀ n, (128 ≤ n)%N → is_byte n a = false) as Hi.
  { intros n Hn. unfold is_byte. apply N.eqb_neq. lia. }
  cbn. rewrite !Hb, !Hi by lia. cbn. by repeat case_match.
Qed.

(** A text of ASCII has as many runes as bytes. *)
Definition ascii_byte (a : Ascii.ascii) : bool := (byte_of a <? 128)%N.

Lemma RuneCount_ascii s : str_forallb ascii_byte s = true → RuneCount s = Z.of_nat (String.length s).
Proof.
  unfold RuneCount. intros Hs. f_equal. induction s as [|a s IH]; [done|]. cbn [str_forallb] in Hs.
  apply andb_true_iff in Hs as [Ha Hs]. apply N.ltb_lt in Ha.
  change (rune_count 0 (String a s)) with (S (rune_count (Nat.pred (rune_len (String a s))) s)).
  rewrite rune_len_ascii by done. cbn. by rewrite IH.
Qed.

(** ** The writer *)

Record cell := { tc_text : string; tc_width : Z }.

Record tabwriter := {
  tw_out : string;              (* what has been flushed *)
  tw_lines : list (list cell);  (* the finished lines that are not flushed *)
  tw_line : list cell;          (* the finished cells of the current line *)
  tw_cell : string;             (* the text of the current cell *)
  tw_width : Z;                 (* the width of its first part *)
  tw_rest : string;             (* the part that has not been counted *)
  tw_escaped : bool;            (* inside a text between escape bytes *)
}.

Definition NewWriter : tabwriter :=
  {| tw_out := EmptyString; tw_lines := []; tw_line := []; tw_cell := EmptyString; tw_width := 0; tw_rest := EmptyString;
     tw_escaped := false |}.

Definition newline : string := String (Ascii.ascii_of_nat 10) EmptyString.

Fixpoint spaces (n : nat) : string := match n with O => EmptyString | S n => String " "%char (spaces n) end.

(** [writePadding] *)
Definition padding (width : Z) (c : cell) : string := spaces (Z.to_nat (width - tc_width c)).

(** A line whose first columns have the given widths. *)
Fixpoint write_line (widths : list Z) (line : list cell) : string :=
  match line with
  | [] => EmptyString
  | c :: line' =>
      match widths with
      | [] => tc_text c +:+ write_line [] line'
      | w :: widths' => tc_text c +:+ padding w c +:+ write_line widths' line'
      end
  end.

(** Whether the line has a cell in the column, and one after it. *)
Definition in_column (column : nat) (line : list cell) : bool := (S column <? length line)%nat.

(** The runs of lines that are in the column, or are not. *)
Definition add_to_run (column : nat) (line : list cell) (runs : list (bool * list (list cell))) : list (bool * list (list cell)) :=
  let b := in_column column line in
  match runs with
  | (b', run) :: runs' => if Bool.eqb b b' then (b, line :: run) :: runs' else (b, [line]) :: runs
  | [] => [(b, [line])]
  end.

Definition runs_of (column : nat) (lines : list (list cell)) : list (bool * list (list cell)) :=
  foldr (add_to_run column) [] lines.

(** The width of a column: that of its widest cell, with the padding. *)
Definition column_width (column : nat) (lines : list (list cell)) : Z :=
  foldr (λ line w, match line !! column with Some c => Z.max (tc_width c + 2) w | None => w end) 0 lines.

(** [format]; the recursion goes column by column.  The fuel is the number of
    cells of the longest line. *)
Fixpoint format_lines (fuel : nat) (widths : list Z) (lines : list (list cell)) : list string :=
  match fuel with
  | O => write_line widths <$> lines
  | S fuel =>
      runs_of (length widths) lines ≫= λ '(b, run),
        if (b : bool) then format_lines fuel (widths ++ [column_width (length widths) run]) run
        else write_line widths <$> run
  end.

Definition longest (lines : list (list cell)) : nat := foldr (λ line n, Nat.max (length line) n) 0%nat lines.

(** The text of the lines, of which the last is the current one. *)
Definition format (lines : list (list cell)) : string := Join (format_lines (longest lines) [] lines) newline.

Definition update_width (t : tabwriter) : tabwriter :=
  {| tw_out := tw_out t; tw_lines := tw_lines t; tw_line := tw_line t; tw_cell := tw_cell t;
     tw_width := tw_width t + RuneCount (tw_rest t); tw_rest := EmptyString; tw_escaped := tw_escaped t |}.

Definition append_byte (a : Ascii.ascii) (t : tabwriter) : tabwriter :=
  {| tw_out := tw_out t; tw_lines := tw_lines t; tw_line := tw_line t; tw_cell := tw_cell t +:+ String a EmptyString;
     tw_width := tw_width t; tw_rest := tw_rest t +:+ String a EmptyString; tw_escaped := tw_escaped t |}.

Definition terminate_cell (t : tabwriter) : tabwriter :=
  let t := update_width t in
  {| tw_out := tw_out t; tw_lines := tw_lines t; tw_line := tw_line t ++ [{| tc_text := tw_cell t; tc_width := tw_width t |}];
     tw_cell := EmptyString; tw_width := 0; tw_rest := EmptyString; tw_escaped := false |}.

Definition add_line (t : tabwriter) : tabwriter :=
  {| tw_out := tw_out t; tw_lines := tw_lines t ++ [tw_line t]; tw_line := []; tw_cell := tw_cell t; tw_width := tw_width t;
     tw_rest := tw_rest t; tw_escaped := tw_escaped t |}.

(** An escape that is not closed is closed: its escape bytes do not count. *)
Definition end_escape (t : tabwriter) : tabwriter :=
  let t := update_width t in
  {| tw_out := tw_out t; tw_lines := tw_lines t; tw_line := tw_line t; tw_cell := tw_cell t; tw_width := tw_width t - 2;
     tw_rest := EmptyString; tw_escaped := false |}.

Definition Flush (t : tabwriter) : tabwriter :=
  let t := if bool_decide (tw_cell t = EmptyString) then t
           else terminate_cell (if tw_escaped t then end_escape t else t) in
  {| tw_out := tw_out t +:+ format (tw_lines t ++ [tw_line t]); tw_lines := []; tw_line := []; tw_cell := EmptyString;
     tw_width := 0; tw_rest := EmptyString; tw_escaped := false |}.

Definition escape_byte : Ascii.ascii := Ascii.ascii_of_nat 255.

(** One byte of Write.  A line of one cell has no effect on those after it, so
    the lines so far are written out; a form feed always does that. *)
Definition write_byte (t : tabwriter) (a : Ascii.ascii) : tabwriter :=
  if tw_escaped t then
    let t := append_byte a t in if Ascii.eqb a escape_byte then end_escape t else t
  else if is_byte 9 a || is_byte 11 a then terminate_cell t
  else if is_byte 10 a || is_byte 12 a then
    let t := add_line (terminate_cell t) in
    if is_byte 12 a || bool_decide (length <$> last (tw_lines t) = Some 1%nat) then Flush t else t
  else if Ascii.eqb a escape_byte then
    let t := append_byte a (update_width t) in
    {| tw_out := tw_out t; tw_lines := tw_lines t; tw_line := tw_line t; tw_cell := tw_cell t; tw_width := tw_width t;
       tw_rest := tw_rest t; tw_escaped := true |}
  else append_byte a t.

Fixpoint tw_Write (s : string) (t : tabwriter) : tabwriter :=
  match s with EmptyString => t | String a s' => tw_Write s' (write_byte t a) end.

(** A writer that is filled and flushed. *)
Definition tabulate (s : string) : string := tw_out (Flush (tw_Write s NewWriter)).

(** ** Tables

    Rows of as many cells each, none of which holds a byte the writer treats
    specially. *)

Definition tab : string := String (Ascii.ascii_of_nat 9) EmptyString.

Definition row_text (row : list string) : string := Join row tab +:+ newline.

Fixpoint table_text (rows : list (list string)) : string :=
  match rows with [] => EmptyString | row :: rows => row_text row +:+ table_text rows end.

Definition clean_byte (a : Ascii.ascii) : bool :=
  negb (byte_between 9 12 a) && negb (Ascii.eqb a escape_byte).
Definition clean (s : string) : bool := str_forallb clean_byte s.

Definition cell_of (s : string) : cell := {| tc_text := s; tc_width := RuneCount s |}.
Definition row_cells (row : list string) : list cell := cell_of <$> row.

(** A writer between two lines. *)
Definition at_line (out : string) (lines : list (list cell)) (line : list cell) (text : string) : tabwriter :=
  {| tw_out := out; tw_lines := lines; tw_line := line; tw_cell := text; tw_width := 0; tw_rest := text; tw_escaped := false |}.

Lemma tw_Write_app s s' t : tw_Write (s +:+ s') t = tw_Write s' (tw_Write s t).
Proof. revert t. induction s as [|a s IH]; intros t; [done|]. exact (IH _). Qed.

Lemma write_clean s out lines line text :
  clean s = true → tw_Write s (at_line out lines line text) = at_line out lines line (text +:+ s).
Proof.
  revert text. induction s as [|a s IH]; intros text; [by rewrite append_nil_r|].
  unfold clean. cbn [str_forallb]. intros [[Ha Hesc]%andb_true_iff Hs]%andb_true_iff. cbn [tw_Write].
  assert (∀ n, (9 ≤ n ≤ 12)%N → is_byte n a = false) as Hn.
  { intros n Hn. apply negb_true_iff in Ha. unfold byte_between in Ha. unfold is_byte. apply N.eqb_neq. intros Heq.
    apply andb_false_iff in Ha as [Ha|Ha]; apply N.leb_gt in Ha; lia. }
  unfold write_byte. cbn [tw_escaped at_line]. rewrite !Hn by lia. cbn [orb]. apply negb_true_iff in Hesc. rewrite Hesc.
  unfold append_byte. cbn. fold (at_line out lines line (text +:+ String a EmptyString)). rewrite IH by done.
  by rewrite <-append_assoc.
Qed.

Lemma terminate_at out lines line text :
  terminate_cell (at_line out lines line text) = at_line out lines (line ++ [cell_of text]) EmptyString.
Proof. reflexivity. Qed.

Lemma write_tab s out lines line text :
  tw_Write (tab +:+ s) (at_line out lines line text) = tw_Write s (at_line out lines (line ++ [cell_of text]) EmptyString).
Proof. reflexivity. Qed.

Lemma write_row row out lines line :
  forallb clean row = true → row ≠ [] → (2 ≤ length line + length row)%nat →
  tw_Write (row_text row) (at_line out lines line EmptyString) = at_line out (lines ++ [line ++ row_cells row]) [] EmptyString.
Proof.
  unfold row_text. revert line. induction row as [|s row IH]; intros line; [done|]. cbn [forallb]. intros [Hs Hrow]%andb_true_iff _ Hlen.
  destruct row as [|s' row].
  - cbn [Join String.concat]. rewrite tw_Write_app. change (Join [s] tab) with s. rewrite write_clean by done.
    change (EmptyString +:+ s) with s. unfold newline. cbn [tw_Write]. unfold write_byte. cbn [tw_escaped at_line].
    change (is_byte 9 (Ascii.ascii_of_nat 10) || is_byte 11 (Ascii.ascii_of_nat 10)) with false.
    change (is_byte 10 (Ascii.ascii_of_nat 10) || is_byte 12 (Ascii.ascii_of_nat 10)) with true.
    change (is_byte 12 (Ascii.ascii_of_nat 10)) with false. cbv iota. cbn [orb].
    fold (at_line out lines line s). rewrite terminate_at. unfold add_line. cbn [tw_lines at_line tw_line]. rewrite last_snoc.
    rewrite bool_decide_false; [done|]. cbn. rewrite length_app. cbn in *. intros [= Hl]. lia.
  - rewrite Join_cons2, <-!append_assoc, tw_Write_app, write_clean by done. change (EmptyString +:+ s) with s. rewrite <-?append_assoc.
    rewrite write_tab.
    rewrite IH; [|done|done|rewrite length_app; cbn in *; lia]. cbn. by rewrite <-app_assoc.
Qed.

Lemma write_table (rows : list (list string)) out lines :
  Forall (λ row, forallb clean row = true ∧ (2 ≤ length row)%nat) rows →
  tw_Write (table_text rows) (at_line out lines [] EmptyString) = at_line out (lines ++ (row_cells <$> rows)) [] EmptyString.
Proof.
  revert lines. induction rows as [|row rows IH]; intros lines; cbn [table_text fmap list_fmap]; [by rewrite app_nil_r|].
  intros [[Hc Hl] Hrows]%Forall_cons. rewrite tw_Write_app, write_row; [|done|intros ->; cbn in Hl; lia|cbn; lia].
  rewrite IH by done. cbn [app]. by rewrite <-app_assoc.
Qed.

(** *** The format of a table *)

Lemma runs_all column lines : forallb (in_column column) lines = true →
  runs_of column (lines ++ [[]]) = match lines with [] => [] | _ => [(true, lines)] end ++ [(false, [[]])].
Proof.
  induction lines as [|line lines IH]; [done|]. cbn [forallb app]. intros [Hl Hls]%andb_true_iff.
  change (runs_of column (line :: lines ++ [[]])) with (add_to_run column line (runs_of column (lines ++ [[]]))).
  rewrite IH by done. unfold add_to_run. rewrite Hl. by destruct lines.
Qed.

Lemma runs_all' column lines : forallb (in_column column) lines = true → lines ≠ [] → runs_of column lines = [(true, lines)].
Proof.
  induction lines as [|line lines IH]; [done|]. cbn [forallb]. intros [Hl Hls]%andb_true_iff _.
  change (runs_of column (line :: lines)) with (add_to_run column line (runs_of column lines)). destruct lines as [|l ls].
  - unfold add_to_run, runs_of. cbn [foldr]. by rewrite Hl.
  - rewrite IH by done. unfold add_to_run. by rewrite Hl.
Qed.

Lemma runs_none column lines : forallb (λ l, negb (in_column column l)) lines = true → lines ≠ [] → runs_of column lines = [(false, lines)].
Proof.
  induction lines as [|line lines IH]; [done|]. cbn [forallb]. intros [Hl%negb_true_iff Hls]%andb_true_iff _.
  change (runs_of column (line :: lines)) with (add_to_run column line (runs_of column lines)). destruct lines as [|l ls].
  - unfold add_to_run, runs_of. cbn [foldr]. by rewrite Hl.
  - rewrite IH by done. unfold add_to_run. by rewrite Hl.
Qed.

(** The widths of the first columns. *)
Definition column_widths (k : nat) (lines : list (list cell)) : list Z := (λ j, column_width j lines) <$> seq 0 k.

Lemma format_rect fuel k c lines :
  Forall (λ line, length line = S k) lines → lines ≠ [] → (c ≤ k)%nat → (k - c < fuel)%nat →
  format_lines fuel (column_widths c lines) lines = write_line (column_widths k lines) <$> lines.
Proof.
  intros Hl Hne. revert c. induction fuel as [|fuel IH]; intros c Hc Hf; [lia|]. cbn [format_lines].
  assert (length (column_widths c lines) = c) as Hlen by (unfold column_widths; by rewrite length_fmap, length_seq). rewrite Hlen.
  assert (∀ b, (∀ line, length line = S k → b line = true) → forallb b lines = true) as Hall.
  { intros b Hb. apply forallb_elem_of. intros line Hin. apply Hb. by eapply Forall_forall in Hl. }
  destruct (decide (c = k)) as [->|Hck].
  - rewrite runs_none; [|apply Hall; intros line Hk; unfold in_column; rewrite Hk; apply negb_true_iff, Nat.ltb_irrefl|done].
    cbn [mbind list_bind]. by rewrite app_nil_r.
  - rewrite runs_all'; [|apply Hall; intros line Hk; unfold in_column; rewrite Hk; apply Nat.ltb_lt; lia|done].
    cbn [mbind list_bind]. rewrite app_nil_r.
    assert (column_widths c lines ++ [column_width c lines] = column_widths (S c) lines) as ->.
    { unfold column_widths. by rewrite seq_S, fmap_app. }
    apply IH; lia.
Qed.

Lemma longest_rect k lines : Forall (λ line, length line = S k) lines → lines ≠ [] → longest (lines ++ [[]]) = S k.
Proof.
  induction 1 as [|line lines Hl _ IH]; [done|]. intros _.
  change (longest ((line :: lines) ++ [[]])) with (Nat.max (length line) (longest (lines ++ [[]]))). rewrite Hl.
  destruct lines as [|l ls]; [cbn; lia|]. rewrite IH by done. lia.
Qed.

Lemma format_table k lines :
  (1 ≤ k)%nat → Forall (λ line, length line = S k) lines → lines ≠ [] →
  format (lines ++ [[]]) = Join ((write_line (column_widths k lines) <$> lines) ++ [EmptyString]) newline.
Proof.
  intros Hk Hl Hne. unfold format. f_equal. rewrite (longest_rect k) by done. cbn [format_lines length].
  rewrite runs_all.
  2: { apply forallb_elem_of. intros line Hin. eapply Forall_forall in Hl; [|exact Hin]. unfold in_column. rewrite Hl. apply Nat.ltb_lt. lia. }
  rewrite bind_app. destruct lines as [|l ls]; [done|]. cbn [mbind list_bind app]. rewrite app_nil_r. f_equal.
  apply (format_rect k k 1); [done|done|lia|lia].
Qed.

(** What a table looks like: each cell of a column but the last is filled up to
    the width of the widest and two spaces more. *)
Lemma tabulate_table k (rows : list (list string)) :
  (1 ≤ k)%nat → rows ≠ [] → Forall (λ row, forallb clean row = true ∧ length row = S k) rows →
  let lines := row_cells <$> rows in
  tabulate (table_text rows) = Join ((write_line (column_widths k lines) <$> lines) ++ [EmptyString]) newline.
Proof.
  intros Hk Hne Hrows lines. unfold tabulate. change NewWriter with (at_line EmptyString [] [] EmptyString).
  rewrite write_table by (eapply Forall_impl; [exact Hrows|]; cbv beta; intros row [? ->]; split; [done|lia]).
  unfold Flush. cbn [at_line tw_cell tw_out tw_lines tw_line app].
  rewrite bool_decide_true by done. cbn [at_line tw_cell tw_out tw_lines tw_line]. change (EmptyString +:+ ?s) with s.
  apply format_table; [done| |by destruct rows]. apply Forall_fmap. eapply Forall_impl; [exact Hrows|].
  cbv beta. intros row [_ Hl]. rewrite <-Hl. apply length_fmap.
Qed.

(** ** A table is read back

    A cell is a word when it holds no white space and is not empty. *)

Definition cell_word (s : string) : bool := is_word s && byte_free escape_byte s.

Lemma Fields_spaces n s : Fields (spaces n +:+ s) = Fields s.
Proof. induction n as [|n IH]; [done|]. rewrite <-IH. apply (Fields_space (spaces n +:+ s)). Qed.

Lemma space_len_control a s : byte_between 9 13 a = true → space_len (String a s) = 1%nat.
Proof. intros Ha. cbn [space_len]. unfold ascii_space. by rewrite Ha. Qed.

Lemma no_space_free c s : byte_between 9 13 c = true → no_space s = true → byte_free c s = true.
Proof.
  intros Hc. induction s as [|a s IH]; [done|]. cbn [no_space]. intros [Ha Hs]%andb_true_iff.
  unfold byte_free. cbn [str_forallb]. apply andb_true_iff. split; [|by apply IH].
  apply negb_true_iff. destruct (Ascii.eqb_spec a c) as [->|]; [|done]. by rewrite space_len_control in Ha.
Qed.

Lemma cell_word_clean s : cell_word s = true → clean s = true.
Proof.
  intros [Hw He]%andb_true_iff. apply word_no_space in Hw. revert Hw He. induction s as [|a s IH]; [done|].
  cbn [no_space]. intros [Ha Hs]%andb_true_iff. unfold byte_free, clean. cbn [str_forallb]. intros [He Hes]%andb_true_iff.
  apply andb_true_iff. split; [|by apply IH]. unfold clean_byte. rewrite He, andb_true_r. apply negb_true_iff.
  destruct (byte_between 9 12 a) eqn:Hb; [|done].
  assert (byte_between 9 13 a = true) as H13.
  { unfold byte_between in *. apply andb_true_iff in Hb as [? Hle]. apply andb_true_iff. split; [done|]. apply N.leb_le in Hle. apply N.leb_le. lia. }
  by rewrite space_len_control in Ha.
Qed.

Lemma column_width_ge j c line lines : line ∈ lines → line !! j = Some c → tc_width c + 2 ≤ column_width j lines.
Proof.
  intros Hin Hc. induction lines as [|l ls IH]; [by apply not_elem_of_nil in Hin|].
  change (column_width j (l :: ls)) with (match l !! j with Some c => Z.max (tc_width c + 2) (column_width j ls) | None => column_width j ls end).
  apply elem_of_cons in Hin as [->|Hin]; [rewrite Hc; lia|]. specialize (IH Hin). destruct (l !! j); lia.
Qed.

Lemma Fields_write_line widths row :
  forallb is_word row = true → length row = S (length widths) →
  (∀ j w s, widths !! j = Some w → row !! j = Some s → RuneCount s < w) →
  Fields (write_line widths (row_cells row)) = row.
Proof.
  revert widths. induction row as [|s row IH]; intros widths; [done|]. cbn [forallb]. intros [Hs Hrow]%andb_true_iff Hl Hw.
  destruct widths as [|w widths]; cbn [row_cells fmap list_fmap write_line cell_of tc_text].
  - destruct row; [|done]. cbn. rewrite append_nil_r. by apply Fields_word.
  - unfold padding. cbn [cell_of tc_width]. pose proof (Hw 0%nat w s eq_refl eq_refl) as Hlt.
    destruct (Z.to_nat (w - RuneCount s)) as [|n] eqn:Hn; [lia|]. cbn [spaces]. change (String " " (spaces n) +:+ ?t) with (String " " (spaces n +:+ t)).
    rewrite Fields_word_cons, Fields_spaces by done. f_equal. apply IH; [done|by injection Hl|].
    intros j w' s'. apply (Hw (S j)).
Qed.

Lemma write_line_free c widths row :
  c ≠ " "%char → forallb (byte_free c) row = true → byte_free c (write_line widths (row_cells row)) = true.
Proof.
  intros Hc. assert (∀ n, byte_free c (spaces n) = true) as Hsp.
  { unfold byte_free. induction n as [|n IH]; [done|]. cbn [spaces str_forallb]. rewrite IH, andb_true_r. apply negb_true_iff. by apply Ascii.eqb_neq. }
  revert widths. induction row as [|s row IH]; intros widths; [done|]. cbn [forallb]. intros [Hs Hrow]%andb_true_iff.
  destruct widths as [|w widths]; cbn [row_cells fmap list_fmap write_line cell_of tc_text]; unfold byte_free in *; rewrite !str_forallb_app, Hs.
  - by apply IH.
  - unfold padding. rewrite Hsp. by apply IH.
Qed.

Lemma Split_lines c ls t :
  forallb (byte_free c) ls = true → Split (Join (ls ++ [EmptyString]) (String c EmptyString) +:+ t) c = ls ++ Split t c.
Proof.
  induction ls as [|l ls IH]; [done|]. cbn [forallb app]. intros [Hl Hls]%andb_true_iff.
  assert (Join (l :: ls ++ [EmptyString]) (String c EmptyString) = l +:+ String c EmptyString +:+ Join (ls ++ [EmptyString]) (String c EmptyString))
    as -> by (destruct ls; [done|apply Join_cons2]).
  rewrite <-append_assoc. change ((String c EmptyString +:+ ?x) +:+ t) with (String c (x +:+ t)). rewrite Split_app by done. by rewrite IH.
Qed.

(** The words of the lines of a table are its cells, whatever follows it. *)
Lemma table_reads_back k (rows : list (list string)) t :
  (1 ≤ k)%nat → rows ≠ [] → Forall (λ row, forallb cell_word row = true ∧ length row = S k) rows →
  Fields <$> Split (tabulate (table_text rows) +:+ t) (Ascii.ascii_of_nat 10) = rows ++ (Fields <$> Split t (Ascii.ascii_of_nat 10)).
Proof.
  intros Hk Hne Hrows.
  rewrite (tabulate_table k); [|done|done|].
  2: { eapply Forall_impl; [exact Hrows|]. cbv beta. intros row [Hw Hl]. split; [|done].
       apply forallb_elem_of. intros s Hs. apply cell_word_clean. rewrite forallb_elem_of in Hw. by apply Hw. }
  set (widths := column_widths k (row_cells <$> rows)).
  assert (length widths = k) as Hlw by (unfold widths, column_widths; by rewrite length_fmap, length_seq).
  assert (∀ row, row ∈ rows → forallb is_word row = true ∧ length row = S k) as Hrow.
  { intros row Hin. eapply Forall_forall in Hrows as [Hw Hl]; [|exact Hin]. split; [|done]. apply forallb_elem_of. intros s Hs.
    rewrite forallb_elem_of in Hw. by apply Hw, andb_true_iff in Hs as [? _]. }
  unfold newline. rewrite Split_lines.
  - rewrite fmap_app. f_equal. rewrite <-!list_fmap_compose.
    rewrite <-(list_fmap_id rows) at 2. apply list_fmap_ext. intros i row Hi. cbn. apply list_elem_of_lookup_2 in Hi.
    destruct (Hrow row Hi) as [Hw Hl]. apply Fields_write_line; [done|by rewrite Hlw|].
    intros j w s Hj Hs. unfold widths, column_widths in Hj. apply list_lookup_fmap_Some in Hj as (j' & -> & Hj).
    apply lookup_seq in Hj as [-> _]. cbn.
    assert (row_cells row !! j = Some (cell_of s)) as Hc by (unfold row_cells; by rewrite list_lookup_fmap, Hs).
    pose proof (column_width_ge j (cell_of s) (row_cells row) (row_cells <$> rows) (list_elem_of_fmap_2 _ _ _ Hi) Hc) as Hge. cbn in Hge. lia.
  - apply forallb_elem_of. intros l Hl.
    apply list_elem_of_fmap in Hl as (cells & -> & Hc). apply list_elem_of_fmap in Hc as (row & -> & Hin).
    apply write_line_free; [done|]. apply forallb_elem_of. intros s Hs. apply no_space_free; [done|]. apply word_no_space.
    destruct (Hrow row Hin) as [Hw _]. rewrite forallb_elem_of in Hw. by apply Hw.
Qed.
