(* ===== verification/GoPrintf.v ===== *)
(** * Formatting without operands (the Go package fmt)

    [fmt.Sprintf] of a format alone, which is what a text handed to Printf as
    its format goes through: every percent sign starts a directive that finds
    no operand.  Flags, an argument index, a width and a precision are read as
    [doPrintf] reads them. *)

From S2P Require Import Prelude GoStrings GoTime TabWriter.

(** ** One directive *)

Definition flag_byte (a : Ascii.ascii) : bool := existsb (Ascii.eqb a) ["#"; "0"; "+"; "-"; " "]%char.

Fixpoint skip_flags (s : string) : string :=
  match s with String a r => if flag_byte a then skip_flags r else s | EmptyString => s end.

(** [parsenum]: whether there is a number, and what is left; a number that has
    grown past a million ends the scan at the end of the text. *)
Fixpoint parsenum_from (num : Z) (isnum : bool) (s : string) : bool * string :=
  match s with
  | String a r =>
      if is_digit a then
        if 1000000 <? num then (false, EmptyString)
        else parsenum_from (num * 10 + (Z.of_N (byte_of a) - 48)) true r
      else (isnum, s)
  | EmptyString => (isnum, EmptyString)
  end.

Definition parsenum (s : string) : bool * string := parsenum_from 0 false s.

(** [parseArgNumber], of a text that starts with a bracket: how many bytes the
    index takes, and whether it is well formed. *)
Definition parseArgNumber (s : string) : nat * bool :=
  if (String.length s <? 3)%nat then (1%nat, false)
  else match IndexByte (str_drop 1 s) "]" with
       | None => (1%nat, false)
       | Some i =>
           let '(ok, rest) := parsenum (str_take i (str_drop 1 s)) in
           ((i + 2)%nat, ok && bool_decide (rest = EmptyString))
       end.

(** [argNumber]: no index is in range.  The flag says that an index was read,
    the second one whether the indices are good so far. *)
Definition argNumber (good : bool) (s : string) : bool * bool * string :=
  match s with
  | String "[" _ => let '(wid, ok) := parseArgNumber s in (ok, false, str_drop wid s)
  | _ => (false, good, s)
  end.

(** The character a text starts with; a byte that starts none is U+FFFD. *)
Definition verb_text (s : string) : string :=
  match s with
  | String a _ =>
      if negb (ascii_byte a) && (rune_len s =? 1)%nat
      then String (Ascii.ascii_of_nat 239) (String (Ascii.ascii_of_nat 191) (String (Ascii.ascii_of_nat 189) EmptyString))
      else str_take (rune_len s) s
  | EmptyString => EmptyString
  end.

(** The width: what is written about it, whether an index was read, whether the
    indices are good, and what is left. *)
Definition read_width (after good : bool) (s : string) : string * bool * bool * string :=
  match s with
  | String "*" r => ("%!(BADWIDTH)", false, good, r)
  | _ => let '(isnum, r) := parsenum s in (EmptyString, after, good && negb (after && isnum), r)
  end.

Definition read_precision (after good : bool) (s : string) : string * bool * bool * string :=
  match s with
  | String "." r =>
      let '(after', good', r') := argNumber (good && negb after) r in
      match r' with
      | String "*" r'' => ("%!(BADPREC)", false, good', r'')
      | _ => (EmptyString, after', good', (parsenum r').2)
      end
  | _ => (EmptyString, after, good, s)
  end.

Definition read_verb (good : bool) (s : string) : string * string :=
  match s with
  | EmptyString => ("%!(NOVERB)", EmptyString)
  | String "%" r => ("%", r)
  | _ => ("%!" +:+ verb_text s +:+ (if good then "(MISSING)" else "(BADINDEX)"), str_drop (rune_len s) s)
  end.

(** What follows a percent sign: what is written, and what is left. *)
Definition directive (s : string) : string * string :=
  let '(after, good, s) := argNumber true (skip_flags s) in
  let '(w, after, good, s) := read_width after good s in
  let '(p, after, good, s) := read_precision after good s in
  let '(good, s) := if after then (good, s) else let '(_, g, r) := argNumber good s in (g, r) in
  let '(v, s) := read_verb good s in
  (w +:+ p +:+ v, s).

(** ** The whole text *)

Fixpoint sprintf_loop (fuel : nat) (s : string) : string :=
  match fuel with
  | O => EmptyString
  | S fuel =>
      match s with
      | EmptyString => EmptyString
      | String "%" r => let '(text, r') := directive r in text +:+ sprintf_loop fuel r'
      | String a r => String a (sprintf_loop fuel r)
      end
  end.

Definition Sprintf (format : string) : string := sprintf_loop (S (String.length format)) format.

Example Sprintf_percent : Sprintf "100%" = "100%!(NOVERB)". Proof. by vm_compute. Qed.
Example Sprintf_bar : Sprintf "v=50%|4|n1" = "v=50%!|(MISSING)4|n1". Proof. by vm_compute. Qed.
Example Sprintf_double : Sprintf "a%%b%d%-5.2f" = "a%b%!d(MISSING)%!f(MISSING)". Proof. by vm_compute. Qed.
Example Sprintf_star : Sprintf "%*.*d%[1]d%[x]d%[2]*d" = "%!(BADWIDTH)%!(BADPREC)%!d(MISSING)%!d(BADINDEX)%!d(BADINDEX)%!(BADWIDTH)%!d(BADINDEX)".
Proof. by vm_compute. Qed.
Example Sprintf_overflow : Sprintf "%99999999d tail" = "%!(NOVERB)". Proof. by vm_compute. Qed.

(** ** The loop ends: a directive leaves no more than it was given *)

Lemma skip_flags_length s : (String.length (skip_flags s) ≤ String.length s)%nat.
Proof. induction s as [|a s IH]; [done|]. cbn [skip_flags]. destruct (flag_byte a); cbn [String.length]; lia. Qed.

Lemma parsenum_from_length n b s : (String.length (parsenum_from n b s).2 ≤ String.length s)%nat.
Proof. revert n b. induction s as [|a s IH]; intros n b; [done|]. cbn [parsenum_from]. destruct (is_digit a); [|done].
  destruct (1000000 <? n); cbn [snd String.length]; [lia|]. etrans; [apply IH|lia].
Qed.

Lemma str_drop_length n s : (String.length (str_drop n s) ≤ String.length s)%nat.
Proof. revert n. induction s as [|a s IH]; intros [|n]; cbn; [done..|]. etrans; [apply IH|lia]. Qed.

Lemma argNumber_length good s : (String.length (argNumber good s).2 ≤ String.length s)%nat.
Proof.
  unfold argNumber. destruct s as [|a s]; [done|]. pose proof (str_drop_length (parseArgNumber (String a s)).1 (String a s)) as Hd.
  destruct (parseArgNumber (String a s)) as [wid ok]. by repeat case_match.
Qed.

Lemma read_width_length after good s : (String.length (read_width after good s).2 ≤ String.length s)%nat.
Proof.
  unfold read_width, parsenum. pose proof (parsenum_from_length 0 false s) as Hn. destruct (parsenum_from 0 false s) as [b r].
  destruct s as [|a s]; [done|]. repeat case_match; cbn in *; lia.
Qed.

Lemma read_precision_length after good s : (String.length (read_precision after good s).2 ≤ String.length s)%nat.
Proof.
  unfold read_precision, parsenum. destruct s as [|a s]; [done|]. pose proof (argNumber_length (good && negb after) s) as Ha.
  destruct (argNumber _ s) as [[after' good'] r']. pose proof (parsenum_from_length 0 false r') as Hn. cbn [snd] in Ha.
  repeat case_match; cbn in *; lia.
Qed.

Lemma read_verb_length good s : (String.length (read_verb good s).2 ≤ String.length s)%nat.
Proof.
  unfold read_verb. destruct s as [|a s]; [done|]. pose proof (str_drop_length (rune_len (String a s)) (String a s)) as Hd.
  repeat case_match; cbn in *; lia.
Qed.

Lemma directive_length s : (String.length (directive s).2 ≤ String.length s)%nat.
Proof.
  unfold directive. pose proof (skip_flags_length s) as Hf. set (s0 := skip_flags s) in *.
  pose proof (argNumber_length true s0) as H0. destruct (argNumber true s0) as [[a0 g0] s1]. cbn [snd] in H0.
  pose proof (read_width_length a0 g0 s1) as Hw. destruct (read_width a0 g0 s1) as [[[w a1] g1] s2]. cbn [snd] in Hw.
  pose proof (read_precision_length a1 g1 s2) as Hp. destruct (read_precision a1 g1 s2) as [[[p a2] g2] s3]. cbn [snd] in Hp.
  pose proof (argNumber_length g2 s3) as Hi. destruct (argNumber g2 s3) as [[a3 g3] s4]. cbn [snd] in Hi.
  assert (Hv : ∀ g t, (String.length t ≤ String.length s3 → String.length (read_verb g t).2 ≤ String.length s)%nat).
  { intros g t Ht. etrans; [apply read_verb_length|lia]. }
  destruct a2.
  - specialize (Hv g2 s3 (le_n _)). by destruct (read_verb g2 s3).
  - specialize (Hv g3 s4 Hi). by destruct (read_verb g3 s4).
Qed.

Lemma sprintf_step fuel a s :
  sprintf_loop (S fuel) (String a s) =
  if Ascii.eqb a "%" then (directive s).1 +:+ sprintf_loop fuel (directive s).2 else String a (sprintf_loop fuel s).
Proof. cbn [sprintf_loop]. destruct (directive s). by destruct a as [[] [] [] [] [] [] [] []]. Qed.

Lemma sprintf_fuel s fuel : (String.length s < fuel)%nat → sprintf_loop fuel s = Sprintf s.
Proof.
  unfold Sprintf. remember (String.length s) as n eqn:Hn. revert s Hn fuel. induction (lt_wf n) as [n _ IH]. intros s Hn fuel Hf.
  destruct fuel as [|fuel]; [lia|]. destruct s as [|a s]; [done|]. cbn [String.length] in Hn.
  assert (Hrec : ∀ r, (String.length r ≤ String.length s)%nat → sprintf_loop fuel r = sprintf_loop n r).
  { intros r Hr. rewrite (IH (String.length r) ltac:(lia) r eq_refl fuel ltac:(lia)).
    by rewrite (IH (String.length r) ltac:(lia) r eq_refl n ltac:(lia)). }
  rewrite !sprintf_step, (Hrec s), (Hrec (directive s).2); [done|apply directive_length|done].
Qed.

Lemma Sprintf_directive r : Sprintf (String "%" r) = (directive r).1 +:+ Sprintf (directive r).2.
Proof.
  unfold Sprintf at 1. rewrite sprintf_step. change (Ascii.eqb "%" "%") with true. cbv iota. f_equal. apply sprintf_fuel.
  pose proof (directive_length r). cbn [String.length]. lia.
Qed.

(** A text without a percent sign is written as it is. *)
Lemma Sprintf_app s t : byte_free "%" s = true → Sprintf (s +:+ t) = s +:+ Sprintf t.
Proof.
  unfold byte_free. induction s as [|a s IH]; [done|]. cbn [str_forallb]. intros [Ha%negb_true_iff Hs]%andb_true_iff.
  change (String a s +:+ t) with (String a (s +:+ t)). change (String a s +:+ Sprintf t) with (String a (s +:+ Sprintf t)).
  rewrite <- (IH Hs). unfold Sprintf at 1. by rewrite sprintf_step, Ha.
Qed.

Lemma Sprintf_free s : byte_free "%" s = true → Sprintf s = s.
Proof.
  intros Hs. pose proof (Sprintf_app s EmptyString Hs) as H. change (Sprintf EmptyString) with EmptyString in H.
  by rewrite append_nil_r in H.
Qed.

(** A percent sign before a bar writes the complaint and keeps the bar. *)
Lemma Sprintf_percent_bar s t :
  byte_free "%" s = true → byte_free "%" t = true → Sprintf (s +:+ "%|" +:+ t) = s +:+ "%!|(MISSING)" +:+ t.
Proof.
  intros Hs Ht. rewrite Sprintf_app by done. change ("%|" +:+ t) with (String "%" (String "|" t)).
  rewrite Sprintf_directive.
  assert (directive (String "|" t) = ("%!|(MISSING)", t)) as ->.
  { unfold directive. change (argNumber true (skip_flags (String "|" t))) with (false, true, String "|" t). cbv beta iota.
    change (read_width false true (String "|" t)) with (EmptyString, false, true, String "|" t). cbv beta iota.
    change (read_precision false true (String "|" t)) with (EmptyString, false, true, String "|" t). cbv beta iota.
    change (argNumber true (String "|" t)) with (false, true, String "|" t). cbv beta iota.
    unfold read_verb, verb_text. by rewrite rune_len_ascii. }
  by rewrite Sprintf_free.
Qed.
