(* ===== verification/ConfigFile.v ===== *)
(** * The configuration file of a node (internal/node/config/runtime.go)

    The INI-style file of the options of a node: what is read from it, what is
    written to it, and that a written configuration is read back.  The file is
    its text; reading it may fail. *)

From S2P Require Import Prelude GoStrings GoTime.

Record ControlPlaneConfig := {
  cpc_Host : string;
  cpc_Port : Z;
  cpc_GetPeersAfterDelay : bool;
  cpc_GetPeersDelay : Z;
  cpc_HeartbeatInterval : Z;
  cpc_RegisterOnStart : bool;
  cpc_RegistrationTimeout : Z;
}.

#[export] Instance ControlPlaneConfig_settable : Settable ControlPlaneConfig := λ c,
  Build_ControlPlaneConfig (cpc_Host c) (cpc_Port c) (cpc_GetPeersAfterDelay c) (cpc_GetPeersDelay c)
    (cpc_HeartbeatInterval c) (cpc_RegisterOnStart c) (cpc_RegistrationTimeout c).

Record NodeRuntimeConfig := { nrc_ControlPlane : ControlPlaneConfig }.

Definition DefaultNodeRuntimeConfig : NodeRuntimeConfig :=
  {| nrc_ControlPlane :=
       {| cpc_Host := "localhost"; cpc_Port := 9000; cpc_GetPeersAfterDelay := true; cpc_GetPeersDelay := 3 * ns_per_second;
          cpc_HeartbeatInterval := 3 * ns_per_second; cpc_RegisterOnStart := true; cpc_RegistrationTimeout := 5 * ns_per_second |} |}.

(** ** Reading *)

(** A number or duration that does not parse leaves the option as it is, a flag
    that does not parse is false. *)
Definition set_option (key value : string) (c : ControlPlaneConfig) : ControlPlaneConfig :=
  if (key =? "host")%string then c <| cpc_Host := value |>
  else if (key =? "port")%string then match Atoi value with Some p => c <| cpc_Port := p |> | None => c end
  else if (key =? "get_peers_after_delay")%string then c <| cpc_GetPeersAfterDelay := default false (ParseBool value) |>
  else if (key =? "get_peers_delay")%string then
    match ParseDuration value with Some d => c <| cpc_GetPeersDelay := d |> | None => c end
  else if (key =? "heartbeat_interval")%string then
    match ParseDuration value with Some d => c <| cpc_HeartbeatInterval := d |> | None => c end
  else if (key =? "register_on_start")%string then c <| cpc_RegisterOnStart := default false (ParseBool value) |>
  else if (key =? "registration_timeout")%string then
    match ParseDuration value with Some d => c <| cpc_RegistrationTimeout := d |> | None => c end
  else c.

(** A line: the section it is in, and the options so far. *)
Definition read_line (st : string * ControlPlaneConfig) (line : string) : string * ControlPlaneConfig :=
  let '(section, c) := st in
  let line := TrimSpace line in
  if bool_decide (line = EmptyString) || HasPrefix line "#" || HasPrefix line ";" then st
  else if HasPrefix line "[" && HasSuffix line "]" then (ToLower (TrimSuffix (TrimPrefix line "[") "]"), c)
  else match IndexByte line "=" with
  | None => st
  | Some i =>
      let key := TrimSpace (ToLower (str_take i line)) in
      let value := TrimSpace (str_drop (S i) line) in
      if (section =? "controlplane")%string then (section, set_option key value c) else st
  end.

Definition newline : Ascii.ascii := Ascii.ascii_of_nat 10.

(** The configuration is answered with the error, too. *)
Definition LoadNodeRuntimeConfig (file : result string) : NodeRuntimeConfig * option error :=
  match file with
  | Err e => (DefaultNodeRuntimeConfig, Some (Wrapf "failed to read config file: %w" [] e))
  | Ok data =>
      ({| nrc_ControlPlane := (foldl read_line (EmptyString, nrc_ControlPlane DefaultNodeRuntimeConfig) (Split data newline)).2 |}, None)
  end.

(** ** Writing *)

Definition setting (key value : string) : string := key +:+ " = " +:+ value.

Definition config_lines (c : ControlPlaneConfig) : list string :=
  ["# Node Runtime Configuration"; EmptyString; "[controlplane]"; setting "host" (cpc_Host c); setting "port" (itoa (cpc_Port c));
   setting "get_peers_after_delay" (btoa (cpc_GetPeersAfterDelay c)); setting "get_peers_delay" (Duration_String (cpc_GetPeersDelay c));
   setting "heartbeat_interval" (Duration_String (cpc_HeartbeatInterval c)); setting "register_on_start" (btoa (cpc_RegisterOnStart c));
   setting "registration_timeout" (Duration_String (cpc_RegistrationTimeout c))].

(** The text of the file; each line ends in a newline. *)
Definition SaveNodeRuntimeConfig (cfg : NodeRuntimeConfig) : string :=
  Join (config_lines (nrc_ControlPlane cfg) ++ [EmptyString]) (String newline EmptyString).

Example Load_example :
  LoadNodeRuntimeConfig (Ok (Join ["; a comment"; "[ControlPlane]"; " Host=cp.example "; "port = many"; "get_peers_delay = 1m"; "register_on_start = no"; "[other]"; "port = 1"] (String newline EmptyString)))
  = ({| nrc_ControlPlane := (nrc_ControlPlane DefaultNodeRuntimeConfig) <| cpc_Host := "cp.example" |> <| cpc_GetPeersDelay := 60 * ns_per_second |>
          <| cpc_RegisterOnStart := false |> |}, None).
Proof. vm_compute. reflexivity. Qed.

(** ** Round trip *)

Definition is_ascii (a : Ascii.ascii) : bool := (byte_of a <? 0x80)%N.

Lemma space_len_ascii a r : is_ascii a = true → space_len (String a r) = if ascii_space a then 1%nat else 0%nat.
Proof.
  unfold is_ascii. intros Ha%N.ltb_lt. cbn [space_len]. destruct (ascii_space a); [done|].
  assert (∀ n, (0x80 ≤ n)%N → is_byte n a = false) as Hn by (intros n Hn; apply N.eqb_neq; lia).
  rewrite !Hn by lia. by destruct r as [|b [|c r]].
Qed.

(** Trimming what ends in no space. *)
Lemma all_space_ascii p s : str_forallb is_ascii p = true → all_space 0 s = false → all_space 0 (p +:+ s) = false.
Proof.
  intros Hp Hs. induction p as [|a p IH]; [done|]. cbn [str_forallb] in Hp. apply andb_true_iff in Hp as [Ha Hp].
  change (String a p +:+ s) with (String a (p +:+ s)). cbn [all_space]. rewrite space_len_ascii by done.
  destruct (ascii_space a); [by apply IH|done].
Qed.

Lemma trim_right_ascii p s : str_forallb is_ascii p = true → s ≠ EmptyString → trim_right s = s → trim_right (p +:+ s) = p +:+ s.
Proof.
  intros Hp Hne Hs. assert (all_space 0 s = false) as Has.
  { destruct s as [|a r]; [done|]. cbn [trim_right] in Hs. destruct (all_space 0 (String a r)); done. }
  induction p as [|a p IH]; [done|]. pose proof (all_space_ascii (String a p) s Hp Has) as Hap.
  cbn [str_forallb] in Hp. apply andb_true_iff in Hp as [Ha Hp].
  change (String a p +:+ s) with (String a (p +:+ s)) in *. cbn [trim_right]. by rewrite Hap, IH.
Qed.

(** What the lines of the writer start with, and the reader goes by. *)
Definition option_name (key : string) : bool :=
  byte_free "=" key && is_word key && str_forallb is_ascii key
  && negb (HasPrefix key "#" || HasPrefix key ";" || HasPrefix key "[")
  && bool_decide (TrimSpace (ToLower (key +:+ " ")) = key ∧ TrimSpace (key +:+ " = ") = key +:+ " =").

(** A value that a line keeps as it is. *)
Definition trimmed (value : string) : Prop := TrimSpace value = value.

Lemma trim_left_length k s : (String.length (trim_left k s) ≤ String.length s)%nat.
Proof.
  revert k. induction s as [|a s IH]; intros k; [done|]. cbn [trim_left].
  repeat case_match; cbn [String.length]; try (etransitivity; [apply IH|lia]). lia.
Qed.

Lemma trim_right_length s : (String.length (trim_right s) ≤ String.length s)%nat.
Proof. induction s as [|a s IH]; [done|]. cbn [trim_right]. case_match; cbn [String.length]; lia. Qed.

Lemma trimmed_right value : trimmed value → trim_right value = value.
Proof.
  unfold trimmed, TrimSpace. intros Hv. assert (trim_left 0 value = value) as Hl; [|by rewrite Hl in Hv].
  pose proof (trim_right_length (trim_left 0 value)) as Hr. rewrite Hv in Hr.
  destruct value as [|a s]; [done|]. cbn [trim_left] in *. destruct (space_len (String a s)) as [|k]; [done|].
  pose proof (trim_left_length k s). cbn [String.length] in Hr. lia.
Qed.

(** A line of the writer sets its option. *)
Lemma read_setting section c key value :
  option_name key = true → trimmed value →
  read_line (section, c) (setting key value) =
  (section, if (section =? "controlplane")%string then set_option key value c else c).
Proof.
  unfold option_name. rewrite !andb_true_iff, bool_decide_eq_true. intros [[[[Hf Hw] Ha] Hp%negb_true_iff] [Hk He]] Hv.
  set (tail := if bool_decide (value = EmptyString) then EmptyString else String " " value).
  assert (TrimSpace (setting key value) = key +:+ " =" +:+ tail) as Ht.
  { unfold setting, tail. case_bool_decide as Hn; [by subst; rewrite !append_nil_r|].
    unfold TrimSpace. change (" = " +:+ value) with (String " " ("= " +:+ value)). rewrite trim_left_line by done.
    change (key +:+ String " " ("= " +:+ value)) with (key +:+ " = " +:+ value). rewrite append_assoc.
    rewrite trim_right_ascii; [by rewrite <-append_assoc| |done|by apply trimmed_right]. rewrite str_forallb_app, Ha. done. }
  unfold read_line. rewrite Ht. destruct key as [|a key]; [done|].
  change (String a key +:+ ?x) with (String a (key +:+ x)) in Ht |- *.
  apply orb_false_iff in Hp as [[Hp1 Hp2]%orb_false_iff Hp3].
  assert (HP : ∀ x c, HasPrefix (String a x) (String c EmptyString) = HasPrefix (String a key) (String c EmptyString)).
  { intros x d. unfold HasPrefix. cbn -[Ascii.ascii_dec]. destruct (Ascii.ascii_dec d a); by destruct x, key. }
  rewrite (HP _ "#"%char), (HP _ ";"%char), (HP _ "["%char), Hp1, Hp2, Hp3. rewrite bool_decide_false by done. cbn [orb andb].
  change (String a (key +:+ " =" +:+ tail)) with (String a key +:+ " " +:+ String "=" tail). rewrite append_assoc.
  assert (byte_free "=" (String a key +:+ " ") = true) as Hfe by (unfold byte_free in *; by rewrite str_forallb_app, Hf).
  rewrite IndexByte_app_free by done. cbn [IndexByte]. rewrite Ascii.eqb_refl. cbn [fmap option_fmap option_map]. rewrite Nat.add_0_r.
  rewrite str_take_app, str_drop_app_S, Hk.
  assert (TrimSpace tail = value) as -> by (unfold tail; by case_bool_decide; subst).
  by destruct (section =? "controlplane")%string.
Qed.

Lemma no_space_plain p s : str_forallb plain p = true → no_space s = true → no_space (p +:+ s) = true.
Proof.
  intros Hp Hs. induction p as [|a p IH]; [done|]. cbn [str_forallb] in Hp. apply andb_true_iff in Hp as [[Ha Hn]%andb_true_iff Hp].
  change (String a p +:+ s) with (String a (p +:+ s)). cbn [no_space]. rewrite space_len_ascii by done.
  apply negb_true_iff in Hn. rewrite Hn. by apply IH.
Qed.

Lemma itoa_is_plain z : str_forallb plain (itoa z) = true.
Proof. by apply (itoa_bytes plain z is_digit_plain). Qed.

Lemma fmtFrac_plain n v : 0 ≤ v → str_forallb plain (fmtFrac n v) = true.
Proof.
  intros Hv. destruct (fmtFrac_digits n v Hv) as [[-> _]|(w & f & -> & _ & _ & Hd & _)]; [done|].
  rewrite str_forallb_app. apply (str_forallb_impl is_digit plain); [apply is_digit_plain|]. by eapply digits_from_digits.
Qed.

Lemma Duration_no_space d : no_space (Duration_String d) = true.
Proof.
  assert (∀ u, 0 ≤ u → no_space (Duration_body u) = true) as Hb.
  { intros u Hu. assert (no_space (seconds_text u) = true) as Hs.
    { unfold seconds_text. apply no_space_plain; [apply itoa_is_plain|]. apply no_space_plain; [by apply fmtFrac_plain|done]. }
    unfold Duration_body. repeat case_match; repeat (apply no_space_plain; [by first [apply itoa_is_plain|apply fmtFrac_plain|done]|]); done. }
  unfold Duration_String. repeat case_match; [done| |].
  - apply (no_space_plain "-"); [done|]. apply Hb. lia.
  - apply Hb. lia.
Qed.

Lemma no_space_one_line s : no_space s = true → byte_free newline s = true.
Proof.
  unfold byte_free. induction s as [|a s IH]; [done|]. cbn [no_space str_forallb]. intros [Hl%Nat.eqb_eq Hs]%andb_true_iff.
  rewrite IH, andb_true_r by done. apply negb_true_iff, Ascii.eqb_neq. intros ->. by cbn in Hl.
Qed.

(** The values that the writer can keep. *)
Record storable (c : ControlPlaneConfig) : Prop := {
  st_host : TrimSpace (cpc_Host c) = cpc_Host c;
  st_line : byte_free newline (cpc_Host c) = true;
  st_port : in_i64 (cpc_Port c);
  st_peers : in_i64 (cpc_GetPeersDelay c);
  st_heartbeat : in_i64 (cpc_HeartbeatInterval c);
  st_registration : in_i64 (cpc_RegistrationTimeout c);
}.

Lemma setting_line key value : byte_free newline key = true → byte_free newline value = true → byte_free newline (setting key value) = true.
Proof. unfold byte_free, setting. intros Hk Hv. by rewrite !str_forallb_app, Hk, Hv. Qed.

(** C35: A configuration that is written to its file is read back: host, port,
    flags and durations, for a host without line breaks or white space at its
    ends and numbers of 64 bits. *)
Theorem config_roundtrip cfg :
  storable (nrc_ControlPlane cfg) → LoadNodeRuntimeConfig (Ok (SaveNodeRuntimeConfig cfg)) = (cfg, None).
Proof.
  destruct cfg as [c]. cbn [nrc_ControlPlane]. intros [Hh Hl Hp Hg Hb Hr].
  unfold LoadNodeRuntimeConfig, SaveNodeRuntimeConfig. cbn [nrc_ControlPlane].
  pose proof itoa_word as Hiw. pose proof btoa_word as Hbw.
  rewrite Split_Join; [|by destruct (config_lines c)|].
  2: { unfold config_lines. cbn [app forallb]. rewrite !setting_line; try done;
         apply no_space_one_line; first [by apply word_no_space|apply Duration_no_space]. }
  unfold config_lines. cbn [app foldl].
  assert (read_line (read_line (read_line (EmptyString, nrc_ControlPlane DefaultNodeRuntimeConfig) "# Node Runtime Configuration") EmptyString)
    "[controlplane]" = ("controlplane", nrc_ControlPlane DefaultNodeRuntimeConfig)) as -> by reflexivity.
  rewrite !read_setting; try done; try (apply TrimSpace_no_space; first [by apply word_no_space|apply Duration_no_space]).
  cbn -[Atoi itoa ParseBool btoa ParseDuration Duration_String].
  rewrite Atoi_itoa, !ParseBool_btoa, !ParseDuration_String by done. by destruct c.
Qed.

Definition demo_stored : NodeRuntimeConfig :=
  {| nrc_ControlPlane := (nrc_ControlPlane DefaultNodeRuntimeConfig) <| cpc_Host := "cp-1 = [main]" |> <| cpc_Port := -1 |>
       <| cpc_GetPeersDelay := -5400000000001 |> <| cpc_HeartbeatInterval := 1500 |> <| cpc_RegisterOnStart := false |> |}.

Lemma config_roundtrip_witness : LoadNodeRuntimeConfig (Ok (SaveNodeRuntimeConfig demo_stored)) = (demo_stored, None).
Proof. apply config_roundtrip. by split; vm_compute. Defined.
