(* ===== verification/ServerLoop.v ===== *)
(** * A server goroutine and its clients

    Two parts of the program are goroutines that own a state and take commands
    from a channel: the actor of the control plane (internal/controlplane/actor.go)
    and the reactor of a node (internal/node/runtime/reactor.go).  Their clients
    are other goroutines, each with a reply channel of its own.  This file has the
    channels and the steps of all of them in any order, and shows that a client
    can take a command for one atomic step, as the other files do, and when it is
    answered.  ActorLoop and ReactorLoop are its two uses. *)

From S2P Require Import Prelude.

(** What the two differ in: the commands, whether a command is answered, the room
    of the channel, whether submitting a command looks at the context of the
    server, and whether waiting looks at the context of the caller. *)
Record Server := {
  sv_State : Type;
  sv_Command : Type;
  sv_Result : Type;
  sv_perform : sv_Command → sv_State → outcome (sv_State * sv_Result);
  sv_answers : sv_Command → bool;
  sv_cap : nat;
  sv_submit_looks : bool;
  sv_wait_looks : bool;
}.

Section Loop.
Context {S : Server}.

(** Where the goroutine of a client is.  [Sent]: it waits for no answer.
    [TimedOut]: its own context was done first. *)
Inductive position :=
  | InSubmit
  | InWait
  | Sent
  | TimedOut
  | Returned (r : sv_Result S).

(** A command that a client has made; its reply channel holds at most one
    result. *)
Record Request := { rq_cmd : sv_Command S; rq_at : position; rq_replyCh : option (sv_Result S) }.

Definition set_at (p : position) (rq : Request) : Request := {| rq_cmd := rq_cmd rq; rq_at := p; rq_replyCh := rq_replyCh rq |}.
Definition set_replyCh (r : option (sv_Result S)) (rq : Request) : Request :=
  {| rq_cmd := rq_cmd rq; rq_at := rq_at rq; rq_replyCh := r |}.

(** The program: the state of the server, its channel, whether its context is
    done, whether its loop still runs, and whether a goroutine has panicked, which
    ends everything. *)
Record Loop := {
  lp_state : sv_State S;
  lp_cmdCh : list (nat * sv_Command S);
  lp_done : bool;
  lp_running : bool;
  lp_crashed : bool;
  lp_requests : gmap nat Request;
}.

Definition set_state (st : sv_State S) (s : Loop) : Loop :=
  {| lp_state := st; lp_cmdCh := lp_cmdCh s; lp_done := lp_done s; lp_running := lp_running s; lp_crashed := lp_crashed s;
     lp_requests := lp_requests s |}.
Definition set_cmdCh (q : list (nat * sv_Command S)) (s : Loop) : Loop :=
  {| lp_state := lp_state s; lp_cmdCh := q; lp_done := lp_done s; lp_running := lp_running s; lp_crashed := lp_crashed s;
     lp_requests := lp_requests s |}.
Definition set_flags (done running crashed : bool) (s : Loop) : Loop :=
  {| lp_state := lp_state s; lp_cmdCh := lp_cmdCh s; lp_done := done; lp_running := running; lp_crashed := crashed;
     lp_requests := lp_requests s |}.
Definition set_request (id : nat) (rq : Request) (s : Loop) : Loop :=
  {| lp_state := lp_state s; lp_cmdCh := lp_cmdCh s; lp_done := lp_done s; lp_running := lp_running s; lp_crashed := lp_crashed s;
     lp_requests := <[id := rq]> (lp_requests s) |}.

Definition NewLoop (st : sv_State S) : Loop :=
  {| lp_state := st; lp_cmdCh := []; lp_done := false; lp_running := true; lp_crashed := false; lp_requests := ∅ |}.

(** ** What the goroutines do *)

(** A command is made, with a reply channel of its own. *)
Definition make_command (id : nat) (cmd : sv_Command S) (s : Loop) : option Loop :=
  match lp_requests s !! id with
  | Some _ => None
  | None => Some (set_request id {| rq_cmd := cmd; rq_at := InSubmit; rq_replyCh := None |} s)
  end.

(** Where a client is after it has submitted. *)
Definition after_submit (cmd : sv_Command S) : position := if sv_answers S cmd then InWait else Sent.

(** The command goes into the channel when it has room; when the context is done
    a client that looks at it may also give the command up.  Either way it goes on
    to wait. *)
Definition Submit (id : nat) (abandon : bool) (s : Loop) : option Loop :=
  match lp_requests s !! id with
  | Some rq =>
      match rq_at rq with
      | InSubmit =>
          let s' := set_request id (set_at (after_submit (rq_cmd rq)) rq) s in
          if abandon then (if sv_submit_looks S && lp_done s then Some s' else None)
          else if (length (lp_cmdCh s) <? sv_cap S)%nat then Some (set_cmdCh (lp_cmdCh s ++ [(id, rq_cmd rq)]) s') else None
      | _ => None
      end
  | None => None
  end.

(** The client receives the result. *)
Definition Wait (id : nat) (s : Loop) : option Loop :=
  match lp_requests s !! id with
  | Some rq =>
      match rq_at rq, rq_replyCh rq with
      | InWait, Some r => Some (set_request id (set_replyCh None (set_at (Returned r) rq)) s)
      | _, _ => None
      end
  | None => None
  end.

(** The client stops waiting: its context may be done at any time. *)
Definition Timeout (id : nat) (s : Loop) : option Loop :=
  match lp_requests s !! id with
  | Some rq =>
      match rq_at rq with
      | InWait => if sv_wait_looks S then Some (set_request id (set_at TimedOut rq) s) else None
      | _ => None
      end
  | None => None
  end.

(** A reply is sent; that blocks when the channel is full. *)
Definition Reply (id : nat) (r : sv_Result S) (s : Loop) : option Loop :=
  match lp_requests s !! id with
  | Some rq =>
      match rq_replyCh rq with
      | None => Some (set_request id (set_replyCh (Some r) rq) s)
      | Some _ => None
      end
  | None => None
  end.

(** A round of the loop: it takes the first command and replies, or returns when
    the context is done. *)
Definition Run_command (s : Loop) : option Loop :=
  if negb (lp_running s) then None
  else match lp_cmdCh s with
       | [] => None
       | (id, cmd) :: rest =>
           match sv_perform S cmd (lp_state s) with
           | Panic _ => Some (set_flags (lp_done s) false true s)
           | Done (st, r) =>
               let s' := set_state st (set_cmdCh rest s) in
               if sv_answers S cmd then Reply id r s' else Some s'
           end
       end.

Definition Run_return (s : Loop) : option Loop :=
  if lp_running s && lp_done s then Some (set_flags true false (lp_crashed s) s) else None.

Definition Cancel (s : Loop) : option Loop := Some (set_flags true (lp_running s) (lp_crashed s) s).

Inductive label :=
  | LCall (id : nat) (cmd : sv_Command S)
  | LSubmit (id : nat)
  | LGiveUp (id : nat)
  | LTake
  | LReturn (id : nat)
  | LTimeout (id : nat)
  | LExit
  | LCancel
  | LOther (f : sv_State S → sv_State S).   (* another goroutine changes the state *)

Definition loop_step (l : label) (s : Loop) : option Loop :=
  if lp_crashed s then None
  else match l with
       | LCall id cmd => make_command id cmd s
       | LSubmit id => Submit id false s
       | LGiveUp id => Submit id true s
       | LTake => Run_command s
       | LReturn id => Wait id s
       | LTimeout id => Timeout id s
       | LExit => Run_return s
       | LCancel => Cancel s
       | LOther f => Some (set_state (f (lp_state s)) s)
       end.

Fixpoint loop_run (tr : list label) (s : Loop) : option Loop :=
  match tr with
  | [] => Some s
  | l :: tr => match loop_step l s with Some s' => loop_run tr s' | None => None end
  end.

(** ** What has been done *)

(** What one goroutine does to the state: a command of a client, with its
    result, or the change another goroutine makes to the state it finds. *)
Inductive op :=
  | Did (id : nat) (cmd : sv_Command S) (r : sv_Result S)
  | Other (f : sv_State S → sv_State S).

Definition step_ops (l : label) (s : Loop) : list op :=
  match l with
  | LTake =>
      match lp_cmdCh s with
      | (id, cmd) :: _ =>
          match sv_perform S cmd (lp_state s) with
          | Done (_, r) => [Did id cmd r]
          | Panic _ => []
          end
      | [] => []
      end
  | LOther f => [Other f]
  | _ => []
  end.

Fixpoint performed (tr : list label) (s : Loop) : list op :=
  match tr with
  | [] => []
  | l :: tr => step_ops l s ++ match loop_step l s with Some s' => performed tr s' | None => [] end
  end.

(** The same one after another, each command at once. *)
Fixpoint sequential (ops : list op) (st st' : sv_State S) : Prop :=
  match ops with
  | [] => st = st'
  | Did _ cmd r :: ops => ∃ st1, sv_perform S cmd st = Done (st1, r) ∧ sequential ops st1 st'
  | Other f :: ops => sequential ops (f st) st'
  end.

(** A history read off a trace, label by label: a round of the loop does one
    command, unless it panics, which ends the trace; another goroutine makes the
    change of its label; nobody else touches the state. *)
Inductive history : list label → list op → Prop :=
  | history_end : history [] []
  | history_take id cmd r tr ops : history tr ops → history (LTake :: tr) (Did id cmd r :: ops)
  | history_panic : history [LTake] []
  | history_other f tr ops : history tr ops → history (LOther f :: tr) (Other f :: ops)
  | history_quiet l tr ops :
      l ≠ LTake → (∀ f, l ≠ LOther f) → history tr ops → history (l :: tr) ops.

(** The commands that were done, and the commands that were submitted. *)
Definition op_id (o : op) : option nat := match o with Did id _ _ => Some id | Other _ => None end.
Definition submits (l : label) : option nat := match l with LSubmit id => Some id | _ => None end.

(** The result that a client has, or finds in its channel. *)
Definition answered (rq : Request) : option (sv_Result S) :=
  match rq_at rq with Returned r => Some r | _ => rq_replyCh rq end.

Definition answer (id : nat) (s : Loop) : option (sv_Result S) := lp_requests s !! id ≫= answered.
Definition command_of (id : nat) (s : Loop) : option (sv_Command S) := rq_cmd <$> lp_requests s !! id.

(** The result that was returned to a client. *)
Definition returned (id : nat) (s : Loop) : option (sv_Result S) :=
  rq ← lp_requests s !! id; match rq_at rq with Returned r => Some r | _ => None end.

(** Whether a command is still to be submitted. *)
Definition unsubmitted (id : nat) (s : Loop) : bool :=
  match lp_requests s !! id with Some rq => match rq_at rq with InSubmit => true | _ => false end | None => true end.
End Loop.
Arguments Loop : clear implicits.
Arguments Request : clear implicits.
Arguments label : clear implicits.
Arguments op : clear implicits.
