(* ===== verification/ServerLoopProps.v ===== *)
(** * A server goroutine and its clients: what they do together

    Each step keeps the channels in order and does at most one command; so a run
    does the commands one after another, in the order they were submitted in,
    every client is answered as long as nothing is stopped, and after that none
    is. *)

From S2P Require Import Prelude ServerLoop.

(** ** One step *)

Section Steps.
Context {S : Server}.
Implicit Types s : Loop S.

Lemma sequential_app (ops1 ops2 : list (op S)) st st1 st2 :
  sequential ops1 st st1 → sequential ops2 st1 st2 → sequential (ops1 ++ ops2) st st2.
Proof.
  revert st; induction ops1 as [|[id cmd r|f] ops1 IH]; intros st; cbn.
  - by intros ->.
  - intros (st' & Hh & Hs) Hseq2. exists st'. split; [done|]. by apply IH.
  - apply IH.
Qed.

(** What is in the channel are commands that were submitted, each once, and not
    replied to; a command that is not submitted yet has no reply. *)
Record loop_ok s : Prop := {
  ok_once : NoDup (lp_cmdCh s).*1;
  ok_queue id cmd : (id, cmd) ∈ lp_cmdCh s →
    ∃ p, lp_requests s !! id = Some {| rq_cmd := cmd; rq_at := p; rq_replyCh := None |} ∧ p ≠ InSubmit ∧ ∀ r, p ≠ Returned r;
  ok_unsubmitted id rq : lp_requests s !! id = Some rq → rq_at rq = InSubmit → rq_replyCh rq = None;
}.

Lemma loop_ok_new st : loop_ok (NewLoop (S := S) st).
Proof. split; cbn; [constructor|intros ?? []%not_elem_of_nil|intros ??]. by rewrite lookup_empty. Qed.

(** What a step does. *)
Record step_effect (l : label S) s s' : Prop := {
  se_ok : loop_ok s';
  se_sequential : sequential (step_ops l s) (lp_state s) (lp_state s');
  se_fifo : (lp_cmdCh s).*1 ++ option_list (submits l) = omap op_id (step_ops l s) ++ (lp_cmdCh s').*1;
  se_answer id r : answer id s' = Some r ↔ answer id s = Some r ∨ ∃ cmd, sv_answers S cmd = true ∧ Did id cmd r ∈ step_ops l s;
  se_did id cmd r : Did id cmd r ∈ step_ops l s → command_of id s = Some cmd;
  se_command id cmd : command_of id s' = Some cmd ↔ command_of id s = Some cmd ∨ l = LCall id cmd;
  se_unsubmitted id : unsubmitted id s' = true → unsubmitted id s = true;
  se_submits id : submits l = Some id → unsubmitted id s = true ∧ unsubmitted id s' = false;
}.

(** A step that does and submits no command. *)
Lemma quiet_effect l s s' :
  loop_ok s' → step_ops l s = [] → submits l = None → (∀ id cmd, l ≠ LCall id cmd) →
  lp_state s' = lp_state s → lp_cmdCh s' = lp_cmdCh s →
  (∀ id, answer id s' = answer id s) → (∀ id, command_of id s' = command_of id s) →
  (∀ id, unsubmitted id s' = true → unsubmitted id s = true) → step_effect l s s'.
Proof.
  intros Hok Hops Hsub Hl Hst Hch Ha Hc Hu. split; rewrite ?Hops, ?Hsub, ?Hst, ?Hch; cbn; try done.
  - by rewrite app_nil_r.
  - intros id r. rewrite Ha. split; [by left|]. by intros [?|(? & _ & []%not_elem_of_nil)].
  - intros ??? []%not_elem_of_nil.
  - intros id cmd. rewrite Hc. split; [by left|]. intros [?|?]; [done|]. by destruct (Hl id cmd).
Qed.

(** A step that changes one request. *)
Lemma answer_update id rq' s s' id' :
  lp_requests s' = <[id := rq']> (lp_requests s) →
  answer id' s' = if decide (id = id') then answered rq' else answer id' s.
Proof. intros Hs'. unfold answer. rewrite Hs'. destruct (decide (id = id')) as [->|]; by simplify_map_eq. Qed.

Lemma answer_kept id rq rq' s s' :
  lp_requests s !! id = Some rq → lp_requests s' = <[id := rq']> (lp_requests s) →
  answered rq' = answered rq → ∀ id', answer id' s' = answer id' s.
Proof.
  intros Hid Hs' Ha id'. rewrite (answer_update id rq' s) by done. case_decide as Hd; [|done]. subst id'. unfold answer. rewrite Hid. by rewrite Ha.
Qed.

Lemma command_kept id rq rq' s s' :
  lp_requests s !! id = Some rq → lp_requests s' = <[id := rq']> (lp_requests s) →
  rq_cmd rq' = rq_cmd rq → ∀ id', command_of id' s' = command_of id' s.
Proof.
  intros Hid Hs' Hc id'. unfold command_of. rewrite Hs'. destruct (decide (id = id')) as [<-|]; simplify_map_eq; [|done]. cbn. by rewrite Hc.
Qed.

Lemma unsubmitted_kept id rq' s s' :
  lp_requests s' = <[id := rq']> (lp_requests s) →
  rq_at rq' ≠ InSubmit → ∀ id', unsubmitted id' s' = true → unsubmitted id' s = true.
Proof.
  intros Hs' Hp id'. unfold unsubmitted. rewrite Hs'. destruct (decide (id = id')) as [<-|]; simplify_map_eq; [|done]. by destruct (rq_at rq').
Qed.

Lemma loop_ok_update id rq rq' s s' :
  lp_requests s !! id = Some rq → lp_requests s' = <[id := rq']> (lp_requests s) →
  lp_cmdCh s' = lp_cmdCh s → rq_cmd rq' = rq_cmd rq → rq_at rq' ≠ InSubmit → rq_replyCh rq' = None →
  (rq_replyCh rq = None → ∀ r, rq_at rq' ≠ Returned r) → loop_ok s → loop_ok s'.
Proof.
  intros Hid Hs' Hch Hc Hp Hr Hret [Hn Hq Hu]. split.
  - by rewrite Hch.
  - rewrite Hch, Hs'. intros i c Hin. destruct (Hq i c Hin) as (p & Hi & Hp' & Hpr). destruct (decide (id = i)) as [<-|].
    + rewrite lookup_insert_eq. exists (rq_at rq'). rewrite Hi in Hid. injection Hid as <-. cbn in Hc. split_and!.
      * destruct rq' as [c' p' r']. cbn in *. congruence.
      * done.
      * by apply Hret.
    + rewrite lookup_insert_ne by done. by exists p.
  - rewrite Hs'. intros i q Hi Hat. destruct (decide (id = i)) as [<-|]; simplify_map_eq. by eapply Hu.
Qed.

Lemma loop_ok_same s s' : lp_cmdCh s' = lp_cmdCh s → lp_requests s' = lp_requests s → loop_ok s → loop_ok s'.
Proof. intros Hq Hr [??]. split; [by rewrite Hq|by rewrite Hq, Hr|by rewrite Hr]. Qed.

(** A step that changes no request. *)
Lemma same_effect l s s' :
  loop_ok s → lp_cmdCh s' = lp_cmdCh s → lp_requests s' = lp_requests s → lp_state s' = lp_state s →
  step_ops l s = [] → submits l = None → (∀ id cmd, l ≠ LCall id cmd) → step_effect l s s'.
Proof.
  intros Hok Hq Hr Hst Hops Hsub Hl. apply quiet_effect; try done.
  - by eapply loop_ok_same.
  - intros id. unfold answer. by rewrite Hr.
  - intros id. unfold command_of. by rewrite Hr.
  - intros id. unfold unsubmitted. by rewrite Hr.
Qed.

Lemma other_effect f s : loop_ok s → step_effect (LOther f) s (set_state (f (lp_state s)) s).
Proof.
  intros Hok. split; cbn; try done.
  - by apply (loop_ok_same s).
  - by rewrite app_nil_r.
  - intros id r. split; [by left|]. by intros [?|(? & _ & ?%list_elem_of_singleton)].
  - by intros ??? ?%list_elem_of_singleton.
  - intros id cmd. split; [by left|]. by intros [?|?].
Qed.

Lemma call_effect id cmd s s' : loop_ok s → make_command id cmd s = Some s' → step_effect (LCall id cmd) s s'.
Proof.
  intros [Hn Hq Hr]. unfold make_command. destruct (lp_requests s !! id) as [rq|] eqn:Hid; [done|]. intros [= <-]. split; cbn; try done.
  - split; cbn; [done| |].
    + intros id' cmd' Hin. destruct (Hq _ _ Hin) as (p & Hi & Hp). exists p. rewrite lookup_insert_ne; [done|congruence].
    + intros id' rq Hid'. destruct (decide (id = id')) as [<-|]; simplify_map_eq; [done|]. by eapply Hr.
  - by rewrite app_nil_r.
  - intros id' r. rewrite (answer_update id {| rq_cmd := cmd; rq_at := InSubmit; rq_replyCh := None |} s) by done. case_decide as Hd.
    + subst id'. unfold answer. rewrite Hid. cbn. split; [done|]. by intros [?|(? & _ & []%not_elem_of_nil)].
    + split; [by left|]. by intros [?|(? & _ & []%not_elem_of_nil)].
  - intros ??? []%not_elem_of_nil.
  - intros id' cmd'. unfold command_of. cbn. destruct (decide (id = id')) as [<-|]; simplify_map_eq.
    + rewrite ?Hid. cbn. split; [intros [= <-]; by right|]. by intros [?|[= <-]].
    + split; [by left|]. by intros [?|[= ? ?]].
  - intros id'. unfold unsubmitted. cbn. destruct (decide (id = id')) as [<-|]; simplify_map_eq; [|done]. by rewrite ?Hid.
Qed.

Lemma after_submit_at cmd : after_submit (S := S) cmd ≠ InSubmit ∧ ∀ r, after_submit (S := S) cmd ≠ Returned r.
Proof. unfold after_submit. by destruct (sv_answers S cmd). Qed.

Lemma abandon_effect id s s' : loop_ok s → Submit id true s = Some s' → step_effect (LGiveUp id) s s'.
Proof.
  intros Hok. pose proof Hok as [_ _ Hr]. unfold Submit. destruct (lp_requests s !! id) as [rq|] eqn:Hid; [|done].
  destruct (rq_at rq) eqn:Hat; [|done..]. destruct (_ && _); [|done]. intros [= <-]. specialize (Hr id rq Hid Hat).
  destruct (after_submit_at (rq_cmd rq)) as [Hp Hp']. apply quiet_effect; try done.
  - eapply (loop_ok_update id rq (set_at (after_submit (rq_cmd rq)) rq) s); done.
  - eapply (answer_kept id rq); [done|done|]. unfold answered. rewrite Hat, Hr. cbn. unfold after_submit. by destruct (sv_answers S _).
  - by eapply (command_kept id rq).
  - by eapply (unsubmitted_kept id).
Qed.

Lemma submit_effect id s s' : loop_ok s → Submit id false s = Some s' → step_effect (LSubmit id) s s'.
Proof.
  intros Hok. pose proof Hok as [Hn Hq Hr]. unfold Submit. destruct (lp_requests s !! id) as [rq|] eqn:Hid; [|done].
  destruct (rq_at rq) eqn:Hat; [|done..]. destruct (_ <? _)%nat; [|done]. intros [= <-]. specialize (Hr id rq Hid Hat).
  set (rq' := set_at (after_submit (rq_cmd rq)) rq). set (s1 := set_request id rq' s). destruct (after_submit_at (rq_cmd rq)) as [Hp Hp'].
  assert (Hok1 : loop_ok s1) by (by eapply (loop_ok_update id rq rq' s)).
  assert (Hni : id ∉ (lp_cmdCh s).*1).
  { intros ([i c] & -> & Hin)%list_elem_of_fmap. destruct (Hq _ _ Hin) as (p & Hi & Hpi & _). cbn in Hid. rewrite Hi in Hid.
    injection Hid as <-. done. }
  split; cbn.
  - destruct Hok1 as [Hn1 Hq1 Hr1]. split; cbn; [|intros i c [Hin|[= -> ->]%list_elem_of_singleton]%elem_of_app; [by apply Hq1|]|done].
    + rewrite fmap_app. apply NoDup_app. split; [done|]. split; [|apply NoDup_singleton]. by intros i Hi ->%list_elem_of_singleton.
    + exists (after_submit (rq_cmd rq)). rewrite lookup_insert_eq. by rewrite <-Hr.
  - done.
  - by rewrite fmap_app.
  - intros i r. change (answer i (set_cmdCh _ s1)) with (answer i s1). rewrite (answer_kept id rq rq' s s1).
    + split; [by left|]. by intros [?|(? & _ & []%not_elem_of_nil)].
    + done.
    + done.
    + unfold answered. rewrite Hat, Hr. cbn. unfold after_submit. by destruct (sv_answers S _).
  - intros ??? []%not_elem_of_nil.
  - intros i c. change (command_of i (set_cmdCh _ s1)) with (command_of i s1). rewrite (command_kept id rq rq' s s1) by done.
    split; [by left|]. by intros [?|?].
  - by eapply (unsubmitted_kept id).
  - intros i [= <-]. unfold unsubmitted. cbn. rewrite Hid, Hat, lookup_insert_eq. cbn. by destruct (after_submit (rq_cmd rq)).
Qed.

Lemma wait_effect id s s' : loop_ok s → Wait id s = Some s' → step_effect (LReturn id) s s'.
Proof.
  intros Hok. unfold Wait. destruct (lp_requests s !! id) as [rq|] eqn:Hid; [|done].
  destruct (rq_at rq) eqn:Hat; try done. destruct (rq_replyCh rq) as [r|] eqn:Hch; [|done]. intros [= <-]. apply quiet_effect; try done.
  - eapply (loop_ok_update id rq (set_replyCh None (set_at (Returned r) rq)) s); try done. by rewrite Hch.
  - eapply (answer_kept id rq); [done|done|]. unfold answered. by rewrite Hat, Hch.
  - by eapply (command_kept id rq).
  - by eapply (unsubmitted_kept id).
Qed.

Lemma timeout_effect id s s' : loop_ok s → Timeout id s = Some s' → step_effect (LTimeout id) s s'.
Proof.
  intros Hok. unfold Timeout. destruct (lp_requests s !! id) as [rq|] eqn:Hid; [|done].
  destruct (rq_at rq) eqn:Hat; try done. destruct (sv_wait_looks S); [|done]. intros [= <-]. apply quiet_effect; try done.
  - destruct Hok as [Hn Hq Hr]. split; cbn; [done| |].
    + intros i c Hin. destruct (Hq i c Hin) as (p & Hi & Hp). destruct (decide (id = i)) as [<-|].
      * rewrite lookup_insert_eq. rewrite Hi in Hid. injection Hid as <-. by exists TimedOut.
      * rewrite lookup_insert_ne by done. by exists p.
    + intros i q Hi Hqa. destruct (decide (id = i)) as [<-|]; simplify_map_eq. by eapply Hr.
  - eapply (answer_kept id rq); [done|done|]. unfold answered. by rewrite Hat.
  - by eapply (command_kept id rq).
  - by eapply (unsubmitted_kept id).
Qed.

(** The first command leaves the channel. *)
Lemma loop_ok_rest id cmd rest s s' :
  lp_cmdCh s = (id, cmd) :: rest → lp_cmdCh s' = rest → lp_requests s' = lp_requests s → loop_ok s → loop_ok s'.
Proof.
  intros Hch Hch' Hr [Hn Hq Hu]. rewrite Hch in Hn, Hq. split; [rewrite Hch'; by apply NoDup_cons in Hn as [_ ?]| |by rewrite Hr].
  rewrite Hch', Hr. intros i c Hin. apply Hq. by right.
Qed.

Lemma reply_effect id cmd rest st r s s' :
  loop_ok s → lp_cmdCh s = (id, cmd) :: rest → sv_perform S cmd (lp_state s) = Done (st, r) → sv_answers S cmd = true →
  Reply id r (set_state st (set_cmdCh rest s)) = Some s' → step_effect LTake s s'.
Proof.
  intros Hok Hch Hp Hans. pose proof Hok as [Hn Hq Hu]. rewrite Hch in Hn, Hq. apply NoDup_cons in Hn as [Hni Hn].
  destruct (Hq id cmd ltac:(left)) as (p & Hid & Hpos & Hret). unfold Reply. cbn [set_state set_cmdCh lp_requests]. rewrite Hid.
  cbn [rq_replyCh]. intros [= <-]. set (rq := {| rq_cmd := cmd; rq_at := p; rq_replyCh := None |}) in *.
  assert (Hops : step_ops LTake s = [Did id cmd r]) by (unfold step_ops; by rewrite Hch, Hp).
  assert (Hrest : ∀ i c, (i, c) ∈ rest → i ≠ id).
  { intros i c Hin ->. by apply Hni, (list_elem_of_fmap_2 fst _ (id, c)). }
  split; rewrite ?Hops; try done.
  - split; cbn; [done| |].
    + intros i c Hin. rewrite lookup_insert_ne; [|by intros <-; eapply Hrest]. apply Hq. by right.
    + intros i q Hi Hat. destruct (decide (id = i)) as [<-|]; simplify_map_eq. by eapply Hu.
  - cbn. by exists st.
  - cbn. by rewrite Hch, app_nil_r.
  - intros i r'. rewrite (answer_update id (set_replyCh (Some r) rq) s) by done. case_decide as Hd.
    + subst i. assert (answered (set_replyCh (Some r) rq) = Some r) as -> by (unfold answered; cbn; destruct p; try done; by destruct (Hret r0)).
      assert (answer id s = None) as -> by (unfold answer; rewrite Hid; unfold answered; cbn; destruct p; try done; by destruct (Hret r0)).
      split; [intros [= ->]; right; exists cmd; split; [done|by left]|]. by intros [?|(c & _ & [= -> ->]%list_elem_of_singleton)].
    + split; [by left|]. by intros [?|(c & _ & [= -> -> ->]%list_elem_of_singleton)].
  - intros i c r' [= -> -> ->]%list_elem_of_singleton. unfold command_of. by rewrite Hid.
  - intros i c. rewrite (command_kept id rq (set_replyCh (Some r) rq) s) by done. split; [by left|]. by intros [?|?].
  - by apply (unsubmitted_kept id (set_replyCh (Some r) rq)).
Qed.

Lemma command_effect s s' : loop_ok s → Run_command s = Some s' → step_effect LTake s s'.
Proof.
  intros Hok. unfold Run_command. destruct (lp_running s); [|done]. cbn [negb].
  destruct (lp_cmdCh s) as [|[id cmd] rest] eqn:Hch; [done|].
  destruct (sv_perform S cmd (lp_state s)) as [[st r]|why] eqn:Hp.
  - destruct (sv_answers S cmd) eqn:Hans; [by apply (reply_effect id cmd rest st r)|]. intros [= <-].
    assert (Hops : step_ops LTake s = [Did id cmd r]) by (unfold step_ops; by rewrite Hch, Hp). split; rewrite ?Hops; try done.
    + by apply (loop_ok_rest id cmd rest s).
    + cbn. by exists st.
    + cbn. by rewrite Hch, app_nil_r.
    + intros i r'. split; [by left|]. intros [?|(c & Ha & [= -> -> ->]%list_elem_of_singleton)]; [done|]. by rewrite Hans in Ha.
    + intros i c r' [= -> -> ->]%list_elem_of_singleton. destruct Hok as [_ Hq _].
      destruct (Hq id cmd) as (p & Hid & _); [rewrite Hch; by left|]. unfold command_of. by rewrite Hid.
    + intros i c. split; [by left|]. by intros [?|?].
  - intros [= <-]. apply same_effect; try done. unfold step_ops. by rewrite Hch, Hp.
Qed.

Lemma step_has_effect l s s' : loop_ok s → loop_step l s = Some s' → step_effect l s s'.
Proof.
  intros Hok. unfold loop_step. destruct (lp_crashed s); [done|]. destruct l as [id cmd|id|id| |id|id| | |st].
  - by apply call_effect.
  - by apply submit_effect.
  - by apply abandon_effect.
  - by apply command_effect.
  - by apply wait_effect.
  - by apply timeout_effect.
  - unfold Run_return. destruct (_ && _); [|done]. intros [= <-]. by apply same_effect.
  - intros [= <-]. by apply same_effect.
  - intros [= <-]. by apply other_effect.
Qed.

(** ** Many steps *)

Lemma loop_run_app tr1 tr2 s : loop_run tr1 s ≫= loop_run tr2 = loop_run (tr1 ++ tr2) s.
Proof. revert s; induction tr1 as [|l tr1 IH]; intros s; [done|]. cbn. destruct (loop_step l s); [apply IH|done]. Qed.

(** What a run has done. *)
Record run_effect (tr : list (label S)) s s' : Prop := {
  re_ok : loop_ok s';
  re_sequential : sequential (performed tr s) (lp_state s) (lp_state s');
  re_fifo : (lp_cmdCh s).*1 ++ omap submits tr = omap op_id (performed tr s) ++ (lp_cmdCh s').*1;
  re_answer id r : answer id s' = Some r ↔ answer id s = Some r ∨ ∃ cmd, sv_answers S cmd = true ∧ Did id cmd r ∈ performed tr s;
  re_did id cmd r : Did id cmd r ∈ performed tr s → command_of id s' = Some cmd;
  re_command id cmd : command_of id s' = Some cmd ↔ command_of id s = Some cmd ∨ LCall id cmd ∈ tr;
  re_unsubmitted id : id ∈ omap submits tr → unsubmitted id s = true;
  re_submitted_once : NoDup (omap submits tr);
}.

Lemma run_has_effect tr s s' : loop_ok s → loop_run tr s = Some s' → run_effect tr s s'.
Proof.
  revert s; induction tr as [|l tr IH]; intros s Hok; cbn [loop_run].
  { intros [= <-]. split; cbn; [done|done|by rewrite app_nil_r| | | | |constructor].
    - intros id r. split; [by left|]. by intros [?|(? & _ & []%not_elem_of_nil)].
    - intros ??? []%not_elem_of_nil.
    - intros id cmd. split; [by left|]. by intros [?|[]%not_elem_of_nil].
    - intros id []%not_elem_of_nil. }
  destruct (loop_step l s) as [s1|] eqn:Hl; [|done]. intros Hrun.
  destruct (step_has_effect l s s1 Hok Hl) as [Hok1 Hseq Hf Ha Hd Hc Hu Hs].
  destruct (IH s1 Hok1 Hrun) as [Hok' Hseq' Hf' Ha' Hd' Hc' Hu' Hs'].
  assert (Hsub : ∀ x, omap submits (l :: tr) = option_list (submits l) ++ x ↔ omap submits tr = x).
  { intros x. cbn. destruct (submits l); cbn; [|done]. split; [by intros [= ->]|by intros ->]. }
  split; cbn [performed]; rewrite ?Hl.
  - done.
  - by eapply sequential_app.
  - rewrite (proj2 (Hsub _) eq_refl), omap_app, app_assoc, Hf, <-!app_assoc. f_equal. done.
  - intros id r. rewrite Ha', Ha. setoid_rewrite elem_of_app. naive_solver.
  - intros id cmd r [Hin|Hin]%elem_of_app; [|by eapply Hd']. apply Hc'. left. apply Hc. left. by eapply Hd.
  - intros id cmd. rewrite Hc', Hc, elem_of_cons. naive_solver.
  - intros id. rewrite (proj2 (Hsub _) eq_refl), elem_of_app. intros [Hin|Hin]; [|by apply Hu, Hu'].
    destruct (submits l) as [i|] eqn:Hli; [|by apply not_elem_of_nil in Hin]. apply list_elem_of_singleton in Hin as ->. by apply Hs.
  - rewrite (proj2 (Hsub _) eq_refl). destruct (submits l) as [i|] eqn:Hli; [|done]. cbn. apply NoDup_cons. split; [|done].
    intros Hin%Hu'. by rewrite (proj2 (Hs i eq_refl)) in Hin.
Qed.
End Steps.

(** ** Every client is answered *)

Section Answers.
Context {S : Server}.
Implicit Types s : Loop S.

(** The moves a client has left; a command in the channel is one of the loop. *)
Definition weight (rq : Request S) : nat :=
  match rq_at rq with
  | InSubmit => if sv_answers S (rq_cmd rq) then 3 else 2
  | InWait => 1
  | _ => 0
  end.

Definition weights (m : gmap nat (Request S)) : nat := map_fold (λ _ rq n, (weight rq + n)%nat) 0%nat m.
Definition work s : nat := (weights (lp_requests s) + length (lp_cmdCh s))%nat.

Lemma weights_split (id : nat) rq (m : gmap nat (Request S)) :
  m !! id = Some rq → weights m = (weight rq + weights (delete id m))%nat.
Proof. intros Hid. apply (map_fold_delete_L (λ _ rq n, (weight rq + n)%nat) 0%nat id rq m); [intros; lia|done]. Qed.

Lemma weights_update id rq rq' (m : gmap nat (Request S)) :
  m !! id = Some rq → (weights (<[id := rq']> m) + weight rq = weights m + weight rq')%nat.
Proof.
  intros Hid. rewrite (weights_split id rq m), (weights_split id rq') by (done || apply lookup_insert_eq). rewrite delete_insert_eq. lia.
Qed.

(** The steps of the clients and of the loop themselves. *)
Definition moves (l : label S) : bool :=
  match l with LSubmit _ | LTake | LReturn _ | LTimeout _ => true | _ => false end.
Definition changes (l : label S) : bool := match l with LOther _ => true | _ => false end.

Definition unstopped s : Prop := lp_done s = false ∧ lp_crashed s = false.

(** While nothing is stopped, the loop runs and a client that waits has its
    command in the channel. *)
Record loop_live s : Prop := {
  live_running : lp_running s = true;
  live_queue id rq : lp_requests s !! id = Some rq → rq_at rq = InWait → rq_replyCh rq = None → id ∈ (lp_cmdCh s).*1;
  live_answers id rq : lp_requests s !! id = Some rq → rq_at rq = InWait → sv_answers S (rq_cmd rq) = true;
}.

Lemma loop_live_new st : loop_live (NewLoop (S := S) st).
Proof. by split; cbn; [|intros ??; rewrite lookup_empty..]. Qed.

Lemma step_unstopped l s s' : loop_step l s = Some s' → unstopped s' → unstopped s.
Proof.
  unfold loop_step, unstopped. destruct (lp_crashed s); [done|]. intros Hl [Hd Hc]. split; [|done]. revert Hl Hd.
  destruct l; unfold make_command, Submit, Run_command, Reply, Wait, Timeout, Run_return, Cancel;
    repeat case_match; try done; intros [= <-] ?; cbn in *; congruence.
Qed.

Lemma run_unstopped tr s s' : loop_run tr s = Some s' → unstopped s' → unstopped s.
Proof.
  revert s; induction tr as [|l tr IH]; intros s; cbn; [by intros [= ->]|].
  destruct (loop_step l s) as [s1|] eqn:Hl; [|done]. intros Hr Hu. eapply step_unstopped; [exact Hl|by apply IH].
Qed.

(** A step that changes one request, which then does not wait for the loop. *)
Lemma live_update id rq' s s' :
  lp_requests s' = <[id := rq']> (lp_requests s) → lp_running s' = lp_running s →
  (∀ i, i ≠ id → i ∈ (lp_cmdCh s).*1 → i ∈ (lp_cmdCh s').*1) →
  (rq_at rq' = InWait → (rq_replyCh rq' = None → id ∈ (lp_cmdCh s').*1) ∧ sv_answers S (rq_cmd rq') = true) →
  loop_live s → loop_live s'.
Proof.
  intros Hr Hrun Hch Hid [Hl Hq Ha]. split; [by rewrite Hrun| |]; rewrite Hr; intros i rq Hi Hat.
  - intros Hno. destruct (decide (id = i)) as [<-|]; simplify_map_eq; [by apply Hid|]. apply Hch; [done|]. by eapply Hq.
  - destruct (decide (id = i)) as [<-|]; simplify_map_eq; [by apply Hid|]. by eapply Ha.
Qed.

Lemma command_live s s' : loop_ok s → lp_crashed s' = false → Run_command s = Some s' → loop_live s → loop_live s'.
Proof.
  intros [_ Hok _] Hc Hl Hlive. pose proof Hlive as [Hrun Hq Ha]. unfold Run_command in Hl. rewrite Hrun in Hl. cbn [negb] in Hl.
  destruct (lp_cmdCh s) as [|[i cmd] rest] eqn:Hch; [done|].
  destruct (sv_perform _ _ _) as [[st r]|why]; [|injection Hl as <-; by cbn in Hc].
  destruct (Hok i cmd ltac:(left)) as (p & Hid & _).
  assert (Hrest : ∀ j, j ≠ i → j ∈ (lp_cmdCh s).*1 → j ∈ rest.*1).
  { intros j Hne. rewrite Hch. cbn. by intros [?|?]%elem_of_cons. }
  destruct (sv_answers S cmd) eqn:Hans.
  - unfold Reply in Hl. cbn [set_state set_cmdCh lp_requests] in Hl. rewrite Hid in Hl. injection Hl as <-.
    by apply (live_update i (set_replyCh (Some r) {| rq_cmd := cmd; rq_at := p; rq_replyCh := None |}) s).
  - injection Hl as <-. split; [done| |by apply Ha]. cbn. intros j rq Hj Hat Hno. specialize (Hq j rq Hj Hat Hno).
    cbn in Hq. apply elem_of_cons in Hq as [->|?]; [|done]. specialize (Ha i rq Hj Hat). rewrite Hid in Hj. injection Hj as <-.
    cbn in Ha. by rewrite Hans in Ha.
Qed.

Lemma step_live l s s' : loop_ok s → loop_step l s = Some s' → unstopped s' → loop_live s → loop_live s'.
Proof.
  intros Hok Hl Hu Hlive. pose proof (step_unstopped _ _ _ Hl Hu) as [Hd Hc]. unfold loop_step in Hl. rewrite Hc in Hl.
  destruct l as [id cmd|id|id| |id|id| | |st].
  - unfold make_command in Hl. destruct (lp_requests s !! id) eqn:Hid; [done|]. injection Hl as <-.
    by apply (live_update id {| rq_cmd := cmd; rq_at := InSubmit; rq_replyCh := None |} s).
  - unfold Submit in Hl. destruct (lp_requests s !! id) as [rq|] eqn:Hid; [|done]. destruct (rq_at rq); [|done..].
    destruct (_ <? _)%nat; [|done]. injection Hl as <-. apply (live_update id (set_at (after_submit (rq_cmd rq)) rq) s); cbn; try done.
    + intros i _ Hin. rewrite fmap_app. apply elem_of_app. by left.
    + unfold after_submit. destruct (sv_answers S (rq_cmd rq)); [|done]. intros _. split; [|done]. intros _. rewrite fmap_app.
      apply elem_of_app. right. by left.
  - unfold Submit in Hl. destruct (lp_requests s !! id) as [rq|]; [|done]. destruct (rq_at rq); [|done..].
    by rewrite Hd, andb_false_r in Hl.
  - apply (command_live s); [done|apply Hu|done..].
  - unfold Wait in Hl. destruct (lp_requests s !! id) as [rq|] eqn:Hid; [|done]. destruct (rq_at rq); try done.
    destruct (rq_replyCh rq) as [r|]; [|done]. injection Hl as <-. by apply (live_update id (set_replyCh None (set_at (Returned r) rq)) s).
  - unfold Timeout in Hl. destruct (lp_requests s !! id) as [rq|] eqn:Hid; [|done]. destruct (rq_at rq); try done.
    destruct (sv_wait_looks S); [|done]. injection Hl as <-. by apply (live_update id (set_at TimedOut rq) s).
  - unfold Run_return in Hl. by rewrite Hd, andb_false_r in Hl.
  - injection Hl as <-. by destruct Hu.
  - injection Hl as <-. destruct Hlive. by split.
Qed.

Lemma run_live tr s s' : loop_ok s → loop_run tr s = Some s' → unstopped s' → loop_live s → loop_live s'.
Proof.
  revert s; induction tr as [|l tr IH]; intros s Hok; cbn; [by intros [= ->]|].
  destruct (loop_step l s) as [s1|] eqn:Hl; [|done]. intros Hr Hu Hlive.
  apply (IH s1); [by apply (se_ok _ _ _ (step_has_effect l s s1 Hok Hl))|done..|].
  apply (step_live l s); [done|done|by apply (run_unstopped tr s1 s')|done].
Qed.

(** A move brings the work one step nearer to its end. *)
Lemma move_work l s s' : loop_ok s → loop_step l s = Some s' → unstopped s' → moves l = true → (1 + work s' = work s)%nat.
Proof.
  intros [_ Hq Hr] Hl [_ Hc'] Hm. unfold loop_step in Hl. destruct (lp_crashed s); [done|]. unfold work.
  destruct l as [|id|id| |id|id| | |]; try done.
  - unfold Submit in Hl. destruct (lp_requests s !! id) as [rq|] eqn:Hid; [|done]. destruct (rq_at rq) eqn:Hat; [|done..].
    destruct (_ <? _)%nat; [|done]. injection Hl as <-. pose proof (weights_update id rq (set_at (after_submit (rq_cmd rq)) rq) _ Hid) as Hw.
    cbn [set_cmdCh set_request lp_requests lp_cmdCh]. rewrite length_app. cbn [length].
    unfold weight, after_submit in Hw. cbn in Hw. rewrite Hat in Hw. unfold after_submit. destruct (sv_answers S (rq_cmd rq)); lia.
  - unfold Run_command in Hl. destruct (lp_running s); [|done]. cbn [negb] in Hl. destruct (lp_cmdCh s) as [|[i cmd] rest] eqn:Hch; [done|].
    destruct (sv_perform _ _ _) as [[st r]|why]; [|injection Hl as <-; by cbn in Hc'].
    destruct (Hq i cmd ltac:(left)) as (p & Hid & Hp & Hp').
    destruct (sv_answers S cmd); [|injection Hl as <-; cbn; lia]. unfold Reply in Hl. cbn [set_state set_cmdCh lp_requests] in Hl.
    rewrite Hid in Hl. injection Hl as <-. set (rq := {| rq_cmd := cmd; rq_at := p; rq_replyCh := None |}) in *.
    pose proof (weights_update i rq (set_replyCh (Some r) rq) _ Hid) as Hw.
    cbn [set_request set_state set_cmdCh lp_requests lp_cmdCh length]. unfold weight in Hw. cbn in Hw. lia.
  - unfold Wait in Hl. destruct (lp_requests s !! id) as [rq|] eqn:Hid; [|done]. destruct (rq_at rq) eqn:Hat; try done.
    destruct (rq_replyCh rq) as [r|] eqn:Hch; [|done]. injection Hl as <-.
    pose proof (weights_update id rq (set_replyCh None (set_at (Returned r) rq)) _ Hid) as Hw. unfold weight in Hw. cbn in Hw.
    rewrite Hat in Hw. cbn [set_request lp_requests lp_cmdCh]. lia.
  - unfold Timeout in Hl. destruct (lp_requests s !! id) as [rq|] eqn:Hid; [|done]. destruct (rq_at rq) eqn:Hat; try done.
    destruct (sv_wait_looks S); [|done]. injection Hl as <-.
    pose proof (weights_update id rq (set_at TimedOut rq) _ Hid) as Hw. unfold weight in Hw. cbn in Hw.
    rewrite Hat in Hw. cbn [set_request lp_requests lp_cmdCh]. lia.
Qed.

Lemma change_work l s s' : loop_step l s = Some s' → changes l = true → work s' = work s.
Proof. unfold loop_step. destruct (lp_crashed s); [done|]. destruct l; try done. by intros [= <-]. Qed.

(** A client that neither submits nor waits. *)
Definition at_rest (rq : Request S) : bool := match rq_at rq with InSubmit | InWait => false | _ => true end.

(** Something can move as long as a client is not at rest. *)
Lemma move_enabled s id rq :
  (0 < sv_cap S)%nat → loop_ok s → loop_live s → unstopped s → lp_requests s !! id = Some rq → at_rest rq = false →
  ∃ l s', moves l = true ∧ loop_step l s = Some s'.
Proof.
  intros Hcap [_ Hq _] [Hrun Hw _] [_ Hc] Hid Hat.
  assert (Htake : lp_cmdCh s ≠ [] → ∃ l s', moves l = true ∧ loop_step l s = Some s').
  { intros Hne. exists LTake. unfold loop_step. rewrite Hc. unfold Run_command. rewrite Hrun. cbn [negb].
    destruct (lp_cmdCh s) as [|[i cmd] rest] eqn:Hch; [done|]. destruct (Hq i cmd ltac:(left)) as (p & Hi & _).
    destruct (sv_perform _ _ _) as [[st r]|why]; [|by eexists]. destruct (sv_answers S cmd); [|by eexists].
    unfold Reply. cbn [set_state set_cmdCh lp_requests]. rewrite Hi. by eexists. }
  unfold at_rest in Hat. destruct (rq_at rq) eqn:Hp; try done.
  - destruct (length (lp_cmdCh s) <? sv_cap S)%nat eqn:Hlen.
    + exists (LSubmit id). unfold loop_step. rewrite Hc. unfold Submit. rewrite Hid, Hp, Hlen. by eexists.
    + apply Htake. intros Hnil. rewrite Hnil in Hlen. apply Nat.ltb_ge in Hlen. cbn in Hlen. lia.
  - destruct (rq_replyCh rq) as [r|] eqn:Hch.
    + exists (LReturn id). unfold loop_step. rewrite Hc. unfold Wait. rewrite Hid, Hp, Hch. by eexists.
    + apply Htake. intros Hnil. specialize (Hw id rq Hid Hp Hch). rewrite Hnil in Hw. by apply not_elem_of_nil in Hw.
Qed.

Lemma moves_work sched s s' :
  loop_ok s → Forall (λ l, moves l || changes l = true) sched → loop_run sched s = Some s' → unstopped s' →
  (length (filter (λ l, moves l = true) sched) + work s' = work s)%nat.
Proof.
  revert s; induction sched as [|l sched IH]; intros s Hok Hf; cbn [loop_run]; [by intros [= ->]|].
  apply Forall_cons in Hf as [Hl Hf]. destruct (loop_step l s) as [s1|] eqn:Hs; [|done]. intros Hr Hu.
  pose proof (run_unstopped _ _ _ Hr Hu) as Hu1. specialize (IH s1 (se_ok _ _ _ (step_has_effect l s s1 Hok Hs)) Hf Hr Hu).
  rewrite filter_cons. case_decide as Hm.
  - pose proof (move_work l s s1 Hok Hs Hu1 Hm). cbn [length]. lia.
  - rewrite <-(change_work l s s1 Hs); [done|]. by destruct (moves l).
Qed.

(** From a reached state the moves are bounded, and some move is possible until
    every client is at rest. *)
Lemma loop_progress st0 tr s sched s' :
  (0 < sv_cap S)%nat → loop_run tr (NewLoop st0) = Some s → Forall (λ l, moves l || changes l = true) sched →
  loop_run sched s = Some s' → unstopped s' →
  (length (filter (λ l, moves l = true) sched) + work s' = work s)%nat ∧
  ((∀ id rq, lp_requests s' !! id = Some rq → at_rest rq = true) ∨ ∃ l s'', moves l = true ∧ loop_step l s' = Some s'').
Proof.
  intros Hcap Hrun Hf Hsched Hu. pose proof (loop_ok_new (S := S) st0) as Hok0.
  pose proof (re_ok _ _ _ (run_has_effect _ _ _ Hok0 Hrun)) as Hok. split; [by apply moves_work|].
  assert (Hall : loop_run (tr ++ sched) (NewLoop st0) = Some s') by (rewrite <-loop_run_app, Hrun; done).
  pose proof (run_live _ _ _ Hok0 Hall Hu (loop_live_new st0)) as Hlive'.
  pose proof (re_ok _ _ _ (run_has_effect _ _ _ Hok Hsched)) as Hok'.
  destruct (decide (map_Forall (λ (_ : nat) rq, at_rest rq = true) (lp_requests s'))) as [Hrest|Hnot]; [by left|right].
  apply map_not_Forall in Hnot as (id & rq & Hid & Hat); [|apply _]. apply (move_enabled s' id rq); try done. by apply not_true_is_false.
Qed.

(** ** Stopping *)

Lemma step_stopped l s s' : loop_step l s = Some s' → lp_running s = false → lp_running s' = false.
Proof.
  unfold loop_step. destruct (lp_crashed s); [done|].
  destruct l; unfold make_command, Submit, Run_command, Reply, Wait, Timeout, Run_return, Cancel; repeat case_match; try done;
    intros [= <-] ?; cbn in *; congruence.
Qed.

Lemma stopped_ops l s s' id cmd r : loop_step l s = Some s' → lp_running s = false → Did id cmd r ∉ step_ops l s.
Proof.
  unfold loop_step. intros Hl Hrun. destruct (lp_crashed s); [done|]. destruct l; cbn [step_ops]; try by intros []%not_elem_of_nil.
  - unfold Run_command in Hl. by rewrite Hrun in Hl.
  - by intros ?%list_elem_of_singleton.
Qed.

(** When the loop has returned, no client gets a result that it has not got. *)
Lemma stopped_answer tr s s' id : loop_ok s → loop_run tr s = Some s' → lp_running s = false → answer id s' = answer id s.
Proof.
  revert s; induction tr as [|l tr IH]; intros s Hok; cbn; [by intros [= ->]|].
  destruct (loop_step l s) as [s1|] eqn:Hl; [|done]. intros Hr Hrun. destruct (step_has_effect l s s1 Hok Hl) as [Hok1 _ _ Ha _ _ _ _].
  rewrite (IH s1 Hok1 Hr) by (by eapply step_stopped). apply option_eq. intros r. rewrite Ha. split; [|by left].
  intros [?|(cmd & _ & Hin)]; [done|]. by destruct (stopped_ops l s s1 id cmd r Hl Hrun).
Qed.

(** A command that was not submitted, and never will be. *)
Definition lost (id : nat) s : Prop := unsubmitted id s = false ∧ id ∉ (lp_cmdCh s).*1.

Lemma run_lost tr s s' id : loop_ok s → loop_run tr s = Some s' → lost id s → answer id s' = answer id s.
Proof.
  intros Hok Hr [Hu Hni]. destruct (run_has_effect tr s s' Hok Hr) as [_ _ Hf Ha _ _ Hsub _].
  apply option_eq. intros r. rewrite Ha. split; [|by left]. intros [?|(cmd & _ & Hin)]; [done|].
  assert (id ∈ omap op_id (performed tr s)) as Hdid by (apply list_elem_of_omap; by exists (Did id cmd r)).
  assert (id ∈ (lp_cmdCh s).*1 ++ omap submits tr) as [?|Hs%Hsub]%elem_of_app by (rewrite Hf; apply elem_of_app; by left); [done|].
  by rewrite Hu in Hs.
Qed.

Lemma abandon_lost s s' id : loop_ok s → loop_step (LGiveUp id) s = Some s' → lost id s' ∧ answer id s' = None.
Proof.
  intros [_ Hq Hr]. unfold loop_step. destruct (lp_crashed s); [done|]. unfold Submit.
  destruct (lp_requests s !! id) as [rq|] eqn:Hid; [|done]. destruct (rq_at rq) eqn:Hat; [|done..].
  destruct (_ && _); [|done]. intros [= <-]. specialize (Hr id rq Hid Hat). split; [split|].
  - unfold unsubmitted. cbn. rewrite lookup_insert_eq. unfold set_at, after_submit. by destruct (sv_answers S _).
  - cbn. intros ([i c] & -> & Hin)%list_elem_of_fmap. destruct (Hq _ _ Hin) as (p & Hi & Hp & _). cbn in Hid.
    rewrite Hi in Hid. by injection Hid as <-.
  - unfold answer. cbn. rewrite lookup_insert_eq. cbn. unfold answered. cbn. unfold after_submit. rewrite Hr. by destruct (sv_answers S _).
Qed.

Lemma returned_answer id r s : returned id s = Some r → answer id s = Some r.
Proof.
  unfold returned, answer, answered. destruct (lp_requests s !! id) as [rq|]; [|done]. cbn. by destruct (rq_at rq).
Qed.

Lemma answer_none_returned id s : answer id s = None → returned id s = None.
Proof. intros Ha. destruct (returned id s) as [r|] eqn:Hr; [|done]. apply returned_answer in Hr. congruence. Qed.

Lemma answer_new id st : answer id (NewLoop (S := S) st) = None.
Proof. unfold answer. cbn. by rewrite lookup_empty. Qed.

Lemma command_new id st : command_of id (NewLoop (S := S) st) = None.
Proof. unfold command_of. cbn. by rewrite lookup_empty. Qed.

(** A server that answers every command, to clients that wait for ever: a client
    at rest has its result. *)
Lemma step_patient l s s' :
  (∀ cmd, sv_answers S cmd = true) → sv_wait_looks S = false → loop_step l s = Some s' →
  (∀ id rq, lp_requests s !! id = Some rq → rq_at rq ≠ Sent ∧ rq_at rq ≠ TimedOut) →
  ∀ id rq, lp_requests s' !! id = Some rq → rq_at rq ≠ Sent ∧ rq_at rq ≠ TimedOut.
Proof.
  intros Hans Hlook Hl Hs. unfold loop_step in Hl. destruct (lp_crashed s); [done|].
  assert (Hup : ∀ i rq', lp_requests s' = <[i := rq']> (lp_requests s) → rq_at rq' ≠ Sent ∧ rq_at rq' ≠ TimedOut →
    ∀ id rq, lp_requests s' !! id = Some rq → rq_at rq ≠ Sent ∧ rq_at rq ≠ TimedOut).
  { intros i rq' -> Hp id rq Hid. destruct (decide (i = id)) as [->|]; simplify_map_eq; [done|by eapply Hs]. }
  destruct l as [i cmd|i|i| |i|i| | |st].
  - unfold make_command in Hl. destruct (lp_requests s !! i); [done|]. injection Hl as <-. by eapply Hup.
  - unfold Submit in Hl. destruct (lp_requests s !! i) as [rq'|]; [|done]. destruct (rq_at rq'); [|done..].
    destruct (_ <? _)%nat; [|done]. injection Hl as <-. eapply Hup; [done|]. cbn. unfold after_submit. by rewrite Hans.
  - unfold Submit in Hl. destruct (lp_requests s !! i) as [rq'|]; [|done]. destruct (rq_at rq'); [|done..].
    destruct (_ && _); [|done]. injection Hl as <-. eapply Hup; [done|]. cbn. unfold after_submit. by rewrite Hans.
  - unfold Run_command in Hl. destruct (lp_running s); [|done]. cbn [negb] in Hl. destruct (lp_cmdCh s) as [|[i cmd] rest]; [done|].
    destruct (sv_perform _ _ _) as [[st r]|why]; [|by injection Hl as <-]. rewrite Hans in Hl. unfold Reply in Hl.
    cbn [set_state set_cmdCh lp_requests] in Hl. destruct (lp_requests s !! i) as [rq'|] eqn:Hi; [|done].
    destruct (rq_replyCh rq'); [done|]. injection Hl as <-. eapply Hup; [done|]. by apply (Hs i rq').
  - unfold Wait in Hl. destruct (lp_requests s !! i) as [rq'|]; [|done]. destruct (rq_at rq'); try done.
    destruct (rq_replyCh rq'); [|done]. injection Hl as <-. by eapply Hup.
  - unfold Timeout in Hl. destruct (lp_requests s !! i) as [rq'|]; [|done]. destruct (rq_at rq'); try done. by rewrite Hlook in Hl.
  - unfold Run_return in Hl. destruct (_ && _); [|done]. by injection Hl as <-.
  - by injection Hl as <-.
  - by injection Hl as <-.
Qed.

Lemma rest_returned tr st0 s id rq :
  (∀ cmd, sv_answers S cmd = true) → sv_wait_looks S = false → loop_run tr (NewLoop st0) = Some s →
  lp_requests s !! id = Some rq → at_rest rq = true → ∃ r, rq_at rq = Returned r.
Proof.
  intros Hans Hlook Hrun Hid Hrest.
  assert (Hall : ∀ s0, loop_run tr s0 = Some s → (∀ id rq, lp_requests s0 !! id = Some rq → rq_at rq ≠ Sent ∧ rq_at rq ≠ TimedOut) →
    ∀ id rq, lp_requests s !! id = Some rq → rq_at rq ≠ Sent ∧ rq_at rq ≠ TimedOut).
  { clear -Hans Hlook. induction tr as [|l tr IH]; intros s0; cbn; [by intros [= ->]|].
    destruct (loop_step l s0) as [s1|] eqn:Hl; [|done]. intros Hr Hs0. apply (IH s1 Hr). by eapply step_patient. }
  destruct (Hall _ Hrun) with id rq as [Hs Ht]; [cbn; intros ??; by rewrite lookup_empty|done|].
  unfold at_rest in Hrest. destruct (rq_at rq); try done. by eexists.
Qed.

(** ** One after another *)

(** What a run has performed is a history of its trace. *)
Lemma crashed_ends tr s s' : lp_crashed s = true → loop_run tr s = Some s' → tr = [].
Proof. destruct tr as [|l tr]; [done|]. cbn. unfold loop_step. by intros ->. Qed.

Lemma performed_history tr s s' : loop_run tr s = Some s' → history tr (performed tr s).
Proof.
  revert s; induction tr as [|l tr IH]; intros s; [constructor|]. cbn [loop_run performed].
  destruct (loop_step l s) as [s1|] eqn:Hl; [|done]. intros Hr. specialize (IH s1 Hr).
  destruct l; cbn [step_ops app]; try by constructor.
  unfold loop_step in Hl. destruct (lp_crashed s); [done|]. unfold Run_command in Hl. destruct (lp_running s); [|done]. cbn [negb] in Hl.
  destruct (lp_cmdCh s) as [|[id cmd] rest]; [done|]. destruct (sv_perform S cmd (lp_state s)) as [[st r]|why]; [by constructor|].
  injection Hl as <-. assert (tr = []) as -> by (by apply (crashed_ends tr (set_flags (lp_done s) false true s) s')). constructor.
Qed.

(** What the goroutines have done together is what the commands do one after
    another in the order they were submitted in, each at the round of the loop
    that takes it and with the changes of the others where they were made, and
    what a client was returned is the result of its command there. *)
Lemma loop_linearizable st0 tr s :
  loop_run tr (NewLoop st0) = Some s →
  ∃ ops, history tr ops ∧ sequential ops st0 (lp_state s) ∧
    omap submits tr = omap op_id ops ++ (lp_cmdCh s).*1 ∧ NoDup (omap submits tr) ∧
    (∀ id cmd r, Did id cmd r ∈ ops → LCall id cmd ∈ tr) ∧
    (∀ id r, returned id s = Some r → ∃ cmd, Did id cmd r ∈ ops ∧ LCall id cmd ∈ tr).
Proof.
  intros Hrun. exists (performed tr (NewLoop st0)).
  destruct (run_has_effect _ _ _ (loop_ok_new st0) Hrun) as [_ Hseq Hf Ha Hd Hc _ Ho].
  assert (Hcall : ∀ id cmd r, Did id cmd r ∈ performed tr (NewLoop st0) → LCall id cmd ∈ tr).
  { intros id cmd r Hin%Hd. apply Hc in Hin as [Hin|?]; [|done]. by rewrite command_new in Hin. }
  split_and!; [by eapply performed_history|done..|].
  intros id r Hr%returned_answer. apply Ha in Hr as [Hr|(cmd & _ & Hin)]; [by rewrite answer_new in Hr|].
  exists cmd. split; [done|by eapply Hcall].
Qed.
End Answers.
