(* ===== verification/Protocol.v ===== *)
(** * internal/node/protocol: envelopes, codec, the protocol interface, the registry

    Models envelope.go, codec.go, protocol.go and registry.go: the message
    format shared by the protocols, the interface a protocol offers to the node
    runtime, and the registry of protocol factories. *)

From S2P Require Import Prelude GoStrings.

(** ** What an operation reads from outside the program

    [now i] is the wall clock in milliseconds at the [i]-th reading of the
    operation, [draw] the number behind its [rand.Intn], and the [RangeOrder]
    the order of its range statements.  An operation takes its environment as an
    implicit argument, so a theorem about it holds in every environment. *)
Class Env := {
  now : nat → Z;
  draw : nat;
  env_order :: RangeOrder;
}.

(** A concrete environment, to run the definitions. *)
Definition test_env (t : Z) : Env := {|
  now := λ _, t;
  draw := 0;
  env_order := canonical_order;
|}.

(** ** envelope.go *)

Inductive MessageKind := KindProtocol | KindControl | KindData.

Record Envelope := {
  env_From : string;
  env_To : string;
  env_Protocol : string;
  env_Payload : string;
  env_Kind : MessageKind;
  env_TraceMetadata : string;
  env_Version : Z;
  env_LogicalTick : Z;
}.

#[export] Instance MessageKind_eq_dec : EqDecision MessageKind.
Proof. solve_decision. Defined.
#[export] Instance Envelope_eq_dec : EqDecision Envelope.
Proof. solve_decision. Defined.

(** ** codec.go

    [EncodeJSON] drops the error of [json.Marshal]; [DecodeJSON] returns that of
    [json.Unmarshal].  The text format is encoding/json's: a protocol is written
    against a codec for its message type.  A decoded payload is the encoded
    message for the messages the format can carry: encoding/json replaces the
    bytes of a string that are not valid UTF-8, so a message with such a string
    is not [encodable]. *)
Class Codec (A : Type) := {
  EncodeJSON : A → string;
  DecodeJSON : string → option A;
}.

Class CodecLaws (A : Type) `{Codec A} := {
  encodable : A → Prop;
  decode_encode (a : A) : encodable a → DecodeJSON (EncodeJSON a) = Some a;
}.

(** A codec for any countable type, so that the protocols can be run.  The text
    is the binary numeral of the value's code. *)
Fixpoint positive_to_text (p : positive) : string :=
  match p with
  | xH => EmptyString
  | xO q => String "0" (positive_to_text q)
  | xI q => String "1" (positive_to_text q)
  end.

Fixpoint positive_of_text (s : string) : option positive :=
  match s with
  | EmptyString => Some xH
  | String a r =>
      q ← positive_of_text r;
      if Ascii.eqb a "0" then Some (xO q) else if Ascii.eqb a "1" then Some (xI q) else None
  end.

Lemma positive_text_roundtrip p : positive_of_text (positive_to_text p) = Some p.
Proof. induction p as [p IH|p IH|]; simpl; [by rewrite IH|by rewrite IH|done]. Qed.

Definition countable_codec (A : Type) `{Countable A} : Codec A := {|
  EncodeJSON := λ a, positive_to_text (encode a);
  DecodeJSON := λ s, p ← positive_of_text s; decode p;
|}.

Lemma countable_decode_encode {A : Type} `{Countable A} (a : A) :
  @DecodeJSON A (countable_codec A) (@EncodeJSON A (countable_codec A) a) = Some a.
Proof. simpl. rewrite positive_text_roundtrip. apply countable.decode_encode. Qed.

Definition countable_codec_laws (A : Type) `{Countable A} : @CodecLaws A (countable_codec A) := {|
  encodable := λ _, True;
  decode_encode := λ a _, countable_decode_encode a;
|}.

(** ** registry.go *)

Section Registry.
(** [F] is the type of factories, [C] what calling one creates; a nil factory
    is [None]. *)
Context {F C : Type} (call : F → C).

Abbreviation registry := (gmap string F).

Definition Register (name : string) (f : option F) (factories : registry) : outcome registry :=
  if bool_decide (name = EmptyString) then Panic "protocol: empty name"
  else match f with
       | None => Panic "protocol: nil factory"
       | Some f' =>
           match factories !! name with
           | Some _ => Panic "protocol: already registered: %s"
           | None => Done (<[name := f']> factories)
           end
       end.

Definition Load (name : string) (factories : registry) : result C :=
  match factories !! name with
  | None => Err (Errorf "protocol: not found: %s" [AStr name])
  | Some f => Ok (call f)
  end.

Definition List `{RangeOrder} (factories : registry) : list string :=
  (range 61 factories).*1.

(** A registered factory is the one [Load] calls, until the program ends:
    no later registration replaces it. *)
Lemma Load_Register name f factories r n' f' r' :
  Register name (Some f) factories = Done r → Register n' f' r = Done r' →
  Load name r' = Ok (call f).
Proof.
  unfold Register, Load. intros H H'. cases; destruct (decide (n' = name)); by simplify_map_eq.
Qed.

Lemma elem_of_List `{RangeOrder} name factories :
  name ∈ List factories ↔ is_ok (Load name factories) = true.
Proof.
  unfold List, Load. rewrite list_elem_of_fmap. split.
  - intros ([k f] & -> & Hin). apply elem_of_range in Hin. simpl. by rewrite Hin.
  - destruct (factories !! name) as [f|] eqn:Hf; [|done]. intros _.
    exists (name, f). by rewrite elem_of_range.
Qed.
End Registry.
