(* ===== verification/VectorClock.v ===== *)
(** * Vector clocks

    Models the clocks of internal/node/protocol/gossip: vectorClockCompare of
    conflict_resolution.go, the merge loop of handleState and the increment of
    Put.  A clock is a Go [map[string]int64]; a nil map and an empty one behave
    alike in every operation here and are both [∅].  A missing entry reads as
    0, so clocks that agree at every node are equivalent though not equal. *)

From S2P Require Import Prelude GoStrings.

Abbreviation vclock := (gmap string Z).

(** [vc[node]] *)
Definition vc_get (vc : vclock) (node : string) : Z := default 0 (vc !! node).

(** ** Operations *)

(** One iteration of the comparison loop: the flags vc1Greater, vc2Greater. *)
Definition compare_step (vc1 vc2 : vclock) (flags : bool * bool) (node : string) : bool * bool :=
  let v1 := vc_get vc1 node in
  let v2 := vc_get vc2 node in
  if (v2 <? v1)%Z then (true, flags.2)
  else if (v1 <? v2)%Z then (flags.1, true)
  else flags.

Definition vectorClockCompare (vc1 vc2 : vclock) : Z :=
  let allNodes := dom vc1 ∪ dom vc2 in
  if bool_decide (size allNodes = 0%nat) then 0
  else
    let '(vc1Greater, vc2Greater) :=
      foldl (compare_step vc1 vc2) (false, false) (elements allNodes) in
    if vc1Greater && negb vc2Greater then 1
    else if vc2Greater && negb vc1Greater then -1
    else 0.

(** The body of the loop over the incoming clock: [if clock > mergedVC[node]]. *)
Definition merge_entry (_ : string) (old : option Z) (clock : Z) : option Z :=
  if (default 0 old <? clock)%Z then Some clock else None.

Definition mergeClocks `{RangeOrder} (local incoming : vclock) : vclock :=
  let copied := copy_loop (λ c, c) (range 21 local) in
  keyed_loop merge_entry copied (range 26 incoming).

(** [vc[g.nodeID]++] *)
Definition incrClock (node : string) (vc : vclock) : vclock :=
  <[node := wrap_i64 (vc_get vc node + 1)]> vc.

(** ** The causal order *)

Definition vc_le (a b : vclock) : Prop := ∀ node, vc_get a node ≤ vc_get b node.
Definition vc_lt (a b : vclock) : Prop := vc_le a b ∧ ¬ vc_le b a.
Definition vc_concurrent (a b : vclock) : Prop := ¬ vc_le a b ∧ ¬ vc_le b a.
Definition vc_equiv (a b : vclock) : Prop := ∀ node, vc_get a node = vc_get b node.

(** Counters are non-negative. *)
Definition vc_nonneg (vc : vclock) : Prop := ∀ node, 0 ≤ vc_get vc node.

#[export] Instance vc_le_preorder : PreOrder vc_le.
Proof.
  split; [intros a n; lia|].
  intros a b c Hab Hbc n. specialize (Hab n); specialize (Hbc n); lia.
Qed.

#[export] Instance vc_equiv_equivalence : Equivalence vc_equiv.
Proof.
  split; [intros a n; done | by intros a b Hab n | ].
  intros a b c Hab Hbc n. by rewrite (Hab n).
Qed.

#[export] Instance vc_le_proper : Proper (vc_equiv ==> vc_equiv ==> iff) vc_le.
Proof.
  intros a a' Ha b b' Hb. unfold vc_le.
  by setoid_rewrite <-(Ha _); setoid_rewrite <-(Hb _).
Qed.

Lemma vc_le_antisym a b : vc_le a b → vc_le b a → vc_equiv a b.
Proof. intros Hab Hba n. specialize (Hab n); specialize (Hba n); lia. Qed.

(** ** The comparison loop decides the causal order *)

Lemma compare_fold vc1 vc2 l flags :
  let r := foldl (compare_step vc1 vc2) flags l in
  (r.1 = true ↔ flags.1 = true ∨ ∃ n, n ∈ l ∧ vc_get vc2 n < vc_get vc1 n) ∧
  (r.2 = true ↔ flags.2 = true ∨ ∃ n, n ∈ l ∧ vc_get vc1 n < vc_get vc2 n).
Proof.
  revert flags; induction l as [|m l IH]; intros flags; simpl.
  { set_solver. }
  destruct (IH (compare_step vc1 vc2 flags m)) as [-> ->].
  unfold compare_step.
  destruct (Z.ltb_spec (vc_get vc2 m) (vc_get vc1 m)) as [Hgt|Hge];
    [|destruct (Z.ltb_spec (vc_get vc1 m) (vc_get vc2 m)) as [Hlt|Heq]]; simpl.
  - split.
    + split; [|by left]. intros _. right. exists m. set_solver.
    + split; [set_solver|]. intros [?|(n & [->|?]%elem_of_cons & ?)]; [by left|lia|eauto].
  - split.
    + split; [set_solver|]. intros [?|(n & [->|?]%elem_of_cons & ?)]; [by left|lia|eauto].
    + split; [|by left]. intros _. right. exists m. set_solver.
  - split; (split; [set_solver|]);
      intros [?|(n & [->|?]%elem_of_cons & ?)]; first [by left | lia | eauto].
Qed.

Lemma vc_get_not_dom vc n : n ∉ dom vc → vc_get vc n = 0.
Proof. intros Hn%not_elem_of_dom. unfold vc_get. by rewrite Hn. Qed.

(** The order is decided on the nodes of the two clocks. *)
Lemma vc_le_dom a b :
  vc_le a b ↔ Forall (λ n, vc_get a n ≤ vc_get b n) (elements (dom a ∪ dom b)).
Proof.
  rewrite Forall_forall. split; [done|]. intros Hall n.
  destruct (decide (n ∈ dom a ∪ dom b)) as [Hin|Hin].
  - by apply Hall, elem_of_elements.
  - rewrite !vc_get_not_dom by set_solver. lia.
Qed.

#[export] Instance vc_le_dec a b : Decision (vc_le a b).
Proof.
  refine (cast_if (decide (Forall (λ n, vc_get a n ≤ vc_get b n) (elements (dom a ∪ dom b)))));
    first [by apply vc_le_dom | by rewrite vc_le_dom].
Defined.

Lemma not_vc_le_dom a b :
  (∃ n, n ∈ elements (dom a ∪ dom b) ∧ vc_get b n < vc_get a n) ↔ ¬ vc_le a b.
Proof.
  split.
  - intros (n & _ & Hn) Hle. specialize (Hle n). lia.
  - rewrite vc_le_dom. intros (n & Hin & Hn)%not_Forall_Exists%list.Exists_exists; [|apply _].
    exists n. split; [done|]. simpl in Hn. lia.
Qed.

(** The flags the loop ends with. *)
Lemma compare_flags a b :
  let r := foldl (compare_step a b) (false, false) (elements (dom a ∪ dom b)) in
  (r.1 = true ↔ ¬ vc_le a b) ∧ (r.2 = true ↔ ¬ vc_le b a).
Proof.
  destruct (compare_fold a b (elements (dom a ∪ dom b)) (false, false)) as [H1 H2].
  cbv zeta. rewrite H1, H2. simpl. split.
  - rewrite <-not_vc_le_dom. naive_solver.
  - rewrite <-not_vc_le_dom, (union_comm_L (dom b)). naive_solver.
Qed.

Lemma vectorClockCompare_unfold a b :
  vectorClockCompare a b =
  if decide (vc_le a b) then if decide (vc_le b a) then 0 else -1
  else if decide (vc_le b a) then 1 else 0.
Proof.
  unfold vectorClockCompare.
  pose proof (compare_flags a b) as [H1 H2].
  destruct (foldl _ _ _) as [g1 g2]; simpl in *.
  case_bool_decide as Hsz.
  - apply size_empty_inv in Hsz.
    assert (∀ x, x = a ∨ x = b → ∀ n, vc_get x n = 0) as Hz.
    { intros x Hx n. apply vc_get_not_dom. set_solver. }
    rewrite !decide_True; [done|..]; intros n; rewrite !Hz; by (lia || auto).
  - destruct g1, g2; simpl; repeat case_decide; naive_solver.
Qed.

#[export] Instance vc_lt_dec a b : Decision (vc_lt a b).
Proof. unfold vc_lt. apply _. Defined.

(** The comparison in terms of the causal order. *)
Lemma vectorClockCompare_decide a b :
  vectorClockCompare a b =
  if decide (vc_lt b a) then 1 else if decide (vc_lt a b) then -1 else 0.
Proof. rewrite vectorClockCompare_unfold. unfold vc_lt. repeat case_decide; tauto. Qed.

Lemma vectorClockCompare_1 a b : vectorClockCompare a b = 1 ↔ vc_lt b a.
Proof. rewrite vectorClockCompare_unfold. unfold vc_lt. repeat case_decide; naive_solver. Qed.

Lemma vectorClockCompare_m1 a b : vectorClockCompare a b = -1 ↔ vc_lt a b.
Proof. rewrite vectorClockCompare_unfold. unfold vc_lt. repeat case_decide; naive_solver. Qed.

Lemma vectorClockCompare_0 a b :
  vectorClockCompare a b = 0 ↔ vc_equiv a b ∨ vc_concurrent a b.
Proof.
  rewrite vectorClockCompare_unfold. unfold vc_concurrent. repeat case_decide.
  - split; [|done]. left. by apply vc_le_antisym.
  - split; [done|]. intros [He|[]]; [|done]. by rewrite He in *.
  - split; [done|]. intros [He|[]]; [|done]. by rewrite He in *.
  - split; [|done]. by right.
Qed.

Lemma vectorClockCompare_cases a b :
  vectorClockCompare a b = 1 ∧ vc_lt b a ∨
  vectorClockCompare a b = -1 ∧ vc_lt a b ∨
  vectorClockCompare a b = 0 ∧ (vc_equiv a b ∨ vc_concurrent a b).
Proof.
  assert (vectorClockCompare a b = 1 ∨ vectorClockCompare a b = -1 ∨ vectorClockCompare a b = 0)
    as [Hc|[Hc|Hc]] by (rewrite vectorClockCompare_unfold; repeat case_decide; auto).
  - left. split; [done|]. by apply vectorClockCompare_1.
  - right; left. split; [done|]. by apply vectorClockCompare_m1.
  - right; right. split; [done|]. by apply vectorClockCompare_0.
Qed.

Lemma vectorClockCompare_antisym a b : vectorClockCompare a b = - vectorClockCompare b a.
Proof. rewrite !vectorClockCompare_unfold. by repeat case_decide. Qed.

#[export] Instance vectorClockCompare_proper :
  Proper (vc_equiv ==> vc_equiv ==> eq) vectorClockCompare.
Proof.
  intros a a' Ha b b' Hb. rewrite !vectorClockCompare_unfold.
  assert (vc_le a b ↔ vc_le a' b') by (by rewrite Ha, Hb).
  assert (vc_le b a ↔ vc_le b' a') by (by rewrite Ha, Hb).
  repeat case_decide; tauto.
Qed.

(** ** The merge loop *)

Section Merge.
Context `{RangeOrder}.

Lemma lookup_mergeClocks l i node :
  mergeClocks l i !! node =
  match i !! node with
  | Some c => if (vc_get l node <? c)%Z then Some c else l !! node
  | None => l !! node
  end.
Proof.
  unfold mergeClocks. rewrite copy_loop_range, map_fmap_id, lookup_keyed_loop_range.
  unfold keyed_entry, merge_entry, vc_get. destruct (i !! node); [|done].
  by destruct (_ <? _).
Qed.

(** The merged counter is the greater of the two. *)
Lemma vc_get_mergeClocks l i node :
  vc_nonneg l → vc_get (mergeClocks l i) node = Z.max (vc_get l node) (vc_get i node).
Proof.
  intros Hl. specialize (Hl node). unfold vc_get at 1. rewrite lookup_mergeClocks.
  unfold vc_get in *. destruct (i !! node) as [c|]; simpl; [|lia].
  destruct (Z.ltb_spec (default 0 (l !! node)) c); simpl; lia.
Qed.

Lemma mergeClocks_ub_l l i : vc_nonneg l → vc_le l (mergeClocks l i).
Proof. intros Hl n. rewrite vc_get_mergeClocks by done. lia. Qed.

Lemma mergeClocks_ub_r l i : vc_nonneg l → vc_le i (mergeClocks l i).
Proof. intros Hl n. rewrite vc_get_mergeClocks by done. lia. Qed.

Lemma mergeClocks_lub l i u :
  vc_nonneg l → vc_le l u → vc_le i u → vc_le (mergeClocks l i) u.
Proof.
  intros Hl Hlu Hiu n. rewrite vc_get_mergeClocks by done.
  specialize (Hlu n); specialize (Hiu n); lia.
Qed.

Lemma mergeClocks_nonneg l i : vc_nonneg l → vc_nonneg (mergeClocks l i).
Proof. intros Hl n. rewrite vc_get_mergeClocks by done. specialize (Hl n). lia. Qed.

Lemma mergeClocks_le l i : vc_nonneg l → vc_le l i → vc_equiv (mergeClocks l i) i.
Proof. intros Hl Hle n. rewrite vc_get_mergeClocks by done. specialize (Hle n). lia. Qed.
End Merge.

(** The order of the range statements does not matter. *)
Lemma mergeClocks_order (o1 o2 : RangeOrder) l i :
  @mergeClocks o1 l i = @mergeClocks o2 l i.
Proof. apply map_eq. intros n. by rewrite !lookup_mergeClocks. Qed.

(** ** The increment *)

Lemma vc_get_incrClock node vc n :
  vc_get (incrClock node vc) n =
  if decide (node = n) then wrap_i64 (vc_get vc node + 1) else vc_get vc n.
Proof.
  unfold incrClock. unfold vc_get at 1. case_decide as Hn; [subst|].
  - by rewrite lookup_insert_eq.
  - by rewrite lookup_insert_ne.
Qed.

Lemma incrClock_lt node vc :
  0 ≤ vc_get vc node < two63 - 1 → vc_lt vc (incrClock node vc).
Proof.
  intros Hb. assert (wrap_i64 (vc_get vc node + 1) = vc_get vc node + 1) as Hw.
  { apply wrap_i64_id. unfold in_i64, two63 in *. lia. }
  split.
  - intros n. rewrite vc_get_incrClock. case_decide; [subst; lia|lia].
  - intros Hle. specialize (Hle node). rewrite vc_get_incrClock in Hle.
    rewrite decide_True in Hle by done. lia.
Qed.

#[export] Hint Resolve mergeClocks_ub_l mergeClocks_ub_r mergeClocks_nonneg : faultlab.
