(* ===== verification/Conflict.v ===== *)
(** * Conflict resolution of the gossip protocol

    Models gossip/types.go (the data), gossip/conflict_resolution.go
    (isIncomingNewer and the value a merge stores) and the digest comparison of
    gossip/propagation.go.  The theorems relate the two comparisons to each
    other and to an order on versions that every accepted merge climbs. *)

From S2P Require Import Prelude GoStrings VectorClock.

(** ** types.go *)

Definition MsgDigest : string := "DIGEST".
Definition MsgState : string := "STATE".

Record Value := {
  Data : string;
  Version : Z;
  Origin : string;
  Timestamp : Z;
  VectorClock : vclock;
}.

Definition TimelineEventWrite : string := "WRITE".
Definition TimelineEventGossipReceive : string := "GOSSIP_RECEIVE".
Definition TimelineEventResolve : string := "RESOLVE".

Record DigestEntry := {
  d_Version : Z;
  d_Origin : string;
  d_Timestamp : Z;
  d_VectorClock : vclock;
}.

Record GossipMessage := {
  Type_ : string;
  Digest : gmap string DigestEntry;
  State : gmap string Value;
}.

(** The zero [Value], what a map read returns for a missing key. *)
Definition zeroValue : Value :=
  {| Data := EmptyString; Version := 0; Origin := EmptyString; Timestamp := 0; VectorClock := ∅ |}.

#[export] Instance Value_eq_dec : EqDecision Value.
Proof. solve_decision. Defined.
#[export] Instance DigestEntry_eq_dec : EqDecision DigestEntry.
Proof. solve_decision. Defined.
#[export] Instance GossipMessage_eq_dec : EqDecision GossipMessage.
Proof. solve_decision. Defined.

#[export] Instance Value_countable : Countable Value.
Proof.
  refine (inj_countable' (λ v, (Data v, Version v, Origin v, Timestamp v, VectorClock v))
    (λ '(d, n, o, t, c), {| Data := d; Version := n; Origin := o; Timestamp := t; VectorClock := c |}) _).
  by intros [].
Defined.
#[export] Instance DigestEntry_countable : Countable DigestEntry.
Proof.
  refine (inj_countable' (λ v, (d_Version v, d_Origin v, d_Timestamp v, d_VectorClock v))
    (λ '(n, o, t, c), {| d_Version := n; d_Origin := o; d_Timestamp := t; d_VectorClock := c |}) _).
  by intros [].
Defined.
#[export] Instance GossipMessage_countable : Countable GossipMessage.
Proof.
  refine (inj_countable' (λ m, (Type_ m, Digest m, State m))
    (λ '(t, d, s), {| Type_ := t; Digest := d; State := s |}) _).
  by intros [].
Defined.

(** ** conflict_resolution.go *)

Definition isIncomingNewer (local incoming : Value) : bool :=
  let vcCmp := vectorClockCompare (VectorClock local) (VectorClock incoming) in
  if (0 <? vcCmp) then false
  else if (vcCmp <? 0) then true
  else if (Timestamp local <? Timestamp incoming) then true
  else if (Timestamp incoming <? Timestamp local) then false
  else if str_lt (Origin local) (Origin incoming) then true
  else if str_lt (Origin incoming) (Origin local) then false
  else (Version local <? Version incoming).

(** [storedValue]: the incoming value with the two clocks merged. *)
Definition storedValue `{RangeOrder} (localVal v : Value) : Value :=
  {| Data := Data v; Version := Version v; Origin := Origin v; Timestamp := Timestamp v;
     VectorClock := mergeClocks (VectorClock localVal) (VectorClock v) |}.

(** ** propagation.go *)

Definition valueToDigestEntry `{RangeOrder} (v : Value) : DigestEntry :=
  {| d_Version := Version v; d_Origin := Origin v; d_Timestamp := Timestamp v;
     d_VectorClock := copy_loop (λ c, c) (range 239 (VectorClock v)) |}.

Definition compareValueToDigest (local : Value) (remote : DigestEntry) : Z :=
  let vcCmp := vectorClockCompare (VectorClock local) (d_VectorClock remote) in
  if negb (vcCmp =? 0) then vcCmp
  else if (d_Timestamp remote <? Timestamp local) then 1
  else if (Timestamp local <? d_Timestamp remote) then -1
  else if str_lt (d_Origin remote) (Origin local) then 1
  else if str_lt (Origin local) (d_Origin remote) then -1
  else if (d_Version remote <? Version local) then 1
  else if (Version local <? d_Version remote) then -1
  else 0.

(** ** The tie-break order: timestamp, then origin, then version *)

Definition stamp (v : Value) : Z * string * Z := (Timestamp v, Origin v, Version v).

Definition stamp_ltb (a b : Z * string * Z) : bool :=
  let '(ta, oa, na) := a in
  let '(tb, ob, nb) := b in
  (ta <? tb) || ((ta =? tb) && (str_lt oa ob || (bool_decide (oa = ob) && (na <? nb)))).

Definition stamp_lt (a b : Z * string * Z) : Prop := stamp_ltb a b = true.

Lemma stamp_lt_unfold ta oa na tb ob nb :
  stamp_lt (ta, oa, na) (tb, ob, nb) ↔
  ta < tb ∨ ta = tb ∧ (str_lt oa ob = true ∨ oa = ob ∧ na < nb).
Proof.
  unfold stamp_lt, stamp_ltb.
  rewrite orb_true_iff, andb_true_iff, orb_true_iff, andb_true_iff,
    bool_decide_eq_true, Z.ltb_lt, Z.eqb_eq, Z.ltb_lt. done.
Qed.

#[export] Instance stamp_lt_strict : StrictOrder stamp_lt.
Proof.
  split.
  - intros [[t o] n]. unfold complement. rewrite stamp_lt_unfold, str_lt_irrefl. intros [?|[_ [?|[_ ?]]]]; [lia|done|lia].
  - intros [[ta oa] na] [[tb ob] nb] [[tc oc] nc]. rewrite !stamp_lt_unfold.
    intros [?|[-> Hab]] [?|[-> Hbc]]; [left; lia..|].
    right. split; [done|].
    destruct Hab as [Hab|[-> ?]], Hbc as [Hbc|[-> ?]]; eauto using str_lt_trans with lia.
Qed.

Lemma stamp_lt_total a b : a = b ∨ stamp_lt a b ∨ stamp_lt b a.
Proof.
  destruct a as [[ta oa] na], b as [[tb ob] nb]. rewrite !stamp_lt_unfold.
  destruct (Z.lt_trichotomy ta tb) as [?|[->|?]]; [auto| |auto].
  destruct (decide (oa = ob)) as [->|Ho]; [|destruct (str_lt_total oa ob Ho); auto 10].
  destruct (Z.lt_trichotomy na nb) as [?|[->|?]]; auto 10.
Qed.

Lemma stamp_lt_asym a b : stamp_lt a b → ¬ stamp_lt b a.
Proof. intros Hab Hba. destruct (irreflexivity stamp_lt a). by etrans. Qed.

Lemma stamp_ltb_antisym a b : stamp_ltb a b = true → stamp_ltb b a = false.
Proof. intros H. apply not_true_iff_false. by apply stamp_lt_asym. Qed.

(** The tail of both comparisons, after the clocks, is this order. *)
Lemma tie_break_newer ta oa na tb ob nb :
  (if ta <? tb then true else if tb <? ta then false
   else if str_lt oa ob then true else if str_lt ob oa then false else na <? nb) =
  stamp_ltb (ta, oa, na) (tb, ob, nb).
Proof.
  unfold stamp_ltb.
  destruct (Z.ltb_spec ta tb), (Z.ltb_spec tb ta), (Z.eqb_spec ta tb); try lia; try done.
  simpl. destruct (str_lt oa ob) eqn:Hab; [done|].
  destruct (str_lt ob oa) eqn:Hba; simpl.
  - case_bool_decide; [|done]. subst. by rewrite str_lt_irrefl in Hba.
  - case_bool_decide as Ho; [done|]. destruct (str_lt_total _ _ Ho); congruence.
Qed.

Lemma tie_break_compare ta oa na tb ob nb :
  (if tb <? ta then 1 else if ta <? tb then -1
   else if str_lt ob oa then 1 else if str_lt oa ob then -1
   else if nb <? na then 1 else if na <? nb then -1 else 0) =
  if stamp_ltb (tb, ob, nb) (ta, oa, na) then 1
  else if stamp_ltb (ta, oa, na) (tb, ob, nb) then -1 else 0.
Proof.
  rewrite <-!tie_break_newer.
  destruct (Z.ltb_spec ta tb), (Z.ltb_spec tb ta); try lia; try done.
  destruct (str_lt oa ob) eqn:Hab; [by rewrite (str_lt_asym _ _ Hab)|].
  by destruct (str_lt ob oa).
Qed.

(** ** What the comparisons decide *)

(** [b] supersedes [a]: it is causally later, or the clocks do not order them
    and its stamp is greater. *)
Definition supersedes (b a : Value) : Prop :=
  vc_lt (VectorClock a) (VectorClock b) ∨
  ¬ vc_lt (VectorClock b) (VectorClock a) ∧ stamp_lt (stamp a) (stamp b).

Lemma isIncomingNewer_unfold l i :
  isIncomingNewer l i =
  if decide (vc_lt (VectorClock i) (VectorClock l)) then false
  else if decide (vc_lt (VectorClock l) (VectorClock i)) then true
  else stamp_ltb (stamp l) (stamp i).
Proof.
  unfold isIncomingNewer. rewrite tie_break_newer, vectorClockCompare_decide.
  by repeat case_decide.
Qed.

Lemma isIncomingNewer_spec l i : isIncomingNewer l i = true ↔ supersedes i l.
Proof.
  rewrite isIncomingNewer_unfold. unfold supersedes, stamp_lt.
  repeat case_decide; unfold vc_lt in *; naive_solver.
Qed.

Lemma isIncomingNewer_false l i : isIncomingNewer l i = false ↔ ¬ supersedes i l.
Proof. by rewrite <-isIncomingNewer_spec, not_true_iff_false. Qed.

#[export] Instance supersedes_dec b a : Decision (supersedes b a).
Proof.
  refine (cast_if (decide (isIncomingNewer a b = true))); by rewrite <-isIncomingNewer_spec.
Defined.

Lemma supersedes_asym a b : supersedes a b → ¬ supersedes b a.
Proof.
  unfold supersedes, vc_lt. intros [?|[? Hs]] [?|[? Hs']]; try tauto.
  by apply (stamp_lt_asym _ _ Hs).
Qed.

Lemma supersedes_irrefl a : ¬ supersedes a a.
Proof. intros H. by apply (supersedes_asym a a). Qed.

Lemma valueToDigestEntry_clock `{RangeOrder} v : d_VectorClock (valueToDigestEntry v) = VectorClock v.
Proof. simpl. by rewrite copy_loop_range, map_fmap_id. Qed.

Lemma compareValueToDigest_unfold `{RangeOrder} l v :
  compareValueToDigest l (valueToDigestEntry v) =
  if decide (supersedes l v) then 1 else if decide (supersedes v l) then -1 else 0.
Proof.
  unfold compareValueToDigest. rewrite tie_break_compare, valueToDigestEntry_clock,
    vectorClockCompare_decide.
  cbn [valueToDigestEntry d_Timestamp d_Origin d_Version].
  change (Timestamp v, Origin v, Version v) with (stamp v).
  change (Timestamp l, Origin l, Version l) with (stamp l).
  destruct (decide (vc_lt (VectorClock v) (VectorClock l))) as [Hvl|Hvl]; cbn [negb Z.eqb].
  { rewrite decide_True; [done|by left]. }
  destruct (decide (vc_lt (VectorClock l) (VectorClock v))) as [Hlv|Hlv]; cbn [negb Z.eqb].
  { rewrite decide_False, decide_True; [done|by left|]. unfold supersedes, vc_lt in *. tauto. }
  unfold supersedes, stamp_lt. repeat case_decide; repeat case_match; naive_solver.
Qed.

(** Of two values one wins, unless they carry the same stamp and their clocks
    do not order them. *)
Lemma not_superseded_stamp v w : ¬ supersedes v w → ¬ supersedes w v → stamp v = stamp w.
Proof.
  unfold supersedes. intros Hvw Hwv.
  destruct (stamp_lt_total (stamp v) (stamp w)) as [?|[?|?]]; [done|exfalso..];
    destruct (decide (vc_lt (VectorClock v) (VectorClock w))), (decide (vc_lt (VectorClock w) (VectorClock v))); tauto.
Qed.

Lemma not_superseded_clocks v w :
  ¬ supersedes v w → ¬ supersedes w v → vectorClockCompare (VectorClock v) (VectorClock w) = 0.
Proof.
  unfold supersedes. intros Hvw Hwv. rewrite vectorClockCompare_decide. repeat case_decide; tauto.
Qed.

(** ** The version order that accepted merges climb *)

(** Greater clock, or the same clock and a greater stamp. *)
Definition version_lt (a b : Value) : Prop :=
  vc_lt (VectorClock a) (VectorClock b) ∨
  vc_equiv (VectorClock a) (VectorClock b) ∧ stamp_lt (stamp a) (stamp b).

Definition version_le (a b : Value) : Prop := a = b ∨ version_lt a b.

#[export] Instance version_lt_strict : StrictOrder version_lt.
Proof.
  unfold version_lt, vc_lt. split.
  - intros a [[]|[_ Hs]]; [tauto|]. by destruct (irreflexivity stamp_lt (stamp a)).
  - intros a b c [[Hab Hba]|[Hab Hsab]] [[Hbc Hcb]|[Hbc Hsbc]].
    + left. split; [by etrans|]. intros Hca. apply Hcb. by etrans.
    + left. by rewrite <-Hbc.
    + left. by rewrite Hab.
    + right. split; by etrans.
Qed.

#[export] Instance version_le_preorder : PreOrder version_le.
Proof.
  unfold version_le. split; [by left|].
  intros a b c [->|Hab] [->|Hbc]; auto. right. by etrans.
Qed.

Lemma version_le_clock a b : version_le a b → vc_le (VectorClock a) (VectorClock b).
Proof.
  intros [->|[[? _]|[He _]]]; [done|done|]. intros n. by rewrite (He n).
Qed.

Lemma accepted_climbs `{RangeOrder} l i :
  vc_nonneg (VectorClock l) → supersedes i l → version_lt l (storedValue l i).
Proof.
  intros Hl Hs. unfold version_lt. simpl.
  assert (vc_le (VectorClock l) (mergeClocks (VectorClock l) (VectorClock i))) as Hub by auto with faultlab.
  destruct (decide (vc_le (VectorClock i) (VectorClock l))) as [Hil|Hil].
  - destruct Hs as [[_ ?]|[Hn Hs]]; [done|]. right. split; [|done].
    apply vc_le_antisym; [done|]. by apply mergeClocks_lub.
  - left. split; [done|]. intros Hm. apply Hil. etrans; [|exact Hm]. by apply mergeClocks_ub_r.
Qed.

(** The stored value is not superseded by the value it was merged from. *)
Lemma stored_not_superseded `{RangeOrder} l i :
  vc_nonneg (VectorClock l) → ¬ supersedes i (storedValue l i).
Proof.
  intros Hl [[_ Hn]|[_ Hs]]; [by apply Hn, mergeClocks_ub_r|].
  by apply (irreflexivity stamp_lt (stamp i)).
Qed.
