(* ===== verification/Gossip.v ===== *)
(** * The gossip protocol (internal/node/protocol/gossip)

    Models gossip.go, propagation.go, conflict_resolution.go and crud.go: the
    state of one node's gossip protocol and every operation on it.  An operation
    returns the new state, the timeline messages it hands to the logger, and the
    envelopes it sends.  Diagnostic log lines are not modelled.  A number given
    to [range] or [now] is the source line of the statement. *)

From S2P Require Import Prelude GoStrings Protocol VectorClock Conflict.

Record GossipProtocol := {
  nodeID : string;
  tick : Z;
  peers : list string;
  store : gmap string Value;
  gossipInterval : Z;
  peerDiscoveryCb : bool;                (* whether a callback is set *)
  forceSyncPeers : gmap string bool;
  logger : bool;                         (* whether a logger is set *)
}.

Definition set_store (s : gmap string Value) (g : GossipProtocol) : GossipProtocol :=
  {| nodeID := nodeID g; tick := tick g; peers := peers g; store := s;
     gossipInterval := gossipInterval g; peerDiscoveryCb := peerDiscoveryCb g;
     forceSyncPeers := forceSyncPeers g; logger := logger g |}.

Definition set_peers (ps : list string) (g : GossipProtocol) : GossipProtocol :=
  {| nodeID := nodeID g; tick := tick g; peers := ps; store := store g;
     gossipInterval := gossipInterval g; peerDiscoveryCb := peerDiscoveryCb g;
     forceSyncPeers := forceSyncPeers g; logger := logger g |}.

Definition set_forceSyncPeers (f : gmap string bool) (g : GossipProtocol) : GossipProtocol :=
  {| nodeID := nodeID g; tick := tick g; peers := peers g; store := store g;
     gossipInterval := gossipInterval g; peerDiscoveryCb := peerDiscoveryCb g;
     forceSyncPeers := f; logger := logger g |}.

Definition set_tick (t : Z) (g : GossipProtocol) : GossipProtocol :=
  {| nodeID := nodeID g; tick := t; peers := peers g; store := store g;
     gossipInterval := gossipInterval g; peerDiscoveryCb := peerDiscoveryCb g;
     forceSyncPeers := forceSyncPeers g; logger := logger g |}.

(** ** Timeline messages *)

Record TimelineMsg := {
  tm_type : string;
  tm_key : string;
  tm_value : string;
  tm_version : Z;
  tm_origin : string;
  tm_source : string;
  tm_round : Z;
  tm_ts : Z;
}.

(** The line emitTimelineEvent formats. *)
Definition formatTimelineEvent (m : TimelineMsg) : string :=
  "TL_EVENT:" +:+
  Join [tm_type m; tm_key m; tm_value m; itoa (tm_version m); tm_origin m; tm_source m;
        itoa (tm_round m); itoa (tm_ts m)] "|".

Definition emitTimelineEvent (g : GossipProtocol) (round : Z)
    (eventType key value : string) (version : Z) (origin source : string) (ts : Z) :
    list TimelineMsg :=
  if logger g
  then [{| tm_type := eventType; tm_key := key; tm_value := value; tm_version := version;
           tm_origin := origin; tm_source := source; tm_round := round; tm_ts := ts |}]
  else [].

(** ** gossip.go *)

Definition NewGossipProtocol : GossipProtocol :=
  {| nodeID := EmptyString; tick := 0; peers := []; store := ∅; gossipInterval := 3;
     peerDiscoveryCb := false; forceSyncPeers := ∅; logger := false |}.

(** Start never fails: its error is always nil. *)
Definition Start (id : string) (g : GossipProtocol) : GossipProtocol :=
  {| nodeID := id; tick := 0; peers := peers g; store := store g;
     gossipInterval := gossipInterval g; peerDiscoveryCb := peerDiscoveryCb g;
     forceSyncPeers := forceSyncPeers g; logger := logger g |}.

(** Stop changes nothing and never fails. *)
Definition Stop (g : GossipProtocol) : GossipProtocol := g.

Definition SetPeerDiscoveryCallback (g : GossipProtocol) : GossipProtocol :=
  {| nodeID := nodeID g; tick := tick g; peers := peers g; store := store g;
     gossipInterval := gossipInterval g; peerDiscoveryCb := true;
     forceSyncPeers := forceSyncPeers g; logger := logger g |}.

Definition SetLogger (g : GossipProtocol) : GossipProtocol :=
  {| nodeID := nodeID g; tick := tick g; peers := peers g; store := store g;
     gossipInterval := gossipInterval g; peerDiscoveryCb := peerDiscoveryCb g;
     forceSyncPeers := forceSyncPeers g; logger := true |}.

Definition keep_peer (id : string) (p : string) : bool :=
  bool_decide (p ≠ EmptyString) && bool_decide (p ≠ id).

Definition SetPeers `{Env} (ps : list string) (g : GossipProtocol) : GossipProtocol :=
  let '(filtered, newPeers) :=
    foldl (λ '(f, n) p,
             if keep_peer (nodeID g) p then (f ++ [p], <[p := true]> n) else (f, n))
          ([], ∅ : gmap string bool) ps in
  let oldPeersMap := foldl (λ m p, <[p := true]> m) (∅ : gmap string bool) (peers g) in
  let force :=
    foldl (λ f '(peer, _), if default false (oldPeersMap !! peer) then f else <[peer := true]> f)
          (forceSyncPeers g) (range 100 newPeers) in
  set_peers filtered (set_forceSyncPeers force g).

(** ** crud.go *)

Definition Put `{Env} (key data : string) (g : GossipProtocol) :
    GossipProtocol * list TimelineMsg :=
  let logicalTS := now 7 in
  let current := store g !! key in
  let vc := match current with
            | Some cur => copy_loop (λ c, c) (range 12 (VectorClock cur))
            | None => ∅
            end in
  let vc := incrClock (nodeID g) vc in
  let version := match current with Some cur => wrap_i64 (Version cur + 1) | None => 1 end in
  let v := {| Data := data; Version := version; Origin := nodeID g;
              Timestamp := logicalTS; VectorClock := vc |} in
  let g' := set_store (<[key := v]> (store g)) g in
  (g', emitTimelineEvent g' (now 32) TimelineEventWrite key data version (nodeID g) (nodeID g) logicalTS).

Definition Get (key : string) (g : GossipProtocol) : string * bool :=
  match store g !! key with
  | None => (EmptyString, false)
  | Some val => (Data val, true)
  end.

Definition GetWithMetadata (key : string) (g : GossipProtocol) : string * Z * string * bool :=
  match store g !! key with
  | None => (EmptyString, 0, EmptyString, false)
  | Some val => (Data val, Version val, Origin val, true)
  end.

Definition Delete (key : string) (g : GossipProtocol) : GossipProtocol :=
  match store g !! key with
  | Some _ => set_store (delete key (store g)) g
  | None => g
  end.

(** ** conflict_resolution.go: handleState *)

(** The variables of the loop: the store, the counter and the emitted lines. *)
Record MergeLoop := {
  ml_store : gmap string Value;
  ml_updated : nat;
  ml_events : list TimelineMsg;
}.

Definition handleState_step `{Env} (g : GossipProtocol) (st : MergeLoop) (kv : string * Value) : MergeLoop :=
  let '(k, v) := kv in
  let exists_ := bool_decide (is_Some (ml_store st !! k)) in
  let localVal := default zeroValue (ml_store st !! k) in
  if negb exists_ || isIncomingNewer localVal v then
    let eventType := if exists_ then TimelineEventResolve else TimelineEventGossipReceive in
    {| ml_store := <[k := storedValue localVal v]> (ml_store st);
       ml_updated := S (ml_updated st);
       ml_events := ml_events st ++
         emitTimelineEvent g (now (ml_updated st)) eventType k (Data v) (Version v) (Origin v)
           (Origin v) (Timestamp v) |}
  else st.

Definition handleState `{Env} (msg : GossipMessage) (g : GossipProtocol) :
    GossipProtocol * list TimelineMsg * list Envelope :=
  let st := foldl (handleState_step g)
              {| ml_store := store g; ml_updated := 0; ml_events := [] |} (range 8 (State msg)) in
  (set_store (ml_store st) g, ml_events st, []).

(** ** propagation.go *)

(** The digest of a store: valueToDigestEntry at every key. *)
Definition digestOf `{Env} (site : nat) (s : gmap string Value) : gmap string DigestEntry :=
  copy_loop valueToDigestEntry (range site s).

(** Metadata longer than 100 bytes is cut to 97 and an ellipsis. *)
Definition truncateMeta (s : string) : string :=
  if (100 <? Z.of_nat (String.length s)) then str_take 97 s +:+ "..." else s.

Definition gossipEnvelope (from to payload meta : string) (ts : Z) : Envelope :=
  {| env_From := from; env_To := to; env_Protocol := "gossip"; env_Payload := payload;
     env_Kind := KindProtocol; env_TraceMetadata := meta; env_Version := 1;
     env_LogicalTick := wrap_u64 ts |}.

Definition pickRandomPeer `{Env} (g : GossipProtocol) : option string :=
  match peers g with
  | [] => None
  | ps => ps !! (draw mod length ps)%nat
  end.

Definition hasPeer (g : GossipProtocol) (peerID : string) : bool :=
  existsb (λ p, bool_decide (p = peerID)) (peers g).

Definition parseSenderAddress (from : string) : string * string * Z :=
  match IndexByte from "@"%char with
  | None => (from, EmptyString, 0)
  | Some idx =>
      let peerID := str_take idx from in
      let addrStr := str_drop (S idx) from in
      match LastIndexByte addrStr ":"%char with
      | None => (peerID, addrStr, 0)
      | Some colonIdx =>
          let host := str_take colonIdx addrStr in
          match Atoi (str_drop (S colonIdx) addrStr) with
          | None => (peerID, host, 0)
          | Some parsedPort => (peerID, host, parsedPort)
          end
      end
  end.

Section WithCodec.
Context `{Codec GossipMessage}.

Definition Tick `{Env} (g : GossipProtocol) : GossipProtocol * list Envelope :=
  let g := set_tick (wrap_u64 (tick g + 1)) g in
  if negb (tick g `mod` gossipInterval g =? 0) then (g, [])
  else
    let gm := {| Type_ := MsgDigest; Digest := digestOf 23 (store g); State := ∅ |} in
    let '(g, peer) :=
      match range 31 (forceSyncPeers g) with
      | (p, _) :: _ => (set_forceSyncPeers (delete p (forceSyncPeers g)) g, Some p)
      | [] => (g, pickRandomPeer g)
      end in
    match peer with
    | None => (g, [])
    | Some peer =>
        let keys := (range 48 (Digest gm)).*1 in
        let keyPrefix := truncateMeta ("keys=[" +:+ Join keys "," +:+ "]") in
        (g, [gossipEnvelope (nodeID g) peer (EncodeJSON gm) ("GOSSIP_DIGEST:" +:+ keyPrefix) (now 71)])
    end.

(** The entries of the local store that the sender of the digest lacks or has
    in an older version. *)
Definition stateFor `{Env} (digest : gmap string DigestEntry) (s : gmap string Value) :
    gmap string Value :=
  foldl (λ st '(key, localVal),
           match digest !! key with
           | None => <[key := localVal]> st
           | Some remoteEntry =>
               if (0 <? compareValueToDigest localVal remoteEntry)
               then <[key := localVal]> st else st
           end) ∅ (range 120 s).

(** The loop that stops at the first key the local node is behind on. *)
Definition isBehind `{Env} (digest : gmap string DigestEntry) (s : gmap string Value) : bool :=
  existsb (λ '(key, remoteEntry),
             match s !! key with
             | None => true
             | Some localVal => (compareValueToDigest localVal remoteEntry <? 0)
             end) (range 152 digest).

Definition handleDigest `{Env} (from : string) (msg : GossipMessage) (g : GossipProtocol) :
    list Envelope :=
  let stateMsg := {| Type_ := MsgState; Digest := ∅; State := stateFor (Digest msg) (store g) |} in
  let out1 :=
    if bool_decide (State stateMsg = ∅) then []
    else
      let updates := (λ '(k, v), k +:+ "=" +:+ Data v) <$> range 129 (State stateMsg) in
      let stateMeta := truncateMeta ("updates={" +:+ Join updates "," +:+ "}") in
      [gossipEnvelope (nodeID g) from (EncodeJSON stateMsg) ("GOSSIP_STATE:" +:+ stateMeta) (now 147)] in
  let out2 :=
    if isBehind (Digest msg) (store g) then
      let digestMsg := {| Type_ := MsgDigest; Digest := digestOf 166 (store g); State := ∅ |} in
      [gossipEnvelope (nodeID g) from (EncodeJSON digestMsg)
         ("GOSSIP_SYNC_REQ:" +:+ itoa (Z.of_nat (size (Digest digestMsg))) +:+ "_keys") (now 180)]
    else [] in
  out1 ++ out2.

(** The sender's id, and the protocol once the sender is known.
    [OnPeerDiscovered] is the callback of the runtime: it runs inside OnMessage
    and may change the protocol (it ends in SetPeers). *)
Definition senderOf (from : string) : string :=
  let '(senderID, _, _) := parseSenderAddress from in
  if bool_decide (senderID = EmptyString) then from else senderID.

Definition discoverSender (OnPeerDiscovered : string → string → Z → GossipProtocol → GossipProtocol)
    (from : string) (g : GossipProtocol) : GossipProtocol :=
  let '(_, senderHost, senderPort) := parseSenderAddress from in
  let senderID := senderOf from in
  if keep_peer (nodeID g) senderID && negb (hasPeer g senderID) then
    let g := set_peers (peers g ++ [senderID]) g in
    if peerDiscoveryCb g && bool_decide (senderHost ≠ EmptyString) && (0 <? senderPort)
    then OnPeerDiscovered senderID senderHost senderPort g
    else g
  else g.

Definition OnMessage `{Env} (OnPeerDiscovered : string → string → Z → GossipProtocol → GossipProtocol)
    (env : Envelope) (g : GossipProtocol) : GossipProtocol * list TimelineMsg * list Envelope :=
  let g := discoverSender OnPeerDiscovered (env_From env) g in
  match DecodeJSON (env_Payload env) with
  | None => (g, [], [])
  | Some msg =>
      if bool_decide (Type_ msg = MsgDigest) then (g, [], handleDigest (senderOf (env_From env)) msg g)
      else if bool_decide (Type_ msg = MsgState) then handleState msg g
      else (g, [], [])
  end.
End WithCodec.
