(* ===== verification/GossipProps.v ===== *)
(** * Properties of the gossip operations

    What one call of each operation of Gossip.v does: the merge of a STATE
    message key by key, its idempotence and its monotonicity, the answer to a
    DIGEST, local writes, the peer list and the forced synchronisation. *)

From S2P Require Import Prelude GoStrings Protocol VectorClock Conflict Gossip.

(** ** The merge of one key *)

(** [!exists || isIncomingNewer(localVal, v)] *)
Definition accepts (old : option Value) (v : Value) : bool :=
  match old with None => true | Some l => isIncomingNewer l v end.

(** What the merge leaves at a key, given what was there and what arrives. *)
Definition mergeValue `{RangeOrder} (old incoming : option Value) : option Value :=
  match incoming with
  | None => old
  | Some v => if accepts old v then Some (storedValue (default zeroValue old) v) else old
  end.

(** The counters of every clock of a store or a message are non-negative. *)
Definition nonneg_values (s : gmap string Value) : Prop :=
  map_Forall (λ _ v, vc_nonneg (VectorClock v)) s.

Definition old_le (old : option Value) (v : Value) : Prop :=
  match old with None => True | Some l => version_le l v end.

Lemma vc_nonneg_empty : vc_nonneg ∅.
Proof. intros n. unfold vc_get. by rewrite lookup_empty. Qed.

Lemma nonneg_default (s : gmap string Value) k :
  nonneg_values s → vc_nonneg (VectorClock (default zeroValue (s !! k))).
Proof.
  intros Hs. destruct (s !! k) as [v|] eqn:Hk; [by apply (Hs k)|apply vc_nonneg_empty].
Qed.

Section MergeValue.
Context `{RangeOrder}.

(** Every branch of the merge returns the old value or climbs above it. *)
Lemma mergeValue_climbs (s : gmap string Value) k i m :
  nonneg_values s → mergeValue (s !! k) i = Some m → old_le (s !! k) m.
Proof.
  intros Hs. pose proof (nonneg_default s k Hs) as Hn. unfold mergeValue, old_le.
  destruct (s !! k) as [l|]; [|done]. simpl in *.
  destruct i as [v|]; [|intros [= ->]; by left].
  destruct (isIncomingNewer l v) eqn:Hv; intros [= <-]; [|by left].
  right. by apply accepted_climbs; [|apply isIncomingNewer_spec].
Qed.

Lemma mergeValue_not_newer (s : gmap string Value) k v m :
  nonneg_values s → mergeValue (s !! k) (Some v) = Some m → isIncomingNewer m v = false.
Proof.
  intros Hs. pose proof (nonneg_default s k Hs) as Hn. unfold mergeValue.
  destruct (accepts _ _) eqn:Ha; [intros [= <-]|intros Hk].
  - apply isIncomingNewer_false. by apply stored_not_superseded.
  - by rewrite Hk in Ha.
Qed.

Lemma mergeValue_Some old v : is_Some (mergeValue old (Some v)).
Proof. unfold mergeValue. destruct (accepts old v) eqn:Ha; [eauto|]. destruct old; [eauto|done]. Qed.

Lemma mergeValue_nonneg (s : gmap string Value) k i m :
  nonneg_values s → mergeValue (s !! k) i = Some m → vc_nonneg (VectorClock m).
Proof.
  intros Hs. pose proof (nonneg_default s k Hs) as Hn. unfold mergeValue.
  destruct i as [v|]; [destruct (accepts _ _); [intros [= <-]|]|].
  - simpl. auto with faultlab.
  - intros Hk. by apply (Hs k).
  - intros Hk. by apply (Hs k).
Qed.
End MergeValue.

(** ** handleState *)

(** The timeline line for the [i]-th accepted entry. *)
Definition merge_event `{Env} (s : gmap string Value) (i : nat) (kv : string * Value) : TimelineMsg :=
  {| tm_type := if bool_decide (is_Some (s !! kv.1)) then TimelineEventResolve else TimelineEventGossipReceive;
     tm_key := kv.1; tm_value := Data kv.2; tm_version := Version kv.2; tm_origin := Origin kv.2;
     tm_source := Origin kv.2; tm_round := now i; tm_ts := Timestamp kv.2 |}.

Definition accepted `{Env} (s : gmap string Value) (l : list (string * Value)) : list (string * Value) :=
  filter (λ kv, accepts (s !! kv.1) kv.2 = true) l.

Section HandleState.
Context `{Env}.

Lemma accepted_insert s k v l :
  k ∉ l.*1 → accepted (<[k := v]> s) l = accepted s l.
Proof.
  unfold accepted. induction l as [|[k' v'] l IH]; [done|].
  intros [Hne Hk]%not_elem_of_cons. rewrite !filter_cons, (IH Hk). simpl.
  by rewrite lookup_insert_ne.
Qed.

Lemma imap_merge_event_insert s k v (j : nat) l :
  k ∉ l.*1 →
  imap (λ i, merge_event (<[k := v]> s) (j + i)) l = imap (λ i, merge_event s (j + i)) l.
Proof.
  intros Hk. apply imap_ext. intros i [k' v'] Hi. unfold merge_event. simpl.
  rewrite lookup_insert_ne; [done|]. intros ->. apply Hk.
  apply list_elem_of_fmap. exists (k', v'). split; [done|]. by eapply list_elem_of_lookup_2.
Qed.

Lemma accepted_keys s l k : k ∉ l.*1 → k ∉ (accepted s l).*1.
Proof.
  rewrite !list_elem_of_fmap. intros Hk (kv & -> & [_ Hin]%list_elem_of_filter). eauto.
Qed.

(** The loop of handleState, over any list of distinct keys. *)
Lemma handleState_loop g st l :
  NoDup l.*1 →
  foldl (handleState_step g) st l =
  {| ml_store := keyed_loop (λ _ old v, mergeValue old (Some v)) (ml_store st) l;
     ml_updated := ml_updated st + length (accepted (ml_store st) l);
     ml_events := ml_events st ++
       if logger g then imap (λ i, merge_event (ml_store st) (ml_updated st + i)) (accepted (ml_store st) l)
       else [] |}.
Proof.
  revert st; induction l as [|[k v] l IH]; intros st Hnd.
  { destruct st. cbn. unfold accepted. cbn. rewrite Nat.add_0_r. by destruct (logger g); rewrite app_nil_r. }
  apply NoDup_cons in Hnd as [Hk Hnd]. cbn [foldl keyed_loop]. rewrite (IH _ Hnd). clear IH.
  unfold accepted at 3 4. rewrite filter_cons. fold (accepted (ml_store st) l). cbn [fst snd].
  unfold keyed_loop, keyed_step, handleState_step. cbn [foldl fst snd].
  set (old := ml_store st !! k).
  assert (negb (bool_decide (is_Some old)) || isIncomingNewer (default zeroValue old) v
          = accepts old v) as -> by (by destruct old).
  unfold mergeValue. destruct (accepts old v) eqn:Ha; cbn [ml_store ml_updated ml_events].
  - rewrite decide_True by done. rewrite (accepted_insert _ _ _ _ Hk). cbn [length]. f_equal; [lia|].
    rewrite imap_merge_event_insert by (by apply accepted_keys).
    unfold emitTimelineEvent. destruct (logger g); [|by rewrite app_nil_r].
    rewrite <-app_assoc, imap_cons. cbn [app]. f_equal. f_equal.
    + unfold merge_event. rewrite Nat.add_0_r. cbn [fst snd]. fold old. by destruct old.
    + apply imap_ext. intros i x _. simpl. by rewrite Nat.add_succ_r.
  - rewrite decide_False by done. unfold old. destruct (ml_store st !! k) as [w|] eqn:Hw; [|done].
    by rewrite (insert_id _ _ _ Hw).
Qed.
End HandleState.

Section HandleStateSpec.
Context `{Env}.

Lemma handleState_unfold msg g :
  handleState msg g =
  let l := range 8 (State msg) in
  (set_store (keyed_loop (λ _ old v, mergeValue old (Some v)) (store g) l) g,
   if logger g then imap (merge_event (store g)) (accepted (store g) l) else [], []).
Proof. unfold handleState. rewrite handleState_loop by apply range_NoDup. reflexivity. Qed.

Lemma lookup_handleState msg g k :
  store (handleState msg g).1.1 !! k = mergeValue (store g !! k) (State msg !! k).
Proof.
  rewrite handleState_unfold. cbn [fst snd store set_store]. rewrite lookup_keyed_loop_range. unfold keyed_entry.
  destruct (State msg !! k) as [v|]; [|done].
  by destruct (mergeValue_Some (store g !! k) v) as [m ->].
Qed.

Lemma handleState_frame msg g :
  (handleState msg g).1.1 = set_store (store (handleState msg g).1.1) g.
Proof. by rewrite handleState_unfold. Qed.

Lemma handleState_nonneg msg g :
  nonneg_values (store g) → nonneg_values (store (handleState msg g).1.1).
Proof.
  intros Hs k m. rewrite lookup_handleState. by apply mergeValue_nonneg.
Qed.

(** Nothing is accepted: the loop leaves the store and emits nothing. *)
Lemma handleState_noop msg g :
  (∀ k v, State msg !! k = Some v → accepts (store g !! k) v = false) →
  handleState msg g = (g, [], []).
Proof.
  intros Hno. assert (store (handleState msg g).1.1 = store g) as Hst.
  { apply map_eq. intros k. rewrite lookup_handleState. unfold mergeValue.
    destruct (State msg !! k) as [v|] eqn:Hv; [|done]. by rewrite (Hno k v Hv). }
  rewrite (surjective_pairing (handleState msg g)), (surjective_pairing (handleState msg g).1).
  rewrite handleState_frame, Hst. rewrite handleState_unfold. cbn [fst snd]. f_equal.
  f_equal; [by destruct g|].
  assert (accepted (store g) (range 8 (State msg)) = []) as ->; [|by destruct (logger g)].
  apply list.elem_of_nil_inv. intros [k v] [Ha Hin%elem_of_range]%list_elem_of_filter.
  cbn [fst snd] in Ha. by rewrite (Hno k v Hin) in Ha.
Qed.

(** HandleState merges a STATE message key by key: the entry at a key
    depends only on the local and the incoming entry there, it is replaced
    (with the two clocks merged) exactly when the key is absent or the
    incoming value wins, nothing else of the node changes, nothing is sent,
    and the logger receives one line per accepted entry, GOSSIP_RECEIVE for a
    new key and RESOLVE for a replaced one. *)
Theorem handleState_spec msg g :
  ∃ acc, acc ≡ₚ filter (λ kv, accepts (store g !! kv.1) kv.2 = true) (map_to_list (State msg)) ∧
    ∃ s', handleState msg g =
            (set_store s' g, if logger g then imap (merge_event (store g)) acc else [], []) ∧
          ∀ k, s' !! k = mergeValue (store g !! k) (State msg !! k).
Proof.
  exists (accepted (store g) (range 8 (State msg))). split.
  { unfold accepted. by rewrite range_perm. }
  exists (store (handleState msg g).1.1). split; [by rewrite handleState_unfold|].
  intros k. apply lookup_handleState.
Qed.

(** Merging never goes back: every key of the store keeps its value or
    moves to one that is greater in the version order (a causally later clock,
    or the same clock and a greater timestamp, origin, version). *)
Theorem handleState_inflationary msg g k v :
  nonneg_values (store g) → store g !! k = Some v →
  ∃ v', store (handleState msg g).1.1 !! k = Some v' ∧ version_le v v'.
Proof.
  intros Hs Hk. rewrite lookup_handleState.
  destruct (mergeValue (store g !! k) (State msg !! k)) as [m|] eqn:Hm.
  - exists m. split; [done|]. pose proof (mergeValue_climbs _ _ _ _ Hs Hm) as Hle. by rewrite Hk in Hle.
  - rewrite Hk in Hm. unfold mergeValue in Hm. by destruct (State msg !! k); [case_match|].
Qed.
End HandleStateSpec.

(** A STATE message delivered again, in any range order, changes nothing and
    emits nothing. *)
Theorem handleState_idempotent (E1 E2 : Env) msg g :
  nonneg_values (store g) →
  let g1 := (@handleState E1 msg g).1.1 in @handleState E2 msg g1 = (g1, [], []).
Proof.
  intros Hs. cbv zeta. apply handleState_noop. intros k v Hv.
  pose proof (lookup_handleState (H:=E1) msg g k) as Hk. rewrite Hv in Hk.
  destruct (@mergeValue_Some (@env_order E1) (store g !! k) v) as [m Hm]. rewrite Hk, Hm. simpl.
  by apply (@mergeValue_not_newer (@env_order E1) (store g) k v).
Qed.

(** ** Digests *)

(** The entries of [s] that a node holding [peer] would accept. *)
Definition news_for (peer s : gmap string Value) : gmap string Value :=
  filter (λ kv, accepts (peer !! kv.1) kv.2 = true) s.

Lemma lookup_news_for peer s k v :
  news_for peer s !! k = Some v ↔ s !! k = Some v ∧ accepts (peer !! k) v = true.
Proof. unfold news_for. by rewrite map_lookup_filter_Some. Qed.

Lemma compare_pos `{RangeOrder} l r :
  (0 <? compareValueToDigest l (valueToDigestEntry r)) = isIncomingNewer r l.
Proof.
  rewrite compareValueToDigest_unfold. apply eq_true_iff_eq. rewrite isIncomingNewer_spec.
  repeat case_decide; simpl; naive_solver.
Qed.

Lemma compare_neg `{RangeOrder} l r :
  (compareValueToDigest l (valueToDigestEntry r) <? 0) = isIncomingNewer l r.
Proof.
  rewrite compareValueToDigest_unfold. apply eq_true_iff_eq. rewrite isIncomingNewer_spec.
  repeat case_decide; simpl; [|naive_solver..].
  split; [done|]. intros Hs. by destruct (supersedes_asym r l).
Qed.

Lemma lookup_digestOf `{Env} site s k : digestOf site s !! k = valueToDigestEntry <$> s !! k.
Proof. unfold digestOf. by rewrite copy_loop_range, lookup_fmap. Qed.

Section Digest.
Context {E : Env} `{Codec GossipMessage}.

Lemma stateFor_keyed digest s :
  stateFor digest s =
  keyed_loop (λ k _ v, match digest !! k with
                       | None => Some v
                       | Some r => if (0 <? compareValueToDigest v r) then Some v else None
                       end) ∅ (range 120 s).
Proof.
  unfold stateFor, keyed_loop. apply foldl_ext_in. intros m [k v] _.
  unfold keyed_step. cbn [fst snd]. by destruct (digest !! k); [case_match|].
Qed.

Lemma stateFor_digestOf (E' : Env) site peer s :
  @stateFor E (@digestOf E' site peer) s = news_for peer s.
Proof.
  apply map_eq. intros k. apply option_eq. intros v.
  rewrite lookup_news_for, stateFor_keyed, lookup_keyed_loop_range.
  unfold keyed_entry. rewrite lookup_empty, (@lookup_digestOf E').
  destruct (s !! k) as [w|]; [|naive_solver].
  destruct (peer !! k) as [r|]; simpl; [|naive_solver].
  rewrite compare_pos. destruct (isIncomingNewer r w) eqn:Hr; intuition congruence.
Qed.

Lemma isBehind_digestOf (E' : Env) site peer s :
  @isBehind E (@digestOf E' site peer) s = bool_decide (news_for s peer ≠ ∅).
Proof.
  apply eq_true_iff_eq. unfold isBehind. rewrite bool_decide_eq_true, existsb_elem_of, map_nonempty. split.
  - intros ([k d] & Hin%elem_of_range & Hk).
    rewrite (@lookup_digestOf E') in Hin. destruct (peer !! k) as [r|] eqn:Hr; [|done].
    injection Hin as <-. exists k, r. apply lookup_news_for. split; [done|].
    destruct (s !! k); [|done]. by rewrite compare_neg in Hk.
  - intros (k & r & [Hr Ha]%lookup_news_for). exists (k, @valueToDigestEntry (@env_order E') r). split.
    + apply elem_of_range. by rewrite (@lookup_digestOf E'), Hr.
    + destruct (s !! k); [|done]. by rewrite compare_neg.
Qed.
End Digest.

(** ** What encoding/json can carry

    The text of a message is recovered from its encoding when all its strings
    are valid text (UTF-8); the integer fields are int64 values. *)

Definition text_clock (P : string → Prop) (vc : vclock) : Prop := map_Forall (λ n _, P n) vc.

Definition text_value (P : string → Prop) (v : Value) : Prop :=
  P (Data v) ∧ P (Origin v) ∧ text_clock P (VectorClock v).

Definition text_store (P : string → Prop) (s : gmap string Value) : Prop :=
  map_Forall (λ k v, P k ∧ text_value P v) s.

Definition text_message (P : string → Prop) (m : GossipMessage) : Prop :=
  P (Type_ m) ∧ text_store P (State m) ∧
  map_Forall (λ k d, P k ∧ P (d_Origin d) ∧ text_clock P (d_VectorClock d)) (Digest m).

Class GossipCodec `{Codec GossipMessage} := {
  valid_text : string → Prop;
  valid_MsgDigest : valid_text MsgDigest;
  valid_MsgState : valid_text MsgState;
  decode_text m : text_message valid_text m → DecodeJSON (EncodeJSON m) = Some m;
}.

#[export] Instance text_clock_dec P `{∀ x, Decision (P x)} vc : Decision (text_clock P vc).
Proof. unfold text_clock. apply _. Defined.
#[export] Instance text_store_dec P `{∀ x, Decision (P x)} s : Decision (text_store P s).
Proof. unfold text_store, text_value. apply _. Defined.

Definition run_codec : @GossipCodec (countable_codec GossipMessage) := {|
  valid_text := λ _, True;
  valid_MsgDigest := I;
  valid_MsgState := I;
  decode_text := λ m _, countable_decode_encode m;
|}.

Section TextProps.
Context (P : string → Prop).

Lemma text_mergeClocks `{RangeOrder} l i :
  text_clock P l → text_clock P i → text_clock P (mergeClocks l i).
Proof.
  intros Hl Hi n c. rewrite lookup_mergeClocks. destruct (i !! n) as [c'|] eqn:Hn.
  - intros _. by apply (Hi n c').
  - apply Hl.
Qed.

Lemma text_storedValue `{RangeOrder} l v :
  text_clock P (VectorClock l) → text_value P v → text_value P (storedValue l v).
Proof. intros Hl (Hd & Ho & Hc). split_and!; [done..|]. by apply text_mergeClocks. Qed.

Lemma text_default s k : text_store P s → text_clock P (VectorClock (default zeroValue (s !! k))).
Proof.
  intros Hs. destruct (s !! k) as [l|] eqn:Hk; [apply (Hs k l Hk)|]. apply map_Forall_empty.
Qed.

Lemma text_merged `{RangeOrder} s t u :
  (∀ k, u !! k = mergeValue (s !! k) (t !! k)) → text_store P s → text_store P t → text_store P u.
Proof.
  intros Hu Hs Hm k v. rewrite Hu. unfold mergeValue.
  destruct (t !! k) as [w|] eqn:Hw; [|apply Hs].
  destruct (accepts _ _); [intros [= <-]|apply Hs].
  destruct (Hm k w Hw) as [Hk Hv]. split; [done|]. by apply text_storedValue; [apply text_default|].
Qed.

Lemma text_news peer s : text_store P s → text_store P (news_for peer s).
Proof. intros Hs k v [Hk _]%lookup_news_for. by apply Hs. Qed.

Lemma text_state_message s :
  P MsgState → text_store P s → text_message P {| Type_ := MsgState; Digest := ∅; State := s |}.
Proof. intros HP Hs. split_and!; [done..|]. apply map_Forall_empty. Qed.

Lemma text_digest_message `{Env} site s :
  P MsgDigest → text_store P s →
  text_message P {| Type_ := MsgDigest; Digest := digestOf site s; State := ∅ |}.
Proof.
  intros HP Hs. split_and!; [done|apply map_Forall_empty|]. intros k d. cbn [Digest].
  rewrite lookup_digestOf. destruct (s !! k) as [v|] eqn:Hk; [|done]. intros [= <-].
  destruct (Hs k v Hk) as (? & ? & ? & ?). rewrite valueToDigestEntry_clock. done.
Qed.
End TextProps.

(** ** Sending and receiving *)

(** The two states differ at most in their peers. *)
Definition same_data (g g' : GossipProtocol) : Prop :=
  set_peers [] (set_forceSyncPeers ∅ g) = set_peers [] (set_forceSyncPeers ∅ g').

#[export] Instance same_data_equivalence : Equivalence same_data.
Proof. unfold same_data. split; [done|by intros ??|by intros ??? -> ->]. Qed.

Lemma same_data_fields g g' :
  same_data g g' → store g = store g' ∧ nodeID g = nodeID g' ∧ logger g = logger g' ∧ tick g = tick g'.
Proof. unfold same_data. intros H. by injection H. Qed.

(** The callback of the runtime touches only the peers. *)
Definition peer_callback (cb : string → string → Z → GossipProtocol → GossipProtocol) : Prop :=
  ∀ id host port g, same_data (cb id host port g) g.

Lemma SetPeers_same_data `{Env} ps g : same_data (SetPeers ps g) g.
Proof. unfold SetPeers. by destruct (foldl _ _ ps). Qed.

Lemma discoverSender_same_data cb from g : peer_callback cb → same_data (discoverSender cb from g) g.
Proof.
  intros Hcb. unfold discoverSender. destruct (parseSenderAddress from) as [[? ?] ?].
  repeat case_match; [|done..]. by etrans; [apply Hcb|].
Qed.

Lemma length_str_take n s : (String.length (str_take n s) ≤ n)%nat.
Proof. revert s; induction n as [|n IH]; intros [|a s]; simpl; [lia..|]. specialize (IH s). lia. Qed.

Lemma length_str_app s t : String.length (s +:+ t) = (String.length s + String.length t)%nat.
Proof. induction s as [|a s IH]; simpl; [done|]. by f_equal. Qed.

(** The metadata of a message is at most 100 bytes long. *)
Lemma truncateMeta_length s : (String.length (truncateMeta s) ≤ 100)%nat.
Proof.
  unfold truncateMeta. destruct (Z.ltb_spec 100 (Z.of_nat (String.length s))); [|lia].
  rewrite length_str_app. pose proof (length_str_take 97 s). change (String.length "...") with 3%nat. lia.
Qed.

Definition state_message (s : gmap string Value) : GossipMessage :=
  {| Type_ := MsgState; Digest := ∅; State := s |}.

Definition digest_message `{Env} (site : nat) (s : gmap string Value) : GossipMessage :=
  {| Type_ := MsgDigest; Digest := digestOf site s; State := ∅ |}.

Section Exchange.
Context {E : Env} `{GC : GossipCodec}.
Context (cb : string → string → Z → GossipProtocol → GossipProtocol) (Hcb : peer_callback cb).

Lemma handleDigest_digestOf (E' : Env) site from peer g :
  @handleDigest _ E from (@digest_message E' site peer) g =
  (if decide (news_for peer (store g) = ∅) then []
   else [gossipEnvelope (nodeID g) from (EncodeJSON (state_message (news_for peer (store g))))
           ("GOSSIP_STATE:" +:+ truncateMeta ("updates={" +:+
              Join ((λ '(k, v), k +:+ "=" +:+ Data v) <$> @range (@env_order E) _ 129 (news_for peer (store g))) "," +:+ "}"))
           (@now E 147)]) ++
  (if decide (news_for (store g) peer = ∅) then []
   else [gossipEnvelope (nodeID g) from (EncodeJSON (@digest_message E 166 (store g)))
           ("GOSSIP_SYNC_REQ:" +:+ itoa (Z.of_nat (size (store g))) +:+ "_keys") (@now E 180)]).
Proof.
  unfold handleDigest, digest_message, state_message. cbn [Digest State].
  rewrite (stateFor_digestOf E'), (isBehind_digestOf E'). f_equal.
  - case_bool_decide; case_decide; by try done.
  - case_bool_decide; case_decide; try done.
    unfold digestOf at 2. by rewrite copy_loop_range, map_size_fmap.
Qed.

Lemma OnMessage_digest env g E' site peer :
  DecodeJSON (env_Payload env) = Some (@digest_message E' site peer) →
  @OnMessage _ E cb env g =
  (discoverSender cb (env_From env) g, [],
   @handleDigest _ E (senderOf (env_From env)) (@digest_message E' site peer) (discoverSender cb (env_From env) g)).
Proof. intros Hd. unfold OnMessage. rewrite Hd. by rewrite bool_decide_true. Qed.

Lemma OnMessage_state env g s :
  DecodeJSON (env_Payload env) = Some (state_message s) →
  @OnMessage _ E cb env g = handleState (state_message s) (discoverSender cb (env_From env) g).
Proof.
  intros Hd. unfold OnMessage. rewrite Hd. rewrite bool_decide_false by done.
  by rewrite bool_decide_true.
Qed.
End Exchange.

(** ** Exchanging digests with another node *)

(** A node handles messages one after the other, collecting what it sends. *)
Fixpoint deliver_all `{Codec GossipMessage} `{Env}
    (cb : string → string → Z → GossipProtocol → GossipProtocol)
    (envs : list Envelope) (g : GossipProtocol) : GossipProtocol * list Envelope :=
  match envs with
  | [] => (g, [])
  | e :: envs' =>
      let '(g1, _, out1) := OnMessage cb e g in
      let '(g2, out2) := deliver_all cb envs' g1 in
      (g2, out1 ++ out2)
  end.

(** What a reader of a value sees: everything but its clock. *)
Definition core (v : Value) : string * (Z * string * Z) := (Data v, stamp v).

(** A full merge of the store [t] into [s]. *)
Definition merged `{RangeOrder} (s t u : gmap string Value) : Prop :=
  ∀ k, u !! k = mergeValue (s !! k) (t !! k).

Lemma mergeValue_core `{RangeOrder} old v :
  core <$> mergeValue old (Some v) = if accepts old v then Some (core v) else core <$> old.
Proof. unfold mergeValue. by destruct (accepts old v). Qed.

(** Two values none of which wins over the other are the same write. *)
Definition stamps_identify (s t : gmap string Value) : Prop :=
  ∀ k v w, s !! k = Some v → t !! k = Some w → stamp v = stamp w → Data v = Data w.

Lemma exchange_key (o1 o2 : RangeOrder) (s t : gmap string Value) k :
  stamps_identify s t →
  let a := @mergeValue o1 (s !! k) (t !! k) in
  core <$> a = core <$> @mergeValue o2 (t !! k) a ∧
  ((∀ v, s !! k = Some v → accepts (t !! k) v = false) → core <$> a = core <$> t !! k).
Proof.
  intros Hid. destruct (t !! k) as [w|] eqn:Hw.
  - assert (accepts (s !! k) w = false → ∃ v, s !! k = Some v ∧ (isIncomingNewer w v = false → core v = core w)) as Hrej.
    { destruct (s !! k) as [v|] eqn:Hv; [|done]. simpl. intros Ha. exists v. split; [done|]. intros Hb.
      apply isIncomingNewer_false in Ha, Hb. unfold core.
      pose proof (not_superseded_stamp _ _ Hb Ha) as Hst. by rewrite (Hid k v w Hv Hw Hst), Hst. }
    cbv zeta. destruct (@mergeValue_Some o1 (s !! k) w) as [a Ha].
    pose proof (@mergeValue_core o1 (s !! k) w) as Hc. rewrite Ha in Hc |- *.
    rewrite mergeValue_core. simpl in *.
    destruct (accepts (s !! k) w) eqn:Hacc.
    + rewrite Hc. split; [by case_match|done].
    + destruct Hrej as (v & Hv & Hvw); [done|]. assert (a = v) as -> by congruence.
      rewrite Hv in *. split.
      * destruct (isIncomingNewer w v) eqn:Hwv; [done|]. by rewrite Hvw.
      * intros Hno. by rewrite Hvw by (by apply Hno).
  - cbv zeta. unfold mergeValue at 1 3 4. destruct (s !! k) as [v|]; [|done].
    split; [by rewrite mergeValue_core|]. intros Hno. by specialize (Hno v eq_refl).
Qed.

Lemma merged_news `{RangeOrder} s t u :
  (∀ k, u !! k = mergeValue (s !! k) (news_for s t !! k)) → merged s t u.
Proof.
  intros Hu k. rewrite Hu. unfold mergeValue.
  destruct (news_for s t !! k) as [v|] eqn:Hn.
  - apply lookup_news_for in Hn as [-> Ha]. done.
  - destruct (t !! k) as [v|] eqn:Ht; [|done]. destruct (accepts (s !! k) v) eqn:Ha; [|done].
    assert (news_for s t !! k = Some v) by (by apply lookup_news_for). congruence.
Qed.

Lemma news_empty_accepts s t k v : news_for s t = ∅ → t !! k = Some v → accepts (s !! k) v = false.
Proof.
  intros Hn Ht. apply not_true_iff_false. intros Ha.
  assert (news_for s t !! k = Some v) as Hv by (by apply lookup_news_for).
  by rewrite Hn, lookup_empty in Hv.
Qed.

Section DeliverReply.
Context `{GC : GossipCodec}.
Context (cb : string → string → Z → GossipProtocol → GossipProtocol) (Hcb : peer_callback cb).

Lemma OnMessage_state_merges {E : Env} env g s u :
  DecodeJSON (env_Payload env) = Some (state_message u) → (∀ k, u !! k = news_for (store g) s !! k) →
  let r := @OnMessage _ E cb env g in
  merged (store g) s (store r.1.1) ∧ r.2 = [] ∧ nodeID r.1.1 = nodeID g.
Proof.
  intros Hd Hu. cbv zeta. rewrite (OnMessage_state cb env g u Hd).
  destruct (same_data_fields _ _ (discoverSender_same_data cb (env_From env) g Hcb)) as (Hst & Hid & _).
  split_and!.
  - apply merged_news. intros k. by rewrite lookup_handleState, Hst, <-Hu.
  - by rewrite handleState_unfold.
  - by rewrite handleState_unfold.
Qed.

(** A node that handles the answer to its digest has merged the whole store
    of the answering node, and answers a digest from what it then holds. *)
Lemma deliver_reply {E : Env} from s g (E0 E1 : Env) site
    (reply := @handleDigest _ E1 from (@digest_message E0 site (store g)) s) :
  text_store valid_text (store g) → text_store valid_text (store s) →
  let r := @deliver_all _ E cb reply g in
  @merged (@env_order E) (store g) (store s) (store r.1) ∧
  (news_for (store s) (store g) = ∅ ∧ r.2 = [] ∨
   ∃ to g', store g' = store r.1 ∧ r.2 = @handleDigest _ E to (@digest_message E1 166 (store s)) g').
Proof.
  intros Hg Hs. unfold reply. rewrite (handleDigest_digestOf E0).
  pose proof (text_news _ (store g) _ Hs) as Hn.
  assert (decode_news : DecodeJSON (EncodeJSON (state_message (news_for (store g) (store s)))) =
                        Some (state_message (news_for (store g) (store s)))).
  { apply decode_text, text_state_message; [apply valid_MsgState|done]. }
  assert (decode_digest : DecodeJSON (EncodeJSON (@digest_message E1 166 (store s))) =
                          Some (@digest_message E1 166 (store s))).
  { apply decode_text, text_digest_message; [apply valid_MsgDigest|done]. }
  assert (after : ∀ g1, let r := @deliver_all _ E cb (if decide (news_for (store s) (store g) = ∅) then [] else
     [gossipEnvelope (nodeID s) from (EncodeJSON (@digest_message E1 166 (store s)))
        ("GOSSIP_SYNC_REQ:" +:+ itoa (Z.of_nat (size (store s))) +:+ "_keys") (@now E1 180)]) g1 in
     store r.1 = store g1 ∧ (news_for (store s) (store g) = ∅ ∧ r.2 = [] ∨
       ∃ to g', store g' = store r.1 ∧ r.2 = @handleDigest _ E to (@digest_message E1 166 (store s)) g')).
  { intros g1. case_decide as Hd; [by auto|]. cbn [deliver_all].
    rewrite (OnMessage_digest cb _ g1 E1 166 (store s)) by done. cbn [fst snd].
    rewrite app_nil_r.
    split; [apply (same_data_fields _ _ (discoverSender_same_data cb _ g1 Hcb))|].
    right. eauto. }
  destruct (decide (news_for (store g) (store s) = ∅)) as [He|He]; cbn [app].
  - cbv zeta in *. destruct (after g) as [Hst Hout]. rewrite Hst in Hout |- *. split; [|done].
    intros k. unfold mergeValue. destruct (store s !! k) as [v|] eqn:Hv; [|done].
    by rewrite (news_empty_accepts _ _ _ _ He Hv).
  - cbn [deliver_all].
    match goal with |- context [OnMessage cb ?e g] =>
      pose proof (OnMessage_state_merges (E:=E) e g (store s) _ decode_news (λ k, eq_refl)) as (Hm & Ho & _);
      destruct (OnMessage cb e g) as [[g1 evs] out1] end.
    cbn [fst snd] in Hm, Ho. subst out1. destruct (after g1) as [Hst Hout].
    destruct (deliver_all cb _ g1) as [g2 out2]. cbn [fst snd app] in *. rewrite Hst. rewrite Hst in Hout.
    split; [exact Hm|exact Hout].
Qed.
End DeliverReply.

(** A round sends at most one message, the digest of the store. *)
Lemma Tick_sends `{Codec GossipMessage} {E : Env} g :
  store (Tick g).1 = store g ∧ nodeID (Tick g).1 = nodeID g ∧ peers (Tick g).1 = peers g ∧
  ((Tick g).2 = [] ∨
   ∃ to meta ts, (Tick g).2 = [gossipEnvelope (nodeID g) to (EncodeJSON (digest_message 23 (store g))) meta ts]).
Proof.
  unfold Tick. destruct (negb _); [by auto|].
  destruct (range 31 _) as [|[p b] l]; [destruct (pickRandomPeer _)|]; cbn [fst snd]; split_and!; eauto.
Qed.

(** What an exchange does to the stores: [a] ticks, [b] handles its digest, [a]
    the answer and [b] what [a] sends back. *)
Section Exchange.
Context `{GC : GossipCodec}.
Context (cb : string → string → Z → GossipProtocol → GossipProtocol) (E1 E2 E3 E4 : Env).

Definition exchange (a b : GossipProtocol) : GossipProtocol * GossipProtocol :=
  let b1 := match (@Tick _ E1 a).2 with [e] => @OnMessage _ E2 cb e b | _ => (b, [], []) end in
  let a2 := @deliver_all _ E3 cb b1.2 (@Tick _ E1 a).1 in
  (a2.1, (@deliver_all _ E4 cb a2.2 b1.1.1).1).

Lemma exchange_merges a b :
  peer_callback cb → text_store valid_text (store a) → text_store valid_text (store b) → stamps_identify (store a) (store b) →
  (@Tick _ E1 a).2 ≠ [] →
  let r := exchange a b in
  @merged (@env_order E3) (store a) (store b) (store r.1) ∧
  (store r.2 = store b ∨ @merged (@env_order E4) (store b) (store r.1) (store r.2)) ∧
  ∀ k, core <$> store r.1 !! k = core <$> store r.2 !! k.
Proof.
  intros Hcb Ha Hb Hid Htick. unfold exchange. cbv zeta.
  destruct (@Tick_sends _ E1 a) as (Hst & _ & _ & [Ho|(to & meta & ts & Ho)]); [congruence|]. rewrite Ho.
  assert (Hdec : DecodeJSON (EncodeJSON (@digest_message E1 23 (store a))) = Some (@digest_message E1 23 (store a))).
  { apply decode_text, text_digest_message; [apply valid_MsgDigest|done]. }
  rewrite (OnMessage_digest cb _ b E1 23 (store a)) by done.
  cbn [fst snd env_From gossipEnvelope]. set (b1 := discoverSender cb _ b). set (a1 := (@Tick _ E1 a).1) in *.
  assert (store b1 = store b) as Hb1 by apply (same_data_fields _ _ (discoverSender_same_data cb _ b Hcb)).
  assert (text_store valid_text (store a1) ∧ text_store valid_text (store b1)) as [Hta Htb] by (by rewrite Hst, Hb1).
  rewrite <-Hst, <-Hb1 in *.
  destruct (deliver_reply cb Hcb (E:=E3) (senderOf (nodeID a)) b1 a1 E1 E2 23 Hta Htb) as [Hm Hout]. split; [done|].
  destruct Hout as [[Hn ->]|(to' & g' & Hg' & ->)]; cbn [deliver_all fst].
  - split; [by left|]. intros k. rewrite (Hm k). apply (exchange_key _ (@env_order E3) (store a1) (store b1) k Hid).
    intros v. by apply news_empty_accepts.
  - assert (text_store valid_text (store g')) as Htg'.
    { rewrite Hg'. by apply (text_merged _ _ _ _ Hm). }
    destruct (deliver_reply cb Hcb (E:=E4) to' g' b1 E2 E3 166 Htb Htg') as [Hm' _]. rewrite Hg' in Hm'. split; [by right|].
    intros k. rewrite (Hm' k), (Hm k). by apply (exchange_key _ (@env_order E4) (store a1) (store b1) k Hid).
Qed.
End Exchange.

(** One digest exchange reconciles two nodes.  Node [a] ticks and sends its
    digest to [b]; [b] answers with the entries [a] lacks or holds in an older
    version and, if it is behind on some key, with its own digest; [a] handles
    the answer and [b] handles what [a] sends back.  Afterwards the two stores
    hold, key by key, the same data with the same timestamp, origin and version
    (clocks may differ), whatever each held before, provided that equal stamps
    mean the same write. *)
Theorem digest_exchange_converges `{GC : GossipCodec}
    (cb : string → string → Z → GossipProtocol → GossipProtocol)
    (E1 E2 E3 E4 : Env) a b e :
  peer_callback cb →
  text_store valid_text (store a) → text_store valid_text (store b) →
  stamps_identify (store a) (store b) →
  (@Tick _ E1 a).2 = [e] →
  let b1 := @OnMessage _ E2 cb e b in
  let a2 := @deliver_all _ E3 cb b1.2 (@Tick _ E1 a).1 in
  let b2 := @deliver_all _ E4 cb a2.2 b1.1.1 in
  ∀ k, core <$> store a2.1 !! k = core <$> store b2.1 !! k.
Proof.
  intros Hcb Ha Hb Hid Htick. pose proof (exchange_merges cb E1 E2 E3 E4 a b Hcb Ha Hb Hid) as Hex.
  unfold exchange in Hex. rewrite Htick in Hex. by apply Hex.
Qed.

(** ** Local writes *)

(** The value a Put creates. *)
Lemma Put_value `{Env} key data g v :
  store (Put key data g).1 !! key = Some v →
  let old := default zeroValue (store g !! key) in
  Data v = data ∧ Origin v = nodeID g ∧ Timestamp v = now 7 ∧ Version v = wrap_i64 (Version old + 1) ∧
  VectorClock v = incrClock (nodeID g) (VectorClock old) ∧
  (Put key data g).1 = set_store (<[key := v]> (store g)) g.
Proof.
  unfold Put. cbn [fst store set_store]. rewrite lookup_insert_eq. intros [= <-]. cbv zeta.
  destruct (store g !! key) as [w|]; cbn [default from_option];
    [rewrite copy_loop_range, map_fmap_id|]; by split_and!.
Qed.

(** After [Put] a read of the key returns the written data, no other key
    changes, and the new value wins over the one it replaces both where it is
    merged and where digests are compared, whatever the wall clock shows: the
    node's own counter has grown by one. *)
Theorem Put_spec `{Env} key data g :
  (∀ v, store g !! key = Some v → 0 ≤ vc_get (VectorClock v) (nodeID g) < two63 - 1) →
  let g' := (Put key data g).1 in
  Get key g' = (data, true) ∧
  (∀ k, k ≠ key → store g' !! k = store g !! k) ∧
  ∃ v', store g' !! key = Some v' ∧ Origin v' = nodeID g ∧ Timestamp v' = now 7 ∧
    vc_get (VectorClock v') (nodeID g) =
      default 0 ((λ v, vc_get (VectorClock v) (nodeID g)) <$> store g !! key) + 1 ∧
    ∀ v, store g !! key = Some v →
      isIncomingNewer v v' = true ∧ isIncomingNewer v' v = false ∧
      compareValueToDigest v' (valueToDigestEntry v) = 1.
Proof.
  intros Hb. cbv zeta. unfold Put, Get. cbn [fst store set_store].
  rewrite lookup_insert_eq. split; [done|].
  split; [intros k Hk; by rewrite lookup_insert_ne|].
  eexists. split; [done|]. split_and!; [done|done|..].
  - cbn [VectorClock]. rewrite vc_get_incrClock, decide_True by done.
    destruct (store g !! key) as [v|] eqn:Hv; simpl.
    + rewrite copy_loop_range, map_fmap_id. apply wrap_i64_id.
      specialize (Hb v eq_refl). unfold in_i64, two63 in *. lia.
    + done.
  - intros v Hv. rewrite Hv. specialize (Hb v Hv). rewrite copy_loop_range, map_fmap_id.
    match goal with |- isIncomingNewer v ?w = _ ∧ _ => assert (supersedes w v) as Hs end.
    { left. by apply incrClock_lt. }
    split_and!.
    + by apply isIncomingNewer_spec.
    + apply isIncomingNewer_false. by apply supersedes_asym.
    + rewrite compareValueToDigest_unfold. by rewrite decide_True.
Qed.

(** ** Digest comparison *)

(** Comparing a stored value with the digest of a remote one gives the same
    verdict as comparing the two values on receipt: positive exactly when the
    remote node would accept the local value, negative exactly when the local
    node would accept the remote one, and never both. *)
Theorem digest_comparison_agrees `{RangeOrder} l r :
  (compareValueToDigest l (valueToDigestEntry r) = 1 ↔ isIncomingNewer r l = true) ∧
  (compareValueToDigest l (valueToDigestEntry r) = -1 ↔ isIncomingNewer l r = true) ∧
  (compareValueToDigest l (valueToDigestEntry r) = 0 ↔
     stamp l = stamp r ∧ vectorClockCompare (VectorClock l) (VectorClock r) = 0).
Proof.
  rewrite compareValueToDigest_unfold, !isIncomingNewer_spec.
  pose proof (supersedes_asym l r) as Has. pose proof (not_superseded_stamp l r) as Hst.
  split_and!; [repeat case_decide; naive_solver..|].
  split.
  - repeat case_decide; try done. intros _. split; [by auto|by apply not_superseded_clocks].
  - rewrite vectorClockCompare_0. intros [He Hc]. rewrite !decide_False; [done|..]; intros [[Hle Hlt]|[_ Hs]];
      try (rewrite He in Hs; by apply (irreflexivity stamp_lt (stamp r)));
      destruct Hc as [Hq|[? ?]]; [apply Hlt; by rewrite Hq|done|apply Hlt; by rewrite Hq|done].
Qed.

(** The answer to the digest of a node with store [peer] is exactly: a STATE
    message with the entries that node would accept, when there are any, then
    the local digest, when the local node would accept some entry of the peer;
    nothing when neither has news.  The metadata of a STATE message stays within
    100 bytes after its prefix. *)
Theorem handleDigest_exact `{Codec GossipMessage} (E E' : Env) site from peer g :
  ∃ meta t1 t2, (String.length meta ≤ 100)%nat ∧
  @handleDigest _ E from (@digest_message E' site peer) g =
    (if decide (news_for peer (store g) = ∅) then []
     else [gossipEnvelope (nodeID g) from (EncodeJSON (state_message (news_for peer (store g))))
             ("GOSSIP_STATE:" +:+ meta) t1]) ++
    (if decide (news_for (store g) peer = ∅) then []
     else [gossipEnvelope (nodeID g) from (EncodeJSON (@digest_message E 166 (store g)))
             ("GOSSIP_SYNC_REQ:" +:+ itoa (Z.of_nat (size (store g))) +:+ "_keys") t2]).
Proof.
  eexists (truncateMeta _), _, _. split; [apply truncateMeta_length|]. apply handleDigest_digestOf.
Qed.

(** ** Peers *)

(** No peer is the empty id or the node itself. *)
Definition peers_ok (g : GossipProtocol) : Prop :=
  Forall (λ p, keep_peer (nodeID g) p = true) (peers g).

Section Peers.
Context `{Env}.

Lemma SetPeers_loop id ps f n :
  foldl (λ '(f, n) p, if keep_peer id p then (f ++ [p], <[p := true]> n) else (f, n))
    (f, n : gmap string bool) ps =
  (f ++ filter (λ p, keep_peer id p = true) ps,
   foldl (λ n p, <[p := true]> n) n (filter (λ p, keep_peer id p = true) ps)).
Proof.
  revert f n; induction ps as [|p ps IH]; intros f n; simpl; [by rewrite app_nil_r|].
  rewrite filter_cons. destruct (keep_peer id p); rewrite IH; [|done].
  rewrite decide_True by done. simpl. by rewrite <-app_assoc.
Qed.

Lemma lookup_set_of ps (n : gmap string bool) k :
  foldl (λ n p, <[p := true]> n) n ps !! k = if decide (k ∈ ps) then Some true else n !! k.
Proof.
  revert n; induction ps as [|p ps IH]; intros n; simpl; [done|].
  rewrite IH. destruct (decide (k = p)) as [->|Hk].
  - rewrite lookup_insert_eq. repeat case_decide; set_solver.
  - rewrite lookup_insert_ne by done. repeat case_decide; set_solver.
Qed.

(** SetPeers keeps, in order, the peers that are neither empty nor the node
    itself, and marks exactly those that were not peers before for an immediate
    synchronisation; marks already set stay. *)
Theorem SetPeers_spec ps g :
  peers (SetPeers ps g) = filter (λ p, p ≠ EmptyString ∧ p ≠ nodeID g) ps ∧
  (∀ p, forceSyncPeers (SetPeers ps g) !! p =
     if decide (p ∈ ps ∧ p ≠ EmptyString ∧ p ≠ nodeID g ∧ p ∉ peers g) then Some true
     else forceSyncPeers g !! p) ∧
  same_data (SetPeers ps g) g.
Proof.
  assert (Hkeep : ∀ p, keep_peer (nodeID g) p = true ↔ p ≠ EmptyString ∧ p ≠ nodeID g).
  { intros p. unfold keep_peer. by rewrite andb_true_iff, !bool_decide_eq_true. }
  split; [|split; [|apply SetPeers_same_data]]; unfold SetPeers; rewrite SetPeers_loop; simpl.
  - induction ps as [|p ps IH]; [done|]. rewrite !filter_cons, IH.
    repeat case_decide; try done; by rewrite Hkeep in *.
  - intros p.
    match goal with |- foldl ?f _ ?l !! _ = _ =>
      assert (foldl f (forceSyncPeers g) l =
        keyed_loop (λ peer _ _, if decide (peer ∈ peers g) then None else Some true) (forceSyncPeers g) l) as -> end.
    { unfold keyed_loop. apply foldl_ext_in. intros f [q b] _. unfold keyed_step. simpl.
      rewrite lookup_set_of, lookup_empty. by repeat case_decide. }
    rewrite lookup_keyed_loop_range, lookup_set_of, lookup_empty. unfold keyed_entry.
    pose proof (list_elem_of_filter (λ p, keep_peer (nodeID g) p = true) ps p) as Hin.
    rewrite Hkeep in Hin. repeat case_decide; try done; tauto.
Qed.

(** No operation makes a node its own peer: discovering a sender keeps the
    list free of the empty id and of the node's own, adds the sender's id at
    most once, and never removes a peer. *)
Theorem OnMessage_peers `{Codec GossipMessage} env g :
  peers_ok g → NoDup (peers g) →
  let g' := (OnMessage (λ _ _ _ g, g) env g).1.1 in
  peers_ok g' ∧ NoDup (peers g') ∧
  peers g' = peers g ++
    (if decide (senderOf (env_From env) ≠ EmptyString ∧ senderOf (env_From env) ≠ nodeID g ∧
                senderOf (env_From env) ∉ peers g) then [senderOf (env_From env)] else []).
Proof.
  intros Hok Hnd. cbv zeta.
  assert (∀ m h, peers (handleState m h).1.1 = peers h ∧ nodeID (handleState m h).1.1 = nodeID h) as Hhs.
  { intros m h. by rewrite handleState_unfold. }
  set (g1 := discoverSender (λ _ _ _ g, g) (env_From env) g).
  assert (peers (OnMessage (λ _ _ _ g, g) env g).1.1 = peers g1 ∧
          nodeID (OnMessage (λ _ _ _ g, g) env g).1.1 = nodeID g1) as [Hp Hi].
  { unfold OnMessage. fold g1. repeat case_match; by try apply Hhs. }
  assert (nodeID g1 = nodeID g ∧ peers g1 = peers g ++
    (if decide (senderOf (env_From env) ≠ EmptyString ∧ senderOf (env_From env) ≠ nodeID g ∧
                senderOf (env_From env) ∉ peers g) then [senderOf (env_From env)] else [])) as [Hi1 Hp1].
  { unfold g1, discoverSender. destruct (parseSenderAddress _) as [[? h] pt].
    set (id := senderOf _).
    assert (keep_peer (nodeID g) id && negb (hasPeer g id) =
            bool_decide (id ≠ EmptyString ∧ id ≠ nodeID g ∧ id ∉ peers g)) as ->.
    { apply eq_true_iff_eq. unfold keep_peer, hasPeer.
      rewrite !andb_true_iff, negb_true_iff, !bool_decide_eq_true, <-not_true_iff_false, existsb_elem_of.
      setoid_rewrite bool_decide_eq_true. naive_solver. }
    case_bool_decide; case_decide; try done; [|by rewrite app_nil_r].
    by destruct (_ && _). }
  unfold peers_ok. rewrite Hp, Hi, Hi1, Hp1. case_decide as Hn; [|rewrite app_nil_r; done].
  destruct Hn as (? & ? & ?). split_and!; [|apply NoDup_app; set_solver by apply NoDup_singleton|done].
  apply Forall_app. split; [done|]. constructor; [|done].
  unfold keep_peer. by rewrite !bool_decide_true.
Qed.
End Peers.

(** ** Forced synchronisation *)

(** [n] ticks in a row, in the environments [E 0], [E 1], ... *)
Fixpoint run_ticks `{Codec GossipMessage} (E : nat → Env) (n : nat) (g : GossipProtocol) :
    GossipProtocol * list Envelope :=
  match n with
  | O => (g, [])
  | S n' =>
      let '(g1, out1) := run_ticks E n' g in
      let '(g2, out2) := @Tick _ (E n') g1 in
      (g2, out1 ++ out2)
  end.

Lemma div_succ t i : 0 < i → (t + 1) / i = t / i + (if decide ((t + 1) `mod` i = 0) then 1 else 0).
Proof.
  intros Hi. pose proof (Z.div_mod t i ltac:(lia)) as Ht. pose proof (Z.mod_pos_bound t i Hi) as Hm.
  case_decide as Hd.
  - apply Z.mod_divide in Hd as [q Hq]; [|lia]. rewrite Hq, Z.div_mul by lia. nia.
  - rewrite Z.add_0_r. symmetry. apply Z.div_unique with (t `mod` i + 1); [|lia]. left.
    assert (t `mod` i + 1 ≠ i); [|lia]. intros Hti. apply Hd. rewrite Ht at 1.
    replace (i * (t / i) + t `mod` i + 1) with ((t / i + 1) * i) by lia. by apply Z_mod_mult.
Qed.

Section ForcedSync.
Context `{Codec GossipMessage}.

(** One tick: a round every [gossipInterval] ticks, which sends to one of the
    marked peers and clears its mark when there are any. *)
Lemma Tick_forced `{Env} g :
  0 ≤ tick g < two64 - 1 →
  let g' := (Tick g).1 in
  tick g' = tick g + 1 ∧ gossipInterval g' = gossipInterval g ∧
  if decide ((tick g + 1) `mod` gossipInterval g = 0 ∧ forceSyncPeers g ≠ ∅)
  then ∃ p, is_Some (forceSyncPeers g !! p) ∧ forceSyncPeers g' = delete p (forceSyncPeers g) ∧
            env_To <$> (Tick g).2 = [p]
  else forceSyncPeers g' = forceSyncPeers g.
Proof.
  intros Ht. assert (wrap_u64 (tick g + 1) = tick g + 1) as Hw.
  { apply wrap_u64_id. unfold in_u64, two64 in *. lia. }
  cbv zeta. unfold Tick. cbn [tick set_tick gossipInterval]. rewrite Hw.
  destruct (Z.eqb_spec ((tick g + 1) `mod` gossipInterval g) 0) as [Hm|Hm]; cbn [negb].
  2: { rewrite decide_False by tauto. done. }
  cbn [forceSyncPeers set_tick].
  destruct (range 31 (forceSyncPeers g)) as [|[p b] l] eqn:Hr.
  - apply range_nil_inv in Hr. rewrite decide_False by tauto.
    by destruct (pickRandomPeer _); simpl; rewrite ?Hw.
  - assert (forceSyncPeers g !! p = Some b) as Hp by (apply (elem_of_range 31); rewrite Hr; left).
    rewrite decide_True by (split; [done|]; intros He; by rewrite He in Hp).
    simpl. rewrite ?Hw. split_and!; [done..|]. exists p. by rewrite Hp.
Qed.

Lemma run_ticks_forced (E : nat → Env) n g :
  0 < gossipInterval g → 0 ≤ tick g → tick g + Z.of_nat n < two64 →
  let r := run_ticks E n g in
  let rounds := (tick g + Z.of_nat n) / gossipInterval g - tick g / gossipInterval g in
  tick r.1 = tick g + Z.of_nat n ∧ gossipInterval r.1 = gossipInterval g ∧
  Z.of_nat (size (forceSyncPeers r.1)) = Z.max 0 (Z.of_nat (size (forceSyncPeers g)) - rounds) ∧
  ∀ p, is_Some (forceSyncPeers g !! p) →
       is_Some (forceSyncPeers r.1 !! p) ∨ p ∈ env_To <$> r.2.
Proof.
  intros Hi Ht. induction n as [|n IH]; intros Hn; cbv zeta.
  { cbn. rewrite Z.add_0_r. split_and!; [done..|lia|auto]. }
  cbn [run_ticks]. destruct IH as (Htick & Hint & Hsz & Hp); [lia|].
  destruct (run_ticks E n g) as [g1 out1]. cbn [fst snd] in *.
  assert (0 ≤ tick g1 < two64 - 1) as Hb by lia.
  pose proof (@Tick_forced (E n) g1 Hb) as (Htick' & Hint' & Hf).
  destruct (@Tick _ (E n) g1) as [g2 out2]. cbn [fst snd] in *.
  rewrite Htick, Hint in *.
  pose proof (div_succ (tick g + Z.of_nat n) (gossipInterval g) Hi) as Hdiv.
  replace (tick g + Z.of_nat (S n)) with (tick g + Z.of_nat n + 1) by lia.
  split_and!; [lia|congruence|..].
  - rewrite Hdiv. clear Hp. destruct (decide (_ ∧ _)) as [Hd|Hd].
    + destruct Hf as (p & Hpin & -> & _). rewrite decide_True by tauto.
      rewrite map_size_delete_Some by done.
      assert (size (forceSyncPeers g1) ≠ 0%nat); [|lia].
      intros Hs0%map_size_empty_inv. destruct Hpin as [b Hb']. by rewrite Hs0, lookup_empty in Hb'.
    + rewrite Hf. case_decide; [|lia].
      assert (forceSyncPeers g1 = ∅) as He by (apply dec_stable; tauto).
      rewrite He, map_size_empty in *. lia.
  - intros p [Hin|Hin]%Hp; [|right; apply elem_of_fmap_app; by left].
    destruct (decide (_ ∧ _)) as [Hd|Hd]; [|left; by rewrite Hf].
    destruct Hf as (q & Hq & -> & Hto). destruct (decide (q = p)) as [->|Hne].
    + right. apply elem_of_fmap_app. right. rewrite Hto. set_solver.
    + left. by rewrite lookup_delete_ne.
Qed.

(** Every peer marked for a synchronisation is sent a digest within
    [gossipInterval] ticks per marked peer, whichever peers the rounds pick,
    and then no mark is left. *)
Theorem forced_sync_liveness (E : nat → Env) g (n := (Z.to_nat (gossipInterval g) * size (forceSyncPeers g))%nat) :
  0 < gossipInterval g → 0 ≤ tick g → tick g + Z.of_nat n < two64 →
  forceSyncPeers (run_ticks E n g).1 = ∅ ∧
  ∀ p, is_Some (forceSyncPeers g !! p) → p ∈ env_To <$> (run_ticks E n g).2.
Proof.
  intros Hi Ht Hn. destruct (run_ticks_forced E n g Hi Ht Hn) as (_ & _ & Hsz & Hp).
  assert (forceSyncPeers (run_ticks E n g).1 = ∅) as He.
  { apply map_size_empty_inv.
    assert ((tick g + Z.of_nat n) / gossipInterval g = tick g / gossipInterval g + Z.of_nat (size (forceSyncPeers g))) as Hd.
    { unfold n. rewrite Nat2Z.inj_mul, Z2Nat.id, Z.mul_comm by lia. apply Z.div_add. lia. }
    lia. }
  split; [done|]. intros p Hin. destruct (Hp p Hin) as [[b Hb]|]; [|done].
  by rewrite He, lookup_empty in Hb.
Qed.
End ForcedSync.

(** ** The order of delivery *)

(** Handling STATE messages one after the other. *)
Definition handle_states `{Env} (msgs : list (gmap string Value)) (g : GossipProtocol) : GossipProtocol :=
  foldl (λ g s, (handleState (state_message s) g).1.1) g msgs.

Lemma mergeValue_order (o1 o2 : RangeOrder) old i : @mergeValue o1 old i = @mergeValue o2 old i.
Proof.
  unfold mergeValue. destruct i as [v|]; [|done]. destruct (accepts old v); [|done].
  unfold storedValue. by rewrite (mergeClocks_order o1 o2).
Qed.

Lemma lookup_handle_states {E : Env} (o : RangeOrder) msgs g k :
  store (handle_states msgs g) !! k =
  foldl (λ old s, @mergeValue o old (s !! k)) (store g !! k) msgs.
Proof.
  unfold handle_states. revert g; induction msgs as [|s msgs IH]; intros g; cbn [foldl]; [done|].
  rewrite IH, lookup_handleState. cbn [State state_message]. by rewrite (mergeValue_order _ o).
Qed.

(** Three writes of one key: [n2] overwrites the value of [n1] while its wall
    clock is behind, [n3] writes concurrently at a time in between. *)
Definition write_a : Value :=
  {| Data := "a"; Version := 1; Origin := "n1"; Timestamp := 300; VectorClock := {["n1" := 1]} |}.
Definition write_b : Value :=
  {| Data := "b"; Version := 2; Origin := "n2"; Timestamp := 100; VectorClock := {["n1" := 1; "n2" := 1]} |}.
Definition write_c : Value :=
  {| Data := "c"; Version := 1; Origin := "n3"; Timestamp := 200; VectorClock := {["n3" := 1]} |}.

Definition fresh_node (id : string) : GossipProtocol := Start id NewGossipProtocol.

(** The preference between values is not transitive: of three writes each
    wins over the next in a circle, so that a node which receives them in one
    order ends with other data than a node which receives them in another,
    although both have handled the same messages. *)
Theorem delivery_order_matters `{Env} :
  isIncomingNewer write_a write_b = true ∧ isIncomingNewer write_b write_c = true ∧
  isIncomingNewer write_c write_a = true ∧
  let msgs := [{["k" := write_a]}; {["k" := write_b]}; {["k" := write_c]}] in
  let msgs' := [{["k" := write_c]}; {["k" := write_a]}; {["k" := write_b]}] in
  msgs ≡ₚ msgs' ∧
  Get "k" (handle_states msgs (fresh_node "n4")) = ("c", true) ∧
  Get "k" (handle_states msgs' (fresh_node "n4")) = ("a", true).
Proof.
  do 3 (split; [vm_compute; reflexivity|]). cbv zeta. split; [|split].
  - apply (Permutation_app_comm [_; _] [_]).
  - unfold Get. rewrite (lookup_handle_states canonical_order). vm_compute. reflexivity.
  - unfold Get. rewrite (lookup_handle_states canonical_order). vm_compute. reflexivity.
Qed.

(** ** Sender addresses *)

(** The sender of a message stamped [id@host:port] by the transport layer
    is recovered from the address, for every id without an at sign, every host
    and every port that fits in an int; an id without an address is the sender
    itself, with no host and port. *)
Theorem parseSenderAddress_roundtrip id host port :
  byte_free "@" id = true → in_i64 port →
  parseSenderAddress (id +:+ "@" +:+ host +:+ ":" +:+ itoa port) = (id, host, port) ∧
  parseSenderAddress id = (id, EmptyString, 0).
Proof.
  intros Hid Hp. split.
  - unfold parseSenderAddress. set (rest := host +:+ ":" +:+ itoa port).
    rewrite IndexByte_app_free by done.
    change (IndexByte ("@" +:+ rest) "@") with (Some 0%nat). cbn [fmap option_fmap option_map].
    change ("@" +:+ rest) with (String "@" rest). rewrite Nat.add_0_r, str_take_app, str_drop_app_S.
    unfold rest. change (":" +:+ itoa port) with (String ":" (itoa port)).
    rewrite LastIndexByte_app by (by apply itoa_byte_free).
    by rewrite str_take_app, str_drop_app_S, Atoi_itoa.
  - unfold parseSenderAddress. by rewrite IndexByte_free.
Qed.

(** ** Witnesses *)

Section Witnesses.
Definition node_with (id : string) (ps : list string) (s : gmap string Value) : GossipProtocol :=
  set_store s (set_peers ps (set_tick 2 (fresh_node id))).

Lemma vc_nonneg_dec_spec vc : map_Forall (λ _ c, 0 ≤ c) vc → vc_nonneg vc.
Proof.
  intros Hvc n. unfold vc_get. destruct (vc !! n) as [c|] eqn:Hn; [|done]. by apply (Hvc n c).
Qed.

Lemma nonneg_values_spec s : map_Forall (λ _ v, map_Forall (λ _ c, 0 ≤ c) (VectorClock v)) s → nonneg_values s.
Proof. intros Hs k v Hk. apply vc_nonneg_dec_spec. by apply (Hs k). Qed.

Let g1 := node_with "n1" ["n2"] {["k" := write_a; "j" := write_c]}.
Let g2 := node_with "n2" ["n1"] {["k" := write_b]}.

Lemma handleState_inflationary_witness :
  ∃ v', store (@handleState (test_env 0) (state_message {["k" := write_b]}) g1).1.1 !! "k" = Some v' ∧
        version_le write_a v'.
Proof.
  apply (@handleState_inflationary (test_env 0) (state_message {["k" := write_b]}) g1 "k" write_a).
  - apply nonneg_values_spec. by_evaluation.
  - vm_compute. reflexivity.
Defined.

Lemma handleState_idempotent_witness :
  let g' := (@handleState (test_env 0) (state_message {["k" := write_b]}) g1).1.1 in
  @handleState (test_env 1) (state_message {["k" := write_b]}) g' = (g', [], []).
Proof.
  apply (handleState_idempotent (test_env 0) (test_env 1) (state_message {["k" := write_b]}) g1).
  apply nonneg_values_spec. by_evaluation.
Defined.

Lemma Put_spec_witness :
  Get "k" (@Put (test_env 50) "k" "new" g1).1 = ("new", true).
Proof.
  apply (@Put_spec (test_env 50) "k" "new" g1). intros v Hv.
  assert (v = write_a) as -> by (vm_compute in Hv; injection Hv as <-; reflexivity).
  split; vm_compute; congruence.
Defined.

Lemma OnMessage_peers_witness :
  peers (@OnMessage (countable_codec GossipMessage) (test_env 0) (λ _ _ _ g, g)
           (gossipEnvelope "n3@h:1" "n1" EmptyString EmptyString 0) g1).1.1 = ["n2"; "n3"].
Proof.
  destruct (@OnMessage_peers (test_env 0) (countable_codec GossipMessage)
    (gossipEnvelope "n3@h:1" "n1" EmptyString EmptyString 0) g1) as (_ & _ & Hp).
  - repeat constructor.
  - by_evaluation.
  - rewrite Hp. vm_compute. reflexivity.
Defined.

Lemma forced_sync_liveness_witness :
  forceSyncPeers (@run_ticks (countable_codec GossipMessage) (λ i, test_env (Z.of_nat i)) 6
    (@SetPeers (test_env 0) ["n2"; "n3"] (fresh_node "n1"))).1 = ∅.
Proof.
  apply (@forced_sync_liveness (countable_codec GossipMessage) (λ i, test_env (Z.of_nat i))
           (@SetPeers (test_env 0) ["n2"; "n3"] (fresh_node "n1"))); vm_compute; try congruence; reflexivity.
Defined.

Lemma text_store_run s : text_store (λ _, True) s.
Proof. intros k v _. by split_and!. Qed.

Lemma stamps_identify_spec s t :
  map_Forall (λ k v, match t !! k with Some w => stamp v = stamp w → Data v = Data w | None => True end) s →
  stamps_identify s t.
Proof. intros Hs k v w Hv Hw. specialize (Hs k v Hv). simpl in Hs. by rewrite Hw in Hs. Qed.

#[local] Instance stamp_match_dec (o : option Value) v :
  Decision (match o with Some w => stamp v = stamp w → Data v = Data w | None => True end).
Proof. destruct o; apply _. Defined.

Lemma digest_exchange_converges_witness :
  let C := countable_codec GossipMessage in
  let cb := λ (_ _ : string) (_ : Z) (g : GossipProtocol), g in
  let e := List.hd (gossipEnvelope EmptyString EmptyString EmptyString EmptyString 0) (@Tick C (test_env 1) g1).2 in
  let b1 := @OnMessage C (test_env 2) cb e g2 in
  let a2 := @deliver_all C (test_env 3) cb b1.2 (@Tick C (test_env 1) g1).1 in
  let b2 := @deliver_all C (test_env 4) cb a2.2 b1.1.1 in
  core <$> store a2.1 !! "k" = core <$> store b2.1 !! "k".
Proof.
  intros C cb e.
  apply (@digest_exchange_converges C run_codec cb (test_env 1) (test_env 2) (test_env 3) (test_env 4) g1 g2 e).
  - intros ????. reflexivity.
  - apply text_store_run.
  - apply text_store_run.
  - apply stamps_identify_spec. by_evaluation.
  - vm_compute. reflexivity.
Defined.

Lemma parseSenderAddress_roundtrip_witness :
  byte_free "@" "node-1" = true ∧ in_i64 8080 ∧
  parseSenderAddress "node-1@localhost:8080" = ("node-1", "localhost", 8080).
Proof.
  split; [reflexivity|]. split; [by_evaluation|].
  apply (parseSenderAddress_roundtrip "node-1" "localhost" 8080);
    [reflexivity | by_evaluation].
Defined.
End Witnesses.
