(* ===== verification/GossipNet.v ===== *)
(** * A network of gossip nodes

    The nodes of a cluster running the gossip protocol, over a network that may
    lose, duplicate, reorder and misroute messages.  A step is one call of an
    operation of Gossip.v on one node.  The theorems hold in every reachable
    state: every value held anywhere was written by a Put of its origin, the
    counters never wrap, and, when the wall clocks respect causality, every node
    holds the last of the writes it has seen (a last-writer-wins register). *)

From S2P Require Import Prelude GoStrings Protocol VectorClock Conflict Gossip GossipProps.

(** [writes] is a ghost: the values the Puts have created, latest first. *)
Record Net := {
  nodes : gmap string GossipProtocol;
  wire : list Envelope;
  writes : list (string * Value);
}.

Inductive label :=
  | LPut (id key data : string)
  | LDelete (id key : string)
  | LTick (id : string)
  | LDeliver (id : string)
  | LPeers (id : string)
  | LLose.

Definition with_from (from : string) (e : Envelope) : Envelope :=
  {| env_From := from; env_To := env_To e; env_Protocol := env_Protocol e;
     env_Payload := env_Payload e; env_Kind := env_Kind e;
     env_TraceMetadata := env_TraceMetadata e; env_Version := env_Version e;
     env_LogicalTick := env_LogicalTick e |}.

(** How many writes of the key [k] the node [i] has made. *)
Definition write_count (k i : string) (ws : list (string * Value)) : nat :=
  length (filter (λ kw, kw.1 = k ∧ Origin kw.2 = i) ws).

Section Net.
Context `{GC : GossipCodec}.

(** A message stays on the wire when it is delivered, so it can be delivered
    again; [LLose] removes messages.  The transport may rewrite the sender, and
    the callback of a delivery may change the peers of the node. *)
Inductive step : Net → label → Net → Prop :=
  | step_put (E : Env) n id g key data v :
      nodes n !! id = Some g → valid_text key → valid_text data →
      store (@Put E key data g).1 !! key = Some v →
      step n (LPut id key data)
        {| nodes := <[id := (@Put E key data g).1]> (nodes n); wire := wire n;
           writes := (key, v) :: writes n |}
  | step_delete n id g key :
      nodes n !! id = Some g →
      step n (LDelete id key)
        {| nodes := <[id := Delete key g]> (nodes n); wire := wire n; writes := writes n |}
  | step_tick (E : Env) n id g :
      nodes n !! id = Some g →
      step n (LTick id)
        {| nodes := <[id := (@Tick _ E g).1]> (nodes n); wire := wire n ++ (@Tick _ E g).2;
           writes := writes n |}
  | step_deliver (E : Env) cb n id g e from :
      peer_callback cb → nodes n !! id = Some g → e ∈ wire n →
      step n (LDeliver id)
        {| nodes := <[id := (@OnMessage _ E cb (with_from from e) g).1.1]> (nodes n);
           wire := wire n ++ (@OnMessage _ E cb (with_from from e) g).2; writes := writes n |}
  | step_peers (E : Env) n id g ps :
      nodes n !! id = Some g →
      step n (LPeers id)
        {| nodes := <[id := @SetPeers E ps g]> (nodes n); wire := wire n; writes := writes n |}
  | step_lose n ms :
      ms ⊆ wire n → step n LLose {| nodes := nodes n; wire := ms; writes := writes n |}.

(** The nodes start with empty stores and nothing on the wire. *)
Definition initial (n : Net) : Prop :=
  (∀ id g, nodes n !! id = Some g → nodeID g = id ∧ store g = ∅ ∧ valid_text id) ∧
  wire n = [] ∧ writes n = [].

(** Reachable by steps that satisfy [P]. *)
Inductive reachable (P : Net → label → Net → Prop) : Net → Prop :=
  | reach_init n : initial n → reachable P n
  | reach_step n l n' : reachable P n → step n l n' → P n l n' → reachable P n'.

(** The values of the system: stored, on the wire or written. *)
Inductive held (n : Net) (k : string) (v : Value) : Prop :=
  | held_store id g : nodes n !! id = Some g → store g !! k = Some v → held n k v
  | held_wire e m : e ∈ wire n → DecodeJSON (env_Payload e) = Some m → State m !! k = Some v → held n k v
  | held_write : (k, v) ∈ writes n → held n k v.

(** What is true of a held value. *)
Record good (ws : list (string * Value)) (k : string) (v : Value) : Prop := {
  good_key : valid_text k;
  good_text : text_value valid_text v;
  good_nonneg : vc_nonneg (VectorClock v);
  good_counter i : vc_get (VectorClock v) i ≤ Z.of_nat (write_count k i ws);
  good_version : 1 ≤ Version v ≤ Z.of_nat (length ws);
  good_written : ∃ w, (k, w) ∈ ws ∧ core w = core v ∧ vc_le (VectorClock w) (VectorClock v);
}.

Record inv (n : Net) : Prop := {
  inv_nodes id g : nodes n !! id = Some g → nodeID g = id ∧ valid_text id;
  inv_wire e : e ∈ wire n → ∃ m, DecodeJSON (env_Payload e) = Some m ∧
      (State m = ∅ ∨ ∃ s, m = state_message s);
  inv_held k v : held n k v → good (writes n) k v;
}.

Lemma write_count_cons k i kw ws :
  write_count k i (kw :: ws) = ((if decide (kw.1 = k ∧ Origin kw.2 = i) then 1 else 0) + write_count k i ws)%nat.
Proof. unfold write_count. rewrite filter_cons. by case_decide. Qed.

Lemma write_count_le k i ws : (write_count k i ws ≤ length ws)%nat.
Proof. apply length_filter. Qed.

Lemma good_more ws k v kw : good ws k v → good (kw :: ws) k v.
Proof.
  intros [Hk Ht Hn Hc Hv (w & Hw & ? & ?)]. split; [done..| | |].
  - intros i. specialize (Hc i). rewrite write_count_cons. case_decide; lia.
  - cbn [length]. lia.
  - exists w. split_and!; [by right|done..].
Qed.

(** Merging two good values gives a good value. *)
Lemma good_merge `{RangeOrder} ws k (old : option Value) v m :
  (∀ l, old = Some l → good ws k l) → good ws k v → mergeValue old (Some v) = Some m → good ws k m.
Proof.
  intros Hold Hv. unfold mergeValue. destruct (accepts old v) eqn:Ha; [|by auto].
  intros [= <-].
  assert (text_clock valid_text (VectorClock (default zeroValue old)) ∧ vc_nonneg (VectorClock (default zeroValue old)) ∧
          ∀ i, vc_get (VectorClock (default zeroValue old)) i ≤ Z.of_nat (write_count k i ws)) as (Ht & Hn & Hc).
  { destruct old as [l|]; simpl.
    - destruct (Hold l eq_refl) as [_ (? & ? & ?) ? ? _ _]. done.
    - split_and!; [apply map_Forall_empty|apply vc_nonneg_empty|]. intros i. unfold vc_get. rewrite lookup_empty. simpl. lia. }
  destruct Hv as [Hk Hvt Hvn Hvc Hvv (w & Hw & Hcore & Hle)]. split; cbn [storedValue VectorClock Version].
  - done.
  - by apply text_storedValue.
  - by apply mergeClocks_nonneg.
  - intros i. rewrite vc_get_mergeClocks by done. specialize (Hc i); specialize (Hvc i). lia.
  - done.
  - exists w. split_and!; [done|done|]. etrans; [done|]. by apply mergeClocks_ub_r.
Qed.

(** *** What an operation changes and sends *)

(** A message a node sends: a digest, or entries of its store. *)
Definition sendable (g : GossipProtocol) (e : Envelope) : Prop :=
  ∃ m, env_Payload e = EncodeJSON m ∧
    (text_store valid_text (store g) → text_message valid_text m) ∧
    (State m = ∅ ∨ ∃ s, m = state_message s) ∧ State m ⊆ store g.

Lemma sendable_digest `{Env} site g from to meta ts :
  sendable g (gossipEnvelope from to (EncodeJSON (digest_message site (store g))) meta ts).
Proof.
  exists (digest_message site (store g)). split_and!; [done| |by left|by apply map_empty_subseteq].
  intros Ht. apply text_digest_message; [apply valid_MsgDigest|done].
Qed.

Lemma stateFor_subseteq `{Env} digest s : stateFor digest s ⊆ s.
Proof.
  apply map_subseteq_spec. intros k v. rewrite stateFor_keyed, lookup_keyed_loop_range.
  unfold keyed_entry. rewrite lookup_empty. destruct (s !! k) as [w|]; [|done].
  repeat case_match; congruence.
Qed.

Lemma sendable_state g s from to meta ts :
  s ⊆ store g → sendable g (gossipEnvelope from to (EncodeJSON (state_message s)) meta ts).
Proof.
  intros Hs. exists (state_message s). split_and!; [done| |by right; exists s|done].
  intros Ht. apply text_state_message; [apply valid_MsgState|].
  intros k v Hk. apply Ht. by apply (lookup_weaken s).
Qed.

Lemma handleDigest_sendable `{Env} from m g e : e ∈ handleDigest from m g → sendable g e.
Proof.
  unfold handleDigest. rewrite elem_of_app. intros [He|He].
  - case_bool_decide; [by apply elem_of_nil in He|]. apply list_elem_of_singleton in He as ->.
    apply sendable_state, stateFor_subseteq.
  - destruct (isBehind _ _); [|by apply elem_of_nil in He]. apply list_elem_of_singleton in He as ->.
    apply sendable_digest.
Qed.

Lemma Tick_sendable `{Env} g e : e ∈ (Tick g).2 → sendable g e.
Proof.
  destruct (Tick_sends g) as (_ & _ & _ & [->|(to & meta & ts & ->)]); [by intros ?%elem_of_nil|].
  intros ->%list_elem_of_singleton. apply sendable_digest.
Qed.

(** A delivery merges the STATE of the message, if any, into the store. *)
Lemma OnMessage_effect `{Env} cb e g :
  peer_callback cb → ∃ s, (s = ∅ ∨ ∃ m, DecodeJSON (env_Payload e) = Some m ∧ s = State m) ∧
  let r := OnMessage cb e g in
  merged (store g) s (store r.1.1) ∧ nodeID r.1.1 = nodeID g ∧
  ∀ e', e' ∈ r.2 → sendable g e'.
Proof.
  intros Hcb. destruct (same_data_fields _ _ (discoverSender_same_data cb (env_From e) g Hcb)) as (Hst & Hid & _).
  assert (∀ s, merged (store g) ∅ s ↔ s = store g) as Hno.
  { intros s. unfold merged. setoid_rewrite lookup_empty. by rewrite map_eq_iff. }
  assert (∀ e', sendable (discoverSender cb (env_From e) g) e' → sendable g e') as Hs.
  { intros e'. unfold sendable. by rewrite Hst. }
  unfold OnMessage. destruct (DecodeJSON (env_Payload e)) as [m|] eqn:Hm.
  2: { exists ∅. split; [by left|]. split_and!; [by apply Hno|done|by intros ? ?%elem_of_nil]. }
  case_bool_decide.
  { exists ∅. split; [by left|]. split_and!; [by apply Hno|done|].
    intros e' He'. eapply Hs, handleDigest_sendable, He'. }
  case_bool_decide.
  - exists (State m). split; [by right; exists m|]. split_and!.
    + intros k. by rewrite lookup_handleState, Hst.
    + by rewrite handleState_frame.
    + rewrite handleState_unfold. by intros ? ?%elem_of_nil.
  - exists ∅. split; [by left|]. split_and!; [by apply Hno|done|by intros ? ?%elem_of_nil].
Qed.

Lemma merged_good `{RangeOrder} ws s t u k v :
  merged s t u → (∀ v, s !! k = Some v → good ws k v) → (∀ v, t !! k = Some v → good ws k v) →
  u !! k = Some v → good ws k v.
Proof.
  intros Hu Hs Ht. rewrite (Hu k). destruct (t !! k) as [w|]; [|apply Hs].
  apply good_merge; [done|]. by apply Ht.
Qed.

(** One node moves from [g] to [g'] and sends [out]. *)
Lemma inv_node n id g g' out :
  inv n → nodes n !! id = Some g → nodeID g' = nodeID g →
  (∀ k v, store g' !! k = Some v → good (writes n) k v) →
  (∀ e, e ∈ out → sendable g e) →
  inv {| nodes := <[id := g']> (nodes n); wire := wire n ++ out; writes := writes n |}.
Proof.
  intros [Hn Hw Hh] Hg Hid Hst Hout.
  assert (text_store valid_text (store g)) as Htext.
  { intros k v Hk. assert (good (writes n) k v) as [] by (apply Hh; by econstructor). done. }
  assert (sent : ∀ e, e ∈ out → ∃ m, DecodeJSON (env_Payload e) = Some m ∧
            (State m = ∅ ∨ ∃ s, m = state_message s) ∧ State m ⊆ store g).
  { intros e (m & Hp & Ht & ? & ?)%Hout. exists m. rewrite Hp. split; [|done].
    by apply decode_text, Ht. }
  split; cbn [nodes wire writes].
  - intros id' g''. destruct (decide (id = id')) as [<-|Hne].
    + rewrite lookup_insert_eq. intros [= <-]. rewrite Hid. by apply Hn.
    + rewrite lookup_insert_ne by done. by apply Hn.
  - intros e [He|He]%elem_of_app; [by apply Hw|]. destruct (sent e He) as (m & ? & ? & _). eauto.
  - intros k v [id' g'' Hg'' Hk|e m He Hm Hk|Hwr]; cbn in *.
    + destruct (decide (id = id')) as [<-|Hne].
      * rewrite lookup_insert_eq in Hg''. injection Hg'' as <-. by apply Hst.
      * rewrite lookup_insert_ne in Hg'' by done. apply Hh. by econstructor.
    + apply Hh. apply elem_of_app in He as [He|He]; [by eapply held_wire|].
      destruct (sent e He) as (m' & Hm' & _ & Hsub). rewrite Hm in Hm'. injection Hm' as <-.
      eapply held_store; [done|]. by eapply lookup_weaken.
    + apply Hh. by apply held_write.
Qed.

(** *** The invariant *)

Lemma good_put `{Env} n id g key data v :
  inv n → nodes n !! id = Some g → valid_text key → valid_text data →
  store (Put key data g).1 !! key = Some v → Z.of_nat (S (length (writes n))) < two63 →
  good ((key, v) :: writes n) key v ∧
  vc_get (VectorClock v) id = vc_get (VectorClock (default zeroValue (store g !! key))) id + 1.
Proof.
  intros [Hn _ Hh] Hg Hkey Hdata Hv Hlen. destruct (Hn id g Hg) as [Hid Hvid].
  destruct (Put_value _ _ _ _ Hv) as (Hd & Ho & _ & Hver & Hvc & _). rewrite Hid in *.
  set (old := default zeroValue (store g !! key)) in *.
  assert (text_clock valid_text (VectorClock old) ∧ vc_nonneg (VectorClock old) ∧
          (∀ i, vc_get (VectorClock old) i ≤ Z.of_nat (write_count key i (writes n))) ∧
          0 ≤ Version old ≤ Z.of_nat (length (writes n))) as (Ht & Hnn & Hc & Hvo).
  { unfold old. destruct (store g !! key) as [w|] eqn:Hw; simpl.
    - destruct (Hh key w) as [_ (? & ? & ?) ? ? ? _]; [by econstructor|]. split_and!; [done..|lia|lia].
    - split_and!; [apply map_Forall_empty|apply vc_nonneg_empty| |lia|lia].
      intros i. unfold vc_get. rewrite lookup_empty. simpl. lia. }
  pose proof (write_count_le key id (writes n)) as Hcl. pose proof (Hc id) as Hcid. pose proof (Hnn id) as Hnid.
  assert (wrap_i64 (vc_get (VectorClock old) id + 1) = vc_get (VectorClock old) id + 1) as Hw1.
  { apply wrap_i64_id. unfold in_i64, two63 in *. lia. }
  rewrite wrap_i64_id in Hver by (unfold in_i64, two63 in *; lia).
  assert (∀ i, vc_get (VectorClock v) i = if decide (id = i) then vc_get (VectorClock old) id + 1 else vc_get (VectorClock old) i) as Hgv.
  { intros i. by rewrite Hvc, vc_get_incrClock, Hw1. }
  split; [|by rewrite Hgv, decide_True]. split.
  - done.
  - rewrite <-Hd in Hdata. rewrite <-Ho in Hvid. split_and!; [done..|]. rewrite Hvc.
    apply map_Forall_insert_2; [by rewrite <-Ho|done].
  - intros i. rewrite Hgv. case_decide; [lia|apply Hnn].
  - intros i. rewrite Hgv, write_count_cons. cbn [fst snd]. rewrite Ho. specialize (Hc i).
    repeat case_decide; subst; try lia. tauto.
  - cbn [length]. lia.
  - exists v. split; [by left|done].
Qed.

Lemma inv_step n l n' :
  inv n → step n l n' → Z.of_nat (length (writes n')) < two63 → inv n'.
Proof.
  intros Hi Hs Hlen. destruct Hs as [E n id g key data v Hg Hk Hd Hv|n id g key Hg|E n id g Hg|E cb n id g e from Hcb Hg He|E n id g ps Hg|n ms Hms];
    cbn [writes] in Hlen.
  - destruct (good_put _ _ _ _ _ _ Hi Hg Hk Hd Hv Hlen) as [Hgood _].
    destruct (Put_value _ _ _ _ Hv) as (_ & _ & _ & _ & _ & Heq).
    destruct Hi as [Hn Hw Hh]. split; cbn [nodes wire writes].
    + intros id' g'. destruct (decide (id = id')) as [<-|Hne].
      * rewrite lookup_insert_eq. intros <-%(inj Some). rewrite Heq. by apply (Hn id g).
      * rewrite lookup_insert_ne by done. by apply Hn.
    + done.
    + intros k w [id' g' Hg' Hkw|e m He Hm Hkw|Hwr]; cbn in *.
      * destruct (decide (id = id')) as [<-|Hne].
        -- rewrite lookup_insert_eq in Hg'. apply (inj Some) in Hg' as <-. rewrite Heq in Hkw. cbn in Hkw.
           apply lookup_insert_Some in Hkw as [[<- <-]|[_ Hkw]]; [done|]. apply good_more, Hh. by econstructor.
        -- rewrite lookup_insert_ne in Hg' by done. apply good_more, Hh. by econstructor.
      * apply good_more, Hh. by eapply held_wire.
      * apply elem_of_cons in Hwr as [[= -> ->]|Hwr]; [done|]. by apply good_more, Hh, held_write.
  - rewrite <-(app_nil_r (wire n)). apply (inv_node n id g); [done..| | |by intros ? ?%elem_of_nil].
    + unfold Delete. by case_match.
    + intros k v Hkv. destruct Hi as [_ _ Hh]. apply Hh. econstructor; [done|].
      unfold Delete in Hkv. case_match; [|done]. cbn in Hkv. by apply lookup_delete_Some in Hkv as [_ ?].
  - destruct (Tick_sends g) as (Hst & Hid & _). apply (inv_node n id g); [done..| |apply Tick_sendable].
    rewrite Hst. intros k v Hkv. apply (inv_held n Hi). by econstructor.
  - destruct (OnMessage_effect cb (with_from from e) g Hcb) as (s & Hs & Hm & Hid & Hsend).
    apply (inv_node n id g); [done..| |done]. intros k v. apply (merged_good _ _ _ _ _ _ Hm).
    + intros w Hw. apply (inv_held n Hi). by econstructor.
    + intros w Hw. apply (inv_held n Hi). destruct Hs as [->|(m & Hdec & ->)]; [by rewrite lookup_empty in Hw|].
      by eapply held_wire.
  - rewrite <-(app_nil_r (wire n)). destruct (same_data_fields _ _ (SetPeers_same_data ps g)) as (Hst & Hid & _).
    apply (inv_node n id g); [done..| |by intros ? ?%elem_of_nil].
    rewrite Hst. intros k v Hkv. apply (inv_held n Hi). by econstructor.
  - destruct Hi as [Hn Hw Hh]. split; cbn; [done|by intros e ?%Hms%Hw|].
    intros k v [id g Hg Hkv|e m He Hm Hkv|Hwr]; cbn in *; apply Hh;
      [by econstructor|eapply held_wire; [by apply Hms|done..]|by apply held_write].
Qed.

Lemma step_writes n l n' : step n l n' → (length (writes n) ≤ length (writes n'))%nat.
Proof. intros []; cbn; lia. Qed.

Lemma inv_initial n : initial n → inv n.
Proof.
  intros (Hn & Hw & Hws). split.
  - intros id g (? & _ & ?)%Hn. done.
  - rewrite Hw. by intros e ?%elem_of_nil.
  - intros k v [id g Hg Hkv|e m He _ _|Hwr].
    + destruct (Hn id g Hg) as (_ & Hst & _). by rewrite Hst, lookup_empty in Hkv.
    + rewrite Hw in He. by apply elem_of_nil in He.
    + rewrite Hws in Hwr. by apply elem_of_nil in Hwr.
Qed.

Lemma inv_reachable P n : reachable P n → Z.of_nat (length (writes n)) < two63 → inv n.
Proof.
  induction 1 as [n Hi|n l n' Hr IH Hs _]; intros Hlen; [by apply inv_initial|].
  pose proof (step_writes _ _ _ Hs). eapply inv_step; [apply IH; lia|done..].
Qed.
End Net.

(** ** Causal wall clocks *)

(** The position of a write among the writes of its origin to the key. *)
Definition dot (w : Value) : Z := vc_get (VectorClock w) (Origin w).

(** [b] is the same write as [a] or a later one. *)
Definition core_le (a b : Value) : Prop := core a = core b ∨ stamp_lt (stamp a) (stamp b).

Lemma core_stamp a b : core a = core b → stamp a = stamp b.
Proof. unfold core. congruence. Qed.

#[export] Instance core_le_preorder : PreOrder core_le.
Proof.
  split; [by left|]. intros a b c [Hab|Hab] [Hbc|Hbc]; unfold core_le.
  - left. congruence.
  - right. by rewrite (core_stamp _ _ Hab).
  - right. by rewrite <-(core_stamp _ _ Hbc).
  - right. by etrans.
Qed.

Lemma core_le_antisym a b : core_le a b → core_le b a → core a = core b.
Proof. intros [?|Hab] [?|Hba]; [done..|]. by destruct (stamp_lt_asym _ _ Hab). Qed.

Lemma core_le_core a a' b : core a = core a' → core_le a b → core_le a' b.
Proof. intros Ha. etrans; [|done]. by left. Qed.

Section Causal.
Context `{GC : GossipCodec}.

(** [v] has seen [w]: its clock covers the dot of [w].  It is then [w] itself
    or a later write. *)
Definition ordered (ws : list (string * Value)) (k : string) (v : Value) : Prop :=
  ∀ w, (k, w) ∈ ws → dot w ≤ vc_get (VectorClock v) (Origin w) → core_le w v.

Definition sane (ws : list (string * Value)) (k : string) (v : Value) : Prop :=
  good ws k v ∧ ordered ws k v.

(** The writes themselves are sane, with positive dots. *)
Definition sane_writes (ws : list (string * Value)) : Prop :=
  ∀ k w, (k, w) ∈ ws → 1 ≤ dot w ∧ sane ws k w.

Lemma stamp_unique ws k w w' :
  sane_writes ws → (k, w) ∈ ws → (k, w') ∈ ws → stamp w = stamp w' → core w = core w'.
Proof.
  intros Hws Hw Hw' Hst. assert (Origin w = Origin w') as Ho by (unfold stamp in Hst; congruence).
  assert (∀ a b, (k, a) ∈ ws → (k, b) ∈ ws → Origin a = Origin b → stamp a = stamp b →
            dot a ≤ dot b → core a = core b) as Hle.
  { intros a b Ha Hb Hab Hs Hd. destruct (Hws k b Hb) as (_ & _ & Hob).
    destruct (Hob a Ha) as [?|Hlt]; [by rewrite Hab|done|].
    rewrite Hs in Hlt. by apply (irreflexivity stamp_lt) in Hlt. }
  destruct (Z.le_ge_cases (dot w) (dot w')); [by apply Hle|]. symmetry. by apply Hle.
Qed.

Lemma sane_stamp ws k a b :
  sane_writes ws → sane ws k a → sane ws k b → stamp a = stamp b → core a = core b.
Proof.
  intros Hws [Ha _] [Hb _] Hst.
  destruct (good_written _ _ _ Ha) as (w & Hw & Hwa & _), (good_written _ _ _ Hb) as (w' & Hw' & Hwb & _).
  rewrite <-Hwa, <-Hwb. apply (stamp_unique ws k); [done..|].
  by rewrite (core_stamp _ _ Hwa), (core_stamp _ _ Hwb).
Qed.

Lemma supersedes_core_le ws k l i : sane ws k l → sane ws k i → supersedes i l → core_le l i.
Proof.
  intros [Hl _] [_ Hi] [[Hlt _]|[_ Hlt]]; [|by right].
  destruct (good_written _ _ _ Hl) as (w & Hw & Hwl & Hle).
  apply (core_le_core w); [done|]. apply Hi; [done|]. unfold dot.
  etrans; [apply Hle|apply Hlt].
Qed.

Lemma sane_merge `{RangeOrder} ws k old v m :
  sane_writes ws → (∀ l, old = Some l → sane ws k l) → sane ws k v →
  mergeValue old (Some v) = Some m →
  sane ws k m ∧ core_le v m ∧ (∀ l, old = Some l → core_le l m) ∧
  (core m = core v ∨ ∃ l, old = Some l ∧ core m = core l).
Proof.
  intros Hws Hold Hv Hm.
  assert (good ws k m) as Hgm by (eapply good_merge; [|apply Hv|done]; intros l Hl; by apply Hold).
  revert Hm. unfold mergeValue. destruct (accepts old v) eqn:Ha.
  - intros [= <-].
    assert (∀ l, old = Some l → core_le l v) as Hlv.
    { intros l ->. apply (supersedes_core_le ws k); [by apply Hold|done|]. by apply isIncomingNewer_spec. }
    split_and!; [split; [done|]|by left|done|by left].
    intros w Hw Hseen. cbn [storedValue VectorClock] in Hseen.
    assert (core_le w v); [|done].
    assert (vc_nonneg (VectorClock (default zeroValue old))) as Hn.
    { destruct old as [l|]; [apply (Hold l eq_refl)|apply vc_nonneg_empty]. }
    rewrite vc_get_mergeClocks in Hseen by done.
    destruct (Z.max_spec_le (vc_get (VectorClock (default zeroValue old)) (Origin w)) (vc_get (VectorClock v) (Origin w)))
      as [[_ Hmax]|[_ Hmax]]; rewrite Hmax in Hseen; [by apply Hv|].
    destruct old as [l|].
    + etrans; [by apply (Hold l eq_refl)|by apply Hlv].
    + destruct (Hws k w Hw) as [Hd _]. change (VectorClock _) with (∅ : vclock) in Hseen. unfold vc_get in Hseen. rewrite lookup_empty in Hseen. simpl in Hseen. lia.
  - intros ->. split_and!; [by apply Hold| | |by right; eauto].
    + simpl in Ha. apply isIncomingNewer_false in Ha. pose proof (Hold m eq_refl) as Hsm.
      destruct (decide (supersedes m v)) as [Hs|Hs].
      * by apply (supersedes_core_le ws k).
      * left. apply (sane_stamp ws k); [done..|]. by apply not_superseded_stamp.
    + intros l [= <-]. by left.
Qed.

(** Folding values into a register leaves the greatest of them. *)
Definition lww_max (vs : list (option Value)) (r : option Value) : Prop :=
  match r with
  | None => ∀ v, Some v ∉ vs
  | Some m => (∃ v, Some v ∈ vs ∧ core v = core m) ∧ ∀ v, Some v ∈ vs → core_le v m
  end.

Lemma lww_max_unique vs vs' r r' :
  (∀ o, o ∈ vs ↔ o ∈ vs') → lww_max vs r → lww_max vs' r' → core <$> r = core <$> r'.
Proof.
  intros Heq. destruct r as [m|], r' as [m'|]; simpl.
  - intros [(v & Hv & Hvm) Hm] [(v' & Hv' & Hvm') Hm']. f_equal. apply core_le_antisym.
    + apply (core_le_core v); [done|]. by apply Hm', Heq.
    + apply (core_le_core v'); [done|]. by apply Hm, Heq.
  - intros [(v & Hv & _) _] Hno. by destruct (Hno v (proj1 (Heq _) Hv)).
  - intros Hno [(v & Hv & _) _]. by destruct (Hno v (proj2 (Heq _) Hv)).
  - done.
Qed.

Lemma fold_lww `{RangeOrder} ws k old vs :
  sane_writes ws → (∀ v, Some v ∈ old :: vs → sane ws k v) →
  (∀ v, foldl mergeValue old vs = Some v → sane ws k v) ∧ lww_max (old :: vs) (foldl mergeValue old vs).
Proof.
  intros Hws. revert old. induction vs as [|o vs IH]; intros old Hs; cbn [foldl].
  { split; [intros v ->; apply Hs; left|]. destruct old as [m|]; simpl; [|set_solver].
    split; [exists m; set_solver|]. intros v Hv. assert (v = m) as -> by set_solver. done. }
  destruct o as [w|].
  2: { change (mergeValue old None) with old. destruct (IH old) as [H1 H2]; [intros v Hv; apply Hs; set_solver|]. split; [done|].
       assert (∀ v, Some v ∈ old :: None :: vs ↔ Some v ∈ old :: vs) as Heq by (intros v; rewrite !elem_of_cons; naive_solver).
       unfold lww_max in *. destruct (foldl _ _ _); by setoid_rewrite Heq. }
  destruct (mergeValue_Some old w) as [m Hm]. rewrite Hm.
  assert (sane ws k w) as Hw by (apply Hs; set_solver).
  destruct (sane_merge ws k old w m Hws) as (Hsm & Hwm & Hom & Hcm); [|done|done|].
  { intros l ->. apply Hs. left. }
  destruct (IH (Some m)) as [H1 H2].
  { intros v [[= ->]|Hv]%elem_of_cons; [done|]. apply Hs. by do 2 right. }
  split; [done|].
  destruct (foldl _ _ _) as [r|]; cbn [lww_max] in *; [|by destruct (H2 m); left].
  destruct H2 as [(v & Hv & Hvr) Hall].
  assert (core_le m r) as Hmr by (apply Hall; left). split.
  - apply elem_of_cons in Hv as [[= ->]|Hv]; [|exists v; split; [by do 2 right|done]].
    destruct Hcm as [Hcm|(l & -> & Hcm)]; [exists w|exists l]; (split; [|congruence]); [right; left|left].
  - intros u [Hu|[[= ->]|Hu]%elem_of_cons]%elem_of_cons.
    + etrans; [by apply Hom|done].
    + by etrans.
    + apply Hall. by right.
Qed.

(** *** The causal invariant *)


(** Nothing is deleted, and the stamp of a Put exceeds that of the value it
    overwrites. *)
Definition causal_clocks (n : Net) (l : label) (n' : Net) : Prop :=
  match l with
  | LDelete _ _ => False
  | LPut id key _ => ∀ g g' old v,
      nodes n !! id = Some g → nodes n' !! id = Some g' →
      store g !! key = Some old → store g' !! key = Some v → stamp_lt (stamp old) (stamp v)
  | _ => True
  end.

(** A node's clock entry for itself counts its writes. *)
Record causal (n : Net) : Prop := {
  causal_own id g k : nodes n !! id = Some g →
    Z.of_nat (write_count k id (writes n)) = vc_get (VectorClock (default zeroValue (store g !! k))) id;
  causal_writes : sane_writes (writes n);
  causal_held k v : held n k v → sane (writes n) k v;
}.

Lemma causal_initial n : initial n → causal n.
Proof.
  intros Hi. pose proof (inv_initial n Hi) as Hinv. destruct Hi as (Hn & Hw & Hws). split.
  - intros id g k (_ & Hst & _)%Hn. rewrite Hst, Hws, lookup_empty. done.
  - intros k w Hkw. rewrite Hws in Hkw. by apply elem_of_nil in Hkw.
  - intros k v Hh. split; [by apply (inv_held n Hinv)|]. intros w Hw'. rewrite Hws in Hw'. by apply elem_of_nil in Hw'.
Qed.

(** A node moves to a store whose values are sane and sends from the old one. *)
Lemma causal_node n id g g' out :
  inv n → causal n → nodes n !! id = Some g →
  (∀ k v, store g' !! k = Some v → sane (writes n) k v) →
  (∀ k, vc_get (VectorClock (default zeroValue (store g' !! k))) id =
        vc_get (VectorClock (default zeroValue (store g !! k))) id) →
  (∀ e, e ∈ out → sendable g e) →
  causal {| nodes := <[id := g']> (nodes n); wire := wire n ++ out; writes := writes n |}.
Proof.
  intros Hi [Hown Hws Hh] Hg Hst Hclk Hout. split; cbn [nodes wire writes].
  - intros id' g'' k. destruct (decide (id = id')) as [<-|Hne].
    + rewrite lookup_insert_eq. intros [= <-]. rewrite Hclk. by apply Hown.
    + rewrite lookup_insert_ne by done. by apply Hown.
  - done.
  - intros k v [id' g'' Hg'' Hk|e m He Hm Hk|Hwr]; cbn in *; [|apply Hh|by apply Hh, held_write].
    + destruct (decide (id = id')) as [<-|Hne].
      * rewrite lookup_insert_eq in Hg''. injection Hg'' as <-. by apply Hst.
      * rewrite lookup_insert_ne in Hg'' by done. apply Hh. by econstructor.
    + apply elem_of_app in He as [He|He]; [by eapply held_wire|].
      destruct (Hout e He) as (m' & Hp & Ht & _ & Hsub).
      rewrite Hp, decode_text in Hm; [injection Hm as <-|].
      * eapply held_store; [done|]. by eapply lookup_weaken.
      * apply Ht. intros k' v' Hk'. assert (good (writes n) k' v') as [] by (apply (inv_held n Hi); by econstructor). done.
Qed.

Lemma dot_bound n k w : inv n → (k, w) ∈ writes n → dot w ≤ Z.of_nat (write_count k (Origin w) (writes n)).
Proof. intros Hi Hw. apply (inv_held n Hi). by apply held_write. Qed.

(** The state after a Put. *)
Lemma causal_put {E : Env} n id g key data v :
  inv n → causal n → nodes n !! id = Some g → valid_text key → valid_text data →
  store (Put key data g).1 !! key = Some v → Z.of_nat (S (length (writes n))) < two63 →
  (∀ old, store g !! key = Some old → stamp_lt (stamp old) (stamp v)) →
  causal {| nodes := <[id := (Put key data g).1]> (nodes n); wire := wire n; writes := (key, v) :: writes n |}.
Proof.
  intros Hi [Hown Hws Hh] Hg Hk Hd Hv Hlen Hlt.
  destruct (good_put _ _ _ _ _ _ Hi Hg Hk Hd Hv Hlen) as [Hgood Hclk].
  destruct (Put_value _ _ _ _ Hv) as (_ & Ho & _ & _ & Hvc & Heq).
  destruct (inv_nodes _ Hi id g Hg) as [Hid _]. rewrite Hid in *.
  set (old := store g !! key) in *.
  assert (dot v = Z.of_nat (write_count key id (writes n)) + 1) as Hdot.
  { unfold dot. rewrite Ho, Hclk. by rewrite (Hown id g key Hg). }
  assert (not_seen : ∀ k u, held n k u → k = key → ¬ dot v ≤ vc_get (VectorClock u) (Origin v)).
  { intros k u Hu -> Hle. rewrite Ho, Hdot in Hle.
    pose proof (good_counter _ _ _ (inv_held n Hi _ _ Hu) id). lia. }
  assert (Hord : ordered ((key, v) :: writes n) key v).
  { intros w [[= ->]|Hw]%elem_of_cons; [done|]. intros Hseen.
    destruct (Hws key w Hw) as [Hpos _].
    assert (∃ l, old = Some l ∧ core_le w l) as (l & Hl & Hle).
    { assert (dot w ≤ vc_get (VectorClock (default zeroValue old)) (Origin w)) as Hso.
      { rewrite Hvc, vc_get_incrClock in Hseen. case_decide as Hiw; [|done].
        rewrite <-Hiw at 1. unfold old. rewrite <-(Hown id g key Hg), Hiw. by apply (dot_bound n key). }
      destruct old as [l|] eqn:Hold.
      - exists l. split; [done|]. assert (held n key l) as [_ Hl]%Hh by (by econstructor). by apply Hl.
      - change (VectorClock _) with (∅ : vclock) in Hso. unfold vc_get in Hso. rewrite lookup_empty in Hso. simpl in Hso. lia. }
    etrans; [done|]. right. by apply Hlt. }
  assert (Hmore : ∀ k u, held n k u → sane ((key, v) :: writes n) k u).
  { intros k u Hu. split; [apply good_more, (inv_held n Hi), Hu|].
    intros w [[= -> ->]|Hw]%elem_of_cons Hseen; [by destruct (not_seen key u Hu)|]. by apply (Hh k u Hu). }
  assert (Hnew : sane ((key, v) :: writes n) key v) by (by split).
  split; cbn [nodes wire writes].
  - intros id' g' k. rewrite write_count_cons. cbn [fst snd]. rewrite Ho.
    destruct (decide (id = id')) as [<-|Hne].
    + rewrite lookup_insert_eq. intros <-%(inj Some). rewrite Heq. cbn [store set_store].
      destruct (decide (key = k)) as [<-|Hk'].
      * rewrite lookup_insert_eq, decide_True by done. simpl. unfold dot in Hdot. rewrite Ho in Hdot. lia.
      * rewrite lookup_insert_ne, decide_False by tauto. simpl. by apply Hown.
    + rewrite lookup_insert_ne, decide_False by tauto. simpl. by apply Hown.
  - intros k w [[= -> ->]|Hw]%elem_of_cons; [split; [lia|done]|].
    split; [by apply (Hws k w)|]. apply Hmore. by apply held_write.
  - intros k u [id' g' Hg' Hku|e m He Hm Hku|Hwr]; cbn in *; [|apply Hmore; by eapply held_wire|].
    + destruct (decide (id = id')) as [<-|Hne].
      * rewrite lookup_insert_eq in Hg'. apply (inj Some) in Hg' as <-. rewrite Heq in Hku. cbn in Hku.
        apply lookup_insert_Some in Hku as [[<- <-]|[_ Hku]]; [done|]. apply Hmore. by econstructor.
      * rewrite lookup_insert_ne in Hg' by done. apply Hmore. by econstructor.
    + apply elem_of_cons in Hwr as [[= -> ->]|Hwr]; [done|]. by apply Hmore, held_write.
Qed.

(** Merging a store of sane values leaves sane values, and the node's entry for
    itself: no other clock is ahead of it. *)
Lemma causal_merged `{RangeOrder} n id g s u :
  inv n → causal n → nodes n !! id = Some g → merged (store g) s u →
  (∀ k v, s !! k = Some v → held n k v) →
  (∀ k v, u !! k = Some v → sane (writes n) k v) ∧
  ∀ k, vc_get (VectorClock (default zeroValue (u !! k))) id =
       vc_get (VectorClock (default zeroValue (store g !! k))) id.
Proof.
  intros Hi [Hown Hws Hh] Hg Hm Hs. split.
  - intros k v. rewrite (Hm k). destruct (s !! k) as [w|] eqn:Hw; [|intros Hv; apply Hh; by econstructor].
    intros Hv. eapply sane_merge; [done| |by apply Hh, Hs|done].
    intros l Hl. apply Hh. by econstructor.
  - intros k. rewrite (Hm k). unfold mergeValue. destruct (s !! k) as [w|] eqn:Hw; [|done].
    destruct (accepts _ _); [|done]. cbn [from_option Datatypes.id storedValue VectorClock].
    assert (vc_nonneg (VectorClock (default zeroValue (store g !! k)))) as Hn.
    { destruct (store g !! k) as [l|] eqn:Hl; [|apply vc_nonneg_empty].
      assert (held n k l) as Hhl by (by econstructor). apply (inv_held n Hi k l Hhl). }
    rewrite vc_get_mergeClocks by done. rewrite <-(Hown id g k Hg).
    pose proof (good_counter _ _ _ (inv_held n Hi k w (Hs k w Hw)) id). simpl. lia.
Qed.

Lemma causal_step n l n' :
  inv n → causal n → step n l n' → causal_clocks n l n' →
  Z.of_nat (length (writes n')) < two63 → causal n'.
Proof.
  intros Hi Hc Hs Hcl Hlen.
  destruct Hs as [E n id g key data v Hg Hk Hd Hv|n id g key Hg|E n id g Hg|E cb n id g e from Hcb Hg He|E n id g ps Hg|n ms Hms];
    cbn [writes causal_clocks nodes] in *.
  - apply causal_put; [done..|]. intros old Hold. apply (Hcl g (Put key data g).1); [done| |done..].
    by rewrite lookup_insert_eq.
  - done.
  - destruct (Tick_sends g) as (Hst & _). apply (causal_node n id g); [done..| | |apply Tick_sendable].
    + rewrite Hst. intros k v Hkv. apply (causal_held n Hc). by econstructor.
    + by rewrite Hst.
  - destruct (OnMessage_effect cb (with_from from e) g Hcb) as (s & Hs & Hm & _ & Hsend).
    destruct (causal_merged n id g s _ Hi Hc Hg Hm) as [H1 H2].
    { intros k v Hkv. destruct Hs as [->|(m & Hdec & ->)]; [by rewrite lookup_empty in Hkv|]. by eapply held_wire. }
    by apply (causal_node n id g).
  - rewrite <-(app_nil_r (wire n)). destruct (same_data_fields _ _ (SetPeers_same_data ps g)) as (Hst & _).
    apply (causal_node n id g); [done..| | |by intros ? ?%elem_of_nil].
    + rewrite Hst. intros k v Hkv. apply (causal_held n Hc). by econstructor.
    + by rewrite Hst.
  - destruct Hc as [Hown Hws Hh]. split; cbn; [done..|].
    intros k v [id g Hg Hkv|e m He Hm Hkv|Hwr]; cbn in *; apply Hh;
      [by econstructor|eapply held_wire; [by apply Hms|done..]|by apply held_write].
Qed.

Lemma causal_reachable n :
  reachable causal_clocks n → Z.of_nat (length (writes n)) < two63 → causal n.
Proof.
  induction 1 as [n Hi|n l n' Hr IH Hs Hcl]; intros Hlen; [by apply causal_initial|].
  pose proof (step_writes _ _ _ Hs). eapply causal_step; [|apply IH; lia|done..].
  apply (inv_reachable causal_clocks n Hr). lia.
Qed.

(** No value is invented and no counter wraps: in every reachable state of
    a network that loses, duplicates, reorders and misroutes messages, with
    nodes writing and deleting at will, every value stored or on the wire
    carries the data, timestamp, origin and version of some Put of its key, no
    entry of its clock exceeds the number of Puts of that node to the key, and
    its version stays below the number of Puts, which int64 counters hold. *)
Theorem net_provenance n k v :
  reachable (λ _ _ _, True) n → Z.of_nat (length (writes n)) < two63 → held n k v →
  (∃ w, (k, w) ∈ writes n ∧ core w = core v) ∧
  (∀ i, 0 ≤ vc_get (VectorClock v) i ≤ Z.of_nat (write_count k i (writes n))) ∧
  1 ≤ Version v ≤ Z.of_nat (length (writes n)).
Proof.
  intros Hr Hlen Hh. destruct (inv_held n (inv_reachable _ n Hr Hlen) k v Hh) as [_ _ Hn Hc Hv (w & Hw & Hwv & _)].
  split_and!; [by exists w| |lia..]. intros i. split; [apply Hn|apply Hc].
Qed.

(** C5: A node's store refines a last-writer-wins register over the writes it
    has seen.  When nothing is deleted and the stamp of a Put exceeds the stamp
    of the value it overwrites, then in every reachable state the value a node
    holds for a key is one of the writes of that key, its clock covers that
    write, and every write its clock covers is the same or has a smaller
    timestamp, origin, version. *)
Theorem replica_is_lww n id g k v :
  reachable causal_clocks n → Z.of_nat (length (writes n)) < two63 →
  nodes n !! id = Some g → store g !! k = Some v →
  ∃ w, (k, w) ∈ writes n ∧ core w = core v ∧ dot w ≤ vc_get (VectorClock v) (Origin w) ∧
  ∀ u, (k, u) ∈ writes n → dot u ≤ vc_get (VectorClock v) (Origin u) →
       core u = core w ∨ stamp_lt (stamp u) (stamp w).
Proof.
  intros Hr Hlen Hg Hk. assert (held n k v) as Hh by (by econstructor).
  destruct (causal_held n (causal_reachable n Hr Hlen) k v Hh) as [Hgood Hord].
  destruct (good_written _ _ _ Hgood) as (w & Hw & Hwv & Hle).
  exists w. split_and!; [done|done|apply Hle|]. intros u Hu Hseen. rewrite (core_stamp _ _ Hwv), Hwv.
  by apply Hord.
Qed.

(** C7: Under the same clocks the order of delivery is irrelevant: a node that
    handles any STATE messages of values of the system ends, key by key, with
    the same data, timestamp, origin and version as when it handles them in
    another order, with repetitions, or with other range orders. *)
Theorem delivery_order_irrelevant (E1 E2 : Env) n id g msgs msgs' k :
  reachable causal_clocks n → Z.of_nat (length (writes n)) < two63 → nodes n !! id = Some g →
  (∀ s k v, s ∈ msgs → s !! k = Some v → held n k v) → (∀ s, s ∈ msgs ↔ s ∈ msgs') →
  core <$> store (@handle_states E1 msgs g) !! k = core <$> store (@handle_states E2 msgs' g) !! k.
Proof.
  intros Hr Hlen Hg Hmsgs Heq. pose proof (causal_reachable n Hr Hlen) as [_ Hws Hh].
  rewrite !(lookup_handle_states canonical_order).
  assert (∀ ms, foldl (λ old s, @mergeValue canonical_order old (s !! k)) (store g !! k) ms =
                foldl (@mergeValue canonical_order) (store g !! k) ((λ s : gmap string Value, s !! k) <$> ms)) as Hmap.
  { intros ms. generalize (store g !! k). induction ms as [|s ms IH]; intros o; simpl; [done|apply IH]. }
  rewrite !Hmap.
  assert (Hsane : ∀ ms, (∀ s, s ∈ ms → s ∈ msgs) → ∀ v, Some v ∈ store g !! k :: ((λ s : gmap string Value, s !! k) <$> ms) → sane (writes n) k v).
  { intros ms Hms v [Hv|Hv]%elem_of_cons; apply Hh; [by econstructor|].
    apply list_elem_of_fmap in Hv as (s & Hv & Hin). eapply Hmsgs; [by apply Hms|done]. }
  destruct (@fold_lww canonical_order (writes n) k _ _ Hws (Hsane msgs (λ s Hs, Hs))) as [_ H1].
  destruct (@fold_lww canonical_order (writes n) k _ _ Hws (Hsane msgs' (λ s, proj2 (Heq s)))) as [_ H2].
  refine (lww_max_unique _ _ _ _ _ H1 H2).
  intros o. rewrite !elem_of_cons, !list_elem_of_fmap. by setoid_rewrite Heq.
Qed.
End Causal.

(** ** Witnesses *)

Section Witnesses.
Let C := countable_codec GossipMessage.

(** Node n1 writes the key twice, at times 100 and 200. *)
Let a0 := fresh_node "n1".
Let a1 := (@Put (test_env 100) "k" "x" a0).1.
Let a2 := (@Put (test_env 200) "k" "y" a1).1.
Let v1 := default zeroValue (store a1 !! "k").
Let v2 := default zeroValue (store a2 !! "k").
Let net0 := {| nodes := {["n1" := a0; "n2" := fresh_node "n2"]}; wire := []; writes := [] |}.
Let net1 := {| nodes := <["n1" := a1]> (nodes net0); wire := []; writes := [("k", v1)] |}.
Let net2 := {| nodes := <["n1" := a2]> (nodes net1); wire := []; writes := [("k", v2); ("k", v1)] |}.

Lemma net0_initial : @initial C run_codec net0.
Proof.
  split; [|done]. intros id g Hg. unfold net0 in Hg. cbn [nodes] in Hg.
  apply lookup_insert_Some in Hg as [[<- <-]|[_ Hg]]; [done|].
  by apply lookup_singleton_Some in Hg as [<- <-].
Qed.

Lemma net2_reachable P :
  P net0 (LPut "n1" "k" "x") net1 → P net1 (LPut "n1" "k" "y") net2 → @reachable C run_codec P net2.
Proof.
  intros H1 H2. apply (reach_step P net1 (LPut "n1" "k" "y")); [|apply (step_put (test_env 200) net1 "n1" a1 "k" "y" v2); by vm_compute|done].
  apply (reach_step P net0 (LPut "n1" "k" "x")); [|apply (step_put (test_env 100) net0 "n1" a0 "k" "x" v1); by vm_compute|done].
  apply reach_init, net0_initial.
Qed.

Lemma net2_causal : @reachable C run_codec causal_clocks net2.
Proof.
  apply net2_reachable; intros g g' old v Hg Hg' Ho Hv.
  - vm_compute in Hg. injection Hg as <-. by vm_compute in Ho.
  - vm_compute in Hg, Hg'. injection Hg as <-. injection Hg' as <-.
    vm_compute in Ho, Hv. injection Ho as <-. injection Hv as <-. by vm_compute.
Qed.

Lemma net_provenance_witness : ∃ w, (("k", w) ∈ writes net2) ∧ core w = core v2.
Proof.
  apply (@net_provenance C run_codec net2 "k" v2).
  - by apply net2_reachable.
  - vm_compute. reflexivity.
  - apply (held_store net2 "k" v2 "n1" a2); vm_compute; reflexivity.
Defined.

Lemma replica_is_lww_witness :
  ∃ w, (("k", w) ∈ writes net2) ∧ core w = core v2 ∧ dot w ≤ vc_get (VectorClock v2) (Origin w) ∧
  ∀ u, ("k", u) ∈ writes net2 → dot u ≤ vc_get (VectorClock v2) (Origin u) →
       core u = core w ∨ stamp_lt (stamp u) (stamp w).
Proof.
  apply (@replica_is_lww C run_codec net2 "n1" a2 "k" v2).
  - apply net2_causal.
  - vm_compute. reflexivity.
  - vm_compute. reflexivity.
  - vm_compute. reflexivity.
Defined.

Lemma delivery_order_irrelevant_witness :
  core <$> store (@handle_states (test_env 1) [{["k" := v1]}; {["k" := v2]}] (fresh_node "n2")) !! "k" =
  core <$> store (@handle_states (test_env 2) [{["k" := v2]}; {["k" := v1]}; {["k" := v1]}] (fresh_node "n2")) !! "k".
Proof.
  apply (@delivery_order_irrelevant C run_codec (test_env 1) (test_env 2) net2 "n2").
  - apply net2_causal.
  - vm_compute. reflexivity.
  - vm_compute. reflexivity.
  - intros s k v Hs Hk. apply held_write.
    apply elem_of_cons in Hs as [->|[->|[]%elem_of_nil]%elem_of_cons];
      apply lookup_singleton_Some in Hk as [<- <-]; [right; left|left].
  - intros s. set_solver.
Defined.
End Witnesses.
