(* ===== verification/GossipSpread.v ===== *)
(** * The spread of writes through a gossip cluster

    Digest exchanges between pairs of nodes, in any order, of a network that was
    reached with causal clocks.  What a node knows of is the union of what the
    two sides of its exchanges knew of; when every node knows of every other, all
    stores agree, and a hub that exchanges with the others twice is enough. *)

From S2P Require Import Prelude GoStrings Protocol VectorClock Conflict Gossip GossipProps GossipNet.

(** ** Who knows of whom *)

Abbreviation schedule := (list (string * string)).

(** Whose stores the store of a node covers, after one exchange and after many. *)
Definition know_step (K : string → gset string) (e : string * string) : string → gset string :=
  λ n, if decide (n = e.1 ∨ n = e.2) then K e.1 ∪ K e.2 else K n.

Definition knows (sched : schedule) : string → gset string := foldl know_step (λ n, {[n]}) sched.

Definition complete (sched : schedule) (ids : gset string) : Prop := ∀ n, n ∈ ids → ids ⊆ knows sched n.

#[export] Instance complete_dec sched ids : Decision (complete sched ids).
Proof. refine (cast_if (decide (set_Forall (λ n, ids ⊆ knows sched n) ids))); abstract done. Defined.

(** A hub that exchanges with each of the others, twice. *)
Definition star (hub : string) (others : list string) : schedule := ((λ n, (hub, n)) <$> others) ++ ((λ n, (hub, n)) <$> others).

Lemma know_step_grows K e n : K n ⊆ know_step K e n.
Proof. unfold know_step. case_decide as Hn; [destruct Hn as [-> | ->]|]; set_solver. Qed.

Lemma know_fold_grows sched K n : K n ⊆ foldl know_step K sched n.
Proof. revert K. induction sched as [|e sched IH]; intros K; cbn [foldl]; [done|]. etrans; [apply know_step_grows|apply IH]. Qed.

(** The hub gathers what the others know, ... *)
Lemma star_gathers hub others K :
  K hub ∪ ⋃ (K <$> others) ⊆ foldl know_step K ((λ n, (hub, n)) <$> others) hub.
Proof.
  revert K. induction others as [|n others IH]; intros K; cbn [fmap list_fmap foldl]; [set_solver|].
  specialize (IH (know_step K (hub, n))). etrans; [|exact IH]. apply union_subseteq. split.
  - pose proof (know_step_grows K (hub, n) hub). set_solver.
  - cbn [union_list foldr fmap list_fmap]. apply union_subseteq. split.
    + assert (K n ⊆ know_step K (hub, n) hub) by (unfold know_step; rewrite decide_True by auto; set_solver). set_solver.
    + clear IH. assert (⋃ (K <$> others) ⊆ ⋃ (know_step K (hub, n) <$> others)); [|set_solver].
      intros x (X & HX & Hx)%elem_of_union_list. apply list_elem_of_fmap in HX as (m & -> & Hm). apply elem_of_union_list.
      exists (know_step K (hub, n) m). split; [by apply list_elem_of_fmap_2|by apply know_step_grows].
Qed.

(** ... and tells them. *)
Lemma star_tells hub others K n : n ∈ others → K hub ⊆ foldl know_step K ((λ n, (hub, n)) <$> others) n.
Proof.
  revert K. induction others as [|m others IH]; intros K Hn; [by apply elem_of_nil in Hn|]. cbn [fmap list_fmap foldl].
  apply elem_of_cons in Hn as [->|Hn].
  - etrans; [|apply know_fold_grows]. unfold know_step. rewrite decide_True by auto. set_solver.
  - etrans; [|by apply IH]. apply know_step_grows.
Qed.

(** So [2 (n - 1)] exchanges are enough for [n] nodes. *)
Lemma star_complete hub others : complete (star hub others) ({[hub]} ∪ list_to_set others).
Proof.
  intros n Hn. unfold knows, star. rewrite foldl_app. set (K1 := foldl know_step (λ n : string, {[n]} : gset string) ((λ n, (hub, n)) <$> others)).
  assert ({[hub]} ∪ list_to_set others ⊆ K1 hub) as Hhub.
  { etrans; [|apply (star_gathers hub others)]. apply union_mono_l. intros x Hx%elem_of_list_to_set. apply elem_of_union_list.
    exists {[x]}. split; [|set_solver]. by apply (list_elem_of_fmap_2 (λ n, {[n]})). }
  apply elem_of_union in Hn as [->%elem_of_singleton|Hn%elem_of_list_to_set]; (etrans; [exact Hhub|]).
  - apply know_fold_grows.
  - by apply star_tells.
Qed.

(** ** A run of exchanges *)

Section Spread.
Context `{GC : GossipCodec}.
Context (cb : string → string → Z → GossipProtocol → GossipProtocol) (Hcb : peer_callback cb).

Abbreviation cluster := (gmap string GossipProtocol).

(** Exchanges between the nodes, one after the other; in between, nodes may do
    what leaves their stores alone: tick, hear of peers, lose messages. *)
Inductive exchanges : schedule → cluster → cluster → Prop :=
  | ex_done ns : exchanges [] ns ns
  | ex_idle sched ns n g g' ns' :
      ns !! n = Some g → store g' = store g → exchanges sched (<[n := g']> ns) ns' → exchanges sched ns ns'
  | ex_pair (E1 E2 E3 E4 : Env) sched ns i j a b ns' :
      ns !! i = Some a → ns !! j = Some b → i ≠ j → (@Tick _ E1 a).2 ≠ [] →
      exchanges sched (<[j := (exchange cb E1 E2 E3 E4 a b).2]> (<[i := (exchange cb E1 E2 E3 E4 a b).1]> ns)) ns' →
      exchanges ((i, j) :: sched) ns ns'.

(** The order of the values of a key; a missing one is the least. *)
Definition value_le (o o' : option Value) : Prop := ∀ v, o = Some v → ∃ w, o' = Some w ∧ core_le v w.

#[export] Instance value_le_preorder : PreOrder value_le.
Proof.
  split; [by intros o v ->; eexists|]. intros o1 o2 o3 H12 H23 v Hv. destruct (H12 v Hv) as (w & Hw & Hvw).
  destruct (H23 w Hw) as (u & Hu & Hwu). exists u. split; [done|]. by etrans.
Qed.

Lemma value_le_core o o' : core <$> o = core <$> o' → value_le o o'.
Proof. intros Hc v ->. destruct o' as [w|]; [|done]. cbn in Hc. apply (inj Some) in Hc. exists w. split; [done|]. by left. Qed.

Context (ws : list (string * Value)) (Hws : sane_writes ws).

Definition sane_store (s : gmap string Value) : Prop := ∀ k v, s !! k = Some v → sane ws k v.

Lemma sane_text s : sane_store s → text_store valid_text s.
Proof. intros Hs k v Hv. destruct (Hs k v Hv) as [[] _]. done. Qed.

Lemma sane_identify s t : sane_store s → sane_store t → stamps_identify s t.
Proof.
  intros Hs Ht k v w Hv Hw Hst. assert (core v = core w) as Hc by (by eapply sane_stamp; [|apply Hs|apply Ht|]).
  unfold core in Hc. congruence.
Qed.

Lemma merged_lub `{RangeOrder} s t u :
  sane_store s → sane_store t → merged s t u →
  sane_store u ∧ ∀ k, value_le (s !! k) (u !! k) ∧ value_le (t !! k) (u !! k) ∧
    (core <$> u !! k = core <$> s !! k ∨ core <$> u !! k = core <$> t !! k).
Proof.
  intros Hs Ht Hu.
  assert (∀ k, (∀ v, u !! k = Some v → sane ws k v) ∧ value_le (s !! k) (u !! k) ∧ value_le (t !! k) (u !! k) ∧
    (core <$> u !! k = core <$> s !! k ∨ core <$> u !! k = core <$> t !! k)) as Hk.
  { intros k. rewrite (Hu k). destruct (t !! k) as [w|] eqn:Hw.
    2: { change (mergeValue (s !! k) None) with (s !! k). split_and!; [apply Hs|done|done|by left]. }
    destruct (mergeValue_Some (s !! k) w) as [m Hm]. rewrite Hm.
    destruct (sane_merge ws k (s !! k) w m Hws) as (Hsm & Hwm & Hom & Hcm); [by intros l Hl; apply Hs|by apply Ht|done|].
    split_and!.
    - by intros v [= <-].
    - intros v Hv. exists m. split; [done|]. by apply Hom.
    - intros v [= <-]. by exists m.
    - destruct Hcm as [Hc|(l & -> & Hc)]; [right|left]; cbn; by rewrite Hc. }
  split; [intros k; apply Hk|intros k; apply (Hk k)].
Qed.

(** What one exchange leaves on both sides: the later of the two values. *)
Lemma exchange_lub (E1 E2 E3 E4 : Env) a b :
  sane_store (store a) → sane_store (store b) → (@Tick _ E1 a).2 ≠ [] →
  let r := exchange cb E1 E2 E3 E4 a b in
  ∀ g, g = r.1 ∨ g = r.2 → sane_store (store g) ∧ ∀ k,
    value_le (store a !! k) (store g !! k) ∧ value_le (store b !! k) (store g !! k) ∧
    (core <$> store g !! k = core <$> store a !! k ∨ core <$> store g !! k = core <$> store b !! k).
Proof.
  intros Ha Hb Htick. cbv zeta.
  destruct (exchange_merges cb E1 E2 E3 E4 a b Hcb) as (Hm1 & Hm2 & Heq); [by apply sane_text|by apply sane_text|by apply sane_identify|done|].
  destruct (@merged_lub (@env_order E3) _ _ _ Ha Hb Hm1) as [Hs1 Hl1].
  intros g [-> | ->]; [by split|]. split.
  - destruct Hm2 as [->|Hm2]; [done|]. by apply (@merged_lub (@env_order E4) _ _ _ Hb Hs1 Hm2).
  - intros k. destruct (Hl1 k) as (H1 & H2 & H3). rewrite <-!Heq.
    split_and!; [etrans; [exact H1|]; by apply value_le_core|etrans; [exact H2|]; by apply value_le_core|done].
Qed.

(** What a node holds, with what it knows of: the latest of the values of the
    nodes it knows of, and one of the first values. *)
Record covers (ns0 ns : cluster) (K : string → gset string) : Prop := {
  cov_nodes : dom ns = dom ns0;
  cov_sane n g : ns !! n = Some g → sane_store (store g);
  cov_above n g k m g0 : ns !! n = Some g → m ∈ K n → ns0 !! m = Some g0 → value_le (store g0 !! k) (store g !! k);
  cov_from n g k v : ns !! n = Some g → store g !! k = Some v →
    ∃ m g0 v0, ns0 !! m = Some g0 ∧ store g0 !! k = Some v0 ∧ core v0 = core v;
}.

(** One value, on both sides of an equal core. *)
Lemma from_core (ns0 : cluster) k (o o' : option Value) v :
  (∀ w, o' = Some w → ∃ m g0 v0, ns0 !! m = Some g0 ∧ store g0 !! k = Some v0 ∧ core v0 = core w) →
  core <$> o = core <$> o' → o = Some v → ∃ m g0 v0, ns0 !! m = Some g0 ∧ store g0 !! k = Some v0 ∧ core v0 = core v.
Proof.
  intros Hf Hc ->. destruct o' as [w|]; [|done]. cbn in Hc. apply (inj Some) in Hc. rewrite Hc. by apply Hf.
Qed.

Lemma covers_exchanges sched ns0 ns ns' K :
  covers ns0 ns K → exchanges sched ns ns' → covers ns0 ns' (foldl know_step K sched).
Proof.
  intros Hc Hrun. revert K Hc. induction Hrun as [ns|sched ns n g g' ns' Hg Hst _ IH|E1 E2 E3 E4 sched ns i j a b ns' Ha Hb Hij Ht _ IH]; intros K [Hd Hs Habove Hfrom].
  - by split.
  - apply IH. split.
    + rewrite dom_insert_L, <-Hd. apply elem_of_dom_2 in Hg. set_solver.
    + intros m h [[<- <-]|[_ Hh]]%lookup_insert_Some; [rewrite Hst|]; by eapply Hs.
    + intros m h k l g0 [[<- <-]|[_ Hh]]%lookup_insert_Some; [rewrite Hst|]; by eapply Habove.
    + intros m h k v [[<- <-]|[_ Hh]]%lookup_insert_Some; [rewrite Hst|]; by eapply Hfrom.
  - cbn [foldl]. apply IH. set (r := exchange cb E1 E2 E3 E4 a b).
    assert (∀ m h, <[j := r.2]> (<[i := r.1]> ns) !! m = Some h → (m = i ∨ m = j) ∧ (h = r.1 ∨ h = r.2) ∨ m ≠ i ∧ m ≠ j ∧ ns !! m = Some h) as Hcase.
    { intros m h. rewrite !lookup_insert_Some. intros [[<- <-]|[Hj [[<- <-]|[Hi Hh]]]]; [left; auto|left; auto|right; auto]. }
    pose proof (exchange_lub E1 E2 E3 E4 a b (Hs i a Ha) (Hs j b Hb) Ht) as Hlub. fold r in Hlub. split.
    + rewrite !dom_insert_L, <-Hd. apply elem_of_dom_2 in Ha, Hb. set_solver.
    + intros m h [[_ Hh]|(_ & _ & Hh)]%Hcase; [by apply Hlub|by eapply Hs].
    + intros m h k l g0 [[Hm Hh]|(Hi & Hj & Hh)]%Hcase Hl Hg0; unfold know_step in Hl; cbn [fst snd] in Hl.
      * rewrite decide_True in Hl by done. destruct (Hlub h Hh) as [_ Hk]. destruct (Hk k) as (H1 & H2 & _).
        apply elem_of_union in Hl as [Hl|Hl]; [etrans; [|exact H1]|etrans; [|exact H2]]; by eapply Habove.
      * rewrite decide_False in Hl by tauto. by eapply Habove.
    + intros m h k v [[_ Hh]|(_ & _ & Hh)]%Hcase Hv; [|by eapply Hfrom]. destruct (Hlub h Hh) as [_ Hk].
      destruct (Hk k) as (_ & _ & [Hc|Hc]); (eapply from_core; [|exact Hc|exact Hv]); intros w Hw; (eapply Hfrom; [|exact Hw]; done).
Qed.
End Spread.

Section Theorem_.
Context `{GC : GossipCodec}.
Context (cb : string → string → Z → GossipProtocol → GossipProtocol) (Hcb : peer_callback cb).

(** C6: Enough exchanges bring every node to the same data.  Take any reachable
    state of a network with causal clocks and let its nodes exchange digests, in
    any order and with any losses in between, so that in the end each node knows
    of each other; [n] nodes need no more than [2 (n - 1)] exchanges
    ([star_complete]).  Then, key by key, all nodes hold the same data with the
    same timestamp, origin and version: that of the last, by these, of the
    writes that any node held. *)
Theorem cluster_converges n sched ns' k :
  reachable causal_clocks n → Z.of_nat (length (writes n)) < two63 →
  exchanges cb sched (nodes n) ns' → complete sched (dom (nodes n)) →
  ∀ i g, ns' !! i = Some g →
    (∀ j h, ns' !! j = Some h → core <$> store g !! k = core <$> store h !! k) ∧
    match store g !! k with
    | None => ∀ j g0, nodes n !! j = Some g0 → store g0 !! k = None
    | Some v =>
        (∃ w, (k, w) ∈ writes n ∧ core w = core v) ∧
        ∀ j g0 v0, nodes n !! j = Some g0 → store g0 !! k = Some v0 → core v0 = core v ∨ stamp_lt (stamp v0) (stamp v)
    end.
Proof.
  intros Hr Hlen Hrun Hcomp. pose proof (causal_reachable n Hr Hlen) as [_ Hws Hh].
  assert (covers (writes n) (nodes n) (nodes n) (λ m, {[m]})) as Hc0.
  { split; [done| | |].
    - intros m g Hg k' v Hv. apply Hh. by econstructor.
    - intros m g k' m' g0 Hg ->%elem_of_singleton Hg0. by simplify_eq.
    - intros m g k' v Hg Hv. by exists m, g, v. }
  destruct (covers_exchanges cb Hcb (writes n) Hws sched (nodes n) (nodes n) ns' _ Hc0 Hrun) as [Hd Hs Habove Hfrom].
  assert (∀ i g j g0, ns' !! i = Some g → nodes n !! j = Some g0 → value_le (store g0 !! k) (store g !! k)) as Hall.
  { intros i g j g0 Hg Hg0. apply (Habove i g k j g0 Hg); [|done]. apply elem_of_dom_2 in Hg, Hg0. rewrite Hd in Hg. by apply (Hcomp i Hg). }
  assert (∀ i g j h v, ns' !! i = Some g → ns' !! j = Some h → store g !! k = Some v → ∃ w, store h !! k = Some w ∧ core_le v w) as Hle.
  { intros i g j h v Hg Hhn Hv. destruct (Hfrom i g k v Hg Hv) as (m & g0 & v0 & Hm & Hv0 & Hcore).
    destruct (Hall j h m g0 Hhn Hm v0 Hv0) as (w & Hw & Hle). exists w. split; [done|]. by apply (core_le_core v0). }
  intros i g Hg. split.
  - intros j h Hhn. destruct (store g !! k) as [v|] eqn:Hv.
    + destruct (Hle i g j h v Hg Hhn Hv) as (w & Hw & Hvw). rewrite Hw. cbn. f_equal.
      destruct (Hle j h i g w Hhn Hg Hw) as (v' & Hv' & Hwv). apply core_le_antisym; [done|]. congruence.
    + destruct (store h !! k) as [w|] eqn:Hw; [|done]. destruct (Hle j h i g w Hhn Hg Hw) as (v & Hv' & _). congruence.
  - destruct (store g !! k) as [v|] eqn:Hv.
    + split.
      * destruct (Hs i g Hg k v Hv) as [Hgood _]. destruct (good_written _ _ _ Hgood) as (w & Hw & Hwv & _). by exists w.
      * intros j g0 v0 Hg0 Hv0. destruct (Hall i g j g0 Hg Hg0 v0 Hv0) as (w & Hw & Hle'). rewrite Hv in Hw. by injection Hw as <-.
    + intros j g0 Hg0. destruct (store g0 !! k) as [v0|] eqn:Hv0; [|done].
      destruct (Hall i g j g0 Hg Hg0 v0 Hv0) as (w & Hw & _). congruence.
Qed.
End Theorem_.

(** ** Three nodes *)

Section Witnesses.
Let C := countable_codec GossipMessage.
Let cb := λ (_ _ : string) (_ : Z) (g : GossipProtocol), g.
#[local] Existing Instance C.

Definition spread_node (id : string) (ps : list string) : GossipProtocol := @SetPeers (test_env 0) ps (fresh_node id).

Definition spread_start : Net :=
  {| nodes := {["n1" := spread_node "n1" ["n2"; "n3"]; "n2" := spread_node "n2" ["n1"; "n3"]; "n3" := spread_node "n3" ["n1"; "n2"]]};
     wire := []; writes := [] |}.

Definition put_at (t : Z) (id key data : string) (n : Net) : Net :=
  match nodes n !! id with
  | Some g =>
      let g' := (@Put (test_env t) key data g).1 in
      {| nodes := <[id := g']> (nodes n); wire := wire n; writes := (key, default zeroValue (store g' !! key)) :: writes n |}
  | None => n
  end.

(** Two nodes write the same key. *)
Definition spread_net : Net := put_at 150 "n2" "k" "z" (put_at 100 "n1" "k" "x" spread_start).

Lemma spread_net_reachable : @reachable C run_codec causal_clocks spread_net.
Proof.
  assert (@initial C run_codec spread_start) as Hi.
  { split; [|done]. intros id g Hg.
    assert (map_Forall (λ id g, nodeID g = id ∧ store g = ∅) (nodes spread_start)) as Hall by (by_evaluation).
    destruct (Hall id g Hg) as [? ?]. done. }
  assert (∀ g g' old v, nodes spread_start !! "n1" = Some g → nodes (put_at 100 "n1" "k" "x" spread_start) !! "n1" = Some g' →
    store g !! "k" = Some old → store g' !! "k" = Some v → stamp_lt (stamp old) (stamp v)) as H1.
  { intros g g' old v Hg _ Ho _. vm_compute in Hg. injection Hg as <-. by vm_compute in Ho. }
  assert (∀ g g' old v, nodes (put_at 100 "n1" "k" "x" spread_start) !! "n2" = Some g → nodes spread_net !! "n2" = Some g' →
    store g !! "k" = Some old → store g' !! "k" = Some v → stamp_lt (stamp old) (stamp v)) as H2.
  { intros g g' old v Hg _ Ho _. vm_compute in Hg. injection Hg as <-. by vm_compute in Ho. }
  eapply (reach_step _ _ (LPut "n2" "k" "z")); [|eapply (step_put (test_env 150)); by vm_compute|exact H2].
  eapply (reach_step _ _ (LPut "n1" "k" "x")); [|eapply (step_put (test_env 100)); by vm_compute|exact H1].
  by apply reach_init.
Qed.

(** A node that waits for its round, then exchanges with another. *)
Definition wait_round (c : gmap string GossipProtocol) (i : string) : gmap string GossipProtocol :=
  match c !! i with Some g => <[i := Nat.iter 2 (λ g, (@Tick _ (test_env 0) g).1) g]> c | None => c end.

Definition pair_up (i j : string) (c : gmap string GossipProtocol) : gmap string GossipProtocol :=
  match c !! i, c !! j with
  | Some a, Some b =>
      let r := exchange cb (test_env 1) (test_env 2) (test_env 3) (test_env 4) a b in <[j := r.2]> (<[i := r.1]> c)
  | _, _ => c
  end.

Lemma ticks_store k g : store (Nat.iter k (λ g, (@Tick _ (test_env 0) g).1) g) = store g.
Proof. induction k as [|k IH]; [done|]. rewrite Nat.iter_succ. by destruct (@Tick_sends _ (test_env 0) (Nat.iter k (λ g, (@Tick _ (test_env 0) g).1) g)) as [-> _]. Qed.

Lemma run_pair sched i j c ns' :
  i ≠ j → is_Some (c !! i) → is_Some (wait_round c i !! j) →
  (∃ a, wait_round c i !! i = Some a ∧ (@Tick _ (test_env 1) a).2 ≠ []) →
  exchanges cb sched (pair_up i j (wait_round c i)) ns' → exchanges cb ((i, j) :: sched) c ns'.
Proof.
  intros Hij [g Hg] [b Hb] (a & Ha & Ht) Hrun. unfold pair_up in Hrun. rewrite Ha, Hb in Hrun.
  assert (wait_round c i = <[i := Nat.iter 2 (λ g, (@Tick _ (test_env 0) g).1) g]> c) as Hw by (unfold wait_round; by rewrite Hg).
  eapply ex_idle; [exact Hg|apply ticks_store|]. rewrite <-Hw. by eapply ex_pair.
Qed.

Definition spread_sched : schedule := star "n1" ["n2"; "n3"].
Definition spread_end : gmap string GossipProtocol := foldl (λ c e, pair_up e.1 e.2 (wait_round c e.1)) (nodes spread_net) spread_sched.

#[local] Ltac round := apply run_pair; [done|by_evaluation|by_evaluation|
  eexists; split; [by vm_compute|by vm_compute]|].

Lemma spread_run : exchanges cb spread_sched (nodes spread_net) spread_end.
Proof. unfold spread_sched, star. cbn [fmap list_fmap app]. do 4 round. apply ex_done. Qed.

Lemma cluster_converges_witness :
  ∃ g h, spread_end !! "n1" = Some g ∧ spread_end !! "n3" = Some h ∧
    core <$> store g !! "k" = core <$> store h !! "k" ∧ core <$> store h !! "k" = Some ("z", (150, "n2", 1)).
Proof.
  destruct (spread_end !! "n1") as [g|] eqn:Hg; [|by vm_compute in Hg].
  destruct (spread_end !! "n3") as [h|] eqn:Hh; [|by vm_compute in Hh].
  assert (complete spread_sched (dom (nodes spread_net))) as Hcomp by (by_evaluation).
  exists g, h. split_and!; [done..| |vm_compute in Hh; injection Hh as <-; by vm_compute].
  destruct (cluster_converges cb (λ _ _ _ _, eq_refl) spread_net spread_sched spread_end "k" spread_net_reachable ltac:(by vm_compute) spread_run Hcomp "n1" g Hg)
    as [Heq _]. exact (Heq "n3" h Hh).
Defined.
End Witnesses.
