(* ===== verification/Baseline.v ===== *)
(** * The baseline membership protocol (internal/node/protocol/baseline)

    Models baseline.go: heartbeats and a failure detector driven by logical
    ticks.  A status is an int of the wire format, so the maps hold Z.  The
    theorems give the time line of a silent peer, the heartbeats of a round, the
    effect of a message and the growth of incarnation numbers. *)

From S2P Require Import Prelude GoStrings Protocol.

(** A MembershipStatus is an int: a decoded event may carry any. *)
Definition StatusAlive : Z := 0.
Definition StatusSuspect : Z := 1.
Definition StatusDead : Z := 2.

Record MembershipEvent := {
  ev_Node : string;
  ev_Status : Z;
  ev_Incarnation : Z;
}.

#[export] Instance MembershipEvent_eq_dec : EqDecision MembershipEvent.
Proof. solve_decision. Defined.
#[export] Instance MembershipEvent_countable : Countable MembershipEvent.
Proof.
  refine (inj_countable' (λ e, (ev_Node e, ev_Status e, ev_Incarnation e))
    (λ '(n, s, i), {| ev_Node := n; ev_Status := s; ev_Incarnation := i |}) _).
  by intros [].
Defined.

Record BaselineProtocol := {
  b_nodeID : string;
  b_tick : Z;
  heartbeatInterval : Z;
  timeoutTicks : Z;
  lastSeen : gmap string Z;
  status : gmap string Z;
  incarnation : gmap string Z;
  suspectSince : gmap string Z;
  b_peers : list string;
  b_peerDiscoveryCb : bool;
}.

(** [m[k]] of a map to integers. *)
Definition geti (m : gmap string Z) (k : string) : Z := default 0 (m !! k).

Definition with_maps (ls st inc ss : gmap string Z) (b : BaselineProtocol) : BaselineProtocol :=
  {| b_nodeID := b_nodeID b; b_tick := b_tick b; heartbeatInterval := heartbeatInterval b;
     timeoutTicks := timeoutTicks b; lastSeen := ls; status := st; incarnation := inc;
     suspectSince := ss; b_peers := b_peers b; b_peerDiscoveryCb := b_peerDiscoveryCb b |}.

Definition with_peers (ps : list string) (b : BaselineProtocol) : BaselineProtocol :=
  {| b_nodeID := b_nodeID b; b_tick := b_tick b; heartbeatInterval := heartbeatInterval b;
     timeoutTicks := timeoutTicks b; lastSeen := lastSeen b; status := status b;
     incarnation := incarnation b; suspectSince := suspectSince b; b_peers := ps;
     b_peerDiscoveryCb := b_peerDiscoveryCb b |}.

Definition with_id_tick (id : string) (t : Z) (b : BaselineProtocol) : BaselineProtocol :=
  {| b_nodeID := id; b_tick := t; heartbeatInterval := heartbeatInterval b;
     timeoutTicks := timeoutTicks b; lastSeen := lastSeen b; status := status b;
     incarnation := incarnation b; suspectSince := suspectSince b; b_peers := b_peers b;
     b_peerDiscoveryCb := b_peerDiscoveryCb b |}.

Definition NewBaselineProtocol (ps : list string) : BaselineProtocol :=
  {| b_nodeID := EmptyString; b_tick := 0; heartbeatInterval := 5; timeoutTicks := 20;
     lastSeen := ∅; status := ∅; incarnation := ∅; suspectSince := ∅; b_peers := ps;
     b_peerDiscoveryCb := false |}.

(** Start and SetPeers initialise a peer the same way. *)
Definition init_peer (b : BaselineProtocol) (p : string) : BaselineProtocol :=
  with_maps (<[p := 0]> (lastSeen b)) (<[p := StatusAlive]> (status b))
            (<[p := 0]> (incarnation b)) (suspectSince b) b.

Definition baseline_Start (id : string) (b : BaselineProtocol) : BaselineProtocol :=
  let b := with_id_tick id 0 b in
  let b := with_maps (lastSeen b) (<[id := StatusAlive]> (status b)) (incarnation b) (suspectSince b) b in
  let b := foldl init_peer b (b_peers b) in
  with_maps (lastSeen b) (status b) (<[id := 0]> (incarnation b)) (suspectSince b) b.

Definition statusName (s : Z) : string :=
  if (s =? StatusAlive) then "ALIVE"
  else if (s =? StatusSuspect) then "SUSPECT"
  else if (s =? StatusDead) then "DEAD"
  else "UNKNOWN".

Definition baselineEnvelope (from to payload meta : string) : Envelope :=
  {| env_From := from; env_To := to; env_Protocol := "baseline"; env_Payload := payload;
     env_Kind := KindProtocol; env_TraceMetadata := meta; env_Version := 0; env_LogicalTick := 0 |}.

Definition heartbeat (from to : string) : Envelope :=
  baselineEnvelope from to "HEARTBEAT" "BASELINE_HEARTBEAT".

Definition makeMembershipEnvelope `{Codec MembershipEvent} (node : string) (s : Z) (b : BaselineProtocol) : Envelope :=
  let ev := {| ev_Node := node; ev_Status := s; ev_Incarnation := geti (incarnation b) node |} in
  baselineEnvelope (b_nodeID b) EmptyString (EncodeJSON ev) ("BASELINE_MEMBERSHIP:" +:+ statusName s).

(** The peers a heartbeat round skips are the dead ones. *)
Definition alivePeers (b : BaselineProtocol) : list string :=
  filter (λ p, geti (status b) p ≠ StatusDead) (b_peers b).

(** One peer of the timeout loop of Tick. *)
Definition check_peer `{Codec MembershipEvent} (acc : BaselineProtocol * list Envelope) (peer : string) :
    BaselineProtocol * list Envelope :=
  let '(b, out) := acc in
  let s := geti (status b) peer in
  if (s =? StatusDead) then (b, out)
  else
    let last := geti (lastSeen b) peer in
    let diff := wrap_u64 (b_tick b - last) in
    if (s =? StatusAlive) then
      if (timeoutTicks b <? diff)
      then (with_maps (lastSeen b) (<[peer := StatusSuspect]> (status b)) (incarnation b)
                      (<[peer := b_tick b]> (suspectSince b)) b, out)
      else (b, out)
    else if (s =? StatusSuspect) then
      if (timeoutTicks b <? wrap_u64 (b_tick b - geti (suspectSince b) peer))
      then
        let b := with_maps (lastSeen b) (<[peer := StatusDead]> (status b)) (incarnation b) (suspectSince b) b in
        (b, out ++ [makeMembershipEnvelope peer StatusDead b])
      else (b, out)
    else (b, out).

Definition baseline_Tick `{Codec MembershipEvent} (b : BaselineProtocol) : BaselineProtocol * list Envelope :=
  let b := with_id_tick (b_nodeID b) (wrap_u64 (b_tick b + 1)) b in
  let out := if (b_tick b `mod` heartbeatInterval b =? 0) then heartbeat (b_nodeID b) <$> alivePeers b else [] in
  foldl check_peer (b, out) (b_peers b).

(** The address part of OnMessage: the sender's id, host and port. *)
Definition splitSender (from : string) : string * string * Z :=
  match IndexByte from "@"%char with
  | None => (from, EmptyString, 0)
  | Some idx =>
      let addrStr := str_drop (S idx) from in
      match LastIndexByte addrStr ":"%char with
      | None => (str_take idx from, EmptyString, 0)
      | Some colonIdx =>
          (str_take idx from, str_take colonIdx addrStr, ParseInt_value (str_drop (S colonIdx) addrStr))
      end
  end.

(** The liveness part of OnMessage: discovery, lastSeen and revival. *)
Definition hear (OnPeerDiscovered : string → string → Z → BaselineProtocol → BaselineProtocol)
    (from host : string) (port : Z) (b : BaselineProtocol) : BaselineProtocol :=
  let b :=
    match lastSeen b !! from with
    | Some _ => b
    | None =>
        let b := with_peers (b_peers b ++ [from]) b in
        let b := with_maps (<[from := b_tick b]> (lastSeen b)) (<[from := StatusAlive]> (status b))
                           (<[from := 0]> (incarnation b)) (suspectSince b) b in
        if b_peerDiscoveryCb b && bool_decide (host ≠ EmptyString) then OnPeerDiscovered from host port b else b
    end in
  let b := with_maps (<[from := b_tick b]> (lastSeen b)) (status b) (incarnation b) (suspectSince b) b in
  if (geti (status b) from =? StatusSuspect) || (geti (status b) from =? StatusDead)
  then with_maps (lastSeen b) (<[from := StatusAlive]> (status b)) (incarnation b) (suspectSince b) b
  else b.

(** The membership part of OnMessage. *)
Definition applyEvent `{Codec MembershipEvent} (ev : MembershipEvent) (b : BaselineProtocol) :
    BaselineProtocol * list Envelope :=
  let localInc := geti (incarnation b) (ev_Node ev) in
  if bool_decide (ev_Node ev = b_nodeID b) && (ev_Status ev =? StatusDead) && (localInc <? ev_Incarnation ev) then
    let inc := <[b_nodeID b := wrap_u64 (geti (incarnation b) (b_nodeID b) + 1)]> (incarnation b) in
    let b := with_maps (lastSeen b) (<[b_nodeID b := StatusAlive]> (status b)) inc (suspectSince b) b in
    (b, [makeMembershipEnvelope (b_nodeID b) StatusAlive b])
  else if (localInc <? ev_Incarnation ev) then
    (with_maps (lastSeen b) (<[ev_Node ev := ev_Status ev]> (status b))
       (<[ev_Node ev := ev_Incarnation ev]> (incarnation b)) (suspectSince b) b, [])
  else (b, []).

Definition baseline_OnMessage `{Codec MembershipEvent}
    (OnPeerDiscovered : string → string → Z → BaselineProtocol → BaselineProtocol)
    (env : Envelope) (b : BaselineProtocol) : BaselineProtocol * list Envelope :=
  let '(from, host, port) := splitSender (env_From env) in
  if bool_decide (from = b_nodeID b) then (b, [])
  else
    let b := hear OnPeerDiscovered from host port b in
    match DecodeJSON (env_Payload env) with
    | None => (b, [])
    | Some ev => applyEvent ev b
    end.

Definition baseline_Stop (b : BaselineProtocol) : BaselineProtocol := b.

Definition baseline_SetPeers (ps : list string) (b : BaselineProtocol) : BaselineProtocol :=
  foldl (λ b p, match lastSeen b !! p with Some _ => b | None => init_peer b p end)
        (with_peers ps b) ps.

Definition baseline_SetPeerDiscoveryCallback (b : BaselineProtocol) : BaselineProtocol :=
  {| b_nodeID := b_nodeID b; b_tick := b_tick b; heartbeatInterval := heartbeatInterval b;
     timeoutTicks := timeoutTicks b; lastSeen := lastSeen b; status := status b;
     incarnation := incarnation b; suspectSince := suspectSince b; b_peers := b_peers b;
     b_peerDiscoveryCb := true |}.

(** ** Ticks *)

(** The timeout loop seen by one peer: its status and the tick of its
    suspicion. *)
Definition peer_step (tick timeout last : Z) (v : Z * Z) : Z * Z :=
  let '(s, since) := v in
  if (s =? StatusAlive) then if (timeout <? wrap_u64 (tick - last)) then (StatusSuspect, tick) else v
  else if (s =? StatusSuspect) then if (timeout <? wrap_u64 (tick - since)) then (StatusDead, since) else v
  else v.

Definition view (p : string) (b : BaselineProtocol) : Z * Z := (geti (status b) p, geti (suspectSince b) p).

(** The fields the timeout loop does not touch. *)
Definition same_frame (b b' : BaselineProtocol) : Prop :=
  with_maps ∅ ∅ ∅ ∅ b = with_maps ∅ ∅ ∅ ∅ b' ∧ lastSeen b = lastSeen b' ∧ incarnation b = incarnation b'.

#[export] Instance same_frame_equivalence : Equivalence same_frame.
Proof.
  unfold same_frame. split; [done|intros ?? (? & ? & ?); done|].
  intros ??? (-> & -> & ->) (-> & -> & ->). done.
Qed.

Lemma same_frame_fields b b' :
  same_frame b b' →
  b_nodeID b = b_nodeID b' ∧ b_tick b = b_tick b' ∧ timeoutTicks b = timeoutTicks b' ∧ b_peers b = b_peers b' ∧
  heartbeatInterval b = heartbeatInterval b' ∧ lastSeen b = lastSeen b' ∧ incarnation b = incarnation b'.
Proof. intros (Hf & ? & ?). injection Hf. intros. by split_and!. Qed.

Lemma geti_insert m k v k' : geti (<[k := v]> m) k' = if decide (k = k') then v else geti m k'.
Proof. unfold geti. case_decide as Hk; [subst; by rewrite lookup_insert_eq|by rewrite lookup_insert_ne]. Qed.

Section Ticks.
Context `{Codec MembershipEvent}.

Lemma check_peer_frame b out p : same_frame (check_peer (b, out) p).1 b.
Proof. unfold check_peer. by repeat case_match. Qed.

Lemma check_peer_view b out p q :
  view q (check_peer (b, out) p).1 =
  if decide (p = q) then peer_step (b_tick b) (timeoutTicks b) (geti (lastSeen b) q) (view q b) else view q b.
Proof.
  unfold check_peer, peer_step, view. case_decide as Hpq; [subst q|].
  - destruct (Z.eqb_spec (geti (status b) p) StatusDead) as [Hd|Hd]; [cbn [fst]; by rewrite Hd|].
    destruct (Z.eqb_spec (geti (status b) p) StatusAlive) as [Ha|Ha].
    { destruct (_ <? _); cbn [fst status suspectSince with_maps]; [by rewrite !geti_insert, !decide_True|done]. }
    destruct (Z.eqb_spec (geti (status b) p) StatusSuspect) as [Hs|Hs]; [|done].
    destruct (_ <? _); cbn [fst status suspectSince with_maps]; [by rewrite !geti_insert, !decide_True|done].
  - repeat case_match; cbn [fst status suspectSince with_maps]; by rewrite ?geti_insert, ?decide_False.
Qed.

(** A second visit of a peer in one tick does nothing. *)
Lemma peer_step_idem t timeout last v :
  0 ≤ timeout → peer_step t timeout last (peer_step t timeout last v) = peer_step t timeout last v.
Proof.
  intros Ht. destruct v as [s since]. unfold peer_step at 2 3.
  destruct (Z.eqb_spec s StatusAlive) as [->|Ha]; [|destruct (Z.eqb_spec s StatusSuspect) as [->|Hs]].
  - destruct (timeout <? wrap_u64 (t - last)) eqn:Hd; cbn; [|by rewrite Hd].
    rewrite Z.sub_diag. change (wrap_u64 0) with 0. by destruct (Z.ltb_spec timeout 0); [lia|].
  - destruct (timeout <? wrap_u64 (t - since)) eqn:Hd; cbn; [done|by rewrite Hd].
  - unfold peer_step. apply Z.eqb_neq in Ha, Hs. by rewrite Ha, Hs.
Qed.

Lemma check_peers_frame l b out : same_frame (foldl check_peer (b, out) l).1 b.
Proof.
  revert b out; induction l as [|p l IH]; intros b out; cbn [foldl]; [done|].
  destruct (check_peer (b, out) p) as [b1 out1] eqn:Hc. etrans; [apply IH|].
  change b1 with (b1, out1).1. rewrite <-Hc. apply check_peer_frame.
Qed.

Lemma check_peers_view l b out q :
  0 ≤ timeoutTicks b →
  view q (foldl check_peer (b, out) l).1 =
  if decide (q ∈ l) then peer_step (b_tick b) (timeoutTicks b) (geti (lastSeen b) q) (view q b) else view q b.
Proof.
  revert b out; induction l as [|p l IH]; intros b out Ht; cbn [foldl].
  { by rewrite decide_False by apply not_elem_of_nil. }
  pose proof (check_peer_frame b out p) as Hfr. pose proof (check_peer_view b out p q) as Hv.
  destruct (check_peer (b, out) p) as [b1 out1]. cbn [fst] in *.
  destruct (same_frame_fields _ _ Hfr) as (_ & Htk & Hto & _ & _ & Hls & _).
  rewrite IH, Htk, Hto, Hls, Hv by lia.
  destruct (decide (p = q)) as [->|Hpq].
  - rewrite (decide_True (P:=q ∈ q :: l)) by left. case_decide; [by rewrite peer_step_idem|done].
  - destruct (decide (q ∈ l)); [rewrite decide_True by (by right)|rewrite decide_False by set_solver]; done.
Qed.

(** The peers that die in this tick, in the order of the list. *)
Definition dies (b : BaselineProtocol) (p : string) : bool :=
  (geti (status b) p =? StatusSuspect) && (timeoutTicks b <? wrap_u64 (b_tick b - geti (suspectSince b) p)).

Lemma check_peers_out l b out :
  NoDup l →
  (foldl check_peer (b, out) l).2 =
  out ++ ((λ p, makeMembershipEnvelope p StatusDead b) <$> filter (λ p, dies b p = true) l).
Proof.
  revert b out; induction l as [|p l IH]; intros b out Hnd; cbn [foldl]; [by rewrite app_nil_r|].
  apply NoDup_cons in Hnd as [Hp Hnd].
  pose proof (check_peer_frame b out p) as Hfr. pose proof (check_peer_view b out p) as Hv.
  assert (Hout : (check_peer (b, out) p).2 = out ++ if dies b p then [makeMembershipEnvelope p StatusDead b] else []).
  { unfold check_peer, dies.
    destruct (Z.eqb_spec (geti (status b) p) StatusDead) as [->|Hd]; [by rewrite app_nil_r|].
    destruct (Z.eqb_spec (geti (status b) p) StatusAlive) as [->|Ha]; [by case_match; rewrite app_nil_r|].
    destruct (Z.eqb_spec (geti (status b) p) StatusSuspect) as [Hs|Hs]; cbn [andb]; [|by rewrite app_nil_r].
    case_match; [done|by rewrite app_nil_r]. }
  destruct (check_peer (b, out) p) as [b1 out1]. cbn [fst snd] in *. subst out1.
  destruct (same_frame_fields _ _ Hfr) as (Hid & Htk & Hto & _ & _ & _ & Hinc).
  rewrite IH by done. rewrite filter_cons.
  assert (filter (λ p, dies b1 p = true) l = filter (λ p, dies b p = true) l) as ->.
  { clear IH Hnd. induction l as [|q l IH]; [done|]. rewrite !filter_cons. apply not_elem_of_cons in Hp as [Hpq Hp].
    assert (dies b1 q = dies b q) as ->; [|by rewrite (IH Hp)].
    specialize (Hv q). rewrite decide_False in Hv by done. injection Hv as Hv1 Hv2.
    unfold dies. by rewrite Hv1, Hv2, Htk, Hto. }
  assert (∀ q, makeMembershipEnvelope q StatusDead b1 = makeMembershipEnvelope q StatusDead b) as He.
  { intros q. unfold makeMembershipEnvelope. by rewrite Hid, Hinc. }
  rewrite <-app_assoc. f_equal. destruct (dies b p).
  - rewrite decide_True by done. cbn. f_equal. apply list_fmap_ext. intros _ q _. apply He.
  - rewrite decide_False by done. cbn. apply list_fmap_ext. intros _ q _. apply He.
Qed.
End Ticks.

(** ** Messages *)

(** What one message from [from] does to the maps at a peer [p] that is neither
    its sender nor the subject of its event: nothing. *)
Section Messages.
Context `{Codec MembershipEvent}.

Definition no_callback : string → string → Z → BaselineProtocol → BaselineProtocol := λ _ _ _ b, b.

(** The entries of one peer in the four maps. *)
Definition entries (p : string) (b : BaselineProtocol) : option Z * option Z * option Z * option Z :=
  (lastSeen b !! p, status b !! p, incarnation b !! p, suspectSince b !! p).

Definition clock_frame (b b' : BaselineProtocol) : Prop :=
  b_nodeID b = b_nodeID b' ∧ b_tick b = b_tick b' ∧ timeoutTicks b = timeoutTicks b' ∧
  heartbeatInterval b = heartbeatInterval b' ∧ b_peers b' ⊆ b_peers b.

#[local] Instance clock_frame_preorder : PreOrder clock_frame.
Proof.
  split; [by intros b|]. unfold clock_frame. intros b1 b2 b3 (-> & -> & -> & -> & H12) (-> & -> & -> & -> & H23).
  split_and!; [done..|]. by etrans.
Qed.

Lemma hear_other p from host port b :
  from ≠ p → entries p (hear no_callback from host port b) = entries p b.
Proof.
  intros Hp. unfold hear, no_callback, entries.
  destruct (lastSeen b !! from); [|destruct (_ && _)];
    (destruct (_ || _); cbn; by rewrite ?lookup_insert_ne by done).
Qed.

Lemma hear_frame from host port b : clock_frame (hear no_callback from host port b) b.
Proof.
  unfold hear, no_callback, clock_frame.
  destruct (lastSeen b !! from); [|destruct (_ && _)];
    (destruct (_ || _); cbn; split_and!; try done; set_solver).
Qed.

Lemma applyEvent_other p ev b :
  ev_Node ev ≠ p → entries p (applyEvent ev b).1 = entries p b.
Proof.
  intros Hp. unfold applyEvent, entries. case_bool_decide as Hn; cbn [andb].
  - rewrite <-Hn. repeat case_match; cbn; by rewrite ?lookup_insert_ne by done.
  - repeat case_match; cbn; by rewrite ?lookup_insert_ne by done.
Qed.

Lemma applyEvent_frame ev b : clock_frame (applyEvent ev b).1 b.
Proof. unfold applyEvent, clock_frame. repeat case_match; by cbn. Qed.

(** The message says nothing of [p]: it is not from it and not about it. *)
Definition silent_on (p : string) (env : Envelope) : Prop :=
  (splitSender (env_From env)).1.1 ≠ p ∧
  ∀ ev, DecodeJSON (env_Payload env) = Some ev → ev_Node ev ≠ p.

Lemma OnMessage_silent p env b :
  silent_on p env →
  let b' := (baseline_OnMessage no_callback env b).1 in entries p b' = entries p b ∧ clock_frame b' b.
Proof.
  intros [Hf Hev]. cbv zeta. unfold baseline_OnMessage.
  destruct (splitSender (env_From env)) as [[from host] port]. simpl in Hf.
  case_bool_decide; [by split|].
  destruct (DecodeJSON (env_Payload env)) as [ev|]; cbn [fst].
  - rewrite applyEvent_other, hear_other by auto. split; [done|].
    etrans; [apply applyEvent_frame|apply hear_frame].
  - rewrite hear_other by done. split; [done|apply hear_frame].
Qed.
End Messages.

(** ** A silent peer *)

(** What happens at a node: a tick, or a message. *)
Inductive baseline_op :=
  | OpTick
  | OpMsg (env : Envelope).

Section Runs.
Context `{Codec MembershipEvent}.

Definition baseline_do (b : BaselineProtocol) (op : baseline_op) : BaselineProtocol :=
  match op with
  | OpTick => (baseline_Tick b).1
  | OpMsg env => (baseline_OnMessage no_callback env b).1
  end.

Definition is_tick (op : baseline_op) : bool := match op with OpTick => true | OpMsg _ => false end.

Definition tick_count (ops : list baseline_op) : nat :=
  length (filter (λ op, is_tick op = true) ops).

Definition quiet (p : string) (op : baseline_op) : Prop :=
  match op with OpTick => True | OpMsg env => silent_on p env end.

Lemma Tick_view b p :
  0 ≤ timeoutTicks b → p ∈ b_peers b → 0 ≤ b_tick b < two64 - 1 →
  let b' := (baseline_Tick b).1 in
  view p b' = peer_step (b_tick b + 1) (timeoutTicks b) (geti (lastSeen b) p) (view p b) ∧
  lastSeen b' = lastSeen b ∧ b_tick b' = b_tick b + 1 ∧ timeoutTicks b' = timeoutTicks b ∧ b_peers b' = b_peers b.
Proof.
  intros Ht Hp Hb. assert (wrap_u64 (b_tick b + 1) = b_tick b + 1) as Hw.
  { apply wrap_u64_id. unfold in_u64, two64 in *. lia. }
  cbv zeta. unfold baseline_Tick. cbn [b_tick b_peers with_id_tick]. rewrite Hw.
  match goal with |- context [foldl check_peer (?c, ?o) ?l] =>
    pose proof (check_peers_view l c o p Ht) as Hv; destruct (same_frame_fields _ _ (check_peers_frame l c o)) as (_ & ? & ? & ? & _ & ? & _) end.
  rewrite decide_True in Hv by done. done.
Qed.

(** The time line of a peer last heard at tick [t0], after [n] ticks. *)
Definition timeline (t0 T since n : Z) : Z * Z :=
  if (n <=? T) then (StatusAlive, since)
  else if (n <=? 2 * T + 1) then (StatusSuspect, t0 + T + 1)
  else (StatusDead, t0 + T + 1).

Lemma timeline_step t0 T since n :
  0 ≤ T → 0 ≤ t0 → 0 ≤ n → t0 + n + 1 < two64 →
  peer_step (t0 + n + 1) T t0 (timeline t0 T since n) = timeline t0 T since (n + 1).
Proof.
  intros HT Ht Hn Hb. unfold timeline.
  destruct (Z.leb_spec n T); [|destruct (Z.leb_spec n (2 * T + 1))]; cbn.
  - rewrite wrap_u64_id by (unfold in_u64; lia).
    destruct (Z.ltb_spec T (t0 + n + 1 - t0)), (Z.leb_spec (n + 1) T); try lia; [|done].
    destruct (Z.leb_spec (n + 1) (2 * T + 1)); [|lia]. f_equal. lia.
  - rewrite wrap_u64_id by (unfold in_u64; lia).
    destruct (Z.leb_spec (n + 1) T); [lia|].
    destruct (Z.ltb_spec T (t0 + n + 1 - (t0 + T + 1))), (Z.leb_spec (n + 1) (2 * T + 1)); by try lia.
  - destruct (Z.leb_spec (n + 1) T), (Z.leb_spec (n + 1) (2 * T + 1)); by try lia.
Qed.

Lemma silent_run p ops b :
  p ∈ b_peers b → geti (status b) p = StatusAlive → geti (lastSeen b) p = b_tick b →
  0 ≤ timeoutTicks b → 0 ≤ b_tick b → b_tick b + Z.of_nat (tick_count ops) < two64 → Forall (quiet p) ops →
  let b' := foldl baseline_do b ops in
  let n := Z.of_nat (tick_count ops) in
  p ∈ b_peers b' ∧ geti (lastSeen b') p = b_tick b ∧ b_tick b' = b_tick b + n ∧
  timeoutTicks b' = timeoutTicks b ∧
  view p b' = timeline (b_tick b) (timeoutTicks b) (geti (suspectSince b) p) n.
Proof.
  intros Hp Hal Hls HT Htk. induction ops as [|op ops IH] using rev_ind; intros Hn Hq; cbv zeta.
  { change (Z.of_nat (tick_count [])) with 0. cbn [foldl]. rewrite Z.add_0_r. split_and!; [done..|]. unfold view, timeline.
    destruct (Z.leb_spec 0 (timeoutTicks b)); [by rewrite Hal|lia]. }
  apply Forall_app in Hq as [Hq Hqo]. apply Forall_cons in Hqo as [Hqo _]. rewrite foldl_app. cbn [foldl].
  assert (tick_count (ops ++ [op]) = tick_count ops + tick_count [op])%nat as Hc.
  { unfold tick_count. by rewrite filter_app, length_app. }
  rewrite Hc in *. destruct IH as (Hp1 & Hls1 & Htk1 & HT1 & Hv1); [lia|done|].
  set (b1 := foldl baseline_do b ops) in *. destruct op as [|env]; cbn [baseline_do].
  - change (tick_count [OpTick]) with 1%nat in *.
    destruct (Tick_view b1 p) as (Hv & -> & -> & -> & ->); [lia|done|lia|].
    split_and!; [done|done|lia|done|]. rewrite Hv, Hv1, Hls1, Htk1, HT1, timeline_step by lia. f_equal. lia.
  - change (tick_count [OpMsg env]) with 0%nat. rewrite Nat.add_0_r.
    destruct (OnMessage_silent p env b1 Hqo) as [He (_ & -> & -> & _ & Hp2)].
    injection He as Hel Hes _ Hess. unfold view, geti in *. rewrite Hel, Hes, Hess.
    split_and!; [by apply Hp2|done..].
Qed.

(** A peer that falls silent is suspected and declared dead on time.  From
    the moment it was last heard, whatever the node receives that is not from it
    and not about it, it stays alive for [timeoutTicks] ticks, is suspect for as
    many and one more, and dead from then on: with the interval of 20, suspect at
    the 21st tick and dead at the 42nd. *)
Theorem silent_peer_timeline p ops b :
  p ∈ b_peers b → geti (status b) p = StatusAlive → geti (lastSeen b) p = b_tick b →
  0 ≤ timeoutTicks b → 0 ≤ b_tick b → b_tick b + Z.of_nat (tick_count ops) < two64 → Forall (quiet p) ops →
  let n := Z.of_nat (tick_count ops) in
  geti (status (foldl baseline_do b ops)) p =
    if (n <=? timeoutTicks b) then StatusAlive
    else if (n <=? 2 * timeoutTicks b + 1) then StatusSuspect else StatusDead.
Proof.
  intros Hp Hal Hls HT Htk Hn Hq. cbv zeta.
  destruct (silent_run p ops b Hp Hal Hls HT Htk Hn Hq) as (_ & _ & _ & _ & Hv).
  apply (f_equal fst) in Hv. cbn in Hv. rewrite Hv. unfold timeline. by repeat case_match.
Qed.

(** A tick sends, every [heartbeatInterval] ticks, one heartbeat to each
    peer that is not dead, in the order of the peer list, and nothing to a dead
    one; then one DEAD announcement for each peer whose suspicion has just timed
    out, with the incarnation the node knows.  Dead peers are announced once:
    their status is DEAD after the tick, and no tick touches it again. *)
Theorem baseline_Tick_spec b :
  0 ≤ timeoutTicks b → NoDup (b_peers b) →
  let b0 := with_id_tick (b_nodeID b) (wrap_u64 (b_tick b + 1)) b in
  (baseline_Tick b).2 =
    (if (b_tick b0 `mod` heartbeatInterval b =? 0)
     then heartbeat (b_nodeID b) <$> filter (λ p, geti (status b) p ≠ StatusDead) (b_peers b) else []) ++
    ((λ p, makeMembershipEnvelope p StatusDead b) <$> filter (λ p, dies b0 p = true) (b_peers b)) ∧
  (∀ p, p ∈ b_peers b → dies b0 p = true → geti (status (baseline_Tick b).1) p = StatusDead) ∧
  (∀ p, geti (status b) p = StatusDead → geti (status (baseline_Tick b).1) p = StatusDead).
Proof.
  intros HT Hnd. cbv zeta. unfold baseline_Tick.
  set (b0 := with_id_tick (b_nodeID b) (wrap_u64 (b_tick b + 1)) b).
  split; [by rewrite check_peers_out|].
  split; intros p; [intros Hp Hd|intros Hd]; match goal with |- context [foldl check_peer (?c, ?o) ?l] =>
    pose proof (check_peers_view l c o p HT) as Hv end; apply (f_equal fst) in Hv; cbn [view fst] in Hv; rewrite Hv.
  - rewrite decide_True by done. unfold dies in Hd. apply andb_true_iff in Hd as [Hs%Z.eqb_eq Hd].
    unfold peer_step, view. by rewrite Hs, Hd.
  - unfold view, peer_step. change (status b0) with (status b). rewrite Hd. by case_decide.
Qed.

(** Any message from a peer makes it alive: its last contact is the current
    tick, a suspect or dead status is reset, and a peer never heard of is added
    to the peer list; a message that carries no membership event does nothing
    else to the other peers. *)
Theorem message_revives env b :
  let from := (splitSender (env_From env)).1.1 in
  let b' := (baseline_OnMessage no_callback env b).1 in
  from ≠ b_nodeID b → DecodeJSON (A:=MembershipEvent) (env_Payload env) = None →
  geti (status b) from ∈ [StatusAlive; StatusSuspect; StatusDead] →
  (lastSeen b !! from = None → status b !! from = None) →
  lastSeen b' !! from = Some (b_tick b) ∧ geti (status b') from = StatusAlive ∧
  b_peers b' = (if decide (lastSeen b !! from = None) then b_peers b ++ [from] else b_peers b) ∧
  ∀ p, p ≠ from → entries p b' = entries p b.
Proof.
  cbv zeta. intros Hf Hdec Hst Hnew. unfold baseline_OnMessage.
  destruct (splitSender (env_From env)) as [[from host] port]. simpl in *.
  rewrite bool_decide_false by done. rewrite Hdec. cbn [fst].
  split_and!; [..|intros p Hp; by apply hear_other].
  - unfold hear, no_callback. destruct (lastSeen b !! from); [|destruct (_ && _)];
      (destruct (_ || _); cbn; by rewrite lookup_insert_eq).
  - unfold hear, no_callback. destruct (lastSeen b !! from) eqn:Hl; [|destruct (_ && _)]; cbn [status with_maps].
    + destruct (_ || _) eqn:Hor; cbn [status with_maps]; [by rewrite geti_insert, decide_True|].
      apply orb_false_iff in Hor as [?%Z.eqb_neq ?%Z.eqb_neq]. set_solver.
    + rewrite !geti_insert, !decide_True by done. cbn. by rewrite geti_insert, decide_True.
    + rewrite !geti_insert, !decide_True by done. cbn. by rewrite geti_insert, decide_True.
  - unfold hear, no_callback. case_decide as Hl; [rewrite Hl|destruct (lastSeen b !! from); [|done]];
      try destruct (_ && _); by destruct (_ || _).
Qed.

(** Incarnation numbers never decrease.  A message leaves the incarnation of
    every node at least what it was, except that of a sender that had never been
    in contact before, whose number is reset when it is discovered. *)
Theorem incarnation_monotone env b n :
  (n ≠ (splitSender (env_From env)).1.1 ∨ is_Some (lastSeen b !! n)) →
  0 ≤ geti (incarnation b) n < two64 - 1 →
  geti (incarnation b) n ≤ geti (incarnation (baseline_OnMessage no_callback env b).1) n.
Proof.
  intros Hn Hb. unfold baseline_OnMessage.
  destruct (splitSender (env_From env)) as [[from host] port]. simpl in Hn.
  case_bool_decide; [done|].
  assert (geti (incarnation (hear no_callback from host port b)) n = geti (incarnation b) n) as Hh.
  { unfold hear, no_callback. destruct (lastSeen b !! from) eqn:Hl; [by destruct (_ || _)|].
    assert (from ≠ n) by (intros ->; destruct Hn as [?|[? ?]]; congruence).
    destruct (_ && _); (destruct (_ || _); cbn; by rewrite geti_insert, decide_False). }
  destruct (DecodeJSON (env_Payload env)) as [ev|]; cbn [fst]; [|by rewrite Hh].
  set (b1 := hear no_callback from host port b) in *. unfold applyEvent.
  destruct (_ && _ && _); cbn [fst incarnation with_maps]; [|destruct (Z.ltb_spec (geti (incarnation b1) (ev_Node ev)) (ev_Incarnation ev))];
    cbn [fst incarnation with_maps]; rewrite ?geti_insert; [case_decide as Hd..|lia].
  - subst n. rewrite wrap_u64_id by (unfold in_u64; lia). lia.
  - lia.
  - subst n. lia.
  - lia.
Qed.

(** A peer that the runtime adds with SetPeers after the clock has passed the
    timeout is suspected at the very next tick: its last contact is initialised
    to tick 0, not to the current tick as for a discovered peer. *)
Theorem late_peer_suspected ps p b :
  lastSeen b !! p = None → p ∈ ps → 0 ≤ timeoutTicks b ≤ b_tick b → b_tick b < two64 - 1 →
  geti (status (baseline_SetPeers ps b)) p = StatusAlive ∧
  geti (status (baseline_Tick (baseline_SetPeers ps b)).1) p = StatusSuspect.
Proof.
  intros Hls Hp HT Hb.
  assert (Hset : ∀ l b1, (lastSeen b1 !! p = None ∧ p ∈ l ∨ lastSeen b1 !! p = Some 0 ∧ status b1 !! p = Some StatusAlive) →
    let b2 := foldl (λ b p, match lastSeen b !! p with Some _ => b | None => init_peer b p end) b1 l in
    lastSeen b2 !! p = Some 0 ∧ status b2 !! p = Some StatusAlive ∧ b_peers b2 = b_peers b1 ∧
    b_tick b2 = b_tick b1 ∧ timeoutTicks b2 = timeoutTicks b1).
  { intros l. induction l as [|q l IH]; intros b1 Hb1; cbv zeta; cbn [foldl].
    { destruct Hb1 as [[_ Hin]|[? ?]]; [by apply elem_of_nil in Hin|done]. }
    set (b1' := match lastSeen b1 !! q with Some _ => b1 | None => init_peer b1 q end).
    assert (b_peers b1' = b_peers b1 ∧ b_tick b1' = b_tick b1 ∧ timeoutTicks b1' = timeoutTicks b1) as (<- & <- & <-)
      by (unfold b1'; by case_match).
    apply IH. unfold b1'. destruct (decide (q = p)) as [->|Hqp].
    - right. destruct Hb1 as [[Hno _]|[Hno ?]]; rewrite Hno; [|done]. cbn. by rewrite !lookup_insert_eq.
    - destruct (lastSeen b1 !! q); [set_solver|]. cbn. rewrite !lookup_insert_ne by done. set_solver. }
  destruct (Hset ps (with_peers ps b)) as (Hl & Hs & Hps & Htk & Hto); [by left|].
  fold (baseline_SetPeers ps b) in *. set (b2 := baseline_SetPeers ps b) in *. cbn in Hps, Htk, Hto.
  assert (geti (status b2) p = StatusAlive) as Hst by (unfold geti; by rewrite Hs). split; [done|].
  destruct (Tick_view b2 p) as (Hv & _); [lia|by rewrite Hps|lia|].
  apply (f_equal fst) in Hv. cbn [view fst] in Hv. unfold view in Hv at 1. cbn [fst] in Hv. rewrite Hv.
  unfold view, peer_step. rewrite Hst. cbn. unfold geti. rewrite Hl. cbn.
  rewrite wrap_u64_id by (unfold in_u64; lia). destruct (Z.ltb_spec (timeoutTicks b2) (b_tick b2 + 1 - 0)); [done|lia].
Qed.
End Runs.

(** ** Witnesses *)

Section Witnesses.
#[local] Instance run_codec_event : Codec MembershipEvent := countable_codec MembershipEvent.

Definition started : BaselineProtocol := baseline_Start "a" (NewBaselineProtocol ["b"; "c"]).

Definition ticks (n : nat) : list baseline_op := replicate n OpTick.

Lemma ticks_quiet p n : Forall (quiet p) (ticks n).
Proof. apply Forall_replicate. done. Qed.

Lemma silent_peer_timeline_witness :
  geti (status (foldl baseline_do started (ticks 21))) "b" = StatusSuspect ∧
  geti (status (foldl baseline_do started (ticks 42))) "b" = StatusDead.
Proof.
  split.
  - apply (silent_peer_timeline "b" (ticks 21) started);
      [left|reflexivity|reflexivity|vm_compute; congruence|vm_compute; congruence|reflexivity|apply ticks_quiet].
  - apply (silent_peer_timeline "b" (ticks 42) started);
      [left|reflexivity|reflexivity|vm_compute; congruence|vm_compute; congruence|reflexivity|apply ticks_quiet].
Defined.

Lemma baseline_Tick_spec_witness :
  (baseline_Tick (foldl baseline_do started (ticks 4))).2 = [heartbeat "a" "b"; heartbeat "a" "c"].
Proof.
  destruct (baseline_Tick_spec (foldl baseline_do started (ticks 4))) as [Hout _].
  - vm_compute. congruence.
  - by_evaluation.
  - rewrite Hout. vm_compute. reflexivity.
Defined.

Lemma message_revives_witness :
  geti (status (baseline_OnMessage no_callback (heartbeat "b@h:1" "a") (foldl baseline_do started (ticks 42))).1) "b" = StatusAlive.
Proof.
  apply (message_revives (heartbeat "b@h:1" "a") (foldl baseline_do started (ticks 42))).
  - vm_compute. congruence.
  - reflexivity.
  - by_evaluation.
  - vm_compute. congruence.
Defined.

Lemma incarnation_monotone_witness :
  0 ≤ geti (incarnation (baseline_OnMessage no_callback (heartbeat "b" "a") started).1) "b".
Proof.
  apply (incarnation_monotone (heartbeat "b" "a") started "b").
  - right. vm_compute. eauto.
  - split; vm_compute; congruence.
Defined.

Lemma late_peer_suspected_witness :
  geti (status (baseline_Tick (baseline_SetPeers ["b"; "c"; "d"] (foldl baseline_do started (ticks 30)))).1) "d" = StatusSuspect.
Proof.
  apply (late_peer_suspected ["b"; "c"; "d"] "d" (foldl baseline_do started (ticks 30))).
  - vm_compute. reflexivity.
  - right. right. left.
  - split; vm_compute; congruence.
  - vm_compute. reflexivity.
Defined.
End Witnesses.
