(* ===== verification/BaselineNet.v ===== *)
(** * A cluster running the baseline protocol

    Nodes that tick, hear messages and change their peers, over a network that
    may lose, delay, duplicate and misroute what they send.  The failure detector
    turns out to be exact and local: what a node holds of a peer is a function of
    the ticks since it last heard from it, because no membership event is ever
    taken over.  A cluster that is cut apart for long enough never meets again. *)

From stdpp Require Import relations.
From S2P Require Import Prelude GoStrings Protocol Baseline.

(** What the text format of the events has to keep, and that a heartbeat is no
    event. *)
Class EventCodec `{Codec MembershipEvent} := {
  decode_incarnation ev ev' : DecodeJSON (EncodeJSON ev) = Some ev' → ev_Incarnation ev' = ev_Incarnation ev;
  heartbeat_no_event : DecodeJSON (A:=MembershipEvent) "HEARTBEAT" = None;
}.

Section Net.
Context `{EventCodec}.

(** The nodes, and the payloads that were ever sent: an envelope is delivered to
    whoever it reaches, with the address the sender's runtime wrote into it. *)
Record net := { nodes : gmap string BaselineProtocol; sent : list string }.

(** New peers are told in time: a peer list holds peers the node knows as such,
    and others only while its clock is young (see [late_peer_suspected]). *)
Definition timely (ps : list string) (b : BaselineProtocol) : Prop :=
  ∀ p, p ∈ ps → p ∈ b_peers b ∨ lastSeen b !! p = None ∧ b_tick b ≤ timeoutTicks b.

Definition sender (env : Envelope) : string := (splitSender (env_From env)).1.1.

(** The runtime answers a discovery with the peers it knows by then, the one
    that was discovered among them. *)
Definition tells (ps : list string) : string → string → Z → BaselineProtocol → BaselineProtocol :=
  λ _ _ _ b, baseline_SetPeers ps b.

(** What happens to a node, with the sender of a message that reaches it. *)
Inductive event :=
  | EvStart (n : string)
  | EvTick (n : string)
  | EvMessage (n from : string)
  | EvPeers (n : string).

Inductive net_step : event → net → net → Prop :=
  | step_start id ps s :
      net_step (EvStart id) s
        {| nodes := <[id := baseline_Start id (baseline_SetPeerDiscoveryCallback (baseline_SetPeers ps (NewBaselineProtocol [])))]> (nodes s);
           sent := sent s |}
  | step_tick n b s :
      nodes s !! n = Some b →
      net_step (EvTick n) s {| nodes := <[n := (baseline_Tick b).1]> (nodes s); sent := sent s ++ (env_Payload <$> (baseline_Tick b).2) |}
  | step_message n b env ps s :
      nodes s !! n = Some b → env_Payload env ∈ sent s → timely (filter (λ p, p ≠ sender env) ps) b →
      net_step (EvMessage n (sender env)) s
        {| nodes := <[n := (baseline_OnMessage (tells ps) env b).1]> (nodes s);
           sent := sent s ++ (env_Payload <$> (baseline_OnMessage (tells ps) env b).2) |}
  | step_peers n b ps s :
      nodes s !! n = Some b → timely ps b →
      net_step (EvPeers n) s {| nodes := <[n := baseline_SetPeers ps b]> (nodes s); sent := sent s |}.

(** The states a cluster reaches, with what has happened, the latest first. *)
Inductive reachable : list event → net → Prop :=
  | reach_init : reachable [] {| nodes := ∅; sent := [] |}
  | reach_step log e s s' : reachable log s → net_step e s s' → reachable (e :: log) s'.

(** How many ticks of a node [n] have gone by since a message from [p] reached
    it, or since it was started when none has.  A node does not hear itself. *)
Fixpoint silence (n p : string) (log : list event) : Z :=
  match log with
  | [] => 0
  | EvStart m :: log => if decide (m = n) then 0 else silence n p log
  | EvTick m :: log => (if decide (m = n) then 1 else 0) + silence n p log
  | EvMessage m from :: log => if decide (m = n ∧ from = p ∧ p ≠ n) then 0 else silence n p log
  | EvPeers _ :: log => silence n p log
  end.

(** ** Incarnations stay at zero *)

Definition zero_map (m : gmap string Z) : Prop := ∀ p, geti m p = 0.

(** A payload that tells no incarnation but zero. *)
Definition old_news (payload : string) : Prop :=
  ∀ ev, DecodeJSON payload = Some ev → ev_Incarnation ev = 0.

Lemma applyEvent_old ev b : zero_map (incarnation b) → ev_Incarnation ev = 0 → applyEvent ev b = (b, []).
Proof. intros Hz He. unfold applyEvent. rewrite Hz, He. cbn. by rewrite andb_false_r. Qed.

Lemma zero_insert m p : zero_map m → zero_map (<[p := 0]> m).
Proof. intros Hm q. rewrite geti_insert. by case_decide. Qed.

(** SetPeers on the maps: peers that are new are initialised, others stay. *)
Lemma SetPeers_loop_fields l b :
  let b' := foldl (λ b p, match lastSeen b !! p with Some _ => b | None => init_peer b p end) b l in
  b_nodeID b' = b_nodeID b ∧ b_tick b' = b_tick b ∧ timeoutTicks b' = timeoutTicks b ∧ heartbeatInterval b' = heartbeatInterval b ∧
  b_peers b' = b_peers b ∧ suspectSince b' = suspectSince b ∧
  (zero_map (incarnation b) → zero_map (incarnation b')) ∧
  (∀ p, is_Some (lastSeen b !! p) → lastSeen b' !! p = lastSeen b !! p ∧ status b' !! p = status b !! p) ∧
  (∀ p, lastSeen b !! p = None → p ∈ l → lastSeen b' !! p = Some 0 ∧ status b' !! p = Some StatusAlive).
Proof.
  revert b; induction l as [|q l IH]; intros b; cbv zeta; cbn [foldl].
  { split_and!; try done. intros p _ Hp. by apply elem_of_nil in Hp. }
  set (b1 := match lastSeen b !! q with Some _ => b | None => init_peer b q end).
  destruct (IH b1) as (-> & -> & -> & -> & -> & -> & Hz & Hk & Hn). clear IH.
  assert (∀ p, is_Some (lastSeen b !! p) → lastSeen b1 !! p = lastSeen b !! p ∧ status b1 !! p = status b !! p) as Hk1.
  { intros p [t Ht]. unfold b1. destruct (lastSeen b !! q) eqn:Hq; [done|]. cbn. by rewrite !lookup_insert_ne by congruence. }
  split_and!; try (unfold b1; by case_match).
  - intros Hb. apply Hz. unfold b1. case_match; [done|]. by apply zero_insert.
  - intros p Hp. destruct (Hk1 p Hp) as [H1 H2]. destruct (Hk p) as [H3 H4]; [by rewrite H1|]. by rewrite H3, H4.
  - intros p Hp Hl. destruct (decide (p = q)) as [->|Hpq].
    + assert (lastSeen b1 !! q = Some 0 ∧ status b1 !! q = Some StatusAlive) as [H1 H2].
      { unfold b1. rewrite Hp. cbn. by rewrite !lookup_insert_eq. }
      destruct (Hk q) as [H3 H4]; [by rewrite H1|]. by rewrite H3, H4.
    + apply Hn; [|by apply elem_of_cons in Hl as [|]]. unfold b1. destruct (lastSeen b !! q); [done|]. cbn. by rewrite lookup_insert_ne.
Qed.

(** ** What a node holds of its peers *)

Definition exact (p : string) (b : BaselineProtocol) : Prop :=
  ∃ t0 since, lastSeen b !! p = Some t0 ∧ 0 ≤ t0 ≤ b_tick b ∧ view p b = timeline t0 (timeoutTicks b) since (b_tick b - t0).

Record node_ok (k : nat) (b : BaselineProtocol) : Prop := {
  ok_tick : 0 ≤ b_tick b ≤ Z.of_nat k;
  ok_timeout : timeoutTicks b = 20;
  ok_zero : zero_map (incarnation b);
  ok_exact p : p ∈ b_peers b → exact p b;
}.

Lemma exact_same p b b' :
  lastSeen b' !! p = lastSeen b !! p → status b' !! p = status b !! p → suspectSince b' = suspectSince b →
  b_tick b' = b_tick b → timeoutTicks b' = timeoutTicks b → exact p b → exact p b'.
Proof. intros Hl Hs Hss Ht HT (t0 & since & H1 & H2 & H3). exists t0, since. unfold view, geti in *. by rewrite Hl, Hs, Hss, Ht, HT. Qed.

Lemma exact_alive p b t0 :
  lastSeen b !! p = Some t0 → status b !! p = Some StatusAlive → 0 ≤ t0 ≤ b_tick b → b_tick b - t0 ≤ timeoutTicks b → exact p b.
Proof.
  intros Hl Hs Ht Hd. exists t0, (geti (suspectSince b) p). split_and!; [done|lia|lia|]. unfold view, timeline, geti. rewrite Hs.
  by rewrite (proj2 (Z.leb_le _ _)).
Qed.

(** SetPeers keeps what is known, where the peers are told in time. *)
Lemma SetPeers_exact ps b p :
  0 ≤ b_tick b → (∀ q, q ∈ b_peers b → exact q b) → p ∈ ps → p ∈ b_peers b ∨ lastSeen b !! p = None ∧ b_tick b ≤ timeoutTicks b →
  exact p (baseline_SetPeers ps b).
Proof.
  intros Ht Hex Hp Hor. unfold baseline_SetPeers.
  destruct (SetPeers_loop_fields ps (with_peers ps b)) as (_ & H1 & H2 & _ & _ & H3 & _ & Hk & Hn).
  destruct Hor as [Hin|[Hno Hle]].
  - pose proof (Hex p Hin) as He. destruct He as (t0 & ? & Hl & _).
    destruct (Hk p) as [Hkl Hks]; [cbn; by rewrite Hl|]. by apply (exact_same p b); [..|apply Hex].
  - destruct (Hn p Hno Hp) as [Hl Hs]. apply (exact_alive p _ 0); [done|done|..]; rewrite ?H1, ?H2; cbn; lia.
Qed.

Lemma node_ok_SetPeers k ps b : node_ok k b → timely ps b → node_ok k (baseline_SetPeers ps b).
Proof.
  intros [Ht HT Hz Hex] Hps. unfold baseline_SetPeers.
  destruct (SetPeers_loop_fields ps (with_peers ps b)) as (_ & H1 & H2 & _ & H3 & _ & H4 & _).
  split; [by rewrite H1|by rewrite H2|by apply H4|]. intros p. rewrite H3. cbn. intros Hp. apply SetPeers_exact; [lia|done|done|by apply Hps].
Qed.

Lemma node_ok_start k ps id :
  node_ok k (baseline_Start id (baseline_SetPeerDiscoveryCallback (baseline_SetPeers ps (NewBaselineProtocol [])))).
Proof.
  set (b0 := baseline_SetPeerDiscoveryCallback (baseline_SetPeers ps (NewBaselineProtocol []))).
  assert (zero_map (incarnation b0) ∧ timeoutTicks b0 = 20) as [Hz0 HT0].
  { destruct (SetPeers_loop_fields ps (with_peers ps (NewBaselineProtocol []))) as (_ & _ & HT & _ & _ & _ & Hz & _).
    split; [|done]. apply Hz. intros p. done. }
  assert (∀ l b, b_tick b = 0 → timeoutTicks b = 20 → zero_map (incarnation b) →
    let b' := foldl init_peer b l in
    b_tick b' = 0 ∧ timeoutTicks b' = 20 ∧ zero_map (incarnation b') ∧ b_peers b' = b_peers b ∧
    ∀ p, p ∈ l ∨ lastSeen b !! p = Some 0 ∧ status b !! p = Some StatusAlive → lastSeen b' !! p = Some 0 ∧ status b' !! p = Some StatusAlive) as Hloop.
  { induction l as [|q l IH]; intros b Ht HT Hz; cbv zeta; cbn [foldl].
    { split_and!; try done. intros p [Hp|Hp]; [by apply elem_of_nil in Hp|done]. }
    destruct (IH (init_peer b q)) as (H1 & H2 & H3 & H4 & H5); [done|done|by apply zero_insert|]. split_and!; try done.
    intros p Hp. apply H5. destruct (decide (p = q)) as [->|Hpq]; [right; cbn; by rewrite !lookup_insert_eq|].
    destruct Hp as [[->|Hp]%elem_of_cons|[Hl Hs]]; [done|by left|]. right. cbn. by rewrite !lookup_insert_ne by done. }
  unfold baseline_Start. set (b1 := with_maps _ _ _ _ (with_id_tick id 0 b0)).
  destruct (Hloop (b_peers b1) b1) as (H1 & H2 & H3 & H4 & H5); [done|done|done|].
  split; cbn [b_tick timeoutTicks incarnation with_maps]; [lia|done|by apply zero_insert|].
  cbn [b_peers with_maps]. rewrite H4. intros p Hp. destruct (H5 p (or_introl Hp)) as [Hl Hs].
  apply (exact_alive p _ 0); cbn [lastSeen status b_tick timeoutTicks with_maps]; [done|done|lia|lia].
Qed.

(** The timeout loop announces nothing new. *)
Lemma check_peers_news l b out :
  zero_map (incarnation b) → Forall old_news (env_Payload <$> out) → Forall old_news (env_Payload <$> (foldl check_peer (b, out) l).2).
Proof.
  revert b out. induction l as [|p l IH]; intros b out Hz Ho; [done|]. cbn [foldl].
  pose proof (check_peer_frame b out p) as (_ & _ & Hinc).
  assert (Forall old_news (env_Payload <$> (check_peer (b, out) p).2)) as Ho'.
  { unfold check_peer. repeat case_match; try done. cbn [snd]. rewrite fmap_app. apply Forall_app. split; [done|].
    constructor; [|done]. intros ev Hev. cbn [env_Payload makeMembershipEnvelope baselineEnvelope] in Hev.
    rewrite (decode_incarnation _ _ Hev). apply Hz. }
  destruct (check_peer (b, out) p) as [b' out']. apply IH; [|done]. cbn [fst] in Hinc. by rewrite Hinc.
Qed.

(** A tick keeps the bookkeeping, and announces nothing new. *)
Lemma Tick_fields b :
  zero_map (incarnation b) →
  let r := baseline_Tick b in
  b_nodeID r.1 = b_nodeID b ∧ timeoutTicks r.1 = timeoutTicks b ∧ b_tick r.1 = wrap_u64 (b_tick b + 1) ∧ b_peers r.1 = b_peers b ∧
  incarnation r.1 = incarnation b ∧ Forall old_news (env_Payload <$> r.2).
Proof.
  intros Hz. unfold baseline_Tick. cbv zeta.
  match goal with |- context [foldl check_peer (?c, ?o) ?l] =>
    destruct (same_frame_fields _ _ (check_peers_frame l c o)) as (-> & -> & -> & -> & _ & _ & ->); set (b1 := c); set (out := o) end.
  split_and!; try done.
  assert (Forall old_news (env_Payload <$> out)) as Hout.
  { unfold out. destruct (_ =? 0); [|by constructor]. apply Forall_fmap, Forall_forall. intros env (p & -> & _)%list_elem_of_fmap ev.
    cbn. by rewrite heartbeat_no_event. }
  by apply check_peers_news.
Qed.

Lemma Tick_lastSeen b : lastSeen (baseline_Tick b).1 = lastSeen b.
Proof.
  unfold baseline_Tick. match goal with |- context [foldl check_peer (?c, ?o) ?l] =>
    by destruct (same_frame_fields _ _ (check_peers_frame l c o)) as (_ & _ & _ & _ & _ & -> & _) end.
Qed.

Lemma node_ok_Tick k b : node_ok k b → Z.of_nat k < two64 - 1 → node_ok (S k) (baseline_Tick b).1.
Proof.
  intros [Ht HT Hz Hex] Hk. destruct (Tick_fields b Hz) as (_ & H2 & H3 & H4 & H5 & _).
  assert (wrap_u64 (b_tick b + 1) = b_tick b + 1) as Hw by (apply wrap_u64_id; unfold in_u64; lia). rewrite Hw in H3.
  split; [rewrite H3; lia|by rewrite H2|by rewrite H5|]. intros p Hp. rewrite H4 in Hp.
  destruct (Hex p Hp) as (t0 & since & Hl & Ht0 & Hv).
  destruct (Tick_view b p) as (Hv' & Hls & _); [lia|done|lia|]. exists t0, since.
  rewrite H2, H3, Hls. split_and!; [done|lia|lia|]. rewrite Hv', Hv. assert (geti (lastSeen b) p = t0) as -> by (unfold geti; by rewrite Hl).
  pose proof (timeline_step t0 (timeoutTicks b) since (b_tick b - t0)) as Hs.
  replace (t0 + (b_tick b - t0)) with (b_tick b) in Hs by lia. rewrite Hs by lia. f_equal. lia.
Qed.

(** Hearing from a peer: the discovery of a new one, then the contact. *)
Definition discover (cb : string → string → Z → BaselineProtocol → BaselineProtocol) (from host : string) (port : Z) (b : BaselineProtocol) :
    BaselineProtocol :=
  match lastSeen b !! from with
  | Some _ => b
  | None =>
      let b := with_peers (b_peers b ++ [from]) b in
      let b := with_maps (<[from := b_tick b]> (lastSeen b)) (<[from := StatusAlive]> (status b)) (<[from := 0]> (incarnation b)) (suspectSince b) b in
      if b_peerDiscoveryCb b && bool_decide (host ≠ EmptyString) then cb from host port b else b
  end.

Definition contact (from : string) (b : BaselineProtocol) : BaselineProtocol :=
  let b := with_maps (<[from := b_tick b]> (lastSeen b)) (status b) (incarnation b) (suspectSince b) b in
  if (geti (status b) from =? StatusSuspect) || (geti (status b) from =? StatusDead)
  then with_maps (lastSeen b) (<[from := StatusAlive]> (status b)) (incarnation b) (suspectSince b) b
  else b.

Lemma hear_contact cb from host port b : hear cb from host port b = contact from (discover cb from host port b).
Proof. reflexivity. Qed.

Lemma timeline_status t0 T since n : (timeline t0 T since n).1 = StatusAlive ∨ (timeline t0 T since n).1 = StatusSuspect ∨ (timeline t0 T since n).1 = StatusDead.
Proof. unfold timeline. repeat case_match; auto. Qed.

Lemma node_ok_contact k from b : node_ok k b → node_ok k (contact from b).
Proof.
  intros [Ht HT Hz Hex].
  assert (∀ b', b' = contact from b → b_tick b' = b_tick b ∧ timeoutTicks b' = timeoutTicks b ∧ incarnation b' = incarnation b ∧
    b_peers b' = b_peers b ∧ suspectSince b' = suspectSince b ∧ lastSeen b' = <[from := b_tick b]> (lastSeen b) ∧
    (∀ p, p ≠ from → status b' !! p = status b !! p) ∧
    (geti (status b) from ∈ [StatusAlive; StatusSuspect; StatusDead] → geti (status b') from = StatusAlive)) as Hc.
  { intros b' ->. unfold contact. cbn [status with_maps]. destruct (_ || _) eqn:Hor; cbn; split_and!; try done.
    - intros p Hp. by rewrite lookup_insert_ne.
    - intros _. by rewrite geti_insert, decide_True.
    - apply orb_false_iff in Hor as [?%Z.eqb_neq ?%Z.eqb_neq]. intros Hin. set_solver. }
  destruct (Hc _ eq_refl) as (H1 & H2 & H3 & H4 & H5 & H6 & H7 & H8).
  split; [by rewrite H1|by rewrite H2|by rewrite H3|]. rewrite H4. intros p Hp. specialize (Hex p Hp).
  destruct (decide (p = from)) as [->|Hne].
  - destruct Hex as (t0 & since & Hl & Ht0 & Hv). exists (b_tick b), (geti (suspectSince b) from).
    rewrite H6, H1, H2, lookup_insert_eq, Z.sub_diag. split_and!; [done|lia|lia|]. unfold view. rewrite H5, H8.
    + unfold timeline. by rewrite HT.
    + apply (f_equal fst) in Hv. cbn [view fst] in Hv. rewrite Hv.
      destruct (timeline_status t0 (timeoutTicks b) since (b_tick b - t0)) as [->|[->| ->]]; set_solver.
  - apply (exact_same p b); try done; [by rewrite H6, lookup_insert_ne|by apply H7].
Qed.

Lemma node_ok_discover k ps from host port b :
  node_ok k b → timely (filter (λ p, p ≠ from) ps) b → node_ok k (discover (tells ps) from host port b).
Proof.
  intros Hok Hps. unfold discover. destruct (lastSeen b !! from) eqn:Hl; [done|]. cbv zeta.
  set (b1 := with_maps _ _ _ _ (with_peers (b_peers b ++ [from]) b)).
  assert (node_ok k b1) as Hok1.
  { destruct Hok as [Ht HT Hz Hex]. split; [done|done|by apply zero_insert|]. intros p [Hp|Hp%list_elem_of_singleton]%elem_of_app.
    - destruct (decide (p = from)) as [->|Hne]; [destruct (Hex from Hp) as (? & ? & ? & _); congruence|].
      apply (exact_same p b); try done; cbn; rewrite ?lookup_insert_ne by done; try done. by apply Hex.
    - subst p. apply (exact_alive from _ (b_tick b)); cbn; rewrite ?lookup_insert_eq; [done|done|lia|]. rewrite HT. lia. }
  destruct (_ && _); [|done]. apply node_ok_SetPeers; [done|]. intros p Hp. cbn. destruct (decide (p = from)) as [->|Hne]; [left; set_solver|].
  destruct (Hps p) as [Hin|[Hno Hle]]; [by apply list_elem_of_filter|left; set_solver|right]. by rewrite lookup_insert_ne.
Qed.

(** ** The reachable states *)

Record net_ok (k : nat) (s : net) : Prop := {
  ok_nodes n b : nodes s !! n = Some b → node_ok k b;
  ok_sent payload : payload ∈ sent s → old_news payload;
}.

Lemma node_ok_S k b : node_ok k b → node_ok (S k) b.
Proof. intros [Ht HT Hz Hex]. split; try done. lia. Qed.

(** A message does what hearing from its sender does, and no more. *)
Lemma OnMessage_old cb env b :
  zero_map (incarnation (hear cb (sender env) (splitSender (env_From env)).1.2 (splitSender (env_From env)).2 b)) → old_news (env_Payload env) →
  baseline_OnMessage cb env b =
  (if bool_decide (sender env = b_nodeID b) then b
   else hear cb (sender env) (splitSender (env_From env)).1.2 (splitSender (env_From env)).2 b, []).
Proof.
  unfold sender, baseline_OnMessage. destruct (splitSender (env_From env)) as [[from host] port]. cbn [fst snd]. intros Hz Ho.
  case_bool_decide; [done|]. destruct (DecodeJSON (env_Payload env)) as [ev|] eqn:Hd; [|done]. by rewrite applyEvent_old; [|done|apply Ho].
Qed.

Lemma node_ok_hear k ps env b :
  node_ok k b → timely (filter (λ p, p ≠ sender env) ps) b →
  node_ok k (hear (tells ps) (sender env) (splitSender (env_From env)).1.2 (splitSender (env_From env)).2 b).
Proof. intros Hok Hps. rewrite hear_contact. by apply node_ok_contact, node_ok_discover. Qed.

Lemma net_ok_step k e s s' : net_ok k s → net_step e s s' → Z.of_nat k < two64 - 1 → net_ok (S k) s'.
Proof.
  intros [Hn Hs] Hstep Hk.
  assert (∀ n b n' b', node_ok (S k) b' → <[n := b']> (nodes s) !! n' = Some b → node_ok (S k) b) as Hins.
  { intros n b n' b' Hb'. rewrite lookup_insert_Some. intros [[_ <-]|[_ Hl]]; [done|]. by eapply node_ok_S, Hn. }
  destruct Hstep as [id ps s|n b s Hb|n b env ps s Hb Hp Hps|n b ps s Hb Hps]; split; cbn [nodes sent]; try done.
  - intros n b. apply Hins, node_ok_start.
  - intros n' b'. apply Hins. apply node_ok_Tick; [by eapply Hn|done].
  - intros payload [Hp|Hp]%elem_of_app; [by apply Hs|].
    destruct (Tick_fields b) as (_ & _ & _ & _ & _ & Ho); [by apply (ok_zero k), (Hn n)|]. by apply (proj1 (Forall_forall _ _) Ho).
  - intros n' b'. apply Hins, node_ok_S. pose proof (node_ok_hear k ps env b (Hn _ _ Hb) Hps) as Hok.
    rewrite OnMessage_old by (by apply (ok_zero k), Hok || by apply Hs). cbn [fst]. case_bool_decide; [by eapply Hn|done].
  - pose proof (node_ok_hear k ps env b (Hn _ _ Hb) Hps) as Hok.
    rewrite OnMessage_old by (by apply (ok_zero k), Hok || by apply Hs). intros payload [?|[]%elem_of_nil]%elem_of_app. by apply Hs.
  - intros n' b'. apply Hins, node_ok_S. apply node_ok_SetPeers; [by eapply Hn|done].
Qed.

Lemma net_ok_reachable log s : reachable log s → Z.of_nat (length log) < two64 → net_ok (length log) s.
Proof.
  induction 1 as [|log e s s' Hr IH Hstep]; intros Hk; [by split; [intros n b; cbn [nodes]; rewrite lookup_empty|intros p Hp%elem_of_nil]|].
  cbn [length] in *. apply (net_ok_step (length log) e s); [apply IH|done|]; lia.
Qed.

(** ** When a node last heard from a peer *)

(** The entries count from what has happened. *)
Definition dated (log : list event) (n : string) (b : BaselineProtocol) : Prop :=
  b_nodeID b = n ∧ ∀ p, b_tick b - geti (lastSeen b) p = silence n p log.

Lemma SetPeers_dates ps b :
  b_nodeID (baseline_SetPeers ps b) = b_nodeID b ∧ b_tick (baseline_SetPeers ps b) = b_tick b ∧
  ∀ p, geti (lastSeen (baseline_SetPeers ps b)) p = geti (lastSeen b) p.
Proof.
  unfold baseline_SetPeers. change (b_nodeID b) with (b_nodeID (with_peers ps b)). change (b_tick b) with (b_tick (with_peers ps b)).
  change (lastSeen b) with (lastSeen (with_peers ps b)). generalize (with_peers ps b). clear b.
  induction ps as [|q ps IH]; intros b; [done|]. cbn [foldl]. destruct (lastSeen b !! q) as [t|] eqn:Hq; [apply IH|].
  destruct (IH (init_peer b q)) as (-> & -> & Hl). split_and!; [done..|]. intros p. rewrite Hl. cbn. rewrite geti_insert.
  case_decide as Hpq; [|done]. subst p. unfold geti. by rewrite Hq.
Qed.

Lemma dated_start log ps id :
  dated (EvStart id :: log) id (baseline_Start id (baseline_SetPeerDiscoveryCallback (baseline_SetPeers ps (NewBaselineProtocol [])))).
Proof.
  assert (∀ l b, b_nodeID (foldl init_peer b l) = b_nodeID b ∧ b_tick (foldl init_peer b l) = b_tick b ∧
    ((∀ p, geti (lastSeen b) p = 0) → ∀ p, geti (lastSeen (foldl init_peer b l)) p = 0)) as Hloop.
  { induction l as [|q l IH]; intros b; [done|]. cbn [foldl]. destruct (IH (init_peer b q)) as (-> & -> & Hl).
    split_and!; [done..|]. intros Hb. apply Hl. intros p. cbn. rewrite geti_insert. by case_decide. }
  unfold baseline_Start. set (b1 := with_maps _ _ _ _ (with_id_tick id 0 _)).
  destruct (Hloop (b_peers b1) b1) as (H1 & H2 & H3). split; [cbn [b_nodeID with_maps]; by rewrite H1|]. intros p. cbn [b_tick lastSeen with_maps silence].
  rewrite H2, H3, decide_True; [done|done|]. intros q. destruct (SetPeers_dates ps (NewBaselineProtocol [])) as (_ & _ & Hl).
  change (lastSeen b1) with (lastSeen (baseline_SetPeers ps (NewBaselineProtocol []))). by rewrite Hl.
Qed.

Lemma hear_dates ps from host port b :
  b_nodeID (hear (tells ps) from host port b) = b_nodeID b ∧ b_tick (hear (tells ps) from host port b) = b_tick b ∧
  ∀ p, geti (lastSeen (hear (tells ps) from host port b)) p = if decide (from = p) then b_tick b else geti (lastSeen b) p.
Proof.
  rewrite hear_contact.
  assert (∀ b', b_nodeID (contact from b') = b_nodeID b' ∧ b_tick (contact from b') = b_tick b' ∧
    lastSeen (contact from b') = <[from := b_tick b']> (lastSeen b')) as Hc by (intros b'; unfold contact; by destruct (_ || _)).
  destruct (Hc (discover (tells ps) from host port b)) as (-> & -> & ->). setoid_rewrite geti_insert.
  unfold discover. destruct (lastSeen b !! from) as [t|]; [done|]. cbv zeta.
  set (b1 := with_maps _ _ _ _ (with_peers (b_peers b ++ [from]) b)).
  assert (∀ p, p ≠ from → geti (lastSeen b1) p = geti (lastSeen b) p) as Hb1.
  { intros p Hp. cbn. rewrite geti_insert. by rewrite decide_False. }
  destruct (_ && _).
  - unfold tells. destruct (SetPeers_dates ps b1) as (-> & -> & Hl). split_and!; [done..|]. intros p. case_decide; [done|].
    rewrite Hl. by apply Hb1.
  - split_and!; [done..|]. intros p. case_decide; [done|]. by apply Hb1.
Qed.

Lemma dated_reachable log s n b :
  reachable log s → Z.of_nat (length log) < two64 → nodes s !! n = Some b → dated log n b.
Proof.
  intros Hr. revert n b. induction Hr as [|log e s s' Hr IH Hstep]; intros n b Hk; [cbn; by rewrite lookup_empty|].
  cbn [length] in Hk. specialize (λ n b, IH n b ltac:(lia)).
  destruct (net_ok_reachable log s Hr ltac:(lia)) as [Hok Hold].
  destruct Hstep as [id ps s|n' b' s Hb|n' b' env ps s Hb Hp Hps|n' b' ps s Hb Hps]; cbn [nodes]; rewrite lookup_insert_Some;
    (intros [[<- <-]|[Hne Hn]]; [|destruct (IH n b Hn) as [Hid Hs]; split; [done|]; intros p; cbn [silence]]).
  - apply dated_start.
  - by rewrite decide_False.
  - destruct (IH n' b' Hb) as [Hid Hs]. destruct (Hok n' b' Hb) as [Ht HT Hz _].
    destruct (Tick_fields b' Hz) as (H1 & _ & H3 & _). split; [by rewrite H1|]. intros p.
    cbn [silence]. rewrite H3, Tick_lastSeen, decide_True by done.
    rewrite wrap_u64_id by (unfold in_u64; lia). specialize (Hs p). lia.
  - rewrite decide_False by done. by rewrite Hs.
  - destruct (IH n' b' Hb) as [Hid Hs].
    rewrite OnMessage_old by (by apply (ok_zero (length log)), node_ok_hear; [apply (Hok n')|] || by apply Hold). cbn [fst].
    case_bool_decide as Hself.
    + split; [done|]. intros p. cbn [silence]. rewrite decide_False; [by apply Hs|]. intros (_ & <- & Hpn). by rewrite Hself in Hpn.
    + destruct (hear_dates ps (sender env) (splitSender (env_From env)).1.2 (splitSender (env_From env)).2 b') as (H1 & H2 & H3).
      split; [by rewrite H1|]. intros p. cbn [silence]. rewrite H2, H3. destruct (decide (sender env = p)) as [Hsp|Hsp].
      * rewrite decide_True by (split_and!; [done|done|congruence]). lia.
      * rewrite decide_False by naive_solver. apply Hs.
  - rewrite decide_False by naive_solver. by rewrite Hs.
  - destruct (IH n' b' Hb) as [Hid Hs]. destruct (SetPeers_dates ps b') as (H1 & H2 & H3). split; [by rewrite H1|].
    intros p. cbn [silence]. by rewrite H2, H3.
  - by rewrite Hs.
Qed.

(** C14: The failure detector is exact.  In every state a cluster reaches, whatever
    the network lost, repeated or misrouted, a node holds each of its peers for
    alive if at most 20 of its ticks have gone by since a message from the peer
    reached it, or since it was started when none has, suspects it if at most 41
    have, and holds it for dead otherwise; so no peer that is heard in time is
    ever suspected, and no silent one is missed.  The peer lists a node is given
    are timely: a peer that was taken off the list is not put on it again, and a
    peer of which the node has not heard is put on it while the node has ticked
    at most 20 times (otherwise it is suspected although it was never silent).
    Fewer than 2^64 things have happened. *)
Theorem detector_exact log s n b p :
  reachable log s → Z.of_nat (length log) < two64 → nodes s !! n = Some b → p ∈ b_peers b →
  geti (status b) p =
    if silence n p log <=? 20 then StatusAlive else if silence n p log <=? 41 then StatusSuspect else StatusDead.
Proof.
  intros Hr Hk Hn Hp. destruct (ok_nodes _ s (net_ok_reachable log s Hr Hk) n b Hn) as [_ HT _ Hex].
  destruct (Hex p Hp) as (t0 & since & Hl & Ht & Hv). destruct (dated_reachable log s n b Hr Hk Hn) as [_ Hs].
  assert (silence n p log = b_tick b - t0) as -> by (rewrite <-(Hs p); unfold geti; by rewrite Hl).
  apply (f_equal fst) in Hv. cbn [view fst] in Hv. rewrite Hv. unfold timeline. rewrite HT. change (2 * 20 + 1) with 41. by repeat case_match.
Qed.

(** No membership event is ever taken over.  Every incarnation number in a
    cluster is zero, in the nodes and on the wire, and an event counts only if
    its number is larger: so a message from another node does what a heartbeat
    would do, the event in it changes nothing and is not answered. *)
Theorem membership_news_ignored log s n b env ps :
  reachable log s → Z.of_nat (length log) < two64 → nodes s !! n = Some b → env_Payload env ∈ sent s →
  timely (filter (λ p, p ≠ sender env) ps) b → sender env ≠ b_nodeID b →
  baseline_OnMessage (tells ps) env b =
  (hear (tells ps) (sender env) (splitSender (env_From env)).1.2 (splitSender (env_From env)).2 b, []) ∧
  ∀ p, geti (incarnation b) p = 0.
Proof.
  intros Hr Hk Hn Hs Hps Hid. destruct (net_ok_reachable log s Hr Hk) as [Hok Hold]. split; [|by apply (ok_zero (length log)), (Hok n)].
  rewrite OnMessage_old, bool_decide_false; [done|done|by apply (ok_zero (length log)), node_ok_hear; [apply (Hok n)|]|by apply Hold].
Qed.

(** ** A partition that lasts

    Envelopes with their addresses: a message reaches the node it is sent to, or
    any node if it is a broadcast, with the address of its sender written in. *)

Record wire := { w_nodes : gmap string BaselineProtocol; w_sent : list Envelope }.

(** The runtime tells the protocol no other peers than it already has. *)
Inductive wire_step : wire → wire → Prop :=
  | wire_tick n b s :
      w_nodes s !! n = Some b →
      wire_step s {| w_nodes := <[n := (baseline_Tick b).1]> (w_nodes s); w_sent := w_sent s ++ (baseline_Tick b).2 |}
  | wire_message n b env env' ps s :
      w_nodes s !! n = Some b → env ∈ w_sent s → env_To env = EmptyString ∨ env_To env = n →
      env_Payload env' = env_Payload env → sender env' = env_From env → (∀ p, p ∈ ps → p ∈ b_peers b ∨ p = sender env') →
      wire_step s {| w_nodes := <[n := (baseline_OnMessage (tells ps) env' b).1]> (w_nodes s);
                     w_sent := w_sent s ++ (baseline_OnMessage (tells ps) env' b).2 |}
  | wire_peers n b ps s :
      w_nodes s !! n = Some b → (∀ p, p ∈ ps → p ∈ b_peers b) →
      wire_step s {| w_nodes := <[n := baseline_SetPeers ps b]> (w_nodes s); w_sent := w_sent s |}.

Lemma wire_run_sent s s' : rtc wire_step s s' → ∀ env, env ∈ w_sent s → env ∈ w_sent s'.
Proof.
  induction 1 as [|s s1 s2 Hstep _ IH]; [done|]. intros env Henv. apply IH.
  inversion Hstep; subst; cbn; try done; apply elem_of_app; by left.
Qed.

Section Sides.
Context (side : string → nat).

(** A node that holds the peers of the other sides for dead. *)
Record apart (n : string) (b : BaselineProtocol) : Prop := {
  ap_id : b_nodeID b = n;
  ap_timeout : 0 ≤ timeoutTicks b;
  ap_zero : zero_map (incarnation b);
  ap_dead p : p ∈ b_peers b → side p ≠ side n → is_Some (lastSeen b !! p) ∧ geti (status b) p = StatusDead;
}.

(** What is under way stays on its side. *)
Definition on_side (env : Envelope) : Prop :=
  env_To env ≠ EmptyString ∧ side (env_From env) = side (env_To env) ∧ old_news (env_Payload env).

Record split (s : wire) : Prop := {
  sp_nodes n b : w_nodes s !! n = Some b → apart n b;
  sp_sent env : env ∈ w_sent s → on_side env;
}.

Lemma check_peers_dead l b out p :
  geti (status b) p = StatusDead → 0 ≤ timeoutTicks b → geti (status (foldl check_peer (b, out) l).1) p = StatusDead.
Proof.
  intros Hd HT. pose proof (check_peers_view l b out p HT) as Hv. apply (f_equal fst) in Hv. cbn [view fst] in Hv. rewrite Hv.
  unfold view, peer_step. rewrite Hd. by case_decide.
Qed.

Lemma check_peers_sends l b out env :
  env ∈ (foldl check_peer (b, out) l).2 → env ∈ out ∨ env_To env = EmptyString.
Proof.
  revert b out. induction l as [|p l IH]; intros b out; [by left|]. cbn [foldl].
  destruct (check_peer (b, out) p) as [b' out'] eqn:Hc. intros [Hin|]%IH; [|by right]. revert Hc Hin. unfold check_peer.
  repeat case_match; intros [= <- <-]; try (by left). intros [|Hin%list_elem_of_singleton]%elem_of_app; [by left|]. subst. by right.
Qed.

Lemma Tick_apart n b : apart n b → (∀ env, env ∈ (baseline_Tick b).2 → env_To env ≠ EmptyString) →
  apart n (baseline_Tick b).1 ∧ ∀ env, env ∈ (baseline_Tick b).2 → on_side env.
Proof.
  intros [Hid HT Hz Hd] Hto. destruct (Tick_fields b Hz) as (H1 & H2 & H3 & H4 & H5 & H6). split.
  - split; [by rewrite H1|by rewrite H2|by rewrite H5|]. rewrite H4. intros p Hp Hs. destruct (Hd p Hp Hs) as [Hl Hst].
    rewrite Tick_lastSeen. split; [done|]. unfold baseline_Tick. by apply check_peers_dead.
  - intros env Henv. split; [by apply Hto|]. split; [|by apply (proj1 (Forall_forall _ _) H6), list_elem_of_fmap_2].
    pose proof (Hto env Henv) as Hne. revert Henv. unfold baseline_Tick. intros [Henv|]%check_peers_sends; [|done].
    destruct (_ =? 0); [|by apply elem_of_nil in Henv]. apply list_elem_of_fmap in Henv as (p & -> & Hp).
    apply list_elem_of_filter in Hp as [Hst Hp]. cbn. rewrite Hid. destruct (decide (side p = side n)) as [->|Hs]; [done|].
    by destruct (Hd p Hp Hs) as [_ ?].
Qed.

Lemma SetPeers_apart n b ps :
  apart n b → (∀ p, p ∈ ps → side p ≠ side n → p ∈ b_peers b) → apart n (baseline_SetPeers ps b).
Proof.
  intros [Hid HT Hz Hd] Hps. unfold baseline_SetPeers.
  destruct (SetPeers_loop_fields ps (with_peers ps b)) as (H1 & _ & H2 & _ & H3 & _ & H4 & Hk & _).
  split; [by rewrite H1|by rewrite H2|by apply H4|]. rewrite H3. cbn. intros p Hp Hs. destruct (Hd p (Hps p Hp Hs) Hs) as [Hl Hst].
  destruct (Hk p Hl) as [Hkl Hks]. unfold geti in *. by rewrite Hkl, Hks.
Qed.

Lemma hear_apart n b ps from host port :
  apart n b → side from = side n → (∀ p, p ∈ ps → p ∈ b_peers b ∨ p = from) → apart n (hear (tells ps) from host port b).
Proof.
  intros Hap Hside Hps. rewrite hear_contact.
  assert (apart n (discover (tells ps) from host port b)) as Hd1.
  { unfold discover. destruct (lastSeen b !! from) eqn:Hl; [done|]. cbv zeta.
    set (b1 := with_maps _ _ _ _ (with_peers (b_peers b ++ [from]) b)).
    assert (apart n b1) as Hap1.
    { destruct Hap as [Hid HT Hz Hd]. split; [done|done|by apply zero_insert|]. intros p [Hp|Hp%list_elem_of_singleton]%elem_of_app Hs; [|congruence].
      cbn. unfold geti. rewrite !lookup_insert_ne by congruence. by apply Hd. }
    destruct (_ && _); [|done]. apply SetPeers_apart; [done|]. intros p Hp Hs. destruct (Hps p Hp) as [|]; [|congruence].
    apply elem_of_app. by left. }
  revert Hd1. generalize (discover (tells ps) from host port b) as b1. intros b1 [Hid HT Hz Hd].
  unfold contact. destruct (_ || _); (split; [done|done|done|]; cbn; intros p Hp Hs; unfold geti; rewrite ?lookup_insert_ne by congruence; by apply Hd).
Qed.

Lemma split_step s s' :
  split s → wire_step s s' → (∀ env, env ∈ w_sent s' → env_To env ≠ EmptyString) → split s'.
Proof.
  intros [Hn Hs] Hstep Hto.
  assert (∀ n b n' b', apart n' b' → <[n' := b']> (w_nodes s) !! n = Some b → apart n b) as Hins.
  { intros n b n' b' Hb'. rewrite lookup_insert_Some. intros [[<- <-]|[_ Hl]]; [done|]. by apply Hn. }
  inversion Hstep as [n b s1 Hb He|n b env env' ps s1 Hb Henv Haddr Hpay Hsend Hps He|n b ps s1 Hb Hps He]; subst s1; subst s'; cbn [w_sent] in Hto.
  - destruct (Tick_apart n b (Hn n b Hb)) as [Hb' Ho]; [intros env Henv; apply Hto, elem_of_app; by right|].
    split; cbn; [intros n' b1; by apply Hins|]. intros env [|]%elem_of_app; [by apply Hs|by apply Ho].
  - destruct (Hs env Henv) as (Hne & Hside & Hold). destruct Haddr as [|Haddr]; [done|].
    pose proof (Hn n b Hb) as Hap.
    assert (apart n (hear (tells ps) (sender env') (splitSender (env_From env')).1.2 (splitSender (env_From env')).2 b)) as Hh.
    { apply hear_apart; [done|by rewrite Hsend, Hside, Haddr|done]. }
    rewrite OnMessage_old in * by (by apply (ap_zero n), Hh || by rewrite Hpay). cbn [fst snd] in *. rewrite app_nil_r in *.
    split; cbn; [|done]. intros n' b1. apply Hins. by case_bool_decide.
  - split; cbn; [|done]. intros n' b1. apply Hins. apply SetPeers_apart; [by apply Hn|]. intros p Hp _. by apply Hps.
Qed.

(** C15: A partition that lasts is never healed.  Take a state a cluster reaches in
    which more than 41 ticks of every node have gone by since it heard from any of
    its peers on another side, and in which nothing is under way from one side to
    another and no broadcast is.  From then on let the nodes tick, and let what
    they send reach the nodes it is sent to, late, repeatedly or not at all, but
    across the sides as well; no node is started anew or changes its protocol, and
    the runtime tells a node no other peers than it has and the sender of a
    message.  Then, until some node declares another death, every envelope stays
    on the side of its sender and every node holds its peers on the other sides
    for dead: a dead peer is sent no heartbeat, and only a message brings it
    back.  The peer lists of the cluster were timely until then. *)
Theorem healed_partition_stays_split log cluster s s' :
  reachable log cluster → Z.of_nat (length log) < two64 → w_nodes s = nodes cluster →
  (∀ n b p, nodes cluster !! n = Some b → p ∈ b_peers b → side p ≠ side n → 41 < silence n p log) →
  (∀ env, env ∈ w_sent s → env_Payload env ∈ sent cluster ∧ env_To env ≠ EmptyString ∧ side (env_From env) = side (env_To env)) →
  rtc wire_step s s' → (∀ env, env ∈ w_sent s' → env_To env ≠ EmptyString) →
  (∀ env, env ∈ w_sent s' → side (env_From env) = side (env_To env)) ∧
  ∀ n b p, w_nodes s' !! n = Some b → p ∈ b_peers b → side p ≠ side n → geti (status b) p = StatusDead.
Proof.
  intros Hr Hk Hns Hfar Hsent Hrun Hto.
  assert (split s) as Hsp.
  { split.
    2: { intros env Henv. destruct (Hsent env Henv) as (Hpay & Hto' & Hside). split_and!; [done..|]. by apply (net_ok_reachable log cluster Hr Hk). }
    intros n b. rewrite Hns. intros Hb. destruct (dated_reachable log cluster n b Hr Hk Hb) as [Hid Hsil].
    destruct (ok_nodes _ cluster (net_ok_reachable log cluster Hr Hk) n b Hb) as [Ht HT Hz Hex].
    split; [done|lia|done|]. intros p Hp Hs. destruct (Hex p Hp) as (t0 & since & Hl & Ht0 & Hv).
    assert (silence n p log = b_tick b - t0) as Hst by (rewrite <-(Hsil p); unfold geti; by rewrite Hl).
    specialize (Hfar n b p Hb Hp Hs). split; [by rewrite Hl|]. apply (f_equal fst) in Hv. cbn [view fst] in Hv. rewrite Hv.
    unfold timeline. rewrite HT. by rewrite !(proj2 (Z.leb_gt _ _)) by lia. }
  clear Hr Hns Hfar Hsent.
  assert (split s') as [Hn' Hs'].
  { induction Hrun as [|s s1 s2 Hstep Hrun IH]; [done|]. apply IH; [done|]. apply (split_step s); [done|done|].
    intros env Henv. by apply Hto, (wire_run_sent s1). }
  split; [intros env Henv; by apply Hs'|]. intros n b p Hb Hp Hs. by apply (ap_dead n b (Hn' n b Hb) p Hp Hs).
Qed.
End Sides.
End Net.

(** ** Witnesses *)

Section Witnesses.
#[local] Instance net_codec_event : Codec MembershipEvent := countable_codec MembershipEvent.

#[local] Instance net_event_codec : EventCodec.
Proof.
  split; [|by vm_compute]. intros ev ev' Hd. pose proof (countable_decode_encode ev) as He. unfold net_codec_event in Hd. congruence.
Qed.

Definition net_start (id : string) (ps : list string) (s : net) : net :=
  {| nodes := <[id := baseline_Start id (baseline_SetPeerDiscoveryCallback (baseline_SetPeers ps (NewBaselineProtocol [])))]> (nodes s); sent := sent s |}.

Definition net_tick (n : string) (s : net) : net :=
  match nodes s !! n with
  | Some b => {| nodes := <[n := (baseline_Tick b).1]> (nodes s); sent := sent s ++ (env_Payload <$> (baseline_Tick b).2) |}
  | None => s
  end.

Lemma net_tick_Some n b s : nodes s !! n = Some b →
  net_tick n s = {| nodes := <[n := (baseline_Tick b).1]> (nodes s); sent := sent s ++ (env_Payload <$> (baseline_Tick b).2) |}.
Proof. intros Hb. unfold net_tick. by rewrite Hb. Qed.

Lemma net_ticks_reachable n j log s :
  reachable log s → is_Some (nodes s !! n) → reachable (replicate j (EvTick n) ++ log) (Nat.iter j (net_tick n) s).
Proof.
  intros Hr Hn. assert (reachable (replicate j (EvTick n) ++ log) (Nat.iter j (net_tick n) s) ∧ is_Some (nodes (Nat.iter j (net_tick n) s) !! n))
    as [? _]; [|done].
  induction j as [|j [IHr [b Hb]]]; [done|]. rewrite Nat.iter_succ, (net_tick_Some n b) by done. split.
  - eapply reach_step; [exact IHr|]. by apply step_tick.
  - cbn. rewrite lookup_insert_eq. by eexists.
Qed.

(** Two nodes that never hear from each other. *)
Definition demo_net : net := net_start "b" ["a"] (net_start "a" ["b"] {| nodes := ∅; sent := [] |}).

Definition demo_log : list event := [EvStart "b"; EvStart "a"].

Lemma demo_reachable : reachable demo_log demo_net.
Proof. eapply reach_step; [eapply reach_step; [apply reach_init|apply step_start]|apply step_start]. Qed.

Definition cut_net (j : nat) : net := Nat.iter j (net_tick "b") (Nat.iter j (net_tick "a") demo_net).

Definition cut_log : list event := replicate 42 (EvTick "b") ++ replicate 42 (EvTick "a") ++ demo_log.

Lemma cut_reachable : reachable cut_log (cut_net 42).
Proof.
  apply net_ticks_reachable; [apply net_ticks_reachable; [apply demo_reachable|]|]; by_evaluation.
Qed.

Definition node_at (n : string) (s : net) : BaselineProtocol := default (NewBaselineProtocol []) (nodes s !! n).

Lemma detector_exact_witness :
  geti (status (node_at "b" (Nat.iter 21 (net_tick "b") demo_net))) "a" = StatusSuspect.
Proof.
  rewrite (detector_exact (replicate 21 (EvTick "b") ++ demo_log) (Nat.iter 21 (net_tick "b") demo_net) "b"
    (node_at "b" (Nat.iter 21 (net_tick "b") demo_net)) "a").
  - by vm_compute.
  - apply (net_ticks_reachable "b" 21 demo_log); [apply demo_reachable|]. by_evaluation.
  - done.
  - by vm_compute.
  - by_evaluation.
Defined.

(** The announcement of [a] that [b] is dead, at [b]. *)
Definition demo_announcement : Envelope :=
  baselineEnvelope "a@localhost:7001" EmptyString
    (EncodeJSON {| ev_Node := "b"; ev_Status := StatusDead; ev_Incarnation := 0 |}) "BASELINE_MEMBERSHIP:DEAD".

Lemma membership_news_ignored_witness :
  env_Payload demo_announcement ∈ sent (cut_net 42) ∧
  (baseline_OnMessage (tells ["a"]) demo_announcement (node_at "b" (cut_net 42))).2 = [] ∧
  geti (status (baseline_OnMessage (tells ["a"]) demo_announcement (node_at "b" (cut_net 42))).1) "b" = StatusAlive.
Proof.
  assert (env_Payload demo_announcement ∈ sent (cut_net 42)) as Hs by (by_evaluation).
  destruct (membership_news_ignored cut_log (cut_net 42) "b" (node_at "b" (cut_net 42)) demo_announcement ["a"]) as [-> _].
  - apply cut_reachable.
  - done.
  - by vm_compute.
  - exact Hs.
  - intros p [Hne Hp]%list_elem_of_filter. apply list_elem_of_singleton in Hp as ->. by destruct Hne.
  - by vm_compute.
  - split_and!; [exact Hs|done|by vm_compute].
Defined.

Definition demo_side (n : string) : nat := if (n =? "a")%string then 0 else 1.

Definition wire_of (s : net) : wire := {| w_nodes := nodes s; w_sent := [] |}.

(** Both sides tick on, past the next round of heartbeats. *)
Definition wire_ticked (n : string) (w : wire) : wire :=
  match w_nodes w !! n with
  | Some b => {| w_nodes := <[n := (baseline_Tick b).1]> (w_nodes w); w_sent := w_sent w ++ (baseline_Tick b).2 |}
  | None => w
  end.

Lemma wire_ticked_Some n b w : w_nodes w !! n = Some b →
  wire_ticked n w = {| w_nodes := <[n := (baseline_Tick b).1]> (w_nodes w); w_sent := w_sent w ++ (baseline_Tick b).2 |}.
Proof. intros Hb. unfold wire_ticked. by rewrite Hb. Qed.

Definition later : wire := Nat.iter 4 (wire_ticked "a") (Nat.iter 4 (wire_ticked "b") (wire_of (cut_net 42))).

Lemma wire_ticks_run n j w : is_Some (w_nodes w !! n) → rtc wire_step w (Nat.iter j (wire_ticked n) w).
Proof.
  intros Hn. assert (rtc wire_step w (Nat.iter j (wire_ticked n) w) ∧ is_Some (w_nodes (Nat.iter j (wire_ticked n) w) !! n)) as [? _]; [|done].
  induction j as [|j [IHr [b Hb]]]; [done|]. rewrite Nat.iter_succ, (wire_ticked_Some n b) by done. split.
  - eapply rtc_r; [exact IHr|]. by apply wire_tick.
  - cbn. rewrite lookup_insert_eq. by eexists.
Qed.

Lemma healed_partition_stays_split_witness :
  w_sent later = [] ∧ ∀ b, w_nodes later !! "a" = Some b → geti (status b) "b" = StatusDead.
Proof.
  assert (w_sent later = []) as Hsent by by vm_compute.
  destruct (healed_partition_stays_split demo_side cut_log (cut_net 42) (wire_of (cut_net 42)) later) as [_ Hd].
  - apply cut_reachable.
  - done.
  - done.
  - intros n b p Hb Hp _. assert (map_Forall (λ n b, Forall (λ p, 41 < silence n p cut_log) (b_peers b)) (nodes (cut_net 42))) as Hall.
    { by_evaluation. }
    by apply (proj1 (Forall_forall _ _) (Hall n b Hb) p Hp).
  - intros env Henv. destruct (not_elem_of_nil env Henv).
  - etrans; apply wire_ticks_run; by_evaluation.
  - rewrite Hsent. intros env Henv. destruct (not_elem_of_nil env Henv).
  - split; [done|]. intros b Hb. apply (Hd "a" b "b" Hb); [|by vm_compute].
    vm_compute in Hb. injection Hb as <-. by_evaluation.
Defined.
End Witnesses.
