(* ===== verification/Fault.v ===== *)
(** * Fault injection (internal/fault, internal/node/exec)

    Models engine.go, decision.go and the decision types of exec: the fault
    state of a node and the four gates every send, receive, probe and tick goes
    through.  Each locked method is one atomic operation.  The drop rate is a
    float64, as a [spec_float]; the number [rand.Float64] returns is an argument
    of ShouldDrop.  A nil engine is [None]. *)

From Stdlib Require Import SpecFloat.
From S2P Require Import Prelude GoStrings.

(** ** exec/decision.go *)

(** A Duration is an int64 of nanoseconds. *)
Record SendDecision := { s_Allow : bool; s_Delay : Z; s_Reason : string }.
Record ProbeDecision := { p_Allow : bool; p_Delay : Z; p_Reason : string }.
Record ReceiveDecision := { r_Allow : bool; r_Reason : string }.
Record TickDecision := { t_Allow : bool; t_Delay : Z; t_Reason : string }.

(** ** engine.go *)

Record Engine := {
  crashed : bool;
  dropRate : spec_float;
  delayMs : Z;
  partitions : gmap string bool;
}.

(** The float64 0, the zero value of the drop rate. *)
Definition f64_zero : spec_float := S754_zero false.
Definition f64_one : spec_float := S754_finite false 4503599627370496 (-52).

Definition NewEngine : Engine :=
  {| crashed := false; dropRate := f64_zero; delayMs := 0; partitions := ∅ |}.

Definition Crash (e : Engine) : Engine :=
  {| crashed := true; dropRate := dropRate e; delayMs := delayMs e; partitions := partitions e |}.
Definition Recover (e : Engine) : Engine :=
  {| crashed := false; dropRate := dropRate e; delayMs := delayMs e; partitions := partitions e |}.
Definition IsCrashed (e : Engine) : bool := crashed e.

Definition SetDropRate (p : spec_float) (e : Engine) : Engine :=
  {| crashed := crashed e; dropRate := p; delayMs := delayMs e; partitions := partitions e |}.
Definition ShouldDrop (r : spec_float) (e : Engine) : bool := SFltb r (dropRate e).

Definition SetDelay (ms : Z) (e : Engine) : Engine :=
  {| crashed := crashed e; dropRate := dropRate e; delayMs := ms; partitions := partitions e |}.

(** [time.Duration(d) * time.Millisecond], in int64. *)
Definition Millisecond : Z := 1000000.
Definition GetDelay (e : Engine) : Z := wrap_i64 (delayMs e * Millisecond).

Definition Partition (peer : string) (e : Engine) : Engine :=
  {| crashed := crashed e; dropRate := dropRate e; delayMs := delayMs e; partitions := <[peer := true]> (partitions e) |}.
Definition Heal (peer : string) (e : Engine) : Engine :=
  {| crashed := crashed e; dropRate := dropRate e; delayMs := delayMs e; partitions := delete peer (partitions e) |}.
Definition IsPartitioned (peer : string) (e : Engine) : bool := default false (partitions e !! peer).

(** ** decision.go *)

Definition BeforeSend (r : spec_float) (peer : string) (eng : option Engine) : SendDecision :=
  match eng with
  | None => {| s_Allow := true; s_Delay := 0; s_Reason := "no-fault-engine" |}
  | Some e =>
      if IsCrashed e then {| s_Allow := false; s_Delay := 0; s_Reason := "crashed" |}
      else if IsPartitioned peer e then {| s_Allow := false; s_Delay := 0; s_Reason := "partitioned" |}
      else if ShouldDrop r e then {| s_Allow := false; s_Delay := 0; s_Reason := "dropped" |}
      else {| s_Allow := true; s_Delay := GetDelay e; s_Reason := "allowed" |}
  end.

Definition BeforeReceive (peer : string) (eng : option Engine) : ReceiveDecision :=
  match eng with
  | None => {| r_Allow := true; r_Reason := "no-fault-engine" |}
  | Some e =>
      if IsCrashed e then {| r_Allow := false; r_Reason := "crashed" |}
      else if IsPartitioned peer e then {| r_Allow := false; r_Reason := "partitioned" |}
      else {| r_Allow := true; r_Reason := "allowed" |}
  end.

Definition BeforeProbe (peer : string) (eng : option Engine) : ProbeDecision :=
  match eng with
  | None => {| p_Allow := true; p_Delay := 0; p_Reason := "no-fault-engine" |}
  | Some e =>
      if IsCrashed e then {| p_Allow := false; p_Delay := 0; p_Reason := "crashed" |}
      else if IsPartitioned peer e then {| p_Allow := false; p_Delay := 0; p_Reason := "partitioned" |}
      else {| p_Allow := true; p_Delay := GetDelay e; p_Reason := "allowed" |}
  end.

Definition BeforeTick (eng : option Engine) : TickDecision :=
  match eng with
  | None => {| t_Allow := true; t_Delay := 0; t_Reason := "no-fault-engine" |}
  | Some e =>
      if IsCrashed e then {| t_Allow := false; t_Delay := 0; t_Reason := "crashed" |}
      else {| t_Allow := true; t_Delay := GetDelay e; t_Reason := "allowed" |}
  end.

(** ** What the gates decide *)

(** Partitioning or healing one peer does not touch another. *)
Lemma BeforeReceive_other peer q e :
  q ≠ peer → BeforeReceive q (Some (Partition peer e)) = BeforeReceive q (Some e) ∧
             BeforeReceive q (Some (Heal peer e)) = BeforeReceive q (Some e).
Proof.
  intros Hq. unfold BeforeReceive, IsPartitioned, IsCrashed, Partition, Heal. cbn [crashed partitions].
  by rewrite lookup_insert_ne, lookup_delete_ne by done.
Qed.

(** The four gates agree with one another.  A crashed node refuses every
    send, receive, probe and tick; a partition refuses the sends, receives and
    probes of that peer, and nothing else; of the remaining sends only those are
    refused that the drop rate selects; and everything that is delayed is
    delayed by the same time. *)
Theorem gates_agree r peer e :
  (s_Allow (BeforeSend r peer (Some e)) = p_Allow (BeforeProbe peer (Some e)) && negb (ShouldDrop r e)) ∧
  (p_Allow (BeforeProbe peer (Some e)) = r_Allow (BeforeReceive peer (Some e))) ∧
  (r_Allow (BeforeReceive peer (Some e)) = t_Allow (BeforeTick (Some e)) && negb (IsPartitioned peer e)) ∧
  (t_Allow (BeforeTick (Some e)) = negb (IsCrashed e)) ∧
  (p_Allow (BeforeProbe peer (Some e)) = true → p_Delay (BeforeProbe peer (Some e)) = GetDelay e) ∧
  (s_Allow (BeforeSend r peer (Some e)) = true → s_Delay (BeforeSend r peer (Some e)) = GetDelay e) ∧
  (∀ q, q ≠ peer → BeforeReceive q (Some (Partition peer e)) = BeforeReceive q (Some e) ∧
                   BeforeReceive q (Some (Heal peer e)) = BeforeReceive q (Some e)).
Proof.
  split_and!; [..|intros q; apply BeforeReceive_other]; unfold BeforeSend, BeforeReceive, BeforeProbe, BeforeTick;
    by destruct (IsCrashed e), (IsPartitioned peer e), (ShouldDrop r e).
Qed.

(** A delay that fits in an int32 of milliseconds, as the wire format gives it,
    is the duration itself. *)
Lemma GetDelay_int32 e : 0 ≤ delayMs e < 2 ^ 31 → GetDelay e = delayMs e * 1000000.
Proof. intros Hd. apply wrap_i64_id. unfold in_i64, two63, Millisecond. lia. Qed.
