(* ===== verification/Commands.v ===== *)
(** * Control-plane commands (internal/controlplane/command.go, parser.go,
    runtime_commands.go)

    The commands of the actor and the parser of the command line.  A failed
    conversion is an error that carries the text it could not read, where the
    source prints the error of strconv.  The reply channel of a command is the
    result of the function that runs it, in Actor.v. *)

From Stdlib Require Import SpecFloat.
From S2P Require Import Prelude GoStrings GoFloat Fault.

(** ** command.go *)

Inductive CommandType :=
  | CmdCreateCluster | CmdStartNodeProcess | CmdStopNodeProcess | CmdListNodeProcesses | CmdAddNode | CmdRemoveNode
  | CmdListNodes | CmdListClusters | CmdSetFaultParams | CmdCrashNode | CmdRecoverNode | CmdSetDropRate | CmdSetDelay
  | CmdSetPartition | CmdKVPut | CmdKVGet | CmdSetClusterProtocol | CmdRunHypothesis | CmdKillCluster
  | CmdMetricsStart | CmdMetricsStop | CmdMetricsWatchKey | CmdMetricsShow | CmdMetricsHistory
  | CmdLogLifecycleEvent | CmdHelp.

#[export] Instance CommandType_eq_dec : EqDecision CommandType.
Proof. solve_decision. Defined.

Record Command := {
  cmd_Type : CommandType;
  cmd_ClusterID : string;
  cmd_Protocol : string;
  cmd_NodeID : string;
  cmd_Key : string;
  cmd_Value : string;
  cmd_Host : string;
  cmd_Port : Z;
  cmd_Crashed : bool;
  cmd_DropRate : spec_float;
  cmd_DelayMs : Z;
  cmd_Partition : list string;
  cmd_PeerID : string;
  cmd_PeersCSV : string;
  cmd_Enabled : bool;
  cmd_FilePath : string;
  cmd_ProjectRoot : string;
  cmd_CPHost : string;
  cmd_CPPort : Z;
  cmd_IntervalMs : Z;
  cmd_EventType : string;
}.

#[export] Instance Command_settable : Settable Command := λ c,
  Build_Command (cmd_Type c) (cmd_ClusterID c) (cmd_Protocol c) (cmd_NodeID c) (cmd_Key c) (cmd_Value c)
    (cmd_Host c) (cmd_Port c) (cmd_Crashed c) (cmd_DropRate c) (cmd_DelayMs c) (cmd_Partition c) (cmd_PeerID c)
    (cmd_PeersCSV c) (cmd_Enabled c) (cmd_FilePath c) (cmd_ProjectRoot c) (cmd_CPHost c) (cmd_CPPort c)
    (cmd_IntervalMs c) (cmd_EventType c).

Definition NewCommand (t : CommandType) : Command :=
  {| cmd_Type := t; cmd_ClusterID := EmptyString; cmd_Protocol := EmptyString; cmd_NodeID := EmptyString;
     cmd_Key := EmptyString; cmd_Value := EmptyString; cmd_Host := EmptyString; cmd_Port := 0;
     cmd_Crashed := false; cmd_DropRate := f64_zero; cmd_DelayMs := 0; cmd_Partition := [];
     cmd_PeerID := EmptyString; cmd_PeersCSV := EmptyString; cmd_Enabled := false; cmd_FilePath := EmptyString;
     cmd_ProjectRoot := EmptyString; cmd_CPHost := EmptyString; cmd_CPPort := 0; cmd_IntervalMs := 0;
     cmd_EventType := EmptyString |}.

#[export] Instance spec_float_eq_dec : EqDecision spec_float.
Proof. solve_decision. Defined.

#[export] Instance Command_eq_dec : EqDecision Command.
Proof. solve_decision. Defined.

(** ** parser.go *)

Definition fail {A} (msg : string) : result A := Err (Errorf msg []).

(** [return Command{}, fmt.Errorf("invalid ...: %v", err)], or go on. *)
Definition read_or {A B} (msg : string) (text : string) (v : option A) (k : A → result B) : result B :=
  match v with Some a => k a | None => Err (Errorf msg [AStr text]) end.

(** The options of start-node, left to right; the last of a kind wins. *)
Fixpoint parse_start_options (args : list string) (cmd : Command) : result Command :=
  match args with
  | [] => Ok cmd
  | arg :: rest =>
      if (arg =? "--cluster-id")%string then
        match rest with
        | [] => fail "missing value for --cluster-id"
        | v :: rest => parse_start_options rest cmd <| cmd_ClusterID := v |>
        end
      else if (arg =? "--host")%string then
        match rest with
        | [] => fail "missing value for --host"
        | v :: rest => parse_start_options rest cmd <| cmd_Host := v |>
        end
      else if (arg =? "--peers")%string then
        match rest with
        | [] => fail "missing value for --peers"
        | v :: rest => parse_start_options rest cmd <| cmd_PeersCSV := v |>
        end
      else if (arg =? "--cp-host")%string then
        match rest with
        | [] => fail "missing value for --cp-host"
        | v :: rest => parse_start_options rest cmd <| cmd_CPHost := v |>
        end
      else if (arg =? "--cp-port")%string then
        match rest with
        | [] => fail "missing value for --cp-port"
        | v :: rest =>
            read_or "invalid --cp-port: %v" v (Atoi v) (λ port, parse_start_options rest cmd <| cmd_CPPort := port |>)
        end
      else Err (Errorf "unknown option for start-node: %s" [AStr arg])
  end.

Definition parse_start_node (args : list string) : result Command :=
  match args with
  | id :: port :: opts =>
      read_or "invalid port: %v" port (Atoi port) (λ p,
        parse_start_options opts
          (NewCommand CmdStartNodeProcess) <| cmd_NodeID := id |> <| cmd_Port := p |> <| cmd_ClusterID := "default" |>
            <| cmd_Host := "localhost" |>)
  | _ => fail "usage: start-node <node-id> <port> [--cluster-id <id>] [--host <host>] [--peers <csv>] [--cp-host <host>] [--cp-port <port>]"
  end.

(** The arguments of new-cluster after the id; [i] is the position of the
    first one in the command. *)
Fixpoint parse_protocol_options (i : nat) (args : list string) (protocol : string) : result string :=
  match args with
  | [] => Ok protocol
  | arg :: rest =>
      if bool_decide (arg ∈ ["--protocol"; "-protocol"; "-p"]) then
        match rest with
        | [] => fail "usage: new-cluster <cluster-id> [--protocol <gossip|raft>]"
        | p :: rest => parse_protocol_options (S (S i)) rest p
        end
      else if (i =? 2)%nat && negb (HasPrefix arg "-") then parse_protocol_options (S i) rest arg
      else Err (Errorf "unknown option for new-cluster: %s" [AStr arg])
  end.

Definition parse_new_cluster (args : list string) : result Command :=
  match args with
  | id :: opts =>
      protocol ← parse_protocol_options 2 opts "gossip";
      Ok (NewCommand CmdCreateCluster) <| cmd_ClusterID := id |> <| cmd_Protocol := protocol |>
  | _ => fail "usage: new-cluster <cluster-id> [--protocol <gossip|raft>]"
  end.

Definition parse_add_node (args : list string) : result Command :=
  match args with
  | cid :: id :: host :: port :: _ =>
      read_or "invalid port: %v" port (Atoi port) (λ p,
        Ok (NewCommand CmdAddNode) <| cmd_ClusterID := cid |> <| cmd_NodeID := id |> <| cmd_Host := host |> <| cmd_Port := p |>)
  | _ => fail "usage: add-node <cluster-id> <node-id> <host> <port>"
  end.

Definition parse_set_fault (args : list string) : result Command :=
  match args with
  | cid :: id :: crashed :: drop :: delay :: rest =>
      read_or "invalid crashed flag: %v" crashed (ParseBool crashed) (λ c,
      read_or "invalid drop-rate: %v" drop (ParseFloat drop) (λ r,
      read_or "invalid delay-ms: %v" delay (Atoi delay) (λ d,
        let partition :=
          match rest with
          | csv :: _ => if bool_decide (TrimSpace csv ≠ EmptyString) then Split csv "," else []
          | [] => []
          end in
        Ok (NewCommand CmdSetFaultParams) <| cmd_ClusterID := cid |> <| cmd_NodeID := id |> <| cmd_Crashed := c |>
             <| cmd_DropRate := r |> <| cmd_DelayMs := d |> <| cmd_Partition := partition |>)))
  | _ => fail "usage: set-fault <cluster-id> <node-id> <crashed:true|false> <drop-rate:0..1> <delay-ms:int> [partition-csv]"
  end.

(** The commands whose arguments are a cluster, or a cluster and one or two
    more words. *)
Definition parse_cluster (t : CommandType) (usage : string) (args : list string) : result Command :=
  match args with
  | cid :: _ => Ok (NewCommand t) <| cmd_ClusterID := cid |>
  | _ => fail usage
  end.

Definition parse_cluster_node (t : CommandType) (usage : string) (args : list string) : result Command :=
  match args with
  | cid :: id :: _ => Ok (NewCommand t) <| cmd_ClusterID := cid |> <| cmd_NodeID := id |>
  | _ => fail usage
  end.

Definition parse_fault_drop (args : list string) : result Command :=
  match args with
  | cid :: id :: drop :: _ =>
      read_or "invalid drop-rate: %v" drop (ParseFloat drop) (λ r,
        Ok (NewCommand CmdSetDropRate) <| cmd_ClusterID := cid |> <| cmd_NodeID := id |> <| cmd_DropRate := r |>)
  | _ => fail "usage: fault-drop <cluster-id> <node-id> <drop-rate:0..1>"
  end.

Definition parse_fault_delay (args : list string) : result Command :=
  match args with
  | cid :: id :: delay :: _ =>
      read_or "invalid delay-ms: %v" delay (Atoi delay) (λ d,
        Ok (NewCommand CmdSetDelay) <| cmd_ClusterID := cid |> <| cmd_NodeID := id |> <| cmd_DelayMs := d |>)
  | _ => fail "usage: fault-delay <cluster-id> <node-id> <delay-ms:int>"
  end.

Definition parse_fault_partition (args : list string) : result Command :=
  match args with
  | cid :: id :: peer :: enabled :: _ =>
      read_or "invalid enabled flag: %v" enabled (ParseBool enabled) (λ b,
        Ok (NewCommand CmdSetPartition) <| cmd_ClusterID := cid |> <| cmd_NodeID := id |> <| cmd_PeerID := peer |>
             <| cmd_Enabled := b |>)
  | _ => fail "usage: fault-partition <cluster-id> <node-id> <peer-id> <enabled:true|false>"
  end.

Definition parse_kv_put (args : list string) : result Command :=
  match args with
  | cid :: id :: key :: value :: _ =>
      Ok (NewCommand CmdKVPut) <| cmd_ClusterID := cid |> <| cmd_NodeID := id |> <| cmd_Key := key |> <| cmd_Value := value |>
  | _ => fail "usage: kv-put <cluster-id> <node-id> <key> <value>"
  end.

Definition parse_kv_get (args : list string) : result Command :=
  match args with
  | cid :: id :: key :: _ =>
      Ok (NewCommand CmdKVGet) <| cmd_ClusterID := cid |> <| cmd_NodeID := id |> <| cmd_Key := key |>
  | _ => fail "usage: kv-get <cluster-id> <node-id> <key>"
  end.

Definition parse_set_protocol (args : list string) : result Command :=
  match args with
  | cid :: p :: _ => Ok (NewCommand CmdSetClusterProtocol) <| cmd_ClusterID := cid |> <| cmd_Protocol := p |>
  | _ => fail "usage: set-protocol <cluster-id> <protocol>"
  end.

Definition parse_stop_node (args : list string) : result Command :=
  match args with
  | id :: _ => Ok (NewCommand CmdStopNodeProcess) <| cmd_NodeID := id |>
  | _ => fail "usage: stop-node <node-id>"
  end.

Definition parse_run_hypothesis (args : list string) : result Command :=
  match args with
  | path :: _ => Ok (NewCommand CmdRunHypothesis) <| cmd_FilePath := path |>
  | _ => fail "usage: run-hypothesis <relative-experiment-path>"
  end.

Definition parse_metrics_start (args : list string) : result Command :=
  match args with
  | [cid] => Ok (NewCommand CmdMetricsStart) <| cmd_ClusterID := cid |>
  | cid :: interval :: _ =>
      read_or "invalid interval-ms: %v" interval (Atoi interval) (λ i,
        Ok (NewCommand CmdMetricsStart) <| cmd_ClusterID := cid |> <| cmd_IntervalMs := i |>)
  | _ => fail "usage: metrics-start <cluster-id> [interval-ms]"
  end.

Definition parse_watch_key (args : list string) : result Command :=
  match args with
  | cid :: key :: _ => Ok (NewCommand CmdMetricsWatchKey) <| cmd_ClusterID := cid |> <| cmd_Key := key |>
  | _ => fail "usage: metrics-watch-key <cluster-id> <key>"
  end.

(** The rest of the line is the details, less the quotes around it. *)
Definition parse_log_lifecycle (args : list string) : result Command :=
  match args with
  | cid :: id :: type :: d :: ds =>
      Ok (NewCommand CmdLogLifecycleEvent) <| cmd_ClusterID := cid |> <| cmd_NodeID := id |> <| cmd_EventType := type |>
           <| cmd_Value := TrimByte (Join (d :: ds) " ") quote_char |>
  | _ => fail "usage: log-lifecycle <cluster-id> <node-id> <type> <details>"
  end.

(** The switch on the first word. *)
Definition parse_words (name : string) (args : list string) : result Command :=
  if (name =? "help")%string then Ok (NewCommand CmdHelp)
  else if (name =? "start-node")%string then parse_start_node args
  else if (name =? "stop-node")%string then parse_stop_node args
  else if (name =? "list-node-procs")%string then Ok (NewCommand CmdListNodeProcesses)
  else if (name =? "new-cluster")%string then parse_new_cluster args
  else if (name =? "remove-node")%string then
    parse_cluster_node CmdRemoveNode "usage: remove-node <cluster-id> <node-id>" args
  else if (name =? "list-nodes")%string then parse_cluster CmdListNodes "usage: list-nodes <cluster-id>" args
  else if (name =? "list-clusters")%string then Ok (NewCommand CmdListClusters)
  else if (name =? "add-node")%string then parse_add_node args
  else if (name =? "set-fault")%string then parse_set_fault args
  else if (name =? "fault-crash")%string then
    parse_cluster_node CmdCrashNode "usage: fault-crash <cluster-id> <node-id>" args
  else if (name =? "fault-recover")%string then
    parse_cluster_node CmdRecoverNode "usage: fault-recover <cluster-id> <node-id>" args
  else if (name =? "fault-drop")%string then parse_fault_drop args
  else if (name =? "fault-delay")%string then parse_fault_delay args
  else if (name =? "fault-partition")%string then parse_fault_partition args
  else if (name =? "kv-put")%string then parse_kv_put args
  else if (name =? "kv-get")%string then parse_kv_get args
  else if (name =? "set-protocol")%string then parse_set_protocol args
  else if (name =? "run-hypothesis")%string || (name =? "run-experiment")%string then parse_run_hypothesis args
  else if (name =? "kill-cluster")%string || (name =? "stop-cluster")%string then
    parse_cluster CmdKillCluster "usage: kill-cluster <cluster-id>" args
  else if (name =? "metrics-start")%string then parse_metrics_start args
  else if (name =? "metrics-stop")%string then
    parse_cluster CmdMetricsStop "usage: metrics-stop <cluster-id>" args
  else if (name =? "metrics-watch-key")%string then parse_watch_key args
  else if (name =? "metrics-show")%string then
    parse_cluster CmdMetricsShow "usage: metrics-show <cluster-id>" args
  else if (name =? "log-lifecycle")%string then parse_log_lifecycle args
  else fail "unknown command".

Definition Parse (input : string) : result Command :=
  match Fields input with
  | [] => fail "empty command"
  | name :: args => parse_words name args
  end.

(** ** runtime_commands.go

    The command a line of the runtime says; nothing for a blank line.  The word
    [cp] in front is dropped. *)
Definition runtime_command (raw : string) : result (option Command) :=
  let trimmed := TrimSpace raw in
  if bool_decide (trimmed = EmptyString) then Ok None else
  if bool_decide (head (Fields trimmed) = Some "cp") then
    let remainder := TrimSpace (TrimPrefix trimmed "cp") in
    if bool_decide (remainder = EmptyString) then fail "usage: cp <controlplane-command...>"
    else c ← Parse remainder; Ok (Some c)
  else c ← Parse trimmed; Ok (Some c).
