(* ===== verification/CommandProps.v ===== *)
(** * The command language

    What a command looks like on the command line, and that the parser accepts
    exactly these commands: every accepted line has a canonical form, which reads
    back as the same command. *)

From Stdlib Require Import SpecFloat.
From S2P Require Import Prelude GoStrings GoFloat Fault Commands.

(** ** Words in quotes *)

Lemma space_len_quote r : space_len (String quote_char r) = 0%nat.
Proof. by destruct r as [|b [|c r]]. Qed.

Lemma no_space_app s t :
  (if t is String a _ then (byte_of a <? 0x80)%N else true) = true →
  no_space s = true → no_space t = true → no_space (s +:+ t) = true.
Proof.
  intros Ht. induction s as [|a s IH]; [done|]. change (String a s +:+ t) with (String a (s +:+ t)).
  cbn [no_space]. intros [Hl%Nat.eqb_eq Hs]%andb_true_iff Hn. rewrite IH, andb_true_r by done. apply Nat.eqb_eq.
  change (String a (s +:+ t)) with (String a s +:+ t). by apply space_len_app_stop.
Qed.

Lemma quote_word s : no_space s = true → is_word (quote +:+ s) = true.
Proof.
  intros Hs. change (quote +:+ s) with (String quote_char s). unfold is_word. cbn [non_empty no_space].
  by rewrite space_len_quote.
Qed.

Lemma word_quote s : no_space s = true → is_word (s +:+ quote) = true.
Proof. intros Hs. unfold is_word. rewrite no_space_app by done. by destruct s. Qed.

Lemma quote_not_space : " "%char ≠ quote_char.
Proof. done. Qed.

(** The words of a text whose last word ends in quotes, once these are cut off
    and one is put back. *)
Lemma requote_right ws :
  ws ≠ [] → forallb is_word ws = true →
  ∃ ls, ls ≠ [] ∧ forallb is_word ls = true ∧ Join ls " " = trim_byte_right quote_char (Join ws " ") +:+ quote.
Proof.
  induction ws as [|w [|w' ws] IH]; [done| |]; intros _; cbn [forallb].
  - rewrite andb_true_r. intros Hw%word_no_space. exists [trim_byte_right quote_char w +:+ quote].
    split_and!; [done| |done]. cbn [forallb]. rewrite andb_true_r. by apply word_quote, trim_right_keeps_no_space.
  - intros [Hw Hws]%andb_true_iff. destruct IH as (ls & Hne & Hl & HJ); [done|done|].
    exists (w :: ls). split_and!; [done|cbn [forallb]; by rewrite Hw|]. destruct ls as [|l ls]; [done|].
    rewrite !Join_cons2, HJ. change (" " +:+ ?x) with (String " " x).
    rewrite trim_byte_right_app by apply quote_not_space. by rewrite <-append_assoc.
Qed.

Lemma requote ws :
  ws ≠ [] → forallb is_word ws = true →
  ∃ ls, ls ≠ [] ∧ forallb is_word ls = true ∧ Join ls " " = quote +:+ TrimByte (Join ws " ") quote_char +:+ quote.
Proof.
  destruct ws as [|w [|w' ws]]; [done| |]; intros _ Hws; cbn [forallb] in Hws; unfold TrimByte.
  - rewrite andb_true_r in Hws. apply word_no_space in Hws.
    exists [quote +:+ trim_byte_right quote_char (trim_byte_left quote_char w) +:+ quote].
    split_and!; [done| |done]. cbn [forallb]. rewrite andb_true_r.
    apply quote_word, word_no_space, word_quote. by apply trim_right_keeps_no_space, trim_left_keeps_no_space.
  - apply andb_true_iff in Hws as [Hw Hws]. destruct (requote_right (w' :: ws)) as (ls & Hne & Hl & HJ); [done|done|].
    exists ((quote +:+ trim_byte_left quote_char w) :: ls). split_and!; [done| |].
    + cbn [forallb]. rewrite Hl, andb_true_r. by apply quote_word, trim_left_keeps_no_space, word_no_space.
    + destruct ls as [|l ls]; [done|]. rewrite !Join_cons2, HJ. change (" " +:+ ?x) with (String " " x).
      rewrite trim_byte_left_app by (do 2 eexists; split; [done|apply quote_not_space]).
      rewrite trim_byte_right_app by apply quote_not_space. by rewrite <-!append_assoc.
Qed.

(** Trimming a trimmed text in quotes gives the text back. *)
Lemma trim_quoted v :
  TrimByte (quote +:+ TrimByte v quote_char +:+ quote) quote_char = TrimByte v quote_char.
Proof.
  unfold TrimByte at 1. change (quote +:+ ?x) with (String quote_char x). rewrite trim_byte_left_own.
  set (x := TrimByte v quote_char).
  assert (x = EmptyString ∨ ∃ a r, x = String a r ∧ a ≠ quote_char) as [->|(a & r & Hx & Ha)].
  - unfold x, TrimByte. destruct (trim_byte_left_head quote_char v) as [->|(a & r & -> & Ha)]; [by left|right].
    cbn [trim_byte_right]. rewrite (proj2 (Ascii.eqb_neq a quote_char)) by done.
    destruct (trim_byte_right quote_char r); eauto.
  - done.
  - assert (trim_byte_left quote_char (x +:+ quote) = x +:+ quote) as ->.
    { rewrite Hx. change (String a r +:+ quote) with (String a (r +:+ quote)). cbn [trim_byte_left].
      by rewrite (proj2 (Ascii.eqb_neq a quote_char)). }
    unfold quote. rewrite trim_byte_right_own. apply trim_byte_right_idem.
Qed.

Lemma details_back ws :
  ws ≠ [] → forallb is_word ws = true →
  let v := TrimByte (Join ws " ") quote_char in
  let ls := Fields (quote +:+ v +:+ quote) in
  ls ≠ [] ∧ forallb is_word ls = true ∧ TrimByte (Join ls " ") quote_char = v.
Proof.
  intros Hne Hws. destruct (requote ws Hne Hws) as (ls & Hl & Hwl & HJ). cbv zeta. rewrite <-HJ, Fields_Join by done.
  split_and!; [done|done|]. by rewrite HJ, trim_quoted.
Qed.

(** ** The commands a line can say *)

Abbreviation word w := (is_word w = true).

(** A word, or nothing where an option is left out. *)
Definition word_or_none (w : string) : Prop := w = EmptyString ∨ word w.

(** The peers of a set-fault command: the items of one word. *)
Definition csv_list (l : list string) : Prop := l = [] ∨ forallb (byte_free ",") l = true ∧ word (Join l ",").

(** The details of a log-lifecycle command: some words, less the quotes. *)
Definition details (v : string) : Prop :=
  ∃ ws, ws ≠ [] ∧ forallb is_word ws = true ∧ v = TrimByte (Join ws " ") quote_char.

(** [drop] is a text of the drop rate, for the two commands that have one. *)
Inductive spoken (drop : string) : Command → Prop :=
  | say_help : spoken drop (NewCommand CmdHelp)
  | say_start id port cid host peers cphost cpport :
      word id → in_i64 port → word cid → word host → word_or_none peers → word_or_none cphost → in_i64 cpport →
      spoken drop (NewCommand CmdStartNodeProcess) <| cmd_NodeID := id |> <| cmd_Port := port |> <| cmd_ClusterID := cid |>
        <| cmd_Host := host |> <| cmd_PeersCSV := peers |> <| cmd_CPHost := cphost |> <| cmd_CPPort := cpport |>
  | say_stop id : word id → spoken drop (NewCommand CmdStopNodeProcess) <| cmd_NodeID := id |>
  | say_list_procs : spoken drop (NewCommand CmdListNodeProcesses)
  | say_create cid p : word cid → word p → spoken drop (NewCommand CmdCreateCluster) <| cmd_ClusterID := cid |> <| cmd_Protocol := p |>
  | say_list_clusters : spoken drop (NewCommand CmdListClusters)
  | say_cluster t cid : t ∈ [CmdListNodes; CmdKillCluster; CmdMetricsStop; CmdMetricsShow] → word cid →
      spoken drop (NewCommand t) <| cmd_ClusterID := cid |>
  | say_node t cid id : t ∈ [CmdRemoveNode; CmdCrashNode; CmdRecoverNode] → word cid → word id →
      spoken drop (NewCommand t) <| cmd_ClusterID := cid |> <| cmd_NodeID := id |>
  | say_add cid id host port : word cid → word id → word host → in_i64 port →
      spoken drop (NewCommand CmdAddNode) <| cmd_ClusterID := cid |> <| cmd_NodeID := id |> <| cmd_Host := host |> <| cmd_Port := port |>
  | say_fault cid id crashed rate delay peers :
      word cid → word id → word drop → ParseFloat drop = Some rate → in_i64 delay → csv_list peers →
      spoken drop (NewCommand CmdSetFaultParams) <| cmd_ClusterID := cid |> <| cmd_NodeID := id |> <| cmd_Crashed := crashed |>
        <| cmd_DropRate := rate |> <| cmd_DelayMs := delay |> <| cmd_Partition := peers |>
  | say_drop cid id rate : word cid → word id → word drop → ParseFloat drop = Some rate →
      spoken drop (NewCommand CmdSetDropRate) <| cmd_ClusterID := cid |> <| cmd_NodeID := id |> <| cmd_DropRate := rate |>
  | say_delay cid id delay : word cid → word id → in_i64 delay →
      spoken drop (NewCommand CmdSetDelay) <| cmd_ClusterID := cid |> <| cmd_NodeID := id |> <| cmd_DelayMs := delay |>
  | say_partition cid id peer b : word cid → word id → word peer →
      spoken drop (NewCommand CmdSetPartition) <| cmd_ClusterID := cid |> <| cmd_NodeID := id |> <| cmd_PeerID := peer |> <| cmd_Enabled := b |>
  | say_put cid id key value : word cid → word id → word key → word value →
      spoken drop (NewCommand CmdKVPut) <| cmd_ClusterID := cid |> <| cmd_NodeID := id |> <| cmd_Key := key |> <| cmd_Value := value |>
  | say_get cid id key : word cid → word id → word key →
      spoken drop (NewCommand CmdKVGet) <| cmd_ClusterID := cid |> <| cmd_NodeID := id |> <| cmd_Key := key |>
  | say_protocol cid p : word cid → word p →
      spoken drop (NewCommand CmdSetClusterProtocol) <| cmd_ClusterID := cid |> <| cmd_Protocol := p |>
  | say_run path : word path → spoken drop (NewCommand CmdRunHypothesis) <| cmd_FilePath := path |>
  | say_metrics cid interval : word cid → in_i64 interval →
      spoken drop (NewCommand CmdMetricsStart) <| cmd_ClusterID := cid |> <| cmd_IntervalMs := interval |>
  | say_watch cid key : word cid → word key →
      spoken drop (NewCommand CmdMetricsWatchKey) <| cmd_ClusterID := cid |> <| cmd_Key := key |>
  | say_lifecycle cid id type v : word cid → word id → word type → details v →
      spoken drop (NewCommand CmdLogLifecycleEvent) <| cmd_ClusterID := cid |> <| cmd_NodeID := id |> <| cmd_EventType := type |>
        <| cmd_Value := v |>.

(** ** The canonical form of a command *)

Definition option_words (name value : string) : list string :=
  if bool_decide (value = EmptyString) then [] else [name; value].

Definition render_words (drop : string) (c : Command) : list string :=
  let cid := cmd_ClusterID c in
  let id := cmd_NodeID c in
  match cmd_Type c with
  | CmdHelp => ["help"]
  | CmdStartNodeProcess =>
      ["start-node"; id; itoa (cmd_Port c); "--cluster-id"; cid; "--host"; cmd_Host c]
        ++ option_words "--peers" (cmd_PeersCSV c) ++ option_words "--cp-host" (cmd_CPHost c)
        ++ ["--cp-port"; itoa (cmd_CPPort c)]
  | CmdStopNodeProcess => ["stop-node"; id]
  | CmdListNodeProcesses => ["list-node-procs"]
  | CmdCreateCluster => ["new-cluster"; cid; "--protocol"; cmd_Protocol c]
  | CmdListClusters => ["list-clusters"]
  | CmdListNodes => ["list-nodes"; cid]
  | CmdKillCluster => ["kill-cluster"; cid]
  | CmdMetricsStop => ["metrics-stop"; cid]
  | CmdMetricsShow => ["metrics-show"; cid]
  | CmdRemoveNode => ["remove-node"; cid; id]
  | CmdCrashNode => ["fault-crash"; cid; id]
  | CmdRecoverNode => ["fault-recover"; cid; id]
  | CmdAddNode => ["add-node"; cid; id; cmd_Host c; itoa (cmd_Port c)]
  | CmdSetFaultParams =>
      ["set-fault"; cid; id; btoa (cmd_Crashed c); drop; itoa (cmd_DelayMs c)]
        ++ (if bool_decide (cmd_Partition c = []) then [] else [Join (cmd_Partition c) ","])
  | CmdSetDropRate => ["fault-drop"; cid; id; drop]
  | CmdSetDelay => ["fault-delay"; cid; id; itoa (cmd_DelayMs c)]
  | CmdSetPartition => ["fault-partition"; cid; id; cmd_PeerID c; btoa (cmd_Enabled c)]
  | CmdKVPut => ["kv-put"; cid; id; cmd_Key c; cmd_Value c]
  | CmdKVGet => ["kv-get"; cid; id; cmd_Key c]
  | CmdSetClusterProtocol => ["set-protocol"; cid; cmd_Protocol c]
  | CmdRunHypothesis => ["run-hypothesis"; cmd_FilePath c]
  | CmdMetricsStart => ["metrics-start"; cid; itoa (cmd_IntervalMs c)]
  | CmdMetricsWatchKey => ["metrics-watch-key"; cid; cmd_Key c]
  | CmdLogLifecycleEvent =>
      ["log-lifecycle"; cid; id; cmd_EventType c] ++ Fields (quote +:+ cmd_Value c +:+ quote)
  | CmdMetricsHistory => []
  end.

Definition render (drop : string) (c : Command) : string := Join (render_words drop c) " ".

(** ** A canonical line reads back *)

Lemma parse_line name args :
  forallb is_word (name :: args) = true → Parse (Join (name :: args) " ") = parse_words name args.
Proof. intros Hw. unfold Parse. by rewrite Fields_Join. Qed.

Lemma option_words_word name value : word name → word_or_none value → forallb is_word (option_words name value) = true.
Proof.
  intros Hn Hv. unfold option_words. case_bool_decide; [done|]. destruct Hv as [?|Hv]; [done|]. cbn [forallb]. by rewrite Hn, Hv.
Qed.

(** One option of start-node. *)
Lemma start_cluster_id v rest cmd :
  parse_start_options ("--cluster-id" :: v :: rest) cmd = parse_start_options rest cmd <| cmd_ClusterID := v |>.
Proof. reflexivity. Qed.
Lemma start_host v rest cmd :
  parse_start_options ("--host" :: v :: rest) cmd = parse_start_options rest cmd <| cmd_Host := v |>.
Proof. reflexivity. Qed.
Lemma start_peers v rest cmd : (v = EmptyString → cmd_PeersCSV cmd = EmptyString) →
  parse_start_options (option_words "--peers" v ++ rest) cmd = parse_start_options rest cmd <| cmd_PeersCSV := v |>.
Proof.
  intros He. unfold option_words. case_bool_decide as Hv; [|reflexivity]. rewrite Hv. specialize (He Hv). destruct cmd.
  cbn in He. by subst.
Qed.
Lemma start_cp_host v rest cmd : (v = EmptyString → cmd_CPHost cmd = EmptyString) →
  parse_start_options (option_words "--cp-host" v ++ rest) cmd = parse_start_options rest cmd <| cmd_CPHost := v |>.
Proof.
  intros He. unfold option_words. case_bool_decide as Hv; [|reflexivity]. rewrite Hv. specialize (He Hv). destruct cmd.
  cbn in He. by subst.
Qed.
Lemma start_cp_port p rest cmd : in_i64 p →
  parse_start_options ("--cp-port" :: itoa p :: rest) cmd = parse_start_options rest cmd <| cmd_CPPort := p |>.
Proof.
  intros Hp. change (parse_start_options ("--cp-port" :: itoa p :: rest) cmd) with
    (read_or "invalid --cp-port: %v" (itoa p) (Atoi (itoa p)) (λ port, parse_start_options rest cmd <| cmd_CPPort := port |>)).
  by rewrite Atoi_itoa.
Qed.

Create HintDb words.
#[local] Hint Resolve itoa_word btoa_word option_words_word Fields_words : words.

(** A list of words, one by one. *)
Ltac all_words :=
  repeat match goal with |- _ && _ = true => apply andb_true_iff; split end; try done; auto with words.

(** The members of an explicit list. *)
Ltac members :=
  repeat match goal with
  | H : _ ∈ _ :: _ |- _ => apply elem_of_cons in H as [H|H]; [subst|]
  | H : _ ∈ [] |- _ => by apply elem_of_nil in H
  end.

Lemma csv_words l : csv_list l → forallb is_word (if bool_decide (l = []) then [] else [Join l ","]) = true.
Proof. intros [->|[_ Hw]]; [done|]. case_bool_decide; [done|]. cbn [forallb]. by rewrite Hw. Qed.

Lemma render_is_words drop c : spoken drop c → forallb is_word (render_words drop c) = true.
Proof.
  destruct 1; members; unfold render_words; cbn -[Fields is_word forallb app option_words itoa btoa Join bool_decide];
    rewrite ?forallb_app, ?csv_words; cbn [forallb]; all_words.
Qed.

Lemma bool_decide_Split w : word w → bool_decide (TrimSpace w ≠ EmptyString) = true.
Proof.
  intros Hw. apply bool_decide_eq_true. rewrite TrimSpace_no_space by by apply word_no_space. by apply word_non_empty.
Qed.

Lemma csv_back (l : list string) : csv_list l →
  match (if bool_decide (l = []) then [] else [Join l ","]) with
  | csv :: _ => if bool_decide (TrimSpace csv ≠ EmptyString) then Split csv "," else []
  | [] => []
  end = l.
Proof.
  intros [->|[Hf Hw]]; [done|]. case_bool_decide as Hl; [done|]. rewrite bool_decide_Split by done. by apply Split_Join.
Qed.

Lemma parse_line_words ws c :
  forallb is_word ws = true → match ws with [] => None | name :: args => Some (parse_words name args) end = Some (Ok c) →
  Parse (Join ws " ") = Ok c.
Proof. intros Hw Hp. unfold Parse. rewrite Fields_Join by done. destruct ws; [done|congruence]. Qed.

(** The same through the runtime, which trims the line and drops a leading cp. *)
Lemma runtime_command_words name args :
  forallb is_word (name :: args) = true → name ≠ "cp" →
  runtime_command (Join (name :: args) " ") = (c ← parse_words name args; Ok (Some c)).
Proof.
  intros Hw Hcp. unfold runtime_command. rewrite TrimSpace_Join, Fields_Join by done.
  rewrite bool_decide_false.
  2: { apply Join_non_empty. cbn [forallb] in Hw. apply andb_true_iff in Hw as [Hw _]. by apply word_non_empty. }
  rewrite bool_decide_false by (cbn; congruence). by rewrite parse_line.
Qed.

Lemma runtime_command_pieces name ps ws :
  is_word name = true → name ≠ "cp" → forallb no_space ps = true → forallb is_word ws = true → ws ≠ [] →
  runtime_command (Join (name :: ps ++ ws) " ") =
  (c ← parse_words name (List.filter non_empty ps ++ ws); Ok (Some c)).
Proof.
  intros Hw Hcp Hps Hws Hne. unfold runtime_command. rewrite TrimSpace_pieces by done.
  destruct (line_pieces (name :: ps) ws) as [_ HF]; [cbn [forallb]; by rewrite (word_no_space name)|done..|].
  rewrite bool_decide_false by (apply Join_non_empty; by apply word_non_empty).
  pose proof Hw as [Hn _]%andb_true_iff. cbn [List.filter app] in HF. rewrite Hn in HF. unfold Parse. rewrite HF.
  rewrite bool_decide_false by (cbn; congruence). done.
Qed.

Lemma runtime_command_cp name args :
  forallb is_word (name :: args) = true →
  runtime_command ("cp " +:+ Join (name :: args) " ") = (c ← parse_words name args; Ok (Some c)).
Proof.
  intros Hw. change ("cp " +:+ ?x) with ("cp" +:+ " " +:+ x). rewrite <-Join_cons2. unfold runtime_command.
  rewrite TrimSpace_Join, Fields_Join by done.
  rewrite bool_decide_false by by apply Join_non_empty. rewrite bool_decide_true by done. cbv zeta.
  rewrite Join_cons2, TrimPrefix_app. change (" " +:+ ?x) with (String " " x).
  rewrite TrimSpace_space, TrimSpace_Join by done.
  rewrite bool_decide_false.
  2: { apply Join_non_empty. cbn [forallb] in Hw. apply andb_true_iff in Hw as [Hw _]. by apply word_non_empty. }
  by rewrite parse_line.
Qed.

(** Every command that can be said is read back from its canonical line. *)
Lemma Parse_render_spoken drop c : spoken drop c → Parse (render drop c) = Ok c.
Proof.
  intros Hc. pose proof (render_is_words drop c Hc) as Hw. apply parse_line_words; [exact Hw|clear Hw].
  destruct Hc as [ | | | | | | | |???? _ _ _ Hp|?????? _ _ _ Hr Hd Hl|??? _ _ _ Hr| | | | | | | | |???? _ _ _ Hv]; members; unfold render_words;
    cbn -[Fields is_word forallb option_words itoa btoa Join bool_decide Atoi ParseFloat ParseBool parse_start_options parse_set_fault];
    rewrite ?Atoi_itoa, ?ParseBool_btoa, ?Hr by done; try done.
  - cbn [read_or]. rewrite start_cluster_id, start_host, start_peers, start_cp_host, start_cp_port by done. done.
  - cbn [parse_set_fault app]. rewrite ParseBool_btoa, Hr. cbn [read_or]. rewrite Atoi_itoa by done. cbn [read_or]. by rewrite csv_back.
  - destruct Hv as (ws & Hne & Hws & ->). destruct (details_back ws Hne Hws) as (Hl & _ & Hb).
    destruct (Fields _) as [|d ds]; [done|]. by rewrite Hb.
Qed.

Lemma render_head drop c :
  spoken drop c → match render_words drop c with [] => False | name :: _ => (name =? "cp")%string = false end.
Proof. by destruct 1; members; unfold render_words; cbn -[Fields itoa btoa Join option_words bool_decide]. Qed.

(** The runtime reads it too. *)
Lemma runtime_render drop c : spoken drop c → runtime_command (render drop c) = Ok (Some c).
Proof.
  intros Hc. pose proof (render_is_words drop c Hc) as Hw. pose proof (Parse_render_spoken drop c Hc) as Hp.
  pose proof (render_head drop c Hc) as Hn. unfold render in *.
  destruct (render_words drop c) as [|name args]; [done|]. apply String.eqb_neq in Hn.
  rewrite parse_line in Hp by done. rewrite runtime_command_words by done. by rewrite Hp.
Qed.

(** ** What the parser accepts can be said *)

Lemma Atoi_range s z : Atoi s = Some z → in_i64 z.
Proof. unfold Atoi. destruct (ParseDecimal s) as [z'|]; [cbn|done]. case_decide; [by intros [= <-]|done]. Qed.

Lemma read_or_Ok {A B} msg text (v : option A) (k : A → result B) b :
  read_or msg text v k = Ok b ↔ ∃ a, v = Some a ∧ k a = Ok b.
Proof. unfold read_or. destruct v; naive_solver. Qed.

(** What start-node has read at any point of its options. *)
Definition started (c : Command) : Prop :=
  ∃ id port cid host peers cphost cpport,
    word id ∧ in_i64 port ∧ word cid ∧ word host ∧ word_or_none peers ∧ word_or_none cphost ∧ in_i64 cpport ∧
    c = (NewCommand CmdStartNodeProcess) <| cmd_NodeID := id |> <| cmd_Port := port |> <| cmd_ClusterID := cid |>
        <| cmd_Host := host |> <| cmd_PeersCSV := peers |> <| cmd_CPHost := cphost |> <| cmd_CPPort := cpport |>.

Lemma started_options args cmd c :
  forallb is_word args = true → started cmd → parse_start_options args cmd = Ok c → started c.
Proof.
  revert cmd. remember (length args) as n eqn:Hn. revert args Hn.
  induction (lt_wf n) as [n _ IH]; intros args -> cmd Hw Hs.
  destruct args as [|arg [|v rest]]; [by intros [= <-]| |].
  { cbn. by repeat case_match. }
  cbn [forallb] in Hw. apply andb_true_iff in Hw as [_ [Hv Hw]%andb_true_iff].
  assert (Hstep : ∀ cmd', started cmd' → parse_start_options rest cmd' = Ok c → started c).
  { intros cmd'. apply (IH (length rest)); [cbn; lia|done|done]. }
  destruct Hs as (id & port & cid & host & peers & cphost & cpport & ? & ? & ? & ? & ? & ? & ? & ->).
  cbn -[is_word read_or Atoi String.eqb].
  destruct (arg =? _)%string; [|destruct (arg =? _)%string; [|destruct (arg =? _)%string; [|destruct (arg =? _)%string;
    [|destruct (arg =? _)%string; [|done]]]]].
  - apply Hstep. exists id, port, v, host, peers, cphost, cpport. by split_and!.
  - apply Hstep. exists id, port, cid, v, peers, cphost, cpport. by split_and!.
  - apply Hstep. exists id, port, cid, host, v, cphost, cpport. split_and!; try done. by right.
  - apply Hstep. exists id, port, cid, host, peers, v, cpport. split_and!; try done. by right.
  - rewrite read_or_Ok. intros (p & Hp%Atoi_range & Hc). revert Hc. apply Hstep.
    exists id, port, cid, host, peers, cphost, p. by split_and!.
Qed.

Lemma protocol_options_word i args p q :
  forallb is_word args = true → word p → parse_protocol_options i args p = Ok q → word q.
Proof.
  revert i p. remember (length args) as n eqn:Hn. revert args Hn.
  induction (lt_wf n) as [n _ IH]; intros args -> i p Hw Hp.
  destruct args as [|arg rest]; [by intros [= <-]|]. cbn [forallb] in Hw. apply andb_true_iff in Hw as [Ha Hw].
  cbn [parse_protocol_options]. case_bool_decide.
  - destruct rest as [|v rest]; [done|]. cbn [forallb] in Hw. apply andb_true_iff in Hw as [Hv Hw].
    apply (IH (length rest)); [cbn; lia|done..].
  - destruct (_ && _); [|done]. apply (IH (length rest)); [cbn; lia|done..].
Qed.

(** Takes apart the arguments a parser matches on, then what it reads from them. *)
Ltac take_args :=
  repeat match goal with
  | H : forallb is_word ?l = true |- match ?l with [] => _ | _ :: _ => _ end = _ → _ =>
      let w := fresh "w" in let Hw := fresh "Hw" in
      destruct l as [|w l]; [done|cbn [forallb] in H; apply andb_true_iff in H as [Hw H]; cbv beta iota]
  end;
  repeat (rewrite read_or_Ok; intros (? & ? & ?%id); match goal with H : _ = Ok _ |- _ => revert H end).

Lemma csv_list_read (rest : list string) :
  forallb is_word rest = true →
  csv_list (match rest with
            | csv :: _ => if bool_decide (TrimSpace csv ≠ EmptyString) then Split csv "," else []
            | [] => []
            end).
Proof.
  destruct rest as [|csv rest]; [by left|]. cbn [forallb]. intros [Hw _]%andb_true_iff. rewrite bool_decide_Split by done.
  right. rewrite Join_Split. split; [apply Split_byte_free|done].
Qed.

Lemma parse_words_spoken name args c :
  forallb is_word args = true → parse_words name args = Ok c → ∃ drop, spoken drop c.
Proof.
  intros Hw. unfold parse_words.
  repeat match goal with |- (if ?b then _ else _) = _ → _ => destruct b end;
    unfold parse_start_node, parse_stop_node, parse_new_cluster, parse_cluster_node, parse_cluster, parse_add_node, parse_fault_drop,
      parse_fault_delay, parse_fault_partition, parse_kv_put, parse_kv_get, parse_set_protocol, parse_run_hypothesis,
      parse_watch_key, parse_log_lifecycle; try (intros [= <-]; exists EmptyString; by constructor); try done; take_args;
      try (intros [= <-]; exists EmptyString; constructor; try done; set_solver).
  - intros Hc. exists EmptyString. eapply started_options in Hc as (id & port & cid & host & peers & cphost & cpport & ? & ? & ? & ? & ? & ? & ? & ->);
      [by constructor|done|].
    exists w, x, "default", "localhost", EmptyString, EmptyString, 0. split_and!; try done; [by eapply Atoi_range|by left|by left].
  - intros (p & Hp & [= <-])%result_bind_Ok. exists EmptyString. constructor; [done|].
    by apply (protocol_options_word 2 args "gossip").
  - intros [= <-]. exists EmptyString. constructor; [done..|by eapply Atoi_range].
  - unfold parse_set_fault. take_args. intros [= <-]. exists w2. apply say_fault; [done..|by eapply Atoi_range|by apply csv_list_read].
  - intros [= <-]. exists w1. by constructor.
  - intros [= <-]. exists EmptyString. constructor; [done..|by eapply Atoi_range].
  - unfold parse_metrics_start. destruct args as [|cid [|i rest]]; [done| |]; cbn [forallb] in Hw; apply andb_true_iff in Hw as [? Hw].
    + intros [= <-]. exists EmptyString. by apply (say_metrics _ cid 0).
    + rewrite read_or_Ok. intros (z & ?%Atoi_range & [= <-]). exists EmptyString. by constructor.
  - intros [= <-]. exists EmptyString. constructor; [done..|]. exists (w2 :: args). split_and!; [done| |done].
    cbn [forallb]. by rewrite Hw3.
Qed.

(** ** The parser accepts the command language *)

(** C17: The parser of the command line accepts exactly the commands that can be
    said: what it accepts has a canonical line that reads back as the same
    command, with every field set by that line and the others at their zero
    values, and every command of the language is read back from its canonical
    line. *)
Theorem Parse_language :
  (∀ s c, Parse s = Ok c → ∃ drop, spoken drop c ∧ Parse (render drop c) = Ok c) ∧
  (∀ drop c, spoken drop c → Parse (render drop c) = Ok c).
Proof.
  split; [|by apply Parse_render_spoken]. intros s c Hs.
  assert (∃ drop, spoken drop c) as [drop Hc].
  { unfold Parse in Hs. pose proof (Fields_words s) as Hw. destruct (Fields s) as [|name args]; [done|].
    cbn [forallb] in Hw. apply andb_true_iff in Hw as [_ Hw]. by apply (parse_words_spoken name args). }
  exists drop. split; [done|]. by apply Parse_render_spoken.
Qed.

Example Parse_quoted :
  Parse ("log-lifecycle c1 SYSTEM HEAL " +:+ quote +:+ "Healing  all" +:+ quote) =
  Ok (NewCommand CmdLogLifecycleEvent) <| cmd_ClusterID := "c1" |> <| cmd_NodeID := "SYSTEM" |> <| cmd_EventType := "HEAL" |>
       <| cmd_Value := "Healing all" |>.
Proof. reflexivity. Qed.
