(* ===== verification/NodeConfig.v ===== *)
(** * Node configuration (internal/node/config.go)

    Models NodeConfig, the parsing of the peer list given on the command line and
    SetPeers, which takes the topology of the controlplane. *)

From S2P Require Import Prelude GoStrings.

Record Peer := {
  peer_ID : string;
  peer_Host : string;
  peer_Port : Z;
}.

#[export] Instance Peer_eq_dec : EqDecision Peer.
Proof. solve_decision. Defined.

Record NodeConfig := {
  cfg_ID : string;
  cfg_Port : Z;
  cfg_Peers : list Peer;
  cfg_ClusterID : string;
  cfg_Host : string;
  cfg_ControlPlaneHost : string;
  cfg_ControlPlanePort : Z;
}.

(** The NodeInfo of the wire format; its port is a uint32. *)
Record NodeInfo := {
  ni_Id : string;
  ni_Address : string;
  ni_Port : Z;
}.

#[export] Instance NodeInfo_eq_dec : EqDecision NodeInfo.
Proof. solve_decision. Defined.

(** One item of the peer list: [id:port] or [id@host:port]. *)
Definition parsePeer (raw : string) : result Peer :=
  let item := TrimSpace raw in
  let split : result (string * string) :=
    if ContainsByte item "@"%char then
      match SplitN2 item "@"%char with
      | [i; h] =>
          let peerID := TrimSpace i in
          if bool_decide (peerID = EmptyString)
          then Err (Errorf "invalid peer %q (missing id before @)" [AStr item])
          else Ok (peerID, TrimSpace h)
      | _ => Ok (EmptyString, item)
      end
    else Ok (EmptyString, item) in
  '(peerID, hostPort) ← split;
  match Split hostPort ":"%char with
  | [h; p] =>
      if bool_decide (TrimSpace h = EmptyString)
      then Err (Errorf "invalid peer %q (expected id:port or id@host:port)" [AStr item])
      else
        match Atoi (TrimSpace p) with
        | Some port =>
            if (port <=? 0) then Err (Errorf "invalid port in peer %q" [AStr item])
            else
              let host := TrimSpace h in
              if bool_decide (peerID = EmptyString)
              then Ok {| peer_ID := host; peer_Host := "localhost"; peer_Port := port |}
              else Ok {| peer_ID := peerID; peer_Host := host; peer_Port := port |}
        | None => Err (Errorf "invalid port in peer %q" [AStr item])
        end
  | _ => Err (Errorf "invalid peer %q (expected id:port or id@host:port)" [AStr item])
  end.

Definition parsePeers (raw : string) : result (list Peer) :=
  let raw := TrimSpace raw in
  if bool_decide (raw = EmptyString) then Ok []
  else result_mapM parsePeer (Split raw ","%char).

Definition NewConfig (id : string) (port : Z) (peersCSV : string) : result NodeConfig :=
  ps ← parsePeers peersCSV;
  Ok {| cfg_ID := id; cfg_Port := port; cfg_Peers := ps; cfg_ClusterID := "default";
        cfg_Host := "localhost"; cfg_ControlPlaneHost := "localhost"; cfg_ControlPlanePort := 9000 |}.

(** [NodeConfig.SetPeers]; a nil entry of the list is [None]. *)
Definition cfg_with_peers (ps : list Peer) (c : NodeConfig) : NodeConfig :=
  {| cfg_ID := cfg_ID c; cfg_Port := cfg_Port c; cfg_Peers := ps; cfg_ClusterID := cfg_ClusterID c;
     cfg_Host := cfg_Host c; cfg_ControlPlaneHost := cfg_ControlPlaneHost c;
     cfg_ControlPlanePort := cfg_ControlPlanePort c |}.

Definition peerOfInfo (self : string) (info : option NodeInfo) : option Peer :=
  match info with
  | None => None
  | Some p =>
      if bool_decide (ni_Id p = self) then None
      else
        let host := TrimSpace (ni_Address p) in
        Some {| peer_ID := ni_Id p;
                peer_Host := if bool_decide (host = EmptyString) then "localhost" else host;
                peer_Port := ni_Port p |}
  end.

Definition cfg_SetPeers (infos : list (option NodeInfo)) (c : NodeConfig) : NodeConfig :=
  cfg_with_peers (omap (peerOfInfo (cfg_ID c)) infos) c.

(** ** The peer list reads back *)

(** [fmt.Sprintf("%s@%s:%d", id, host, port)] *)
Definition formatPeer (p : Peer) : string :=
  peer_ID p +:+ "@" +:+ peer_Host p +:+ ":" +:+ itoa (peer_Port p).

Definition formatPeers (ps : list Peer) : string := Join (formatPeer <$> ps) ",".

(** A byte of an id or a host: no space, no separator. *)
Definition peer_byte (a : Ascii.ascii) : bool :=
  plain a && negb (Ascii.eqb a "@") && negb (Ascii.eqb a ":") && negb (Ascii.eqb a ",").

Definition peer_word (s : string) : bool := non_empty s && str_forallb peer_byte s.

Definition wf_peer (p : Peer) : Prop :=
  peer_word (peer_ID p) = true ∧ peer_word (peer_Host p) = true ∧ 0 < peer_Port p < two63.

Lemma peer_byte_spec (c : Ascii.ascii) s :
  c ∈ ["@"%char; ":"%char; ","%char] → str_forallb peer_byte s = true → byte_free c s = true.
Proof.
  intros Hc. apply str_forallb_impl. intros a. unfold peer_byte.
  rewrite !andb_true_iff, !negb_true_iff. intros [[[_ ?] ?] ?]. set_solver.
Qed.

Lemma peer_byte_plain s : str_forallb peer_byte s = true → str_forallb plain s = true.
Proof. apply str_forallb_impl. intros a. unfold peer_byte. by rewrite !andb_true_iff; intros [[[? _] _] _]. Qed.

Lemma peer_word_trim s : peer_word s = true → TrimSpace s = s ∧ s ≠ EmptyString.
Proof.
  unfold peer_word. intros [Hne Hs]%andb_true_iff. split; [|by destruct s].
  by apply TrimSpace_no_space, plain_no_space, peer_byte_plain.
Qed.

Lemma itoa_plain z : str_forallb plain (itoa z) = true.
Proof. by apply itoa_bytes; [apply is_digit_plain|]. Qed.

Lemma formatPeer_plain p : wf_peer p → str_forallb plain (formatPeer p) = true.
Proof.
  intros (Hi & Hh & _). apply andb_true_iff in Hi as [_ Hi], Hh as [_ Hh]. unfold formatPeer.
  rewrite !str_forallb_app, (peer_byte_plain (peer_ID p)), (peer_byte_plain (peer_Host p)), itoa_plain by done. done.
Qed.

Lemma parsePeer_formatPeer p : wf_peer p → parsePeer (formatPeer p) = Ok p.
Proof.
  intros Hwf. pose proof (formatPeer_plain p Hwf) as Hpl. destruct Hwf as (Hi & Hh & Hport).
  destruct (peer_word_trim _ Hi) as [Hti Hni], (peer_word_trim _ Hh) as [Hth Hnh].
  apply andb_true_iff in Hi as [_ Hi], Hh as [_ Hh].
  assert (str_forallb plain (peer_Host p +:+ ":" +:+ itoa (peer_Port p)) = true) as Hhp.
  { rewrite !str_forallb_app, (peer_byte_plain (peer_Host p)), itoa_plain by done. done. }
  unfold parsePeer. rewrite TrimSpace_no_space by (by apply plain_no_space).
  unfold formatPeer, ContainsByte, SplitN2.
  rewrite IndexByte_app_free by (apply peer_byte_spec; [set_solver|done]).
  change (IndexByte ("@" +:+ ?r) "@") with (Some 0%nat). cbn [fmap option_fmap option_map].
  change ("@" +:+ ?r) with (String "@" r). rewrite Nat.add_0_r, str_take_app, str_drop_app_S.
  rewrite Hti, bool_decide_false by done. cbn [mbind result_bind].
  rewrite (TrimSpace_no_space (_ +:+ _)) by (by apply plain_no_space).
  change (":" +:+ itoa (peer_Port p)) with (String ":" (itoa (peer_Port p))).
  rewrite Split_app by (apply peer_byte_spec; [set_solver|done]).
  rewrite Split_free by (by apply itoa_byte_free).
  rewrite Hth, bool_decide_false by done.
  rewrite (TrimSpace_no_space (itoa _)) by (apply plain_no_space, itoa_plain).
  rewrite Atoi_itoa by (unfold in_i64, two63 in *; lia).
  destruct (Z.leb_spec (peer_Port p) 0); [lia|].
  rewrite bool_decide_false by done. by destruct p.
Qed.

(** A list of peers printed as [id@host:port,...] is read back by the parser
    of the node's command line, for ids and hosts that are non-empty and contain
    no white space, at sign, colon or comma, and positive ports. *)
Theorem parsePeers_roundtrip ps : Forall wf_peer ps → parsePeers (formatPeers ps) = Ok ps.
Proof.
  intros Hps. unfold parsePeers, formatPeers.
  destruct ps as [|p ps]; [done|].
  rewrite Forall_forall in Hps.
  assert (str_forallb plain (Join (formatPeer <$> p :: ps) ",") = true) as Hj.
  { apply str_forallb_Join; [done|]. apply forallb_elem_of.
    intros s (q & -> & Hq)%list_elem_of_fmap. by apply formatPeer_plain, Hps. }
  rewrite TrimSpace_no_space by (by apply plain_no_space).
  rewrite bool_decide_false.
  2: { apply Join_non_empty. unfold formatPeer. assert (wf_peer p) as (Hi & _ & _) by (apply Hps; left).
       by destruct (peer_ID p). }
  rewrite Split_Join; [|done|].
  - apply result_mapM_Ok, Forall2_fmap_l, Forall_Forall2_diag, Forall_forall.
    intros q Hq. by apply parsePeer_formatPeer, Hps.
  - apply forallb_elem_of. intros s (q & -> & Hq)%list_elem_of_fmap.
    destruct (Hps q Hq) as (Hi & Hh & _). apply andb_true_iff in Hi as [_ Hi], Hh as [_ Hh].
    unfold byte_free, formatPeer. rewrite !str_forallb_app. rewrite !andb_true_iff.
    split_and!; [by apply peer_byte_spec; [set_solver|]|done|by apply peer_byte_spec; [set_solver|]|done|by apply itoa_byte_free].
Qed.

Lemma parsePeers_roundtrip_witness :
  parsePeers "n1@localhost:7001,n2@127.0.0.1:7002" =
  Ok [{| peer_ID := "n1"; peer_Host := "localhost"; peer_Port := 7001 |};
      {| peer_ID := "n2"; peer_Host := "127.0.0.1"; peer_Port := 7002 |}].
Proof.
  apply (parsePeers_roundtrip [{| peer_ID := "n1"; peer_Host := "localhost"; peer_Port := 7001 |};
      {| peer_ID := "n2"; peer_Host := "127.0.0.1"; peer_Port := 7002 |}]).
  repeat constructor.
Defined.
