(* ===== verification/Experiment.v ===== *)
(** * Experiments (internal/experiment)

    Models experiment.go and command_parser.go: a declarative scenario, its
    validation and normalisation, and its compilation to batches of command
    lines.  Reading the file and decoding its YAML are arguments of LoadFile; the
    decoder reads the durations of a timeline with UnmarshalYAML.  A duration is
    an int64 of nanoseconds. *)

From Stdlib Require Import SpecFloat.
From S2P Require Import Prelude GoStrings GoSort GoFloat GoTime.

(** ** experiment.go *)

Record ClusterMember := { m_ID : string; m_Port : Z; m_Host : string }.
Record ClusterConfig := { cc_ID : string; cc_Members : list ClusterMember }.

Record TimelineStep := {
  st_At : Z;
  st_Action : string;
  st_Groups : list (list string);
  st_Key : string;
  st_Value : string;
  st_Target : string;
}.

Record Experiment := { x_Name : string; x_Cluster : ClusterConfig; x_Timeline : list TimelineStep }.
Record CommandBatch := { b_At : Z; b_Commands : list string }.
Record CompileOptions := { o_ClusterID : string; o_ControlPlaneHost : string; o_ControlPlanePort : Z }.

(** A scalar of the file, as the YAML library resolves it. *)
Record yaml_scalar := { y_Tag : string; y_Value : string }.

(** The duration of a scalar, with the value it replaces: a text with units, or a
    number of seconds.  What Go makes of a number that is out of range for an
    int64 depends on the machine: [out_of_range] is its answer. *)
Definition f64_to_i64 (out_of_range : spec_float → Z) (f : spec_float) : Z :=
  match f with
  | S754_zero _ => 0
  | S754_finite _ _ _ => if decide (in_i64 (f64_trunc f)) then f64_trunc f else out_of_range f
  | _ => out_of_range f
  end.

Definition UnmarshalYAML (out_of_range : spec_float → Z) (value : option yaml_scalar) (d : Z) : result Z :=
  match value with
  | None => Ok d
  | Some v =>
      let bad := Err (Errorf "parse duration %q: %w" [AStr (y_Value v)]) in
      if bool_decide (y_Tag v = "!!str" ∨ y_Tag v = EmptyString) then
        match ParseDuration (TrimSpace (y_Value v)) with Some d => Ok d | None => bad end
      else if bool_decide (y_Tag v = "!!int" ∨ y_Tag v = "!!float") then
        match ParseFloat (TrimSpace (y_Value v)) with
        | Some seconds => Ok (f64_to_i64 out_of_range (f64_mul seconds (f64_of_Z ns_per_second)))
        | None => bad
        end
      else Err (Errorf "unsupported duration format: %s" [AStr (y_Tag v)])
  end.

Example UnmarshalYAML_reads :
  map (λ '(t, v), UnmarshalYAML (λ _, 0) (Some {| y_Tag := t; y_Value := v |}) 7)
    [("!!str", " 1m30s "); ("!!int", "90"); ("!!float", "0.25"); ("!!float", "4.35"); ("!!float", ".inf"); ("!!int", "0x5A"); ("!!bool", "true")] =
  [Ok (90 * ns_per_second); Ok (90 * ns_per_second); Ok 250000000; Ok 4350000000;
   Err (Errorf "parse duration %q: %w" [AStr ".inf"]); Err (Errorf "parse duration %q: %w" [AStr "0x5A"]);
   Err (Errorf "unsupported duration format: %s" [AStr "!!bool"])].
Proof. vm_compute. reflexivity. Qed.

(** The timeline sorted by time, ties in the order of the file. *)
Definition Normalize (e : Experiment) : Experiment :=
  {| x_Name := x_Name e; x_Cluster := x_Cluster e; x_Timeline := SliceStable st_At (x_Timeline e) |}.

Definition blank (s : string) : bool := bool_decide (TrimSpace s = EmptyString).

(** [action %q requires ...] *)
Definition step_error (msg : string) (s : TimelineStep) : option error := Some (Errorf msg [AStr (st_Action s)]).

(** The first empty group, or empty node id, of a partition step. *)
Fixpoint check_group_nodes (action : string) (i j : nat) (group : list string) : option error :=
  match group with
  | [] => None
  | id :: rest =>
      if blank id then Some (Errorf "action %q groups[%d][%d] node id is empty" [AStr action; AInt (Z.of_nat i); AInt (Z.of_nat j)])
      else check_group_nodes action i (S j) rest
  end.

Fixpoint check_groups (action : string) (i : nat) (groups : list (list string)) : option error :=
  match groups with
  | [] => None
  | [] :: _ => Some (Errorf "action %q groups[%d] is empty" [AStr action; AInt (Z.of_nat i)])
  | group :: rest =>
      match check_group_nodes action i 0 group with
      | Some e => Some e
      | None => check_groups action (S i) rest
      end
  end.

(** TimelineStep.Validate *)
Definition step_Validate (s : TimelineStep) : option error :=
  let action := TrimSpace (st_Action s) in
  if bool_decide (action = "start_cluster") then None
  else if bool_decide (action = "start_metrics_collection") then None
  else if bool_decide (action = "partition") || bool_decide (action = "heal_partition") then
    if bool_decide (length (st_Groups s) < 2)%nat then step_error "action %q requires at least two groups" s
    else check_groups (st_Action s) 0 (st_Groups s)
  else if bool_decide (action = "write") then
    if blank (st_Key s) then step_error "action %q requires key" s
    else if blank (st_Value s) then step_error "action %q requires value" s
    else if blank (st_Target s) then step_error "action %q requires target" s
    else if HasPrefix (ToLower (TrimSpace (st_Target s))) "group" && bool_decide (st_Groups s = [])
    then step_error "action %q requires groups" s
    else None
  else if bool_decide (action = "read_all") then
    if blank (st_Key s) then step_error "action %q requires key" s else None
  else step_error "unknown action %q" s.

Fixpoint check_members (i : nat) (seen : gset string) (ms : list ClusterMember) : option error :=
  match ms with
  | [] => None
  | m :: rest =>
      if blank (m_ID m) then Some (Errorf "cluster.members[%d].id is required" [AInt (Z.of_nat i)])
      else if (m_Port m <=? 0) then Some (Errorf "cluster.members[%d].port must be greater than zero" [AInt (Z.of_nat i)])
      else if bool_decide (m_ID m ∈ seen)
      then Some (Errorf "cluster.members[%d].id duplicates %q" [AInt (Z.of_nat i); AStr (m_ID m)])
      else check_members (S i) ({[m_ID m]} ∪ seen) rest
  end.

Fixpoint check_steps (i : nat) (steps : list TimelineStep) : option error :=
  match steps with
  | [] => None
  | s :: rest =>
      if (st_At s <? 0) then Some (Errorf "timeline[%d].at must be >= 0" [AInt (Z.of_nat i)])
      else if blank (st_Action s) then Some (Errorf "timeline[%d].action is required" [AInt (Z.of_nat i)])
      else match step_Validate s with
           | Some e => Some (Wrapf "timeline[%d]: %w" [AInt (Z.of_nat i)] e)
           | None => check_steps (S i) rest
           end
  end.

(** A nil experiment is [None]. *)
Definition Validate (e : option Experiment) : option error :=
  match e with
  | None => Some (Errorf "experiment is nil" [])
  | Some e =>
      if blank (x_Name e) then Some (Errorf "experiment name is required" [])
      else if blank (cc_ID (x_Cluster e)) then Some (Errorf "cluster.id is required" [])
      else match cc_Members (x_Cluster e) with
           | [] => Some (Errorf "cluster.members is required" [])
           | ms =>
               match check_members 0 ∅ ms with
               | Some err => Some err
               | None =>
                   if bool_decide (x_Timeline e = []) then Some (Errorf "experiment timeline is empty" [])
                   else check_steps 0 (x_Timeline e)
               end
           end
  end.

(** [content] is what os.ReadFile answers, [decode] the YAML decoder. *)
Definition LoadFile (content : result string) (decode : string → result Experiment) : result Experiment :=
  match content with
  | Err e => Err (Wrapf "read experiment file: %w" [] e)
  | Ok raw =>
      match decode raw with
      | Err e => Err (Wrapf "parse experiment yaml: %w" [] e)
      | Ok exp =>
          let exp := Normalize exp in
          match Validate (Some exp) with Some e => Err e | None => Ok exp end
      end
  end.

(** ** command_parser.go *)

(** The index counts from 1. *)
Definition resolveMember (nodeIndex : Z) (c : ClusterConfig) : result (string * Z * string) :=
  if (nodeIndex <=? 0) then Err (Errorf "node index must be greater than zero" [])
  else
    match cc_Members c !! Z.to_nat (nodeIndex - 1) with
    | None => Err (Errorf "node index %d out of range for cluster.members" [AInt nodeIndex])
    | Some m =>
        let host := TrimSpace (m_Host m) in
        let host := if bool_decide (TrimSpace host = EmptyString) then "localhost" else host in
        Ok (m_ID m, m_Port m, host)
    end.

Definition resolveGroupNodeID (nodeID : string) (c : ClusterConfig) : result string :=
  let nodeID := TrimSpace nodeID in
  if bool_decide (nodeID = EmptyString) then Err (Errorf "node id is required" [])
  else if existsb (λ m, bool_decide (m_ID m = nodeID)) (cc_Members c) then Ok nodeID
  else Err (Errorf "node id %q not found in cluster.members" [AStr nodeID]).

(** [for i := 1; i <= len(members); i++] *)
Definition member_indices (c : ClusterConfig) : list Z := seqZ 1 (Z.of_nat (length (cc_Members c))).

Definition peer_item (c : ClusterConfig) (i : Z) : option string :=
  match resolveMember i c with
  | Ok (id, port, _) => Some (id +:+ ":" +:+ itoa port)
  | Err _ => None
  end.

Definition buildPeerList (nodeIndex : Z) (c : ClusterConfig) : string :=
  Join (omap (λ i, if (i =? nodeIndex) then None else peer_item c i) (member_indices c)) ",".

Definition start_node_line (clusterID cpHost : string) (cpPort : Z) (c : ClusterConfig) (i : Z) : option string :=
  match resolveMember i c with
  | Err _ => None
  | Ok (nodeID, port, host) =>
      Some ("start-node " +:+ nodeID +:+ " " +:+ itoa port +:+ " --cluster-id " +:+ clusterID +:+ " --host " +:+ host
            +:+ " --peers " +:+ buildPeerList i c +:+ " --cp-host " +:+ cpHost +:+ " --cp-port " +:+ itoa cpPort)
  end.

Definition compileStartClusterCommands (clusterID cpHost : string) (cpPort : Z) (c : ClusterConfig) : list string :=
  ("cp new-cluster " +:+ clusterID)
  :: ("log-lifecycle " +:+ clusterID +:+ " SYSTEM NODE_JOIN " +:+ quote +:+ "Starting cluster members" +:+ quote)
  :: omap (start_node_line clusterID cpHost cpPort c) (member_indices c).

(** The pairs of nodes of different groups, in the order of the four loops. *)
Fixpoint group_pairs (groups : list (list string)) : list (string * string) :=
  match groups with
  | [] => []
  | group :: rest => (other ← rest; l ← group; r ← other; [(l, r)]) ++ group_pairs rest
  end.

Definition partition_line (clusterID : string) (enabled : bool) (c : ClusterConfig) (pair : string * string) : result string :=
  leftNodeID ← resolveGroupNodeID pair.1 c;
  rightNodeID ← resolveGroupNodeID pair.2 c;
  Ok ("fault-partition " +:+ clusterID +:+ " " +:+ leftNodeID +:+ " " +:+ rightNodeID +:+ " " +:+ btoa enabled).

Definition compilePartitionCommands (clusterID : string) (groups : list (list string)) (enabled : bool) (c : ClusterConfig) :
    result (list string) :=
  if bool_decide (length groups < 2)%nat then Err (Errorf "partition actions require at least two groups" [])
  else result_mapM (partition_line clusterID enabled c) (group_pairs groups).

Definition parseGroupTarget (target : string) : result Z :=
  let trimmed := ToLower (TrimSpace target) in
  if negb (HasPrefix trimmed "group") then Err (Errorf "target %q must look like group1, group2, ..." [AStr target])
  else match Atoi (TrimPrefix trimmed "group") with
       | None => Err (Errorf "target %q is invalid" [AStr target])
       | Some index => Ok index
       end.

Definition resolveTargetGroupLeader (target : string) (groups : list (list string)) (c : ClusterConfig) : result string :=
  i ← parseGroupTarget target;
  if (i <? 1) || (Z.of_nat (length groups) <? i) then Err (Errorf "target %q is out of range" [AStr target])
  else match default [] (groups !! Z.to_nat (i - 1)) with
       | [] => Err (Errorf "target %q has no nodes" [AStr target])
       | leader :: _ => resolveGroupNodeID leader c
       end.

Definition resolveWriteTargets (target : string) (groups : list (list string)) (c : ClusterConfig) : result (list string) :=
  let trimmed := TrimSpace target in
  if bool_decide (trimmed = EmptyString) then Err (Errorf "target is required" []) else
  let lower := ToLower trimmed in
  if bool_decide (lower = "all") then
    if bool_decide (cc_Members c = []) then Err (Errorf "target %q requires cluster.members" [AStr target])
    else Ok (m_ID <$> cc_Members c)
  else if HasPrefix lower "group" then id ← resolveTargetGroupLeader trimmed groups c; Ok [id]
  else id ← resolveGroupNodeID trimmed c; Ok [id].

(** TimelineStep.compileCommands *)
Definition compileCommands (clusterID cpHost : string) (cpPort : Z) (c : ClusterConfig) (s : TimelineStep) :
    result (list string) :=
  let action := TrimSpace (st_Action s) in
  if bool_decide (action = "start_cluster") then Ok (compileStartClusterCommands clusterID cpHost cpPort c)
  else if bool_decide (action = "start_metrics_collection") then Ok ["metrics-start " +:+ clusterID]
  else if bool_decide (action = "partition") then
    cmds ← compilePartitionCommands clusterID (st_Groups s) true c;
    Ok (("log-lifecycle " +:+ clusterID +:+ " SYSTEM PARTITION " +:+ quote +:+ "Splitting cluster into "
         +:+ itoa (Z.of_nat (length (st_Groups s))) +:+ " partitions" +:+ quote) :: cmds)
  else if bool_decide (action = "heal_partition") then
    cmds ← compilePartitionCommands clusterID (st_Groups s) false c;
    Ok (("log-lifecycle " +:+ clusterID +:+ " SYSTEM HEAL " +:+ quote +:+ "Healing all network partitions" +:+ quote) :: cmds)
  else if bool_decide (action = "write") then
    ids ← resolveWriteTargets (st_Target s) (st_Groups s) c;
    Ok (map (λ id, "kv-put " +:+ clusterID +:+ " " +:+ id +:+ " " +:+ st_Key s +:+ " " +:+ st_Value s) ids)
  else if bool_decide (action = "read_all") then
    Ok (map (λ m, "kv-get " +:+ clusterID +:+ " " +:+ m_ID m +:+ " " +:+ st_Key s) (cc_Members c))
  else Err (Errorf "unknown action %q" [AStr (st_Action s)]).

(** The cluster id and the address of the control plane, with their defaults. *)
Definition option_cluster (opts : CompileOptions) (e : Experiment) : string :=
  let clusterID := TrimSpace (o_ClusterID opts) in
  let clusterID := if bool_decide (clusterID = EmptyString) then TrimSpace (cc_ID (x_Cluster e)) else clusterID in
  if bool_decide (clusterID = EmptyString) then x_Name e else clusterID.

Definition option_host (opts : CompileOptions) : string :=
  let host := TrimSpace (o_ControlPlaneHost opts) in
  if bool_decide (host = EmptyString) then "localhost" else host.

Definition option_port (opts : CompileOptions) : Z :=
  if (o_ControlPlanePort opts <=? 0) then 9091 else o_ControlPlanePort opts.

Definition compile_batch (opts : CompileOptions) (e : Experiment) (s : TimelineStep) : result CommandBatch :=
  commands ← compileCommands (option_cluster opts e) (option_host opts) (option_port opts) (x_Cluster e) s;
  Ok {| b_At := st_At s; b_Commands := commands |}.

(** Experiment.Compile; a nil experiment fails its validation. *)
Definition Compile (opts : CompileOptions) (e : option Experiment) : result (list CommandBatch) :=
  match Validate e, e with
  | Some err, _ => Err err
  | None, None => Err (Errorf "experiment is nil" [])
  | None, Some e => result_mapM (compile_batch opts e) (x_Timeline e)
  end.
