(* ===== verification/ExperimentProps.v ===== *)
(** * Properties of experiments

    What validation accepts, what normalisation does to a timeline, and that the
    command lines a valid experiment compiles to are read back as the commands
    its steps stand for. *)

From Stdlib Require Import Sorted SpecFloat.
From S2P Require Import Prelude GoStrings GoSort GoFloat GoTime Fault Commands CommandProps NodeConfig Experiment.

(** ** Valid experiments *)

(** A string with something besides white space. *)
Definition named (s : string) : Prop := TrimSpace s ≠ EmptyString.

Definition valid_step (s : TimelineStep) : Prop :=
  let action := TrimSpace (st_Action s) in
  action = "start_cluster" ∨ action = "start_metrics_collection" ∨
  ((action = "partition" ∨ action = "heal_partition") ∧ (2 ≤ length (st_Groups s))%nat ∧
     Forall (λ group, group ≠ [] ∧ Forall named group) (st_Groups s)) ∨
  (action = "write" ∧ named (st_Key s) ∧ named (st_Value s) ∧ named (st_Target s) ∧
     (HasPrefix (ToLower (TrimSpace (st_Target s))) "group" = true → st_Groups s ≠ [])) ∨
  (action = "read_all" ∧ named (st_Key s)).

Record valid_experiment (e : Experiment) : Prop := {
  valid_name : named (x_Name e);
  valid_cluster : named (cc_ID (x_Cluster e));
  valid_members : cc_Members (x_Cluster e) ≠ [];
  valid_member_ids : NoDup (m_ID <$> cc_Members (x_Cluster e));
  valid_member m : m ∈ cc_Members (x_Cluster e) → named (m_ID m) ∧ 0 < m_Port m;
  valid_timeline : x_Timeline e ≠ [];
  valid_steps s : s ∈ x_Timeline e → 0 ≤ st_At s ∧ valid_step s;
}.

Lemma blank_spec s : blank s = false ↔ named s.
Proof. unfold blank, named. apply bool_decide_eq_false. Qed.

(** A check that goes on when a test is false. *)
Lemma check_false (b : bool) (e : error) (k : option error) :
  (if b then Some e else k) = None ↔ b = false ∧ k = None.
Proof. by destruct b; naive_solver. Qed.

Lemma check_group_nodes_spec action i j group :
  check_group_nodes action i j group = None ↔ Forall named group.
Proof.
  revert j; induction group as [|id group IH]; intros j; cbn [check_group_nodes]; [by split|].
  by rewrite check_false, blank_spec, IH, Forall_cons.
Qed.

Lemma check_groups_spec action i groups :
  check_groups action i groups = None ↔ Forall (λ group, group ≠ [] ∧ Forall named group) groups.
Proof.
  revert i; induction groups as [|group groups IH]; intros i; cbn [check_groups]; [by split|].
  rewrite Forall_cons. destruct group as [|id group]; [naive_solver|].
  pose proof (check_group_nodes_spec action i 0 (id :: group)) as Hg.
  destruct (check_group_nodes action i 0 (id :: group)) as [e|]; [|rewrite IH; naive_solver].
  split; [done|]. intros [[_ Hn] _]. by apply Hg in Hn.
Qed.

Lemma step_Validate_spec s : step_Validate s = None ↔ valid_step s.
Proof.
  unfold step_Validate, valid_step. cbv zeta. set (action := TrimSpace (st_Action s)).
  case_bool_decide as H1; [naive_solver|]. case_bool_decide as H2; [naive_solver|].
  rewrite <-bool_decide_or. case_bool_decide as H3.
  { unfold step_error. rewrite check_false, check_groups_spec, bool_decide_eq_false, Nat.nlt_ge. split.
    - intros [? ?]. right; right; left. done.
    - intros [?|[?|[(_ & ? & ?)|[(Ha & _)|(Ha & _)]]]]; [done..| |]; rewrite Ha in H3; naive_solver. }
  case_bool_decide as H4.
  { unfold step_error. rewrite !check_false, !blank_spec, andb_false_iff, bool_decide_eq_false. split.
    - intros (? & ? & ? & Hg & _). right; right; right; left. split_and!; try done. destruct Hg; [congruence|done].
    - intros [?|[?|[[? _]|[(_ & ? & ? & ? & Hg)|(Ha & _)]]]]; [done..| |rewrite Ha in H4; done].
      split_and!; try done. destruct (HasPrefix _ _); [right; by apply Hg|by left]. }
  case_bool_decide as H5; [|naive_solver].
  unfold step_error. rewrite check_false, blank_spec. naive_solver.
Qed.

Lemma check_members_spec i seen ms :
  check_members i seen ms = None ↔
  NoDup (m_ID <$> ms) ∧ ∀ m, m ∈ ms → named (m_ID m) ∧ 0 < m_Port m ∧ m_ID m ∉ seen.
Proof.
  revert i seen; induction ms as [|m ms IH]; intros i seen; cbn [check_members].
  { split; [|done]. intros _. split; [constructor|]. by intros m ?%elem_of_nil. }
  rewrite !check_false, blank_spec, Z.leb_gt, bool_decide_eq_false, IH, fmap_cons, NoDup_cons, list_elem_of_fmap.
  setoid_rewrite elem_of_cons. setoid_rewrite not_elem_of_union. setoid_rewrite not_elem_of_singleton. split.
  - intros (? & ? & ? & Hnd & Hms). split_and!; [|done|intros m' [->|Hin]; [done|naive_solver]].
    intros (m' & Heq & Hin). apply Hms in Hin as (_ & _ & ? & _). done.
  - intros [[Hni Hnd] Hms]. destruct (Hms m) as (? & ? & ?); [by left|]. split_and!; try done.
    intros m' Hin. destruct (Hms m') as (? & ? & ?); [by right|]. split_and!; try done. intros ?. apply Hni. by exists m'.
Qed.

Lemma check_steps_spec i steps :
  check_steps i steps = None ↔ ∀ s, s ∈ steps → 0 ≤ st_At s ∧ valid_step s.
Proof.
  revert i; induction steps as [|s steps IH]; intros i; cbn [check_steps].
  { split; [|done]. intros _ s ?%elem_of_nil. done. }
  setoid_rewrite elem_of_cons. rewrite !check_false, Z.ltb_ge, blank_spec.
  pose proof (step_Validate_spec s) as Hs. split.
  - intros (? & ? & Hk) s' [->|Hin]; [split; [done|]; apply Hs; by destruct (step_Validate s)|].
    destruct (step_Validate s); [done|]. rewrite IH in Hk. by apply Hk.
  - intros Hall. destruct (Hall s) as [? Hv]; [by left|]. split_and!; [done| |].
    + destruct Hv as [Ha|[Ha|[([Ha|Ha] & _)|[(Ha & _)|(Ha & _)]]]]; unfold named; by rewrite Ha.
    + apply Hs in Hv as ->. apply IH. intros s' Hin. apply Hall. by right.
Qed.

Lemma Validate_valid e : Validate (Some e) = None ↔ valid_experiment e.
Proof.
  unfold Validate. rewrite !check_false, !blank_spec.
  assert (Hm : ∀ k : option error, match cc_Members (x_Cluster e) with
      | [] => Some (Errorf "cluster.members is required" [])
      | m :: ms => match check_members 0 ∅ (m :: ms) with Some err => Some err | None => k end
      end = None ↔ cc_Members (x_Cluster e) ≠ [] ∧ check_members 0 ∅ (cc_Members (x_Cluster e)) = None ∧ k = None).
  { intros k. destruct (cc_Members (x_Cluster e)) as [|m ms]; [naive_solver|]. destruct (check_members 0 ∅ (m :: ms)); naive_solver. }
  rewrite Hm, check_members_spec, check_false, bool_decide_eq_false, check_steps_spec. split.
  - intros (? & ? & ? & (? & Hms) & ? & ?). split; try done. intros m Hin. destruct (Hms m Hin) as (? & ? & _). done.
  - intros [? ? ? ? Hms ? ?]. split_and!; try done. intros m Hin. destruct (Hms m Hin). split_and!; [done..|]. apply not_elem_of_empty.
Qed.

Lemma valid_Normalize e : valid_experiment (Normalize e) ↔ valid_experiment e.
Proof.
  split; intros [? ? ? ? ? Ht Hs]; split; cbn in *; try done.
  - intros Hn. by rewrite Hn in Ht.
  - intros s. rewrite <-(SliceStable_perm st_At (x_Timeline e)). apply Hs.
  - intros Hn. apply Ht. apply Permutation_nil_r. by rewrite <-Hn, SliceStable_perm.
  - intros s. rewrite SliceStable_perm. apply Hs.
Qed.

(** ** Properties: loading *)

(** C18: Loading a file succeeds exactly when the file can be read and decoded and
    describes a valid experiment; what is loaded is that experiment with its
    timeline in the order of time, steps of equal times in the order of the
    file. *)
Theorem LoadFile_spec content decode exp :
  LoadFile content decode = Ok exp ↔
  ∃ raw e, content = Ok raw ∧ decode raw = Ok e ∧ valid_experiment e ∧
    x_Name exp = x_Name e ∧ x_Cluster exp = x_Cluster e ∧
    StronglySorted (by_key st_At) (x_Timeline exp) ∧
    ∀ t, filter (λ s, st_At s = t) (x_Timeline exp) = filter (λ s, st_At s = t) (x_Timeline e).
Proof.
  unfold LoadFile. destruct content as [raw|e]; [|by split; [|intros (? & ? & ? & _)]].
  destruct (decode raw) as [e|err] eqn:Hd; [|split; [done|intros (? & ? & [= <-] & He & _); congruence]].
  cbv zeta. pose proof (Validate_valid (Normalize e)) as Hv. rewrite valid_Normalize in Hv. split.
  - intros Hl. exists raw, e. destruct (Validate _) as [|]; [done|]. injection Hl as <-.
    split_and!; [done|done|by apply Hv|done|done|apply SliceStable_sorted|intros t; apply SliceStable_stable].
  - intros (raw' & e' & [= <-] & He & Hve & Hn & Hc & Hs & Hf). rewrite Hd in He. injection He as <-.
    apply Hv in Hve as ->. f_equal. destruct exp as [name cluster timeline]. cbn in *. unfold Normalize. subst. f_equal.
    apply (sorted_unique st_At); [apply SliceStable_sorted|done|]. intros t. by rewrite SliceStable_stable, Hf.
Qed.

(** ** The commands a step stands for *)

Definition lifecycle (clusterID type text : string) : Command :=
  (NewCommand CmdLogLifecycleEvent) <| cmd_ClusterID := clusterID |> <| cmd_NodeID := "SYSTEM" |>
    <| cmd_EventType := type |> <| cmd_Value := text |>.

Definition start_command (clusterID cpHost : string) (cpPort : Z) (c : ClusterConfig) (i : Z) : option Command :=
  match resolveMember i c with
  | Err _ => None
  | Ok (id, port, host) =>
      Some (NewCommand CmdStartNodeProcess) <| cmd_NodeID := id |> <| cmd_Port := port |> <| cmd_ClusterID := clusterID |>
        <| cmd_Host := host |> <| cmd_PeersCSV := buildPeerList i c |> <| cmd_CPHost := cpHost |> <| cmd_CPPort := cpPort |>
  end.

Definition partition_command (clusterID : string) (enabled : bool) (c : ClusterConfig) (pair : string * string) : result Command :=
  l ← resolveGroupNodeID pair.1 c;
  r ← resolveGroupNodeID pair.2 c;
  Ok (NewCommand CmdSetPartition) <| cmd_ClusterID := clusterID |> <| cmd_NodeID := l |> <| cmd_PeerID := r |>
       <| cmd_Enabled := enabled |>.

Definition partition_intent (clusterID : string) (groups : list (list string)) (enabled : bool) (c : ClusterConfig) :
    result (list Command) :=
  if bool_decide (length groups < 2)%nat then Err (Errorf "partition actions require at least two groups" [])
  else result_mapM (partition_command clusterID enabled c) (group_pairs groups).

Definition put_command (clusterID key value id : string) : Command :=
  (NewCommand CmdKVPut) <| cmd_ClusterID := clusterID |> <| cmd_NodeID := id |> <| cmd_Key := key |> <| cmd_Value := value |>.
Definition get_command (clusterID key id : string) : Command :=
  (NewCommand CmdKVGet) <| cmd_ClusterID := clusterID |> <| cmd_NodeID := id |> <| cmd_Key := key |>.

(** What a step asks for, as commands. *)
Definition step_intent (clusterID cpHost : string) (cpPort : Z) (c : ClusterConfig) (s : TimelineStep) : result (list Command) :=
  let action := TrimSpace (st_Action s) in
  if bool_decide (action = "start_cluster") then
    Ok ((NewCommand CmdCreateCluster) <| cmd_ClusterID := clusterID |> <| cmd_Protocol := "gossip" |>
        :: lifecycle clusterID "NODE_JOIN" "Starting cluster members"
        :: omap (start_command clusterID cpHost cpPort c) (member_indices c))
  else if bool_decide (action = "start_metrics_collection") then
    Ok [(NewCommand CmdMetricsStart) <| cmd_ClusterID := clusterID |>]
  else if bool_decide (action = "partition") then
    cmds ← partition_intent clusterID (st_Groups s) true c;
    Ok (lifecycle clusterID "PARTITION"
          ("Splitting cluster into " +:+ itoa (Z.of_nat (length (st_Groups s))) +:+ " partitions") :: cmds)
  else if bool_decide (action = "heal_partition") then
    cmds ← partition_intent clusterID (st_Groups s) false c;
    Ok (lifecycle clusterID "HEAL" "Healing all network partitions" :: cmds)
  else if bool_decide (action = "write") then
    ids ← resolveWriteTargets (st_Target s) (st_Groups s) c;
    Ok (map (put_command clusterID (st_Key s) (st_Value s)) ids)
  else if bool_decide (action = "read_all") then
    Ok (map (λ m, get_command clusterID (st_Key s) (m_ID m)) (cc_Members c))
  else Err (Errorf "unknown action %q" [AStr (st_Action s)]).

(** A line that the runtime reads as a command. *)
Definition reads_as (line : string) (c : Command) : Prop := runtime_command line = Ok (Some c).

(** ** Related results: both fail alike, or both succeed with related values. *)
Definition result_rel {A B} (R : A → B → Prop) (r1 : result A) (r2 : result B) : Prop :=
  match r1, r2 with
  | Ok a, Ok b => R a b
  | Err e1, Err e2 => e1 = e2
  | _, _ => False
  end.

Lemma result_rel_bind {A B A' B'} (R : A → B → Prop) (R' : A' → B' → Prop) r1 r2 (f : A → result A') (g : B → result B') :
  result_rel R r1 r2 → (∀ a b, r1 = Ok a → r2 = Ok b → R a b → result_rel R' (f a) (g b)) →
  result_rel R' (r1 ≫= f) (r2 ≫= g).
Proof. destruct r1, r2; cbn; try done. intros HR Hf. by apply Hf. Qed.

Lemma result_rel_refl {A} (r : result A) : result_rel eq r r.
Proof. by destruct r. Qed.

Lemma result_rel_mapM {A B C} (R : B → C → Prop) (f : A → result B) (g : A → result C) l :
  (∀ x, x ∈ l → result_rel R (f x) (g x)) → result_rel (Forall2 R) (result_mapM f l) (result_mapM g l).
Proof.
  induction l as [|x l IH]; intros Hfg; cbn [result_mapM]; [by constructor|].
  pose proof (Hfg x ltac:(by left)) as Hx. specialize (IH (λ y Hy, Hfg y (list_elem_of_further _ _ _ Hy))).
  destruct (f x), (g x); cbn in Hx; try done.
  destruct (result_mapM f l), (result_mapM g l); cbn in IH |- *; try done. by constructor.
Qed.

Lemma result_mapM_Err {A B} (f : A → result B) l e : result_mapM f l = Err e → ∃ x, x ∈ l ∧ f x = Err e.
Proof.
  induction l as [|x l IH]; cbn [result_mapM]; [done|]. destruct (f x) eqn:Hx; cbn; [|intros [= <-]; exists x; by split; [left|]].
  destruct (result_mapM f l); cbn; [done|]. intros [= <-]. destruct IH as (y & ? & ?); [done|]. exists y. by split; [right|].
Qed.

(** ** Words *)

Lemma word_app s t :
  word s → no_space t = true → (if t is String a _ then (byte_of a <? 0x80)%N else true) = true → word (s +:+ t).
Proof.
  intros Hs Ht Ha. unfold is_word. rewrite no_space_app; [|done|by apply word_no_space|done].
  apply word_non_empty in Hs. by destruct s.
Qed.

Lemma word_Join w ws : forallb is_word (w :: ws) = true → word (Join (w :: ws) ",").
Proof.
  revert w; induction ws as [|w' ws IH]; intros w [Hw Hws]%andb_true_iff; [done|].
  rewrite Join_cons2. apply word_app; [done| |done]. change ("," +:+ ?x) with (String "," x). cbn [no_space].
  specialize (IH w' Hws). apply word_no_space in IH. rewrite IH, andb_true_r. by destruct (Join (w' :: ws) ",") as [|? [|? ?]].
Qed.

Lemma word_colon s n : word s → word (s +:+ ":" +:+ itoa n).
Proof.
  intros Hs. apply word_app; [done| |done]. change (":" +:+ ?x) with (String ":" x). cbn [no_space].
  rewrite (word_no_space (itoa n)), andb_true_r by apply itoa_word. by destruct (itoa n) as [|? [|? ?]].
Qed.

Lemma filter_words ws : forallb is_word ws = true → List.filter non_empty ws = ws.
Proof.
  induction ws as [|w ws IH]; [done|]. cbn [forallb List.filter]. intros [[Hw _]%andb_true_iff Hws]%andb_true_iff.
  by rewrite Hw, IH.
Qed.

(** ** Names a command line can carry *)

Definition member_host (m : ClusterMember) : string :=
  let host := TrimSpace (m_Host m) in if bool_decide (TrimSpace host = EmptyString) then "localhost" else host.

(** Words for names and addresses, ports that fit an int. *)
Record plain_cluster (clusterID cpHost : string) (cpPort : Z) (c : ClusterConfig) : Prop := {
  plain_id : word clusterID;
  plain_cp_host : word cpHost;
  plain_cp_port : in_i64 cpPort;
  plain_member m : m ∈ cc_Members c → word (m_ID m) ∧ word (member_host m) ∧ in_i64 (m_Port m);
}.

Definition plain_step (c : ClusterConfig) (s : TimelineStep) : Prop :=
  (TrimSpace (st_Action s) = "start_cluster" → (2 ≤ length (cc_Members c))%nat) ∧
  (TrimSpace (st_Action s) = "write" → word (st_Key s) ∧ word (st_Value s)) ∧
  (TrimSpace (st_Action s) = "read_all" → word (st_Key s)).

Lemma resolveMember_spec i c :
  match resolveMember i c with
  | Ok (id, port, host) => 1 ≤ i ∧ ∃ m, cc_Members c !! Z.to_nat (i - 1) = Some m ∧ id = m_ID m ∧ port = m_Port m ∧ host = member_host m
  | Err _ => i < 1 ∨ cc_Members c !! Z.to_nat (i - 1) = None
  end.
Proof.
  unfold resolveMember. destruct (Z.leb_spec i 0); [lia|].
  destruct (cc_Members c !! Z.to_nat (i - 1)) as [m|]; [|by right]. split; [lia|]. by exists m.
Qed.

(** The members and their numbers. *)
Lemma member_indices_spec c i : i ∈ member_indices c ↔ ∃ m, cc_Members c !! Z.to_nat (i - 1) = Some m ∧ 1 ≤ i.
Proof.
  unfold member_indices. rewrite elem_of_seqZ. split.
  - intros Hi. destruct (lookup_lt_is_Some_2 (cc_Members c) (Z.to_nat (i - 1))) as [m Hm]; [lia|]. exists m. split; [done|lia].
  - intros (m & Hm & Hi). apply lookup_lt_Some in Hm. lia.
Qed.

Lemma resolveGroupNodeID_member id c r : resolveGroupNodeID id c = Ok r → ∃ m, m ∈ cc_Members c ∧ m_ID m = r.
Proof.
  unfold resolveGroupNodeID. case_bool_decide; [done|]. destruct (existsb _ _) eqn:He; [|done]. intros [= <-].
  apply existsb_elem_of in He as (m & Hm & Heq%bool_decide_eq_true). by exists m.
Qed.

Lemma resolveWriteTargets_members target groups c ids :
  resolveWriteTargets target groups c = Ok ids → Forall (λ id, ∃ m, m ∈ cc_Members c ∧ m_ID m = id) ids.
Proof.
  unfold resolveWriteTargets. case_bool_decide; [done|]. cbv zeta. case_bool_decide.
  - case_bool_decide; [done|]. intros [= <-]. apply Forall_fmap, Forall_forall. intros m Hm. by exists m.
  - destruct (HasPrefix _ _).
    + intros (id & Hid & [= <-])%result_bind_Ok. constructor; [|done].
      unfold resolveTargetGroupLeader in Hid. apply result_bind_Ok in Hid as (i & _ & Hid). destruct (_ || _); [done|].
      destruct (default [] _) as [|l ls]; [done|]. by apply resolveGroupNodeID_member in Hid.
    + intros (id & Hid & [= <-])%result_bind_Ok. constructor; [|done]. by apply resolveGroupNodeID_member in Hid.
Qed.

Section Lines.
Context (clusterID cpHost : string) (cpPort : Z) (c : ClusterConfig).
Context (Hplain : plain_cluster clusterID cpHost cpPort c).

Lemma member_word id : (∃ m, m ∈ cc_Members c ∧ m_ID m = id) → word id.
Proof. intros (m & Hm & <-). by apply (plain_member _ _ _ _ Hplain). Qed.

(** The peers of a member: a word, when the cluster has two members. *)
Lemma peer_items_words i : forallb is_word (omap (λ j, if (j =? i) then None else peer_item c j) (member_indices c)) = true.
Proof.
  apply forallb_elem_of. intros w (j & Hj & Hw)%list_elem_of_omap. destruct (j =? i); [done|].
  unfold peer_item in Hw. pose proof (resolveMember_spec j c) as Hr. destruct (resolveMember j c) as [[[id port] host]|]; [|done].
  injection Hw as <-. destruct Hr as (_ & m & Hm & -> & -> & _). apply word_colon, member_word. exists m. split; [|done].
  by apply list_elem_of_lookup_2 in Hm.
Qed.

Lemma buildPeerList_word i : (2 ≤ length (cc_Members c))%nat → word (buildPeerList i c).
Proof.
  intros Hlen. unfold buildPeerList. pose proof (peer_items_words i) as Hw.
  destruct (omap _ _) as [|w ws] eqn:Ho; [|by apply word_Join]. exfalso.
  assert (∃ j, j ∈ member_indices c ∧ j ≠ i) as (j & Hj & Hne).
  { destruct (decide (i = 1)) as [->|Hi]; [exists 2|exists 1]; unfold member_indices; rewrite elem_of_seqZ; lia. }
  assert (is_Some (peer_item c j)) as [p Hp].
  { apply member_indices_spec in Hj as (m & Hm & Hj). unfold peer_item. pose proof (resolveMember_spec j c) as Hr.
    destruct (resolveMember j c) as [[[? ?] ?]|]; [by eexists|]. destruct Hr; [lia|congruence]. }
  assert (p ∈ omap (λ j, if (j =? i) then None else peer_item c j) (member_indices c)) as Hin.
  { apply list_elem_of_omap. exists j. split; [done|]. by rewrite (proj2 (Z.eqb_neq j i)). }
  rewrite Ho in Hin. by apply elem_of_nil in Hin.
Qed.

Lemma read_put id key value :
  word id → word key → word value →
  reads_as ("kv-put " +:+ clusterID +:+ " " +:+ id +:+ " " +:+ key +:+ " " +:+ value) (put_command clusterID key value id).
Proof.
  intros Hi Hk Hv. apply (runtime_render EmptyString (put_command clusterID key value id)).
  constructor; [by apply Hplain|done..].
Qed.

Lemma read_get id key :
  word id → word key → reads_as ("kv-get " +:+ clusterID +:+ " " +:+ id +:+ " " +:+ key) (get_command clusterID key id).
Proof.
  intros Hi Hk. apply (runtime_render EmptyString (get_command clusterID key id)). constructor; [by apply Hplain|done..].
Qed.

Lemma read_partition b pair : result_rel reads_as (partition_line clusterID b c pair) (partition_command clusterID b c pair).
Proof.
  destruct pair as [i j]. unfold partition_line, partition_command. cbn [fst snd].
  apply (result_rel_bind eq); [apply result_rel_refl|]. intros l ? Hl%resolveGroupNodeID_member%member_word _ <-.
  apply (result_rel_bind eq); [apply result_rel_refl|]. intros r ? Hr%resolveGroupNodeID_member%member_word _ <-.
  unfold result_rel, reads_as. match goal with |- runtime_command ?line = Ok (Some ?cmd) => assert (line = render EmptyString cmd) as -> by (by destruct b) end.
  apply runtime_render. constructor; [by apply Hplain|done..].
Qed.

Lemma read_lifecycle line type text ws :
  line = Join (["log-lifecycle"; clusterID; "SYSTEM"; type] ++ ws) " " →
  word type → ws ≠ [] → forallb is_word ws = true → text = TrimByte (Join ws " ") quote_char →
  reads_as line (lifecycle clusterID type text).
Proof.
  intros -> Ht Hne Hws ->. cbn [app]. unfold reads_as. rewrite runtime_command_words; [|cbn [forallb]|done].
  - destruct ws; [done|]. reflexivity.
  - by rewrite (plain_id _ _ _ _ Hplain), Ht, Hws.
Qed.

Lemma read_create :
  reads_as ("cp new-cluster " +:+ clusterID) ((NewCommand CmdCreateCluster) <| cmd_ClusterID := clusterID |> <| cmd_Protocol := "gossip" |>).
Proof.
  change ("cp new-cluster " +:+ clusterID) with ("cp " +:+ Join ["new-cluster"; clusterID] " ").
  unfold reads_as. rewrite runtime_command_cp; [done|]. cbn [forallb]. by rewrite (plain_id _ _ _ _ Hplain).
Qed.

Lemma read_metrics : reads_as ("metrics-start " +:+ clusterID) ((NewCommand CmdMetricsStart) <| cmd_ClusterID := clusterID |>).
Proof.
  change ("metrics-start " +:+ clusterID) with (Join ["metrics-start"; clusterID] " ").
  unfold reads_as. rewrite runtime_command_words; [done| |done]. cbn [forallb]. by rewrite (plain_id _ _ _ _ Hplain).
Qed.

Lemma read_start i :
  (2 ≤ length (cc_Members c))%nat → i ∈ member_indices c →
  ∃ line cmd, start_node_line clusterID cpHost cpPort c i = Some line ∧ start_command clusterID cpHost cpPort c i = Some cmd ∧
    reads_as line cmd.
Proof.
  intros Hlen (m & Hm & Hi)%member_indices_spec. unfold start_node_line, start_command.
  pose proof (resolveMember_spec i c) as Hr.
  destruct (resolveMember i c) as [[[id port] host]|]; [|destruct Hr; [lia|congruence]].
  destruct Hr as (_ & m' & Hm' & -> & -> & ->). rewrite Hm in Hm'. injection Hm' as <-.
  apply list_elem_of_lookup_2 in Hm. destruct (plain_member _ _ _ _ Hplain m Hm) as (Hid & Hh & Hp).
  pose proof (buildPeerList_word i Hlen) as Hpl. pose proof (plain_cp_host _ _ _ _ Hplain) as Hch.
  do 2 eexists. split_and!; [reflexivity..|]. unfold reads_as.
  match goal with |- runtime_command ?l = Ok (Some ?cmd) => assert (l = render EmptyString cmd) as -> end.
  { unfold render. cbn [render_words]. unfold render_words, option_words. cbn -[Join itoa buildPeerList String.append].
    rewrite (bool_decide_false (buildPeerList i c = EmptyString)) by by apply word_non_empty.
    rewrite (bool_decide_false (cpHost = EmptyString)) by by apply word_non_empty. reflexivity. }
  apply runtime_render. constructor; try done; [by apply Hplain|by right|by right|by apply Hplain].
Qed.

Lemma Forall2_omap {A B C} (R : B → C → Prop) (f : A → option B) (g : A → option C) l :
  (∀ x, x ∈ l → ∃ y z, f x = Some y ∧ g x = Some z ∧ R y z) → Forall2 R (omap f l) (omap g l).
Proof.
  induction l as [|x l IH]; intros Hfg; [constructor|]. destruct (Hfg x) as (y & z & Hf & Hg & HR); [by left|]. cbn.
  rewrite Hf, Hg. constructor; [done|]. apply IH. intros x' Hx'. apply Hfg. by right.
Qed.

Lemma splitting_text n :
  "Splitting cluster into " +:+ itoa n +:+ " partitions" =
  TrimByte (Join [quote +:+ "Splitting"; "cluster"; "into"; itoa n; "partitions" +:+ quote] " ") quote_char.
Proof.
  assert (trim_byte_left quote_char (Join [quote +:+ "Splitting"; "cluster"; "into"; itoa n; "partitions" +:+ quote] " ") =
    ("Splitting cluster into " +:+ itoa n) +:+ String " " ("partitions" +:+ quote)) as Hl.
  { rewrite <-append_assoc. reflexivity. }
  unfold TrimByte. rewrite Hl, trim_byte_right_app by done. by rewrite <-append_assoc.
Qed.

(** The lines of one step. *)
Lemma compileCommands_reads s :
  plain_step c s →
  result_rel (Forall2 reads_as) (compileCommands clusterID cpHost cpPort c s) (step_intent clusterID cpHost cpPort c s).
Proof.
  intros (Hstart & Hwrite & Hread). unfold compileCommands, step_intent. cbv zeta. set (action := TrimSpace (st_Action s)) in *.
  case_bool_decide as H1.
  { constructor; [apply read_create|]. constructor.
    - apply (read_lifecycle _ _ _ [quote +:+ "Starting"; "cluster"; "members" +:+ quote]); done.
    - apply Forall2_omap. intros i. apply read_start. by apply Hstart. }
  case_bool_decide as H2; [constructor; [apply read_metrics|constructor]|].
  assert (Hpart : ∀ b, result_rel (Forall2 reads_as) (compilePartitionCommands clusterID (st_Groups s) b c)
    (partition_intent clusterID (st_Groups s) b c)).
  { intros b. unfold compilePartitionCommands, partition_intent. case_bool_decide; [done|].
    apply result_rel_mapM. intros pair _. apply read_partition. }
  case_bool_decide as H3.
  { apply (result_rel_bind (Forall2 reads_as)); [apply Hpart|]. intros ls cmds _ _ Hl. constructor; [|done].
    apply (read_lifecycle _ "PARTITION" _ [quote +:+ "Splitting"; "cluster"; "into"; itoa (Z.of_nat (length (st_Groups s))); "partitions" +:+ quote]);
      [reflexivity|done|done| |].
    - cbn [forallb]. by rewrite itoa_word.
    - apply splitting_text. }
  case_bool_decide as H4.
  { apply (result_rel_bind (Forall2 reads_as)); [apply Hpart|]. intros ls cmds _ _ Hl. constructor; [|done].
    apply (read_lifecycle _ "HEAL" _ [quote +:+ "Healing"; "all"; "network"; "partitions" +:+ quote]); done. }
  case_bool_decide as H5.
  { destruct (Hwrite H5) as [Hk Hv]. apply (result_rel_bind eq); [apply result_rel_refl|].
    intros ids ? Hids%resolveWriteTargets_members _ <-. cbn. apply Forall2_fmap, Forall_Forall2_diag.
    eapply Forall_impl; [exact Hids|]. intros id Hid. cbn. apply read_put; [by apply member_word|done..]. }
  case_bool_decide as H6; [|done].
  cbn. apply Forall2_fmap, Forall_Forall2_diag, Forall_forall. intros m Hm. cbn. apply read_get; [|by apply Hread].
  apply member_word. by exists m.
Qed.
End Lines.

(** ** The batches of the steps *)

(** What a batch has to do with a step. *)
Definition batch_means (clusterID cpHost : string) (cpPort : Z) (c : ClusterConfig) (s : TimelineStep) :
    result (Z * list Command) :=
  cmds ← step_intent clusterID cpHost cpPort c s; Ok (st_At s, cmds).

Lemma Compile_reads opts e :
  valid_experiment e →
  plain_cluster (option_cluster opts e) (option_host opts) (option_port opts) (x_Cluster e) →
  (∀ s, s ∈ x_Timeline e → plain_step (x_Cluster e) s) →
  result_rel (Forall2 (λ b '(at_, cmds), b_At b = at_ ∧ Forall2 reads_as (b_Commands b) cmds))
    (Compile opts (Some e))
    (result_mapM (batch_means (option_cluster opts e) (option_host opts) (option_port opts) (x_Cluster e)) (x_Timeline e)).
Proof.
  intros Hv%Validate_valid Hp Hs. unfold Compile. rewrite Hv. apply result_rel_mapM. intros s Hin.
  unfold compile_batch, batch_means.
  eapply (result_rel_bind (Forall2 reads_as)); [by apply compileCommands_reads, Hs|].
  intros lines cmds _ _ Hl. by split.
Qed.

(** ** The peers of a started node *)

Lemma parsePeer_item id port :
  peer_word id = true → 0 < port < two63 →
  parsePeer (id +:+ ":" +:+ itoa port) = Ok {| peer_ID := id; peer_Host := "localhost"; peer_Port := port |}.
Proof.
  intros Hi Hport. destruct (peer_word_trim _ Hi) as [Ht Hn]. apply andb_true_iff in Hi as [_ Hi].
  assert (str_forallb plain (id +:+ ":" +:+ itoa port) = true) as Hpl.
  { by rewrite !str_forallb_app, peer_byte_plain, itoa_plain. }
  assert (byte_free "@" (id +:+ ":" +:+ itoa port) = true) as Hat.
  { unfold byte_free. rewrite !str_forallb_app, !andb_true_iff.
    split_and!; [by apply peer_byte_spec; [set_solver|]|done|by apply itoa_byte_free]. }
  unfold parsePeer. rewrite TrimSpace_no_space by by apply plain_no_space.
  unfold ContainsByte. rewrite IndexByte_free by done. cbn [mbind result_bind].
  change (":" +:+ ?x) with (String ":" x).
  rewrite Split_app by (apply peer_byte_spec; [set_solver|done]). rewrite Split_free by by apply itoa_byte_free.
  rewrite Ht, bool_decide_false by done. rewrite (TrimSpace_no_space (itoa _)) by (apply plain_no_space, itoa_plain).
  rewrite Atoi_itoa by (unfold in_i64, two63 in *; lia). destruct (Z.leb_spec port 0); [lia|].
  by rewrite bool_decide_true.
Qed.

(** The peer a node is told about: its host is left out. *)
Definition told_peer (m : ClusterMember) : Peer :=
  {| peer_ID := m_ID m; peer_Host := "localhost"; peer_Port := m_Port m |}.

Definition wf_member (m : ClusterMember) : Prop := peer_word (m_ID m) = true ∧ 0 < m_Port m < two63.

Lemma parsePeers_items ms :
  Forall wf_member ms →
  parsePeers (Join (map (λ m, m_ID m +:+ ":" +:+ itoa (m_Port m)) ms) ",") = Ok (told_peer <$> ms).
Proof.
  intros Hms. unfold parsePeers. destruct ms as [|m ms]; [done|]. rewrite Forall_forall in Hms.
  set (item := λ m, m_ID m +:+ ":" +:+ itoa (m_Port m)).
  assert (Hplain : ∀ q, q ∈ m :: ms → str_forallb plain (item q) = true).
  { intros q Hq. destruct (Hms q Hq) as [Hi _]. apply andb_true_iff in Hi as [_ Hi].
    unfold item. by rewrite !str_forallb_app, peer_byte_plain, itoa_plain. }
  rewrite TrimSpace_no_space.
  2: { apply plain_no_space, str_forallb_Join; [done|]. apply forallb_elem_of.
       intros s (q & -> & Hq)%list_elem_of_fmap. by apply Hplain. }
  rewrite bool_decide_false.
  2: { apply Join_non_empty. unfold item. destruct (Hms m) as [Hi _]; [by left|]. by destruct (m_ID m). }
  rewrite Split_Join; [|done|].
  - apply result_mapM_Ok. apply Forall2_fmap, Forall_Forall2_diag, Forall_forall. intros q Hq.
    destruct (Hms q Hq). by apply parsePeer_item.
  - apply forallb_elem_of. intros s (q & -> & Hq)%list_elem_of_fmap. destruct (Hms q Hq) as [Hi _].
    apply andb_true_iff in Hi as [_ Hi]. unfold byte_free, item. rewrite !str_forallb_app, !andb_true_iff.
    split_and!; [by apply peer_byte_spec; [set_solver|]|done|by apply itoa_byte_free].
Qed.

Lemma peer_item_lookup c j m :
  cc_Members c !! j = Some m → peer_item c (Z.of_nat j + 1) = Some (m_ID m +:+ ":" +:+ itoa (m_Port m)).
Proof.
  intros Hm. unfold peer_item. pose proof (resolveMember_spec (Z.of_nat j + 1) c) as Hr.
  replace (Z.to_nat (Z.of_nat j + 1 - 1)) with j in Hr by lia. rewrite Hm in Hr.
  destruct (resolveMember _ c) as [[[id port] host]|]; [|destruct Hr; [lia|done]].
  by destruct Hr as (_ & m' & [= <-] & -> & -> & _).
Qed.

(** The loop over the members, from the [off]-th on. *)
Lemma peer_list_from c i off l :
  (∀ k, l !! k = cc_Members c !! (off + k)%nat) →
  omap (λ j, if (j =? Z.of_nat i + 1) then None else peer_item c j) (seqZ (Z.of_nat off + 1) (Z.of_nat (length l))) =
  map (λ m, m_ID m +:+ ":" +:+ itoa (m_Port m)) (if decide (off ≤ i)%nat then delete (i - off)%nat l else l).
Proof.
  revert off; induction l as [|m l IH]; intros off Hl; [by destruct (decide (off ≤ i)%nat)|].
  rewrite seqZ_cons by (cbn; lia). cbn [omap list_omap].
  pose proof (Hl 0%nat) as Hm; cbn in Hm; rewrite Nat.add_0_r in Hm; symmetry in Hm.
  replace (Z.succ (Z.of_nat off + 1)) with (Z.of_nat (S off) + 1) by lia.
  replace (Z.pred (Z.of_nat (length (m :: l)))) with (Z.of_nat (length l)) by (cbn; lia).
  rewrite IH by (intros k; specialize (Hl (S k)); change (l !! k = cc_Members c !! (off + S k)%nat) in Hl; rewrite Hl; f_equal; lia).
  destruct (Z.eqb_spec (Z.of_nat off + 1) (Z.of_nat i + 1)) as [Heq|Hne].
  - assert (off = i) as -> by lia. rewrite decide_False, decide_True by lia. by rewrite Nat.sub_diag.
  - rewrite (peer_item_lookup c off m Hm). destruct (decide (off ≤ i)%nat).
    + rewrite decide_True by lia. replace (i - off)%nat with (S (i - S off)) by lia. done.
    + by rewrite decide_False by lia.
Qed.

Lemma buildPeerList_delete c i :
  buildPeerList (Z.of_nat i + 1) c = Join (map (λ m, m_ID m +:+ ":" +:+ itoa (m_Port m)) (delete i (cc_Members c))) ",".
Proof.
  unfold buildPeerList, member_indices. f_equal. pose proof (peer_list_from c i 0 (cc_Members c) (λ _, eq_refl)) as Hl.
  rewrite decide_True, Nat.sub_0_r in Hl by lia. exact Hl.
Qed.

(** The configuration a node process makes of its command: all the other members
    of the cluster are its peers, under their ids and ports, on localhost. *)
Lemma started_node_peers clusterID cpHost cpPort c i m cmd :
  Forall wf_member (cc_Members c) → cc_Members c !! i = Some m →
  start_command clusterID cpHost cpPort c (Z.of_nat i + 1) = Some cmd →
  ∃ cfg, NodeConfig.NewConfig (cmd_NodeID cmd) (cmd_Port cmd) (cmd_PeersCSV cmd) = Ok cfg ∧
    cfg_ID cfg = m_ID m ∧ cfg_Port cfg = m_Port m ∧ cfg_Peers cfg = told_peer <$> delete i (cc_Members c).
Proof.
  intros Hms Hm. unfold start_command. pose proof (resolveMember_spec (Z.of_nat i + 1) c) as Hr.
  replace (Z.to_nat (Z.of_nat i + 1 - 1)) with i in Hr by lia. rewrite Hm in Hr.
  destruct (resolveMember _ c) as [[[id port] host]|]; [|done]. destruct Hr as (_ & m' & [= <-] & -> & -> & ->).
  intros [= <-]. cbn -[buildPeerList]. unfold NewConfig. rewrite buildPeerList_delete, parsePeers_items.
  - eexists. by split_and!.
  - apply Forall_forall. intros q Hq. rewrite Forall_forall in Hms. apply Hms.
    apply list_elem_of_lookup in Hq as [k Hk]. rewrite list_lookup_delete in Hk.
    destruct (decide _); by eapply list_elem_of_lookup_2.
Qed.

(** ** What a step means

    Said without the resolvers of the compiler: which members the words of a step
    name, and what is to be asked of them. *)

(** A word names the member whose id it is, less the white space around it. *)
Definition names (c : ClusterConfig) (w id : string) : Prop := id = TrimSpace w ∧ id ∈ m_ID <$> cc_Members c.
Definition unknown (c : ClusterConfig) (w : string) : Prop := TrimSpace w ∉ m_ID <$> cc_Members c.

(** The pairs of words of two groups, group against later group. *)
Definition cross_pairs (groups : list (list string)) : list (string * string) :=
  i ← seq 0 (length groups); j ← seq (S i) (length groups - S i); l ← groups !!! i; r ← groups !!! j; [(l, r)].

(** The group a target asks for, counted from one. *)
Definition target_group (target : string) : option Z := Atoi (TrimPrefix (ToLower (TrimSpace target)) "group").

(** The members a write goes to: all, the first of a group, or the one named. *)
Inductive targets (c : ClusterConfig) (groups : list (list string)) (target : string) : list string → Prop :=
  | target_all : ToLower (TrimSpace target) = "all" → targets c groups target (m_ID <$> cc_Members c)
  | target_leader k leader group id :
      ToLower (TrimSpace target) ≠ "all" → HasPrefix (ToLower (TrimSpace target)) "group" = true →
      target_group target = Some k → 1 ≤ k → groups !! Z.to_nat (k - 1) = Some (leader :: group) → names c leader id →
      targets c groups target [id]
  | target_node id :
      ToLower (TrimSpace target) ≠ "all" → HasPrefix (ToLower (TrimSpace target)) "group" = false → names c target id →
      targets c groups target [id].

(** The start of the [i]-th member: its own id, port and host, and all the
    others, in order, for peers. *)
Definition start_member (clusterID cpHost : string) (cpPort : Z) (c : ClusterConfig) (i : nat) (m : ClusterMember) : Command :=
  (NewCommand CmdStartNodeProcess) <| cmd_NodeID := m_ID m |> <| cmd_Port := m_Port m |> <| cmd_ClusterID := clusterID |>
    <| cmd_Host := member_host m |>
    <| cmd_PeersCSV := Join (map (λ m, m_ID m +:+ ":" +:+ itoa (m_Port m)) (delete i (cc_Members c))) "," |>
    <| cmd_CPHost := cpHost |> <| cmd_CPPort := cpPort |>.

Definition partition_of (clusterID : string) (enabled : bool) (pair : string * string) : Command :=
  (NewCommand CmdSetPartition) <| cmd_ClusterID := clusterID |> <| cmd_NodeID := pair.1 |> <| cmd_PeerID := pair.2 |>
    <| cmd_Enabled := enabled |>.

(** The members that the pairs of words name. *)
Definition named_pairs (c : ClusterConfig) (groups : list (list string)) (ids : list (string * string)) : Prop :=
  Forall2 (λ w id, names c w.1 id.1 ∧ names c w.2 id.2) (cross_pairs groups) ids.

Inductive step_means (clusterID cpHost : string) (cpPort : Z) (c : ClusterConfig) (s : TimelineStep) : list Command → Prop :=
  | mean_start :
      TrimSpace (st_Action s) = "start_cluster" →
      step_means clusterID cpHost cpPort c s
        ((NewCommand CmdCreateCluster) <| cmd_ClusterID := clusterID |> <| cmd_Protocol := "gossip" |>
         :: lifecycle clusterID "NODE_JOIN" "Starting cluster members"
         :: imap (start_member clusterID cpHost cpPort c) (cc_Members c))
  | mean_metrics :
      TrimSpace (st_Action s) = "start_metrics_collection" →
      step_means clusterID cpHost cpPort c s [(NewCommand CmdMetricsStart) <| cmd_ClusterID := clusterID |>]
  | mean_partition ids :
      TrimSpace (st_Action s) = "partition" → named_pairs c (st_Groups s) ids →
      step_means clusterID cpHost cpPort c s
        (lifecycle clusterID "PARTITION" ("Splitting cluster into " +:+ itoa (Z.of_nat (length (st_Groups s))) +:+ " partitions")
         :: map (partition_of clusterID true) ids)
  | mean_heal ids :
      TrimSpace (st_Action s) = "heal_partition" → named_pairs c (st_Groups s) ids →
      step_means clusterID cpHost cpPort c s
        (lifecycle clusterID "HEAL" "Healing all network partitions" :: map (partition_of clusterID false) ids)
  | mean_write ids :
      TrimSpace (st_Action s) = "write" → targets c (st_Groups s) (st_Target s) ids →
      step_means clusterID cpHost cpPort c s (map (put_command clusterID (st_Key s) (st_Value s)) ids)
  | mean_read :
      TrimSpace (st_Action s) = "read_all" →
      step_means clusterID cpHost cpPort c s (map (λ m, get_command clusterID (st_Key s) (m_ID m)) (cc_Members c)).

(** A step that names a node or a group the cluster does not have. *)
Definition bad_target (c : ClusterConfig) (groups : list (list string)) (target : string) : Prop :=
  ToLower (TrimSpace target) ≠ "all" ∧
  if HasPrefix (ToLower (TrimSpace target)) "group"
  then ∀ k leader group, target_group target = Some k → 1 ≤ k → groups !! Z.to_nat (k - 1) = Some (leader :: group) → unknown c leader
  else unknown c target.

Definition step_unknown (c : ClusterConfig) (s : TimelineStep) : Prop :=
  (TrimSpace (st_Action s) = "partition" ∨ TrimSpace (st_Action s) = "heal_partition") ∧
    (∃ group w, group ∈ st_Groups s ∧ w ∈ group ∧ unknown c w) ∨
  TrimSpace (st_Action s) = "write" ∧ bad_target c (st_Groups s) (st_Target s).

(** *** The loops *)

Lemma bind_fmap {A B C} (f : A → B) (g : B → list C) l : (f <$> l) ≫= g = l ≫= (g ∘ f).
Proof. induction l as [|x l IH]; [done|]. cbn. f_equal. exact IH. Qed.

Lemma bind_index {A C} `{!Inhabited A} (f : A → list C) (l : list A) : (i ← seq 0 (length l); f (l !!! i)) = l ≫= f.
Proof.
  induction l as [|x l IH]; [done|]. cbn [length seq]. rewrite <-seq_shift, bind_cons. cbn. f_equal.
  change (map S ?k) with (S <$> k). rewrite bind_fmap. exact IH.
Qed.

Lemma cross_pairs_spec groups : cross_pairs groups = group_pairs groups.
Proof.
  induction groups as [|group rest IH]; [done|]. unfold cross_pairs. cbn [length seq group_pairs]. rewrite bind_cons. f_equal.
  - cbn. rewrite Nat.sub_0_r, <-seq_shift. change (map S ?k) with (S <$> k). rewrite bind_fmap.
    apply (bind_index (λ other, l ← group; r ← other; [(l, r)])).
  - rewrite <-IH, <-seq_shift. change (map S ?k) with (S <$> k). rewrite bind_fmap. apply list_bind_ext; [|done].
    intros i. cbn. rewrite <-seq_shift. change (map S ?k) with (S <$> k). by rewrite bind_fmap.
Qed.

(** Every word of every group is in a pair, when there are two groups with words. *)
Lemma pair_words groups w :
  (2 ≤ length groups)%nat → Forall (λ group, group ≠ []) groups → (∃ group, group ∈ groups ∧ w ∈ group) →
  ∃ p, p ∈ group_pairs groups ∧ (p.1 = w ∨ p.2 = w).
Proof.
  intros Hlen Hne (group & Hg & Hw). induction groups as [|g1 rest IH]; [by apply elem_of_nil in Hg|].
  apply Forall_cons in Hne as [Hg1 Hne]. cbn [group_pairs].
  assert (Hpair : ∀ other l r, other ∈ rest → l ∈ g1 → r ∈ other → (l, r) ∈ group_pairs (g1 :: rest)).
  { intros other l r Ho Hl Hr. cbn [group_pairs]. apply elem_of_app; left. apply list_elem_of_bind. exists other. split; [|done].
    apply list_elem_of_bind. exists l. split; [|done]. apply list_elem_of_bind. exists r. split; [by left|done]. }
  apply elem_of_cons in Hg as [->|Hg].
  - destruct rest as [|g2 rest]; [cbn in Hlen; lia|]. apply Forall_cons in Hne as [Hg2 _]. destruct g2 as [|r g2]; [done|].
    exists (w, r). split; [|by left]. apply (Hpair (r :: g2)); [by left|done|by left].
  - destruct g1 as [|l g1]; [done|]. exists (l, w). split; [|by right]. apply (Hpair group); [done|by left|done].
Qed.

(** And no other word is. *)
Lemma pairs_of_words groups p :
  p ∈ group_pairs groups → (∃ group, group ∈ groups ∧ p.1 ∈ group) ∧ (∃ group, group ∈ groups ∧ p.2 ∈ group).
Proof.
  induction groups as [|g1 rest IH]; [by intros ?%elem_of_nil|]. cbn [group_pairs]. intros [Hp|Hp]%elem_of_app.
  - apply list_elem_of_bind in Hp as (other & Hp & Ho). apply list_elem_of_bind in Hp as (l & Hp & Hl).
    apply list_elem_of_bind in Hp as (r & Hp & Hr). apply list_elem_of_singleton in Hp as ->.
    split; [exists g1|exists other]; split; try done; [by left|by right].
  - destruct (IH Hp) as [(g & ? & ?) (g' & ? & ?)]. split; [exists g|exists g']; (split; [by right|done]).
Qed.

Lemma start_members_from clusterID cpHost cpPort c off l :
  (∀ k, l !! k = cc_Members c !! (off + k)%nat) →
  omap (start_command clusterID cpHost cpPort c) (seqZ (Z.of_nat off + 1) (Z.of_nat (length l))) =
  imap (λ k, start_member clusterID cpHost cpPort c (off + k)) l.
Proof.
  revert off; induction l as [|m l IH]; intros off Hl; [done|]. rewrite seqZ_cons by (cbn; lia). cbn [omap list_omap imap].
  pose proof (Hl 0%nat) as Hm; cbn in Hm; rewrite Nat.add_0_r in Hm; symmetry in Hm.
  assert (start_command clusterID cpHost cpPort c (Z.of_nat off + 1) = Some (start_member clusterID cpHost cpPort c off m)) as ->.
  { unfold start_command. pose proof (resolveMember_spec (Z.of_nat off + 1) c) as Hr.
    replace (Z.to_nat (Z.of_nat off + 1 - 1)) with off in Hr by lia. rewrite Hm in Hr.
    destruct (resolveMember _ c) as [[[id port] host]|]; [|destruct Hr; [lia|done]].
    destruct Hr as (_ & m' & [= <-] & -> & -> & ->). by rewrite buildPeerList_delete. }
  rewrite Nat.add_0_r. f_equal. replace (Z.succ (Z.of_nat off + 1)) with (Z.of_nat (S off) + 1) by lia.
  replace (Z.pred (Z.of_nat (length (m :: l)))) with (Z.of_nat (length l)) by (cbn; lia).
  rewrite IH.
  - apply imap_ext. intros k x _. cbn. by rewrite Nat.add_succ_r.
  - intros k. specialize (Hl (S k)). change (l !! k = cc_Members c !! (off + S k)%nat) in Hl. rewrite Hl. f_equal. lia.
Qed.

(** *** The resolvers *)

Section Meaning.
Context (clusterID cpHost : string) (cpPort : Z) (c : ClusterConfig).
Context (Hnamed : ∀ m, m ∈ cc_Members c → named (m_ID m)).

Lemma resolve_names w :
  match resolveGroupNodeID w c with Ok id => names c w id | Err _ => unknown c w end.
Proof.
  unfold resolveGroupNodeID, names, unknown. cbv zeta. case_bool_decide as He.
  - intros (m & Hm & Hin)%list_elem_of_fmap. apply (Hnamed m Hin). by rewrite <-Hm, He.
  - destruct (existsb _ _) eqn:Hx.
    + apply existsb_elem_of in Hx as (m & Hm & Heq%bool_decide_eq_true). split; [done|]. rewrite <-Heq. by apply list_elem_of_fmap_2.
    + intros (m & Hm & Hin)%list_elem_of_fmap. rewrite (proj2 (existsb_elem_of _ _)) in Hx; [done|].
      exists m. split; [done|]. by apply bool_decide_eq_true.
Qed.

Lemma names_known w id : names c w id → ¬ unknown c w.
Proof. by intros [-> Hin] Hu. Qed.

Lemma named_pair_spec b p :
  match partition_command clusterID b c p with
  | Ok cmd => ∃ id, names c p.1 id.1 ∧ names c p.2 id.2 ∧ cmd = partition_of clusterID b id
  | Err _ => unknown c p.1 ∨ unknown c p.2
  end.
Proof.
  unfold partition_command. pose proof (resolve_names p.1) as Hl. destruct (resolveGroupNodeID p.1 c) as [l|]; cbn; [|by left].
  pose proof (resolve_names p.2) as Hr. destruct (resolveGroupNodeID p.2 c) as [r|]; cbn; [|by right]. by exists (l, r).
Qed.

(** The commands of a list of pairs. *)
Lemma named_pairs_spec b ps :
  match result_mapM (partition_command clusterID b c) ps with
  | Ok cmds => ∃ ids, Forall2 (λ w id, names c w.1 id.1 ∧ names c w.2 id.2) ps ids ∧ cmds = map (partition_of clusterID b) ids
  | Err _ => ∃ p, p ∈ ps ∧ (unknown c p.1 ∨ unknown c p.2)
  end.
Proof.
  induction ps as [|p ps IH]; cbn [result_mapM]; [by exists []|].
  pose proof (named_pair_spec b p) as Hp. destruct (partition_command _ _ _ p) as [cmd|]; cbn; [|exists p; by split; [left|]].
  destruct (result_mapM _ ps) as [cmds|]; cbn in IH |- *.
  - destruct Hp as (id & ? & ? & ->), IH as (ids & ? & ->). exists (id :: ids). split; [by constructor|done].
  - destruct IH as (q & ? & ?). exists q. by split; [right|].
Qed.

Lemma partition_intent_spec b groups :
  (2 ≤ length groups)%nat → Forall (λ group, group ≠ []) groups →
  match partition_intent clusterID groups b c with
  | Ok cmds => (∃ ids, named_pairs c groups ids ∧ cmds = map (partition_of clusterID b) ids) ∧
      ¬ ∃ group w, group ∈ groups ∧ w ∈ group ∧ unknown c w
  | Err _ => ∃ group w, group ∈ groups ∧ w ∈ group ∧ unknown c w
  end.
Proof.
  intros Hlen Hne. unfold partition_intent. rewrite bool_decide_false by lia.
  pose proof (named_pairs_spec b (group_pairs groups)) as Hs. destruct (result_mapM _ _) as [cmds|].
  - destruct Hs as (ids & Hids & ->). split; [exists ids; unfold named_pairs; by rewrite cross_pairs_spec|].
    intros (group & w & Hg & Hw & Hu). destruct (pair_words groups w Hlen Hne) as (p & Hp & Hpw); [by exists group|].
    apply list_elem_of_lookup in Hp as [k Hk]. destruct (Forall2_lookup_l _ _ _ _ _ Hids Hk) as (id & _ & Hl & Hr).
    destruct Hpw as [<-|<-]; [exact (names_known _ _ Hl Hu)|exact (names_known _ _ Hr Hu)].
  - destruct Hs as (p & Hp & Hu). destruct (pairs_of_words groups p Hp) as [(g & ? & ?) (g' & ? & ?)].
    destruct Hu; [exists g, p.1|exists g', p.2]; done.
Qed.

Lemma resolveTargets_spec groups target :
  named target → cc_Members c ≠ [] →
  match resolveWriteTargets target groups c with
  | Ok ids => targets c groups target ids ∧ ¬ bad_target c groups target
  | Err _ => bad_target c groups target
  end.
Proof.
  intros Ht Hms. unfold resolveWriteTargets, bad_target. cbv zeta. rewrite bool_decide_false by done.
  case_bool_decide as Hall; [rewrite bool_decide_false by done; split; [by constructor|by intros []]|].
  destruct (HasPrefix _ _) eqn:Hg.
  - unfold resolveTargetGroupLeader, parseGroupTarget. cbv zeta. rewrite TrimSpace_idem, Hg. cbn [negb].
    fold (target_group target). destruct (target_group target) as [k|] eqn:Hk; cbn [mbind result_bind]; [|split; [done|by intros]].
    destruct (Z.ltb_spec k 1); [split; [done|intros ? ? ? [= <-]; lia]|].
    destruct (Z.ltb_spec (Z.of_nat (length groups)) k); cbn [orb].
    { split; [done|]. intros ? ? ? [= <-] _ Hl%lookup_lt_Some. lia. }
    destruct (groups !! Z.to_nat (k - 1)) as [[|leader group]|] eqn:Hl; cbn [default];
      [split; [done|]; intros ? ? ? [= <-]; congruence| |split; [done|]; intros ? ? ? [= <-]; congruence].
    pose proof (resolve_names leader) as Hn. cbn. destruct (resolveGroupNodeID leader c) as [id|]; cbn.
    + split; [by eapply target_leader|]. intros [_ Hu]. apply (names_known _ _ Hn). by eapply Hu.
    + split; [done|]. intros ? ? ? [= <-] _ Hl'. rewrite Hl in Hl'. by injection Hl' as <- <-.
  - pose proof (resolve_names (TrimSpace target)) as Hn. unfold names, unknown in Hn. rewrite TrimSpace_idem in Hn.
    destruct (resolveGroupNodeID _ c) as [id|]; cbn; [|done]. split; [by apply target_node|]. intros [_ Hu]. by eapply names_known.
Qed.

(** What a step asks for is what it means. *)
Lemma step_intent_means s :
  valid_step s → cc_Members c ≠ [] →
  match step_intent clusterID cpHost cpPort c s with
  | Ok cmds => step_means clusterID cpHost cpPort c s cmds ∧ ¬ step_unknown c s
  | Err _ => step_unknown c s
  end.
Proof.
  intros Hv Hms. unfold step_intent, step_unknown, valid_step in *. cbv zeta in *.
  assert (Hne : ∀ groups, Forall (λ group, group ≠ [] ∧ Forall named group) groups → Forall (λ group, group ≠ []) groups)
    by (intros groups Hf; eapply Forall_impl; [exact Hf|naive_solver]).
  case_bool_decide as H1.
  { split; [|rewrite H1; naive_solver]. pose proof (start_members_from clusterID cpHost cpPort c 0 (cc_Members c) (λ _, eq_refl)) as Hm.
    unfold member_indices. change (Z.of_nat 0 + 1) with 1 in Hm. rewrite Hm. by constructor. }
  case_bool_decide as H2; [split; [by constructor|rewrite H2; naive_solver]|].
  destruct Hv as [?|[?|Hv]]; [done..|].
  case_bool_decide as H3.
  { rewrite H3 in Hv |- *. destruct Hv as [(_ & Hlen & Hg)|[[? _]|[? _]]]; [|done..].
    pose proof (partition_intent_spec true _ Hlen (Hne _ Hg)) as Hp. destruct (partition_intent _ _ _ _) as [cmds|]; cbn; [|naive_solver].
    destruct Hp as [(ids & Hids & ->) Hu]. split; [by apply mean_partition|naive_solver]. }
  case_bool_decide as H4.
  { rewrite H4 in Hv |- *. destruct Hv as [(_ & Hlen & Hg)|[[? _]|[? _]]]; [|done..].
    pose proof (partition_intent_spec false _ Hlen (Hne _ Hg)) as Hp. destruct (partition_intent _ _ _ _) as [cmds|]; cbn; [|naive_solver].
    destruct Hp as [(ids & Hids & ->) Hu]. split; [by apply mean_heal|naive_solver]. }
  case_bool_decide as H5.
  { rewrite H5 in Hv |- *. destruct Hv as [([?|?] & _)|[(_ & _ & _ & Ht & _)|[? _]]]; [done..| |done].
    pose proof (resolveTargets_spec (st_Groups s) (st_Target s) Ht Hms) as Hr.
    destruct (resolveWriteTargets _ _ _) as [ids|]; cbn; [|naive_solver].
    destruct Hr as [Hr Hu]. split; [by apply mean_write|naive_solver]. }
  case_bool_decide as H6; [split; [by apply mean_read|rewrite H6; naive_solver]|naive_solver].
Qed.
End Meaning.

(** The batches of a valid experiment are its steps, with what they mean. *)
Lemma batches_mean clusterID cpHost cpPort e steps :
  valid_experiment e →
  result_mapM (batch_means clusterID cpHost cpPort (x_Cluster e)) (x_Timeline e) = Ok steps →
  Forall2 (λ s p, p.1 = st_At s ∧ step_means clusterID cpHost cpPort (x_Cluster e) s p.2 ∧ ¬ step_unknown (x_Cluster e) s) (x_Timeline e) steps.
Proof.
  intros Hv Hm%result_mapM_Ok. apply Forall2_same_length_lookup in Hm as [Hlen Hm]. apply Forall2_same_length_lookup. split; [done|].
  intros i s [at_ cmds] Hs Hc. specialize (Hm i s _ Hs Hc). apply list_elem_of_lookup_2 in Hs. unfold batch_means in Hm.
  pose proof (step_intent_means clusterID cpHost cpPort (x_Cluster e) (λ m H, proj1 (valid_member e Hv m H)) s
    (proj2 (valid_steps e Hv s Hs)) (valid_members e Hv)) as Hmean.
  destruct (step_intent _ _ _ _ s) as [cs|]; [|done]. cbn in Hm. by injection Hm as <- <-.
Qed.

(** ** Properties: compilation *)



(** A start-node line without peers: the parser takes the next option for the
    list, and the address of the control plane for an option it does not know. *)
Lemma no_peers_line id port clusterID host cpHost cpPort :
  word id → in_i64 port → word clusterID → word host → word cpHost →
  cpHost ∉ ["--cluster-id"; "--host"; "--peers"; "--cp-host"; "--cp-port"] →
  runtime_command ("start-node " +:+ id +:+ " " +:+ itoa port +:+ " --cluster-id " +:+ clusterID +:+ " --host " +:+ host
            +:+ " --peers " +:+ EmptyString +:+ " --cp-host " +:+ cpHost +:+ " --cp-port " +:+ itoa cpPort)
  = Err (Errorf "unknown option for start-node: %s" [AStr cpHost]).
Proof.
  intros Hid Hport Hc Hh Hch Hcp.
  set (w := [id; itoa port; "--cluster-id"; clusterID; "--host"; host; "--peers"]).
  match goal with |- runtime_command ?l = _ =>
    assert (l = Join ("start-node" :: (w ++ [EmptyString]) ++ ["--cp-host"; cpHost; "--cp-port"; itoa cpPort]) " ") as -> by done end.
  assert (Hw : forallb is_word w = true) by (subst w; cbn [forallb]; by rewrite Hid, Hc, Hh, !itoa_word).
  rewrite runtime_command_pieces; [|done|done| |cbn [forallb]; by rewrite Hch, itoa_word|done].
  2: { rewrite forallb_app, andb_true_iff. split; [|done]. apply forallb_forall. intros x Hx.
       apply word_no_space. by apply (proj1 (forallb_forall _ _) Hw). }
  rewrite List.filter_app, filter_words by done. subst w. cbn [app].
  match goal with |- context [parse_words _ ?args] => change (parse_words "start-node" args) with (parse_start_node args) end.
  cbn [parse_start_node]. rewrite Atoi_itoa by done. cbn -[itoa String.eqb].
  rewrite !(proj2 (String.eqb_neq cpHost _)) by set_solver. done.
Qed.

(** A cluster of one member cannot be started: its peer list is empty, so the
    parser takes the next option for the list, and the address of the control
    plane for an option it does not know. *)
Theorem single_member_start_fails clusterID cpHost cpPort m :
  plain_cluster clusterID cpHost cpPort {| cc_ID := clusterID; cc_Members := [m] |} →
  cpHost ∉ ["--cluster-id"; "--host"; "--peers"; "--cp-host"; "--cp-port"] →
  ∃ line, start_node_line clusterID cpHost cpPort {| cc_ID := clusterID; cc_Members := [m] |} 1 = Some line ∧
    runtime_command line = Err (Errorf "unknown option for start-node: %s" [AStr cpHost]).
Proof.
  intros Hp Hcp. destruct (plain_member _ _ _ _ Hp m) as (Hid & Hh & Hport); [by left|].
  unfold start_node_line. pose proof (resolveMember_spec 1 {| cc_ID := clusterID; cc_Members := [m] |}) as Hr.
  destruct (resolveMember 1 _) as [[[id port] host]|]; [|by destruct Hr]. destruct Hr as (_ & m' & [= <-] & -> & -> & ->).
  eexists. split; [reflexivity|].
  apply no_peers_line; [done|done|by apply Hp|done|by apply Hp|done].
Qed.

(** ** The times of a timeline *)

Lemma f64_to_i64_range out_of_range f : (∀ g, in_i64 (out_of_range g)) → in_i64 (f64_to_i64 out_of_range f).
Proof. intros Ho. destruct f; cbn [f64_to_i64]; try apply Ho; [done|]. by case_decide. Qed.

Lemma f64_seconds out_of_range n : 0 ≤ n → n * ns_per_second < 2 ^ 53 →
  f64_to_i64 out_of_range (f64_mul (f64_of_Z n) (f64_of_Z ns_per_second)) = n * ns_per_second.
Proof.
  intros Hn Hlt. destruct (Z.eq_dec n 0) as [->|]; [by vm_compute|].
  pose proof (f64_mul_exact n ns_per_second ltac:(lia) ltac:(done) Hlt) as He.
  assert (0 < n * ns_per_second) by (unfold ns_per_second; lia).
  destruct (f64_mul _ _) as [s|s| |s m e]; cbn [f64_to_i64]; [by rewrite <-He|cbn in He; lia..|].
  rewrite He. rewrite decide_True; [done|]. unfold in_i64, two63. lia.
Qed.

(** C34: The time of a step is what its scalar says.  A text with a unit that the
    program could have printed, with white space around it, gives the duration it
    was printed from; a whole number of seconds, with or without the unit, gives
    that many seconds exactly, up to 2^53 nanoseconds (104 days); a scalar of
    another type is refused.  What is read is an int64 in all cases. *)
Theorem UnmarshalYAML_spec out_of_range (tag text : string) (old : Z) :
  (∀ f, in_i64 (out_of_range f)) → in_i64 old →
  let read tag := UnmarshalYAML out_of_range (Some {| y_Tag := tag; y_Value := text |}) old in
  (∀ d, in_i64 d → TrimSpace text = Duration_String d → read "!!str" = Ok d) ∧
  (∀ n, 0 ≤ n → n * ns_per_second < 2 ^ 53 →
    (TrimSpace text = itoa n → read "!!int" = Ok (n * ns_per_second) ∧ read "!!float" = Ok (n * ns_per_second)) ∧
    (TrimSpace text = itoa n +:+ "s" → read "!!str" = Ok (n * ns_per_second))) ∧
  (tag ∉ ["!!str"; EmptyString; "!!int"; "!!float"] → read tag = Err (Errorf "unsupported duration format: %s" [AStr tag])) ∧
  ∀ d, read tag = Ok d → in_i64 d.
Proof.
  intros Ho Hold read. unfold read, UnmarshalYAML. cbn [y_Tag y_Value]. split_and!.
  - intros d Hd ->. rewrite bool_decide_true by (by left). by rewrite ParseDuration_String.
  - intros n Hn Hlt. split; intros ->.
    + rewrite !(bool_decide_false (_ ∨ _)) by (by intros [|]). rewrite !bool_decide_true by auto.
      rewrite ParseFloat_itoa by (unfold ns_per_second in *; lia). by rewrite f64_seconds.
    + rewrite bool_decide_true by (by left). rewrite ParseDuration_seconds; [done|done|]. unfold two63. lia.
  - intros Ht. rewrite !bool_decide_false; [done|..]; intros [-> | ->]; apply Ht; repeat (first [by left|right]).
  - intros d. case_bool_decide.
    + destruct (ParseDuration _) eqn:Hp; [|done]. intros [= <-]. by eapply ParseDuration_range.
    + case_bool_decide; [|done]. destruct (ParseFloat _); [|done]. intros [= <-]. by apply f64_to_i64_range.
Qed.

(** ** A concrete experiment *)

Definition demo_member (id : string) (port : Z) : ClusterMember := {| m_ID := id; m_Port := port; m_Host := " " |}.

Definition demo_step (at_ : Z) (action target key value : string) (groups : list (list string)) : TimelineStep :=
  {| st_At := at_; st_Action := action; st_Groups := groups; st_Key := key; st_Value := value; st_Target := target |}.

Definition demo_cluster : ClusterConfig := {| cc_ID := "c1"; cc_Members := [demo_member "a" 9001; demo_member "b" 9002] |}.

Definition demo : Experiment :=
  {| x_Name := "split"; x_Cluster := demo_cluster;
     x_Timeline := [demo_step 0 "start_cluster" EmptyString EmptyString EmptyString [];
                    demo_step 5 "partition" EmptyString EmptyString EmptyString [["a"]; ["b"]];
                    demo_step 7 "write" "GROUP1" "k" "v" [["a"]; ["b"]];
                    demo_step 9 "read_all" EmptyString "k" EmptyString []] |}.

Definition demo_options : CompileOptions := {| o_ClusterID := EmptyString; o_ControlPlaneHost := EmptyString; o_ControlPlanePort := 0 |}.

Example demo_compiles :
  Compile demo_options (Some demo) =
  Ok [{| b_At := 0;
         b_Commands := ["cp new-cluster c1";
           "log-lifecycle c1 SYSTEM NODE_JOIN " +:+ quote +:+ "Starting cluster members" +:+ quote;
           "start-node a 9001 --cluster-id c1 --host localhost --peers b:9002 --cp-host localhost --cp-port 9091";
           "start-node b 9002 --cluster-id c1 --host localhost --peers a:9001 --cp-host localhost --cp-port 9091"] |};
      {| b_At := 5;
         b_Commands := ["log-lifecycle c1 SYSTEM PARTITION " +:+ quote +:+ "Splitting cluster into 2 partitions" +:+ quote;
                        "fault-partition c1 a b true"] |};
      {| b_At := 7; b_Commands := ["kv-put c1 a k v"] |};
      {| b_At := 9; b_Commands := ["kv-get c1 a k"; "kv-get c1 b k"] |}].
Proof. vm_compute. reflexivity. Qed.

Lemma demo_valid : valid_experiment demo.
Proof. apply Validate_valid. vm_compute. reflexivity. Qed.

Lemma demo_plain_cluster : plain_cluster "c1" "localhost" 9091 demo_cluster.
Proof.
  constructor; try done. cbn. intros m [->|[->|[]%elem_of_nil]%elem_of_cons]%elem_of_cons; vm_compute; done.
Qed.

(** Both ways: the cluster of the demo, and the same with a write to a third group. *)
Definition demo_bad : Experiment :=
  {| x_Name := "split"; x_Cluster := demo_cluster; x_Timeline := [demo_step 7 "write" "Group3" "k" "v" [["a"]; ["b"]]] |}.

Lemma demo_plain_steps s : s ∈ x_Timeline demo → plain_step demo_cluster s.
Proof.
  intros Hs. repeat (apply elem_of_cons in Hs as [->|Hs]; [by split_and!; cbn; intros; (lia || done)|]).
  by apply elem_of_nil in Hs.
Qed.


Lemma single_member_start_fails_witness :
  ∃ line, start_node_line "c1" "localhost" 9091 {| cc_ID := "c1"; cc_Members := [demo_member "a" 9001] |} 1 = Some line ∧
    runtime_command line = Err (Errorf "unknown option for start-node: %s" [AStr "localhost"]).
Proof.
  apply (single_member_start_fails "c1" "localhost" 9091 (demo_member "a" 9001)).
  - constructor; try done. cbn. intros m [->|[]%elem_of_nil]%elem_of_cons. vm_compute. done.
  - by_evaluation.
Defined.

Lemma UnmarshalYAML_spec_witness :
  let read tag text := UnmarshalYAML (λ _, 0) (Some {| y_Tag := tag; y_Value := text |}) 0 in
  read "!!str" " 1m30s" = Ok 90000000000 ∧ read "!!int" "90" = Ok 90000000000 ∧ read "!!str" "90s" = Ok 90000000000 ∧
  read "!!bool" "90" = Err (Errorf "unsupported duration format: %s" [AStr "!!bool"]).
Proof.
  pose proof (λ tag text, UnmarshalYAML_spec (λ _, 0) tag text 0 (λ _, ltac:(done)) ltac:(done)) as H.
  split_and!.
  - exact (proj1 (H "!!str" " 1m30s") 90000000000 ltac:(done) ltac:(reflexivity)).
  - exact (proj1 (proj1 (proj1 (proj2 (H "!!int" "90")) 90 ltac:(done) ltac:(done)) ltac:(reflexivity))).
  - exact (proj2 (proj1 (proj2 (H "!!str" "90s")) 90 ltac:(done) ltac:(done)) ltac:(reflexivity)).
  - apply (proj1 (proj2 (proj2 (H "!!bool" "90")))). by_evaluation.
Defined.
