(* ===== verification/NodeSession.v ===== *)
(** * The node session (internal/node/session/node.go)

    The connections of a node to its peers: their health, lazy dialling, the
    probe loop and the sending of envelopes through the fault gates.  The
    outcomes of the remote calls are given by a [PeerRPC]; an absent error is
    [None].  Log lines are not modelled, and neither is the wall clock of
    lastSuccess. *)

From S2P Require Import Prelude GoStrings Protocol Fault NodeConfig.

(** ** Interfaces *)

(** runtime/session_contract.go *)
Inductive TransportHealth := PeerAlive | PeerSuspect | PeerDead.

#[export] Instance TransportHealth_eq_dec : EqDecision TransportHealth.
Proof. solve_decision. Defined.

(** exec.FaultDecider, as the session sees it. *)
Record FaultDecider := {
  fd_BeforeSend : string → SendDecision;
  fd_BeforeProbe : string → ProbeDecision;
  fd_BeforeTick : TickDecision;
}.

(** The engine as a decider; [r] is the number ShouldDrop draws. *)
Definition engine_decider (r : SpecFloat.spec_float) (e : option Engine) : FaultDecider :=
  {| fd_BeforeSend := λ p, BeforeSend r p e; fd_BeforeProbe := λ p, BeforeProbe p e;
     fd_BeforeTick := BeforeTick e |}.

(** The request of the SendEnvelope call. *)
Record EnvelopeRequest := {
  er_From : string;
  er_To : string;
  er_Protocol : string;
  er_Payload : string;
}.

(** The remote side: each call returns its error, if any. *)
Class PeerRPC := {
  rpc_Dial : string → Z → option error;
  rpc_Handshake : string → Z → option error;
  rpc_Ping : string → Z → option error;
  rpc_SendEnvelope : string → Z → EnvelopeRequest → option error;
}.

(** ** State *)

Record peerState := {
  ps_id : string;
  ps_host : string;
  ps_port : Z;
  ps_conn : bool;                       (* whether a connection is open *)
  ps_failCount : Z;
  ps_health : TransportHealth;
}.

Record nodeSession := {
  ns_nodeID : string;
  ns_nodePort : Z;
  ns_nodeAddr : string;
  ns_peers : gmap string peerState;
}.

Definition NewNodeSession (addr id : string) (port : Z) : nodeSession :=
  {| ns_nodeID := id; ns_nodePort := port; ns_nodeAddr := addr; ns_peers := ∅ |}.

Definition ns_with_peers (ps : gmap string peerState) (ns : nodeSession) : nodeSession :=
  {| ns_nodeID := ns_nodeID ns; ns_nodePort := ns_nodePort ns; ns_nodeAddr := ns_nodeAddr ns; ns_peers := ps |}.

Definition with_conn (c : bool) (ps : peerState) : peerState :=
  {| ps_id := ps_id ps; ps_host := ps_host ps; ps_port := ps_port ps; ps_conn := c;
     ps_failCount := ps_failCount ps; ps_health := ps_health ps |}.

(** ** Operations *)

Definition updateSuccess (ps : peerState) : peerState :=
  {| ps_id := ps_id ps; ps_host := ps_host ps; ps_port := ps_port ps; ps_conn := ps_conn ps;
     ps_failCount := 0; ps_health := PeerAlive |}.

Definition updateFailure (ps : peerState) : peerState :=
  let n := wrap_i64 (ps_failCount ps + 1) in
  {| ps_id := ps_id ps; ps_host := ps_host ps; ps_port := ps_port ps; ps_conn := ps_conn ps;
     ps_failCount := n;
     ps_health := if (n =? 1) then PeerSuspect else if (2 <=? n) then PeerDead else ps_health ps |}.

Definition shouldDial (self peer : string) : bool := str_lt self peer.

Definition fromAddress (ns : nodeSession) (from : string) : string :=
  from +:+ "@" +:+ ns_nodeAddr ns +:+ ":" +:+ itoa (ns_nodePort ns).

(** The peer state after a remote call, and the error returned. *)
Definition note_result (e : option error) (ps : peerState) : peerState * option error :=
  match e with
  | Some err => (updateFailure ps, Some err)
  | None => (updateSuccess ps, None)
  end.

(** Send: the new session, the request put on the network, if any, and the
    error.  [cancelled] tells whether the context ends during the delay. *)
Definition Send `{PeerRPC} (fault : option FaultDecider) (cancelled : bool) (env : Envelope) (ns : nodeSession) :
    nodeSession * option EnvelopeRequest * option error :=
  match ns_peers ns !! env_To env with
  | None => (ns, None, Some (Errorf "peer not found: %s" [AStr (env_To env)]))
  | Some ps =>
      let decision := match fault with
                      | Some f => fd_BeforeSend f (ps_id ps)
                      | None => {| s_Allow := true; s_Delay := 0; s_Reason := "no-fault-decider" |}
                      end in
      if negb (s_Allow decision) then (ns, None, None)
      else if (0 <? s_Delay decision) && cancelled
      then (ns, None, Some (Errorf "context canceled" []))
      else
        let store ps := ns_with_peers (<[env_To env := ps]> (ns_peers ns)) ns in
        let connected : peerState * option error :=
          if ps_conn ps then (ps, None)
          else match rpc_Dial (ps_host ps) (ps_port ps) with
               | Some e => (ps, Some e)
               | None => (with_conn true ps, rpc_Handshake (ps_host ps) (ps_port ps))
               end in
        match connected with
        | (ps, Some e) => (store ps, None, Some e)
        | (ps, None) =>
            let req := {| er_From := fromAddress ns (env_From env); er_To := env_To env;
                          er_Protocol := env_Protocol env; er_Payload := env_Payload env |} in
            let '(ps, e) := note_result (rpc_SendEnvelope (ps_host ps) (ps_port ps) req) ps in
            (store ps, Some req, e)
        end
  end.

(** A handshake that fails during a probe is only logged. *)
Definition probePeer `{PeerRPC} (self : string) (ps : peerState) : peerState :=
  if negb (shouldDial self (ps_id ps)) then ps
  else
    let connected : option peerState :=
      if ps_conn ps then Some ps
      else match rpc_Dial (ps_host ps) (ps_port ps) with
           | Some _ => None
           | None => Some (with_conn true ps)
           end in
    match connected with
    | None => updateFailure ps
    | Some ps => (note_result (rpc_Ping (ps_host ps) (ps_port ps)) ps).1
    end.

(** One peer of the probe round. *)
Definition probe_entry `{PeerRPC} (fault : option FaultDecider) (self : string) (ps : peerState) : peerState :=
  let probe := match fault with
               | Some f => fd_BeforeProbe f (ps_id ps)
               | None => {| p_Allow := true; p_Delay := 0; p_Reason := "no-fault-decider" |}
               end in
  if negb (p_Allow probe) then ps
  else if negb (shouldDial self (ps_id ps)) then ps
  else probePeer self ps.

Definition probeOnce `{PeerRPC} (fault : option FaultDecider) (ns : nodeSession) : nodeSession :=
  ns_with_peers (probe_entry fault (ns_nodeID ns) <$> ns_peers ns) ns.

(** One tick of the probe loop of Start; [cancelled] as for Send. *)
Definition probeTick `{PeerRPC} (fault : option FaultDecider) (cancelled : bool) (ns : nodeSession) : nodeSession :=
  let tick := match fault with
              | Some f => fd_BeforeTick f
              | None => {| t_Allow := true; t_Delay := 0; t_Reason := "no-fault-decider" |}
              end in
  if negb (t_Allow tick) then ns
  else if (0 <? t_Delay tick) && cancelled then ns
  else probeOnce fault ns.

(** OnPeersUpdated: stale peers are removed, new ones added, and the connection
    of a peer whose endpoint changed is dropped. *)
Definition newPeer (info : Peer) : peerState :=
  {| ps_id := peer_ID info; ps_host := peer_Host info; ps_port := peer_Port info; ps_conn := false;
     ps_failCount := 0; ps_health := PeerSuspect |}.

Definition moveEndpoint (info : Peer) (ps : peerState) : peerState :=
  if bool_decide (ps_host ps ≠ peer_Host info) || negb (ps_port ps =? peer_Port info) then
    {| ps_id := ps_id ps; ps_host := peer_Host info; ps_port := peer_Port info; ps_conn := false;
       ps_failCount := ps_failCount ps; ps_health := ps_health ps |}
  else ps.

Definition OnPeersUpdated `{RangeOrder} (infos : list Peer) (ns : nodeSession) : nodeSession :=
  let newSet := foldl (λ m p, <[peer_ID p := p]> m) (∅ : gmap string Peer) infos in
  let kept := foldl (λ m '(id, _), match newSet !! id with None => delete id m | Some _ => m end)
                    (ns_peers ns) (range 346 (ns_peers ns)) in
  let added := foldl (λ m '(id, info), match m !! id with None => <[id := newPeer info]> m | Some _ => m end)
                     kept (range 356 newSet) in
  let moved := foldl (λ m '(id, info), match m !! id with Some ps => <[id := moveEndpoint info ps]> m | None => m end)
                     added (range 368 newSet) in
  ns_with_peers moved ns.

Definition GetTransportHealth (id : string) (ns : nodeSession) : TransportHealth :=
  match ns_peers ns !! id with
  | Some ps => ps_health ps
  | None => PeerDead
  end.

(** ** Topology *)

(** The last entry of the list for an id. *)
Definition info_of (infos : list Peer) (id : string) : option Peer :=
  foldl (λ a p, if decide (peer_ID p = id) then Some p else a) None infos.

Lemma lookup_newSet infos (m : gmap string Peer) id :
  foldl (λ m p, <[peer_ID p := p]> m) m infos !! id =
  foldl (λ a p, if decide (peer_ID p = id) then Some p else a) (m !! id) infos.
Proof.
  revert m; induction infos as [|p infos IH]; intros m; cbn [foldl]; [done|].
  rewrite IH. f_equal. case_decide as Hp; [subst; by rewrite lookup_insert_eq|by rewrite lookup_insert_ne].
Qed.

Lemma lookup_delete_loop {V} (P : string → bool) (l : list (string * V)) (m : gmap string V) id :
  NoDup l.*1 →
  foldl (λ m '(k, _), if P k then delete k m else m) m l !! id =
  if decide (id ∈ l.*1) then (if P id then None else m !! id) else m !! id.
Proof.
  revert m; induction l as [|[k v] l IH]; intros m Hnd; cbn [foldl fmap list_fmap fst].
  { by rewrite decide_False by apply not_elem_of_nil. }
  apply NoDup_cons in Hnd as [Hk Hnd]. rewrite (IH _ Hnd). destruct (decide (id = k)) as [->|Hne].
  - rewrite (decide_False (P:=k ∈ l.*1)), decide_True by (done || by left).
    destruct (P k); [by rewrite lookup_delete_eq|done].
  - assert ((if P k then delete k m else m) !! id = m !! id) as -> by (destruct (P k); [by rewrite lookup_delete_ne|done]).
    destruct (decide (id ∈ l.*1)); [rewrite decide_True by (by right)|rewrite decide_False by (by rewrite elem_of_cons; intros [?|?])]; done.
Qed.

Lemma moveEndpoint_new info : moveEndpoint info (newPeer info) = newPeer info.
Proof. unfold moveEndpoint. cbn. by rewrite bool_decide_false, Z.eqb_refl by auto. Qed.

Lemma OnPeersUpdated_lookup `{RangeOrder} infos ns id :
  ns_peers (OnPeersUpdated infos ns) !! id =
    match info_of infos id with
    | None => None
    | Some info => Some (match ns_peers ns !! id with
                         | None => newPeer info
                         | Some ps => moveEndpoint info ps
                         end)
    end.
Proof.
  unfold OnPeersUpdated. cbn [ns_peers ns_with_peers].
  set (newSet := foldl (λ m p, <[peer_ID p := p]> m) (∅ : gmap string Peer) infos).
  assert (newSet !! id = info_of infos id) as Hns by apply lookup_newSet. rewrite <-Hns.
  assert (∀ (m : gmap string peerState) l, foldl (λ m '(id, info), match m !! id with Some ps => <[id := moveEndpoint info ps]> m | None => m end) m l =
     keyed_loop (λ _ old info, moveEndpoint info <$> old) m l) as Hmv.
  { intros m l. unfold keyed_loop. apply foldl_ext_in. intros m' [k info] _. unfold keyed_step. cbn. by destruct (m' !! k). }
  assert (∀ (m : gmap string peerState) l, foldl (λ m '(id, info), match m !! id with None => <[id := newPeer info]> m | Some _ => m end) m l =
     keyed_loop (λ _ old info, match old with None => Some (newPeer info) | Some _ => None end) m l) as Had.
  { intros m l. unfold keyed_loop. apply foldl_ext_in. intros m' [k info] _. unfold keyed_step. cbn. by destruct (m' !! k). }
  rewrite Hmv, Had, !lookup_keyed_loop_range. unfold keyed_entry.
  assert (foldl (λ m '(id, _), match newSet !! id with None => delete id m | Some _ => m end) (ns_peers ns) (range 346 (ns_peers ns)) !! id =
          match newSet !! id with None => None | Some _ => ns_peers ns !! id end) as ->.
  { erewrite (foldl_ext_in _ (λ m '(k, _), if (match newSet !! k with None => true | Some _ => false end) then delete k m else m))
      by (intros m [k v] _; by destruct (newSet !! k)).
    rewrite (lookup_delete_loop (λ k, match newSet !! k with None => true | Some _ => false end)) by apply range_NoDup.
    case_decide as Hin; destruct (newSet !! id); try done.
    apply eq_None_not_Some. intros [ps Hps]. apply Hin, list_elem_of_fmap.
    exists (id, ps). by rewrite elem_of_range. }
  destruct (newSet !! id) as [info|]; [|done].
  destruct (ns_peers ns !! id) as [ps|]; cbn; [done|by rewrite moveEndpoint_new].
Qed.

(** After a topology update the session knows exactly the peers of the list;
    a peer it knew keeps its failure count and health, and its connection when
    its endpoint is unchanged; a new peer starts suspect, unconnected and with
    no failure; the last entry of an id counts; no other field changes. *)
Theorem OnPeersUpdated_spec `{RangeOrder} infos ns id :
  let ns' := OnPeersUpdated infos ns in
  ns_nodeID ns' = ns_nodeID ns ∧
  ns_peers ns' !! id =
    match info_of infos id with
    | None => None
    | Some info => Some (match ns_peers ns !! id with
                         | None => newPeer info
                         | Some ps => moveEndpoint info ps
                         end)
    end.
Proof. split; [done|apply OnPeersUpdated_lookup]. Qed.

(** ** Health *)

(** The health of a peer is the one its consecutive failures give: it is suspect
    after one and dead from two on; without a failure it is alive or, before
    the first contact, suspect. *)
Definition health_ok (ps : peerState) : Prop :=
  0 ≤ ps_failCount ps ∧
  (ps_failCount ps = 0 → ps_health ps ≠ PeerDead) ∧
  (ps_failCount ps = 1 → ps_health ps = PeerSuspect) ∧
  (2 ≤ ps_failCount ps → ps_health ps = PeerDead).

Lemma updateSuccess_ok ps : health_ok (updateSuccess ps).
Proof. split_and!; cbn; [lia|done|lia|lia]. Qed.

Lemma updateFailure_ok ps : ps_failCount ps < two63 - 1 → health_ok ps → health_ok (updateFailure ps).
Proof.
  intros Hb (Hn & _ & _ & Hd). unfold updateFailure, health_ok.
  rewrite wrap_i64_id by (unfold in_i64, two63 in *; lia). cbn.
  destruct (Z.eqb_spec (ps_failCount ps + 1) 1); [|destruct (Z.leb_spec 2 (ps_failCount ps + 1))]; split_and!; try lia; done.
Qed.

Lemma with_conn_ok c ps : health_ok ps → health_ok (with_conn c ps).
Proof. done. Qed.

Lemma moveEndpoint_ok info ps : health_ok ps → health_ok (moveEndpoint info ps).
Proof. unfold moveEndpoint. by destruct (_ || _). Qed.

Lemma note_result_ok e ps : ps_failCount ps < two63 - 1 → health_ok ps → health_ok (note_result e ps).1.
Proof. destruct e; cbn; [apply updateFailure_ok|intros _ _; apply updateSuccess_ok]. Qed.

Definition session_ok (ns : nodeSession) : Prop := map_Forall (λ _ ps, health_ok ps) (ns_peers ns).

Definition counts_below (ns : nodeSession) : Prop :=
  map_Forall (λ _ ps, ps_failCount ps < two63 - 1) (ns_peers ns).

Lemma probe_entry_ok `{PeerRPC} fault self ps :
  ps_failCount ps < two63 - 1 → health_ok ps → health_ok (probe_entry fault self ps).
Proof.
  intros Hb Hok. unfold probe_entry, probePeer. destruct (negb _); [done|]. destruct (negb _); [done|].
  destruct (ps_conn ps); [by apply note_result_ok|].
  destruct (rpc_Dial _ _); [by apply updateFailure_ok|]. by apply note_result_ok.
Qed.

(** The health of every peer follows from its consecutive failures in every
    state the session reaches, whatever the network answers: sends, probe rounds
    and topology updates preserve it, and it holds of a new session. *)
Theorem session_health `{PeerRPC} `{RangeOrder} fault cancelled env infos addr id port ns :
  session_ok (NewNodeSession addr id port) ∧
  (session_ok ns → counts_below ns →
   session_ok (Send fault cancelled env ns).1.1 ∧ session_ok (probeTick fault cancelled ns) ∧
   session_ok (OnPeersUpdated infos ns)).
Proof.
  split; [apply map_Forall_empty|]. intros Hok Hb. split_and!.
  - unfold Send. destruct (ns_peers ns !! env_To env) as [ps|] eqn:Hps; [|done].
    pose proof (Hok _ _ Hps) as Hp. pose proof (Hb _ _ Hps) as Hbp. cbn in Hbp.
    destruct (negb _); [done|]. destruct (_ && _); [done|].
    assert (∀ ps', health_ok ps' → session_ok (ns_with_peers (<[env_To env := ps']> (ns_peers ns)) ns)) as Hst.
    { intros ps' Hps'. by apply map_Forall_insert_2. }
    destruct (ps_conn ps); [|destruct (rpc_Dial _ _); [|destruct (rpc_Handshake _ _)]]; cbv beta iota zeta;
      try (by apply Hst);
      match goal with |- context [note_result ?e ?p] => pose proof (note_result_ok e p Hbp Hp) as Hnr; destruct (note_result e p) end;
      by apply Hst.
  - unfold probeTick. destruct (negb _); [done|]. destruct (_ && _); [done|].
    intros i ps. cbn. rewrite lookup_fmap. destruct (ns_peers ns !! i) as [q|] eqn:Hq; [|done].
    intros [= <-]. apply probe_entry_ok; [by apply (Hb i)|by apply (Hok i)].
  - intros i ps. rewrite OnPeersUpdated_lookup.
    destruct (info_of infos i) as [info|]; [|done]. intros [= <-].
    destruct (ns_peers ns !! i) as [q|] eqn:Hq; [apply moveEndpoint_ok; by apply (Hok i)|].
    split_and!; cbn; [lia|done|lia|lia].
Qed.

(** ** Dialling and sending *)

(** Of two different nodes exactly one probes the other, and no node probes
    itself; a probe round leaves a peer the node does not own untouched. *)
Theorem one_prober `{PeerRPC} a b fault ps :
  (a ≠ b → shouldDial a b = negb (shouldDial b a)) ∧ shouldDial a a = false ∧
  (shouldDial a (ps_id ps) = false → probe_entry fault a ps = ps).
Proof.
  unfold shouldDial. split_and!.
  - intros Hab. destruct (str_lt a b) eqn:Hlt; [by rewrite (str_lt_asym _ _ Hlt)|].
    destruct (str_lt_total a b Hab) as [Hlt'|Hlt']; [congruence|by rewrite Hlt'].
  - apply str_lt_irrefl.
  - intros Hd. unfold probe_entry, shouldDial. rewrite Hd. by destruct (negb _).
Qed.

(** An envelope leaves the node only when the peer is known and the fault
    gate of that peer allows it, towards that peer, with the payload unchanged
    and the sender stamped [id@host:port]; a send the gate refuses has no effect
    and no error; a send that succeeds marks the peer alive. *)
Theorem Send_gated `{PeerRPC} f cancelled env ns :
  (∀ ps, ns_peers ns !! env_To env = Some ps → s_Allow (fd_BeforeSend f (ps_id ps)) = false →
     Send (Some f) cancelled env ns = (ns, None, None)) ∧
  (∀ req, (Send (Some f) cancelled env ns).1.2 = Some req →
     (∃ ps, ns_peers ns !! env_To env = Some ps ∧ s_Allow (fd_BeforeSend f (ps_id ps)) = true) ∧
     er_To req = env_To env ∧ er_Payload req = env_Payload env ∧
     er_From req = env_From env +:+ "@" +:+ ns_nodeAddr ns +:+ ":" +:+ itoa (ns_nodePort ns) ∧
     ((Send (Some f) cancelled env ns).2 = None →
        GetTransportHealth (env_To env) (Send (Some f) cancelled env ns).1.1 = PeerAlive)).
Proof.
  split.
  - intros ps Hps Hd. unfold Send. by rewrite Hps, Hd.
  - intros req. unfold Send. destruct (ns_peers ns !! env_To env) as [ps|] eqn:Hps; [|done].
    destruct (s_Allow (fd_BeforeSend f (ps_id ps))) eqn:Ha; cbn [negb]; [|done].
    destruct (_ && cancelled); [done|].
    destruct (if ps_conn ps then _ else _) as [ps1 [e|]]; [done|].
    destruct (rpc_SendEnvelope _ _ _); cbn [note_result fst snd]; intros [= <-];
      (split_and!; [by exists ps|done..|]); [done|].
    intros _. unfold GetTransportHealth. cbn. by rewrite lookup_insert_eq.
Qed.

(** A handshake that fails is not repeated: the send that dialled reports
    the error, but it leaves the connection in place, and the next send uses it
    without a handshake. *)
Theorem failed_handshake_not_repeated `{PeerRPC} env ns ps err :
  ns_peers ns !! env_To env = Some ps → ps_conn ps = false →
  rpc_Dial (ps_host ps) (ps_port ps) = None → rpc_Handshake (ps_host ps) (ps_port ps) = Some err →
  let first := Send None false env ns in
  first.1.2 = None ∧ first.2 = Some err ∧ is_Some (Send None false env first.1.1).1.2.
Proof.
  intros Hps Hc Hd Hh. cbv zeta.
  assert (Send None false env ns =
    (ns_with_peers (<[env_To env := with_conn true ps]> (ns_peers ns)) ns, None, Some err)) as ->.
  { unfold Send. rewrite Hps. cbn. by rewrite Hc, Hd, Hh. }
  split_and!; [done|done|]. unfold Send. cbn. rewrite lookup_insert_eq. cbn.
  by destruct (rpc_SendEnvelope _ _ _).
Qed.

(** ** Witnesses *)

Section Witnesses.
#[local] Instance refusing_peers : PeerRPC := {|
  rpc_Dial := λ _ _, None;
  rpc_Handshake := λ _ _, Some (Errorf "refused" []);
  rpc_Ping := λ _ _, None;
  rpc_SendEnvelope := λ _ _ _, None;
|}.

Definition session_ab : nodeSession :=
  @OnPeersUpdated canonical_order [{| peer_ID := "b"; peer_Host := "h"; peer_Port := 1 |}] (NewNodeSession "localhost" "a" 7000).

Definition message_ab : Envelope :=
  {| env_From := "a"; env_To := "b"; env_Protocol := "gossip"; env_Payload := "x"; env_Kind := KindProtocol;
     env_TraceMetadata := EmptyString; env_Version := 1; env_LogicalTick := 0 |}.

Lemma session_health_witness : session_ok (probeTick None false session_ab).
Proof.
  apply (@session_health refusing_peers canonical_order None false message_ab [] "localhost" "a" 7000 session_ab).
  - apply (@session_health refusing_peers canonical_order None false message_ab
             [{| peer_ID := "b"; peer_Host := "h"; peer_Port := 1 |}] "localhost" "a" 7000 (NewNodeSession "localhost" "a" 7000)).
    + apply map_Forall_empty.
    + apply map_Forall_empty.
  - by_evaluation.
Defined.

Lemma one_prober_witness : shouldDial "n1" "n2" = negb (shouldDial "n2" "n1").
Proof.
  apply (one_prober "n1" "n2" None (newPeer {| peer_ID := "b"; peer_Host := "h"; peer_Port := 1 |})).
  vm_compute. congruence.
Defined.

Lemma Send_gated_witness :
  Send (Some (engine_decider SpecFloat.S754_nan (Some (Crash NewEngine)))) false message_ab session_ab = (session_ab, None, None).
Proof.
  destruct (Send_gated (engine_decider SpecFloat.S754_nan (Some (Crash NewEngine))) false message_ab session_ab) as [Hno _].
  apply (Hno (newPeer {| peer_ID := "b"; peer_Host := "h"; peer_Port := 1 |})); vm_compute; reflexivity.
Defined.

Lemma failed_handshake_not_repeated_witness :
  is_Some (Send None false message_ab (Send None false message_ab session_ab).1.1).1.2.
Proof.
  apply (failed_handshake_not_repeated message_ab session_ab
           (newPeer {| peer_ID := "b"; peer_Host := "h"; peer_Port := 1 |}) (Errorf "refused" [])); vm_compute; reflexivity.
Defined.
End Witnesses.
