(* ===== verification/Messages.v ===== *)
(** * Wire messages (internal/protocol/node.proto, cluster.proto)

    The messages the control plane and the nodes exchange, and the protobuf
    encoding of the action payloads as an interface: the generated code is not
    part of the sources, the definitions take it as a parameter. *)

From S2P Require Import Prelude Protocol.

Inductive ActionType := ACTION_UNKNOWN | KV_PUT | KV_GET | KV_DELETE.

#[export] Instance ActionType_eq_dec : EqDecision ActionType.
Proof. solve_decision. Defined.

Record ActionRequest := { ar_NodeId : string; ar_Action : ActionType; ar_Payload : string }.
Record ActionResponse := { rsp_Success : bool; rsp_Message : string; rsp_Payload : string }.
Record KVPutRequest := { put_Key : string; put_Value : string }.
Record KVGetResponse := { kg_Value : string; kg_Version : Z; kg_Origin : string; kg_HasMetadata : bool }.

#[export] Instance KVPutRequest_eq_dec : EqDecision KVPutRequest.
Proof. solve_decision. Defined.
#[export] Instance KVGetResponse_eq_dec : EqDecision KVGetResponse.
Proof. solve_decision. Defined.
#[export] Instance KVPutRequest_countable : Countable KVPutRequest.
Proof.
  refine (inj_countable' (λ r, (put_Key r, put_Value r)) (λ '(k, v), {| put_Key := k; put_Value := v |}) _).
  by intros [].
Defined.
#[export] Instance KVGetResponse_countable : Countable KVGetResponse.
Proof.
  refine (inj_countable' (λ r, (kg_Value r, kg_Version r, kg_Origin r, kg_HasMetadata r))
    (λ '(v, n, o, m), {| kg_Value := v; kg_Version := n; kg_Origin := o; kg_HasMetadata := m |}) _).
  by intros [].
Defined.

Record LogRequest := {
  lr_ClusterId : string;
  lr_NodeId : string;
  lr_Timestamp : Z;
  lr_Level : string;
  lr_Message : string;
}.

(** The encoding of the payloads.  The control plane drops the errors of its
    calls: its Marshal returns the bytes it gets, and its Unmarshal what the
    decoder fills in.  The node looks at them. *)
Class Protobuf := {
  Marshal_KVGetRequest : string → string;
  Marshal_KVPutRequest : KVPutRequest → string;
  Unmarshal_KVGetResponse : string → KVGetResponse;
  Unmarshal_KVGetRequest : string → option string;
  Unmarshal_KVPutRequest : string → option KVPutRequest;
  Marshal_KVGetResponse : KVGetResponse → option string;
}.

(** proto3 carries strings of valid UTF-8 and decodes what it encodes. *)
Class ProtobufLaws `{Protobuf} := {
  proto_string : string → Prop;
  get_request_roundtrip key : proto_string key → Unmarshal_KVGetRequest (Marshal_KVGetRequest key) = Some key;
  put_request_roundtrip key value : proto_string key → proto_string value →
    Unmarshal_KVPutRequest (Marshal_KVPutRequest {| put_Key := key; put_Value := value |}) =
    Some {| put_Key := key; put_Value := value |};
  get_response_roundtrip r : proto_string (kg_Value r) → proto_string (kg_Origin r) → in_i64 (kg_Version r) →
    ∃ bytes, Marshal_KVGetResponse r = Some bytes ∧ Unmarshal_KVGetResponse bytes = r;
}.

(** A concrete encoding, to run the definitions: the request for a key is the
    key itself, the other messages are coded through their countability. *)
Definition zeroGetResponse : KVGetResponse :=
  {| kg_Value := EmptyString; kg_Version := 0; kg_Origin := EmptyString; kg_HasMetadata := false |}.

Definition demo_protobuf : Protobuf := {|
  Marshal_KVGetRequest := λ key, key;
  Marshal_KVPutRequest := @EncodeJSON _ (countable_codec KVPutRequest);
  Unmarshal_KVGetResponse := λ s, default zeroGetResponse (@DecodeJSON _ (countable_codec KVGetResponse) s);
  Unmarshal_KVGetRequest := Some;
  Unmarshal_KVPutRequest := @DecodeJSON _ (countable_codec KVPutRequest);
  Marshal_KVGetResponse := λ r, Some (@EncodeJSON _ (countable_codec KVGetResponse) r);
|}.

Definition demo_protobuf_laws : @ProtobufLaws demo_protobuf.
Proof.
  refine {| proto_string := λ _, True |}.
  - done.
  - intros key value _ _. apply countable_decode_encode.
  - intros r _ _ _. eexists. split; [reflexivity|]. cbn -[DecodeJSON EncodeJSON]. by rewrite countable_decode_encode.
Defined.
