(* ===== verification/NodeRuntime.v ===== *)
(** * The node runtime (internal/node/runtime)

    Models reactor.go, rpc.go, action.go, capabilities.go, protocol_swap.go,
    controlplane_client.go, decision_contract.go and the tick gate of
    protocol_driver.go: the events a node processes one at a time, the topology
    it keeps in three layers (configuration, session, protocol), the actions on
    the protocol, and the fault parameters.  One step of the reactor takes an
    event from the queue and runs its handler to the end.  The channel of an
    action or a swap is the output of the step; ReactorLoop has the channels.  Diagnostic log lines are left
    out; the timeline lines a protocol emits are outputs. *)

From Stdlib Require Import SpecFloat.
From S2P Require Import Prelude GoStrings Protocol VectorClock Conflict Gossip Baseline Fault NodeConfig NodeSession Messages.

(** ** The active protocol

    The protocols the node registers, behind the interface ClusterProtocol. *)
Inductive ClusterProtocol := PGossip (g : GossipProtocol) | PBaseline (b : BaselineProtocol).

(** What the init functions of the two packages register. *)
Definition factories : gmap string ClusterProtocol :=
  <["gossip" := PGossip NewGossipProtocol]> (<["baseline" := PBaseline (NewBaselineProtocol [])]> ∅).

Definition proto_Start (id : string) (p : ClusterProtocol) : ClusterProtocol :=
  match p with
  | PGossip g => PGossip (Gossip.Start id g)
  | PBaseline b => PBaseline (baseline_Start id b)
  end.

Definition proto_Stop (p : ClusterProtocol) : ClusterProtocol :=
  match p with
  | PGossip g => PGossip (Gossip.Stop g)
  | PBaseline b => PBaseline (baseline_Stop b)
  end.

Definition proto_SetPeers `{Env} (ids : list string) (p : ClusterProtocol) : ClusterProtocol :=
  match p with
  | PGossip g => PGossip (Gossip.SetPeers ids g)
  | PBaseline b => PBaseline (baseline_SetPeers ids b)
  end.

Definition proto_SetPeerDiscoveryCallback (p : ClusterProtocol) : ClusterProtocol :=
  match p with
  | PGossip g => PGossip (Gossip.SetPeerDiscoveryCallback g)
  | PBaseline b => PBaseline (baseline_SetPeerDiscoveryCallback b)
  end.

(** Only gossip takes a logger of any type; baseline's SetLogger has another
    signature, so the interface test fails. *)
Definition proto_SetLogger (p : ClusterProtocol) : ClusterProtocol :=
  match p with
  | PGossip g => PGossip (Gossip.SetLogger g)
  | PBaseline b => PBaseline b
  end.

Definition proto_peers (p : ClusterProtocol) : list string :=
  match p with PGossip g => peers g | PBaseline b => b_peers b end.

Definition proto_nodeID (p : ClusterProtocol) : string :=
  match p with PGossip g => nodeID g | PBaseline b => b_nodeID b end.

(** ** runtime.go, event.go *)

Inductive RuntimeEvent :=
  | EventTick
  | EventMessage (Msg : Envelope)
  | EventAction (Act : option ActionRequest)
  | EventProtocolSwap (ProtocolKey : string).

Record Runtime := {
  config : NodeConfig;
  started : bool;                        (* the context exists *)
  ns : nodeSession;
  r_proto : option ClusterProtocol;
  eventCh : list RuntimeEvent;
  fault : option Engine;
}.

Definition set_layers (c : NodeConfig) (s : nodeSession) (p : option ClusterProtocol) (r : Runtime) : Runtime :=
  {| config := c; started := started r; ns := s; r_proto := p; eventCh := eventCh r; fault := fault r |}.
Definition set_proto (p : ClusterProtocol) (r : Runtime) : Runtime := set_layers (config r) (ns r) (Some p) r.
Definition set_ns (s : nodeSession) (r : Runtime) : Runtime := set_layers (config r) s (r_proto r) r.
Definition set_queue (q : list RuntimeEvent) (r : Runtime) : Runtime :=
  {| config := config r; started := started r; ns := ns r; r_proto := r_proto r; eventCh := q; fault := fault r |}.
Definition set_fault (e : Engine) (r : Runtime) : Runtime :=
  {| config := config r; started := started r; ns := ns r; r_proto := r_proto r; eventCh := eventCh r; fault := Some e |}.

Definition NewRuntime (cfg : NodeConfig) (s : nodeSession) : Runtime :=
  {| config := cfg; started := false; ns := s; r_proto := None; eventCh := []; fault := None |}.

(** The first lines of Start: the context, the queue and the fault engine. *)
Definition runtime_Start (fe : option Engine) (r : Runtime) : Runtime :=
  {| config := config r; started := true; ns := ns r; r_proto := r_proto r; eventCh := []; fault := fe |}.

(** The parts of a step another goroutine can see. *)
Record ProtocolCapabilities := { cap_KVPut : bool; cap_KVGet : bool; cap_KVDelete : bool }.

Inductive Output :=
  | OutSend (req : option EnvelopeRequest) (err : option error)   (* a Send of the session *)
  | OutLog (line : TimelineMsg)
  | OutReply (resp : ActionResponse)
  | OutSwap (err : option error)
  | OutReport (key : string) (caps : ProtocolCapabilities).

(** ** decision_contract.go *)

Definition runtime_BeforeSend (draw : spec_float) (peer : string) (r : Runtime) : SendDecision :=
  match fault r with
  | None => {| s_Allow := true; s_Delay := 0; s_Reason := EmptyString |}
  | Some e => BeforeSend draw peer (Some e)
  end.
Definition runtime_BeforeProbe (peer : string) (r : Runtime) : ProbeDecision :=
  match fault r with
  | None => {| p_Allow := true; p_Delay := 0; p_Reason := "no-fault-engine" |}
  | Some e => BeforeProbe peer (Some e)
  end.
Definition runtime_BeforeTick (r : Runtime) : TickDecision :=
  match fault r with
  | None => {| t_Allow := true; t_Delay := 0; t_Reason := "no-fault-engine" |}
  | Some e => BeforeTick (Some e)
  end.
Definition runtime_BeforeReceive (sender : string) (r : Runtime) : ReceiveDecision :=
  match fault r with
  | None => {| r_Allow := true; r_Reason := EmptyString |}
  | Some e => BeforeReceive sender (Some e)
  end.

(** protocol_driver.go: one tick of the timer queues an event, unless the fault
    gate is closed or the driver is stopped during the delay. *)
Definition driver_tick (stopped : bool) (r : Runtime) : Runtime :=
  let tick := runtime_BeforeTick r in
  if negb (t_Allow tick) then r
  else if (0 <? t_Delay tick) && stopped then r
  else set_queue (eventCh r ++ [EventTick]) r.

(** reactor.go: HandleEnvelope. *)
Definition HandleEnvelope (req : EnvelopeRequest) (r : Runtime) : Runtime :=
  let env := {| env_From := er_From req; env_To := er_To req; env_Protocol := er_Protocol req;
                env_Payload := er_Payload req; env_Kind := KindProtocol; env_TraceMetadata := EmptyString;
                env_Version := 0; env_LogicalTick := 0 |} in
  set_queue (eventCh r ++ [EventMessage env]) r.

(** ** controlplane_client.go: the topology *)

Definition peer_ids (c : NodeConfig) : list string := peer_ID <$> cfg_Peers c.

(** The merge of a discovered peer into a topology: the entry of that id gets
    the new address, or the peer is added at the end. *)
Definition merge_info (d : NodeInfo) (p : NodeInfo) : NodeInfo :=
  if bool_decide (ni_Id p = ni_Id d) then
    {| ni_Id := ni_Id d;
       ni_Address := if bool_decide (ni_Address d = EmptyString) then ni_Address p else ni_Address d;
       ni_Port := if (0 <? ni_Port d) then ni_Port d else ni_Port p |}
  else p.

Definition merge_topology (infos : list NodeInfo) (d : NodeInfo) : list NodeInfo :=
  let merged := merge_info d <$> infos in
  if existsb (λ p, bool_decide (ni_Id p = ni_Id d)) infos then merged else merged ++ [d].

Definition applyPeersTopology `{Env} (infos : list NodeInfo) (discovered : option NodeInfo) (r : Runtime) : Runtime :=
  let infos := match discovered with Some d => merge_topology infos d | None => infos end in
  let c := cfg_SetPeers (Some <$> infos) (config r) in
  set_layers c (OnPeersUpdated (cfg_Peers c) (ns r)) (proto_SetPeers (peer_ids c) <$> r_proto r) r.

(** [FetchPeers]'s answer is the argument. *)
Definition getPeersFromControlplane `{Env} (answer : result (list NodeInfo)) (r : Runtime) : Runtime * option error :=
  match answer with
  | Err e => (r, Some e)
  | Ok infos => (applyPeersTopology infos None r, None)
  end.

(** The answer of the heartbeat call is the argument; no call is [None]. *)
Definition sendHeartbeatToControlPlane (cpHeartbeat : option error) (r : Runtime) : option (option error) :=
  if negb (t_Allow (runtime_BeforeTick r)) then None else Some cpHeartbeat.

(** ** rpc.go *)

Definition infoOfPeer (p : Peer) : NodeInfo :=
  {| ni_Id := peer_ID p; ni_Address := peer_Host p; ni_Port := wrap_u32 (peer_Port p) |}.

Definition OnPeerDiscovered `{Env} (peerID peerHost : string) (peerPort : Z) (r : Runtime) : Runtime :=
  if negb (started r) then r
  else if bool_decide (peerID = EmptyString) || (peerPort <=? 0) then r
  else
    let peerHost := if bool_decide (peerHost = EmptyString) then "localhost" else peerHost in
    applyPeersTopology (infoOfPeer <$> cfg_Peers (config r))
      (Some {| ni_Id := peerID; ni_Address := peerHost; ni_Port := wrap_u32 peerPort |}) r.

Record FaultRequest := {
  fr_NodeId : string;
  fr_Crashed : bool;
  fr_DropRate : spec_float;
  fr_DelayMs : Z;
  fr_Partition : list string;
}.

(** The set of peers a request wants partitioned. *)
Definition desired_partition (self : string) (ids : list string) : gmap string unit :=
  foldl (λ m id, if bool_decide (id = EmptyString) || bool_decide (id = self) then m else <[id := tt]> m) ∅ ids.

Definition apply_fault `{RangeOrder} (self : string) (knownPeers : list string) (params : FaultRequest) (e : Engine) :
    Engine :=
  let e := if fr_Crashed params then Crash e else Recover e in
  let e := SetDelay (fr_DelayMs params) (SetDropRate (fr_DropRate params) e) in
  let desired := desired_partition self (fr_Partition params) in
  let e := foldl (λ e id, match desired !! id with Some _ => Partition id e | None => Heal id e end) e knownPeers in
  foldl (λ e '(id, _), Partition id e) e (range 96 desired).

Definition runtime_SetFaultParams `{RangeOrder} (params : option FaultRequest) (r : Runtime) : Runtime * option error :=
  match params, fault r with
  | None, _ => (r, Some (Errorf "fault params request is nil" []))
  | Some _, None => (r, Some (Errorf "fault engine is not initialized" []))
  | Some p, Some e =>
      if bool_decide (fr_NodeId p ≠ EmptyString) && bool_decide (fr_NodeId p ≠ cfg_ID (config r)) then
        (r, Some (Errorf "fault request node mismatch: got=%s want=%s" [AStr (fr_NodeId p); AStr (cfg_ID (config r))]))
      else if SFltb (fr_DropRate p) f64_zero || SFltb f64_one (fr_DropRate p) then
        (r, Some (Errorf "drop_rate must be in range [0,1], got=%f" []))
      else if (fr_DelayMs p <? 0) then
        (r, Some (Errorf "delay_ms must be >= 0, got=%d" [AInt (fr_DelayMs p)]))
      else (set_fault (apply_fault (cfg_ID (config r)) (peer_ids (config r)) p e) r, None)
  end.

(** ** capabilities.go

    Gossip implements the key-value interfaces, baseline none of them. *)

Definition PutAction `{Env} (args : list string) (p : option ClusterProtocol) :
    result (option ClusterProtocol * list TimelineMsg) :=
  match p with
  | Some (PGossip g) =>
      match args with
      | [] => Ok (p, [])
      | [key; value] => let '(g, lines) := Gossip.Put key value g in Ok (Some (PGossip g), lines)
      | _ => Err (Errorf "kv_put expects key and value" [])
      end
  | _ => Err (Errorf "kv_write not supported by protocol" [])
  end.

Definition GetAction (args : list string) (p : option ClusterProtocol) : result (string * bool) :=
  match p with
  | Some (PGossip g) =>
      match args with
      | [] => Ok (EmptyString, false)
      | [key] => Ok (Gossip.Get key g)
      | _ => Err (Errorf "kv_get expects key" [])
      end
  | _ => Err (Errorf "kv_read not supported by protocol" [])
  end.

Record KVGetMetadata := { md_Value : string; md_Version : Z; md_Origin : string }.

Definition GetActionWithMetadata (args : list string) (p : option ClusterProtocol) : result (KVGetMetadata * bool) :=
  match p with
  | Some (PGossip g) =>
      match args with
      | [] => Ok ({| md_Value := EmptyString; md_Version := 0; md_Origin := EmptyString |}, false)
      | [key] =>
          let '(value, version, origin, found) := GetWithMetadata key g in
          Ok ({| md_Value := value; md_Version := version; md_Origin := origin |}, found)
      | _ => Err (Errorf "kv_get expects key" [])
      end
  | _ =>
      '(value, found) ← GetAction args p;
      Ok ({| md_Value := value; md_Version := 0; md_Origin := EmptyString |}, found)
  end.

Definition DeleteAction (args : list string) (p : option ClusterProtocol) : result (option ClusterProtocol) :=
  match p with
  | Some (PGossip g) =>
      match args with
      | [] => Ok p
      | [key] => Ok (Some (PGossip (Gossip.Delete key g)))
      | _ => Err (Errorf "kv_delete expects key" [])
      end
  | _ => Err (Errorf "kv_delete not supported by protocol" [])
  end.

Definition CheckCapabilities `{Env} (p : option ClusterProtocol) : ProtocolCapabilities :=
  {| cap_KVPut := is_ok (PutAction [] p); cap_KVGet := is_ok (GetAction [] p); cap_KVDelete := is_ok (DeleteAction [] p) |}.

(** ** action.go *)

Definition success (payload : string) : ActionResponse :=
  {| rsp_Success := true; rsp_Message := EmptyString; rsp_Payload := payload |}.
Definition fail_ (msg : string) : ActionResponse :=
  {| rsp_Success := false; rsp_Message := msg; rsp_Payload := EmptyString |}.

(** [err.Error()] of the errors above, which have no arguments. *)
Definition error_text (e : error) : string :=
  match e with Errorf format _ => format | Wrapf format _ _ => format end.

Definition handleActionEvent `{Env, Protobuf} (req : option ActionRequest) (r : Runtime) :
    Runtime * list TimelineMsg * ActionResponse :=
  match req with
  | None => (r, [], fail_ "nil action request")
  | Some req =>
      match ar_Action req with
      | KV_PUT =>
          match Unmarshal_KVPutRequest (ar_Payload req) with
          | None => (r, [], fail_ "invalid KVPut payload")
          | Some p =>
              match PutAction [put_Key p; put_Value p] (r_proto r) with
              | Err e => (r, [], fail_ (error_text e))
              | Ok (proto, lines) => (set_layers (config r) (ns r) proto r, lines, success EmptyString)
              end
          end
      | KV_GET =>
          match Unmarshal_KVGetRequest (ar_Payload req) with
          | None => (r, [], fail_ "invalid KVGet payload")
          | Some key =>
              match GetActionWithMetadata [key] (r_proto r) with
              | Err e => (r, [], fail_ (error_text e))
              | Ok (_, false) => (r, [], fail_ "key not found")
              | Ok (meta, true) =>
                  let response :=
                    if (0 <? md_Version meta) || bool_decide (md_Origin meta ≠ EmptyString)
                    then {| kg_Value := md_Value meta; kg_Version := md_Version meta; kg_Origin := md_Origin meta;
                            kg_HasMetadata := true |}
                    else {| kg_Value := md_Value meta; kg_Version := 0; kg_Origin := EmptyString;
                            kg_HasMetadata := false |} in
                  match Marshal_KVGetResponse response with
                  | None => (r, [], fail_ "serialization failed")
                  | Some bytes => (r, [], success bytes)
                  end
              end
          end
      | _ => (r, [], fail_ "unknown action")
      end
  end.

(** ** protocol_swap.go *)

Definition applyProtocolSwap `{Env} (protocolKey : string) (r : Runtime) : Runtime * option error :=
  match Load id protocolKey factories with
  | Err e => (r, Some (Wrapf "protocol load failed for %s: %w" [AStr protocolKey] e))
  | Ok p =>
      let r := set_layers (config r) (ns r) (proto_Stop <$> r_proto r) r in
      let p := proto_SetPeers (peer_ids (config r)) p in
      let p := proto_SetLogger (proto_SetPeerDiscoveryCallback p) in
      (set_proto (proto_Start (cfg_ID (config r)) p) r, None)
  end.

(** The report runs in the background once the swap is done; what it sends is
    an output.  Its epoch is always 0. *)
Definition reportCapabilities `{Env} (protocolKey : string) (r : Runtime) : list Output :=
  if bool_decide (protocolKey = EmptyString) then []
  else match r_proto r with
       | None => []
       | Some p => [OutReport protocolKey (CheckCapabilities (Some p))]
       end.

(** ** reactor.go *)

(** The randomness and the cancellations the sends of a step meet; the number
    is that of the send. *)
Class SendEnv := {
  drop_draw : nat → spec_float;
  ctx_done : nat → bool;
}.

(** sendEnvelope: a broadcast becomes one message per configured peer, with the
    fields the code copies. *)
Definition unicast (env : Envelope) (peerID : string) : Envelope :=
  {| env_From := env_From env; env_To := peerID; env_Protocol := env_Protocol env; env_Payload := env_Payload env;
     env_Kind := env_Kind env; env_TraceMetadata := EmptyString; env_Version := 0; env_LogicalTick := 0 |}.

Definition expand (c : NodeConfig) (env : Envelope) : list Envelope :=
  if bool_decide (env_To env = EmptyString) then unicast env <$> peer_ids c else [env].

Fixpoint send_list `{PeerRPC, SendEnv} (e : option Engine) (i : nat) (envs : list Envelope) (s : nodeSession) :
    nodeSession * list Output :=
  match envs with
  | [] => (s, [])
  | env :: rest =>
      let '(s, req, err) := Send (Some (engine_decider (drop_draw i) e)) (ctx_done i) env s in
      let '(s, out) := send_list e (S i) rest s in
      (s, OutSend req err :: out)
  end.

Definition sendAll `{PeerRPC, SendEnv} (envs : list Envelope) (r : Runtime) : Runtime * list Output :=
  let '(s, out) := send_list (fault r) 0 (mjoin (expand (config r) <$> envs)) (ns r) in
  (set_ns s r, out).

Section Protocols.
Context `{Env, Codec GossipMessage, Codec MembershipEvent}.

Definition proto_Tick (p : ClusterProtocol) : ClusterProtocol * list Envelope :=
  match p with
  | PGossip g => let '(g, out) := Gossip.Tick g in (PGossip g, out)
  | PBaseline b => let '(b, out) := baseline_Tick b in (PBaseline b, out)
  end.

(** The peer a message reports to OnPeerDiscovered, if the protocol calls it. *)
Definition gossip_discovers (from : string) (g : GossipProtocol) : option (string * string * Z) :=
  let '(_, senderHost, senderPort) := parseSenderAddress from in
  let senderID := senderOf from in
  if keep_peer (nodeID g) senderID && negb (hasPeer g senderID) &&
     (peerDiscoveryCb g && bool_decide (senderHost ≠ EmptyString) && (0 <? senderPort))
  then Some (senderID, senderHost, senderPort) else None.

Definition baseline_discovers (from : string) (b : BaselineProtocol) : option (string * string * Z) :=
  let '(id, host, port) := splitSender from in
  if bool_decide (id = b_nodeID b) then None
  else match lastSeen b !! id with
       | Some _ => None
       | None => if b_peerDiscoveryCb b && bool_decide (host ≠ EmptyString) then Some (id, host, port) else None
       end.

Definition proto_discovers (from : string) (p : ClusterProtocol) : option (string * string * Z) :=
  match p with PGossip g => gossip_discovers from g | PBaseline b => baseline_discovers from b end.

(** OnPeerDiscovered, seen from the protocol that calls it. *)
Definition gossip_callback (r : Runtime) (id host : string) (port : Z) (g : GossipProtocol) : GossipProtocol :=
  match r_proto (OnPeerDiscovered id host port (set_proto (PGossip g) r)) with Some (PGossip g) => g | _ => g end.
Definition baseline_callback (r : Runtime) (id host : string) (port : Z) (b : BaselineProtocol) : BaselineProtocol :=
  match r_proto (OnPeerDiscovered id host port (set_proto (PBaseline b) r)) with Some (PBaseline b) => b | _ => b end.

Definition proto_OnMessage (r : Runtime) (env : Envelope) (p : ClusterProtocol) :
    ClusterProtocol * list TimelineMsg * list Envelope :=
  match p with
  | PGossip g => let '(g, lines, out) := Gossip.OnMessage (gossip_callback r) env g in (PGossip g, lines, out)
  | PBaseline b => let '(b, out) := baseline_OnMessage (baseline_callback r) env b in (PBaseline b, [], out)
  end.

(** OnMessage with its callback: the callback changes the configuration and the
    session of the runtime, and the protocol from within. *)
Definition deliver (env : Envelope) (p : ClusterProtocol) (r : Runtime) : Runtime * list TimelineMsg * list Envelope :=
  let '(p', lines, out) := proto_OnMessage r env p in
  let r := match proto_discovers (env_From env) p with
           | Some (id, host, port) => OnPeerDiscovered id host port r
           | None => r
           end in
  (set_proto p' r, lines, out).

(** One iteration of runProtocolLoop on an event.  Tick and OnMessage are called
    without looking whether there is a protocol. *)
Definition handle_event `{Protobuf, PeerRPC, SendEnv} (ev : RuntimeEvent) (r : Runtime) : outcome (Runtime * list Output) :=
  match ev with
  | EventTick =>
      match r_proto r with
      | None => Panic "nil pointer dereference"
      | Some p => let '(p, out) := proto_Tick p in Done (sendAll out (set_proto p r))
      end
  | EventMessage env =>
      match r_proto r with
      | None => Panic "nil pointer dereference"
      | Some p =>
          let '(r, lines, out) := deliver env p r in
          let '(r, sent) := sendAll out r in
          Done (r, (OutLog <$> lines) ++ sent)
      end
  | EventAction req =>
      let '(r, lines, resp) := handleActionEvent req r in
      Done (r, (OutLog <$> lines) ++ [OutReply resp])
  | EventProtocolSwap key =>
      let '(r, err) := applyProtocolSwap key r in
      Done (r, match err with None => reportCapabilities key r | Some _ => [] end ++ [OutSwap err])
  end.

(** The loop takes the oldest event; with none it waits. *)
Definition reactor_step `{Protobuf, PeerRPC, SendEnv} (r : Runtime) : outcome (Runtime * list Output) :=
  match eventCh r with
  | [] => Done (r, [])
  | ev :: rest => handle_event ev (set_queue rest r)
  end.

(** ExecuteAction queues the request and waits for its reply: the reactor first
    works off what was queued before. *)
Fixpoint drain `{Protobuf, PeerRPC, SendEnv} (evs : list RuntimeEvent) (r : Runtime) : outcome (Runtime * list Output) :=
  match evs with
  | [] => Done (r, [])
  | ev :: rest =>
      match handle_event ev r with
      | Panic why => Panic why
      | Done (r, out) =>
          match drain rest r with
          | Panic why => Panic why
          | Done (r, out') => Done (r, out ++ out')
          end
      end
  end.

Definition last_reply (out : list Output) : option ActionResponse :=
  match last out with Some (OutReply resp) => Some resp | _ => None end.

Definition runtime_ExecuteAction `{Protobuf, PeerRPC, SendEnv} (req : option ActionRequest) (r : Runtime) :
    outcome (Runtime * option ActionResponse) :=
  match req with
  | None => Done (r, Some (fail_ "nil action request"))
  | Some _ =>
      match drain (eventCh r ++ [EventAction req]) (set_queue [] r) with
      | Panic why => Panic why
      | Done (r, out) => Done (r, last_reply out)
      end
  end.

Definition runtime_ProtocolSwap `{Protobuf, PeerRPC, SendEnv} (key : string) (r : Runtime) :
    outcome (Runtime * option error) :=
  match drain (eventCh r ++ [EventProtocolSwap key]) (set_queue [] r) with
  | Panic why => Panic why
  | Done (r, out) => Done (r, match last out with Some (OutSwap e) => e | _ => None end)
  end.
End Protocols.
