(* ===== verification/RuntimeProps.v ===== *)
(** * Properties of the node runtime

    The three layers that hold a node's topology agree in every reachable state;
    fault requests are applied as a whole or not at all; a crashed node sends
    nothing. *)

From Stdlib Require Import SpecFloat.
From stdpp Require Import relations.
From S2P Require Import Prelude GoStrings Protocol VectorClock Conflict Gossip GossipProps Baseline Fault NodeConfig NodeSession Messages NodeRuntime.

(** ** What the operations of a protocol keep *)

(** An operation keeps the node id and forgets no peer. *)
Definition keeps (p p' : ClusterProtocol) : Prop :=
  proto_nodeID p' = proto_nodeID p ∧ proto_peers p ⊆ proto_peers p'.

#[export] Instance keeps_preorder : PreOrder keeps.
Proof. split; [by split|]. intros p q s [H1 H2] [H3 H4]. split; [congruence|set_solver]. Qed.

Lemma baseline_SetPeers_frame ps b :
  b_nodeID (baseline_SetPeers ps b) = b_nodeID b ∧ b_peers (baseline_SetPeers ps b) = ps.
Proof.
  unfold baseline_SetPeers. apply (foldl_invariant (λ c, b_nodeID c = b_nodeID b ∧ b_peers c = ps)); [done|].
  intros c p _ Hc. by destruct (lastSeen c !! p).
Qed.

Lemma proto_SetPeers_spec `{Env} ids p :
  proto_nodeID (proto_SetPeers ids p) = proto_nodeID p ∧
  ∀ id, id ∈ ids → id ≠ EmptyString → id ≠ proto_nodeID p → id ∈ proto_peers (proto_SetPeers ids p).
Proof.
  destruct p as [g|b]; cbn.
  - destruct (SetPeers_spec ids g) as (Hp & _ & Hd). split; [by injection Hd|]. intros id Hid He Hs. rewrite Hp.
    by apply list_elem_of_filter.
  - destruct (baseline_SetPeers_frame ids b) as [-> ->]. by split.
Qed.

Lemma baseline_Tick_frame `{Codec MembershipEvent} b :
  b_nodeID (baseline_Tick b).1 = b_nodeID b ∧ b_peers (baseline_Tick b).1 = b_peers b.
Proof.
  unfold baseline_Tick. set (c := with_id_tick _ _ b).
  pose proof (check_peers_frame (b_peers c) c (if b_tick c `mod` heartbeatInterval c =? 0
    then heartbeat (b_nodeID c) <$> alivePeers c else [])) as Hfr.
  destruct (same_frame_fields _ _ Hfr) as (Hid & _ & _ & Hp & _). split; [exact Hid|exact Hp].
Qed.

Lemma proto_Tick_keeps `{Env, Codec GossipMessage, Codec MembershipEvent} p : keeps p (proto_Tick p).1.
Proof.
  destruct p as [g|b]; cbn [proto_Tick].
  - destruct (Tick_sends g) as (_ & Hid & Hp & _). destruct (Gossip.Tick g) as [g' out]; cbn [fst] in *.
    unfold keeps; cbn. by rewrite Hid, Hp.
  - destruct (baseline_Tick_frame b) as [Hid Hp]. destruct (baseline_Tick b) as [b' out]; cbn [fst] in *.
    unfold keeps; cbn. by rewrite Hid, Hp.
Qed.

Lemma PutAction_keeps `{Env} args p q lines : PutAction args (Some p) = Ok (q, lines) → ∃ q', q = Some q' ∧ keeps p q'.
Proof.
  destruct p as [g|b]; [|done]. destruct args as [|k [|v [|]]]; [by intros [= <- <-]; eexists|done| |done].
  cbn. intros [= <- <-]. eexists. split; [done|]. by split.
Qed.

(** ** Discovery *)

Lemma discoverSender_eq cb from g :
  discoverSender cb from g =
  match gossip_discovers from g with
  | Some (id, host, port) => cb id host port (set_peers (peers g ++ [id]) g)
  | None => if keep_peer (nodeID g) (senderOf from) && negb (hasPeer g (senderOf from))
            then set_peers (peers g ++ [senderOf from]) g else g
  end.
Proof.
  unfold discoverSender, gossip_discovers. destruct (parseSenderAddress from) as [[i h] p].
  destruct (keep_peer (nodeID g) (senderOf from) && negb (hasPeer g (senderOf from))); [|done].
  cbn [peerDiscoveryCb set_peers andb]. by destruct (peerDiscoveryCb g && _ && _).
Qed.

Lemma gossip_OnMessage_frame `{Env, Codec GossipMessage} cb env g :
  let g' := discoverSender cb (env_From env) g in
  nodeID (Gossip.OnMessage cb env g).1.1 = nodeID g' ∧ peers (Gossip.OnMessage cb env g).1.1 = peers g'.
Proof.
  unfold Gossip.OnMessage. destruct (DecodeJSON _) as [msg|]; [|done].
  by repeat (case_bool_decide; [done|]).
Qed.

Lemma hear_eq cb from host port b :
  b_nodeID (hear cb from host port b) = b_nodeID
    (match lastSeen b !! from with
     | Some _ => b
     | None =>
         let b1 := with_maps (<[from := b_tick b]> (lastSeen b)) (<[from := StatusAlive]> (status b))
                     (<[from := 0]> (incarnation b)) (suspectSince b) (with_peers (b_peers b ++ [from]) b) in
         if b_peerDiscoveryCb b && bool_decide (host ≠ EmptyString) then cb from host port b1 else b1
     end) ∧
  b_peers (hear cb from host port b) = b_peers
    (match lastSeen b !! from with
     | Some _ => b
     | None =>
         let b1 := with_maps (<[from := b_tick b]> (lastSeen b)) (<[from := StatusAlive]> (status b))
                     (<[from := 0]> (incarnation b)) (suspectSince b) (with_peers (b_peers b ++ [from]) b) in
         if b_peerDiscoveryCb b && bool_decide (host ≠ EmptyString) then cb from host port b1 else b1
     end).
Proof. unfold hear. by destruct (lastSeen b !! from); cbn; repeat case_match. Qed.

Lemma baseline_OnMessage_frame `{Codec MembershipEvent} cb env b :
  let '(from, host, port) := splitSender (env_From env) in
  from ≠ b_nodeID b →
  b_nodeID (baseline_OnMessage cb env b).1 = b_nodeID (hear cb from host port b) ∧
  b_peers (baseline_OnMessage cb env b).1 = b_peers (hear cb from host port b).
Proof.
  unfold baseline_OnMessage. destruct (splitSender (env_From env)) as [[from host] port]. intros Hf.
  rewrite bool_decide_false by done. destruct (DecodeJSON _) as [ev|]; [|done].
  unfold applyEvent. by repeat case_match.
Qed.

(** ** The topology *)

(** A protocol works for this node and knows every configured peer. *)
Definition covers (r : Runtime) (p : ClusterProtocol) : Prop :=
  proto_nodeID p = cfg_ID (config r) ∧
  ∀ id, id ∈ peer_ids (config r) → id ≠ EmptyString → id ∈ proto_peers p.

Record runtime_ok (r : Runtime) : Prop := {
  ok_session id : id ∈ peer_ids (config r) ↔ is_Some (ns_peers (ns r) !! id);
  ok_self : cfg_ID (config r) ∉ peer_ids (config r);
  ok_proto p : r_proto r = Some p → covers r p;
}.

Lemma info_of_Some infos id : is_Some (info_of infos id) ↔ id ∈ peer_ID <$> infos.
Proof.
  unfold info_of. assert (∀ a, is_Some (foldl (λ a p, if decide (peer_ID p = id) then Some p else a) a infos) ↔
    is_Some a ∨ id ∈ peer_ID <$> infos) as Hgen; [|rewrite Hgen; split; [intros [[? ?]|?]; done|by right]].
  induction infos as [|p infos IH]; intros a; cbn [foldl].
  - split; [by left|]. intros [?|?%elem_of_nil]; done.
  - rewrite IH, fmap_cons, elem_of_cons. case_decide as Hp; [subst|]; naive_solver.
Qed.

Lemma session_agrees `{RangeOrder} c s id :
  id ∈ peer_ids c ↔ is_Some (ns_peers (OnPeersUpdated (cfg_Peers c) s) !! id).
Proof.
  rewrite OnPeersUpdated_lookup. unfold peer_ids. rewrite <-info_of_Some.
  destruct (info_of _ _); split; [by eauto|by eauto|by intros []|by intros []].
Qed.

Lemma cfg_SetPeers_self infos c : cfg_ID c ∉ peer_ids (cfg_SetPeers infos c).
Proof.
  unfold peer_ids, cfg_SetPeers. cbn. intros (p & Hp & Hin)%list_elem_of_fmap.
  apply list_elem_of_omap in Hin as ([info|] & _ & Hi); cbn in Hi; [|done].
  case_bool_decide; [done|]. injection Hi as <-. cbn in Hp. congruence.
Qed.

Lemma applyPeersTopology_ok `{Env} infos d r :
  (∀ p, r_proto r = Some p → proto_nodeID p = cfg_ID (config r)) → runtime_ok (applyPeersTopology infos d r).
Proof.
  intros Hp. unfold applyPeersTopology. set (infos' := match d with Some _ => _ | None => _ end).
  set (c := cfg_SetPeers (Some <$> infos') (config r)). assert (cfg_ID c = cfg_ID (config r)) as Hc by done.
  pose proof (cfg_SetPeers_self (Some <$> infos') (config r)) as Hself. fold c in Hself.
  split; cbn [config ns r_proto set_layers].
  - intros id. apply session_agrees.
  - by rewrite Hc.
  - intros q (p & Hpr & ->)%fmap_Some. specialize (Hp p Hpr).
    destruct (proto_SetPeers_spec (peer_ids c) p) as [Hid Hin]. unfold covers; cbn [config set_layers].
    rewrite Hid, Hp, Hc. split; [done|].
    intros id Hmem Hne. apply Hin; [done|done|]. rewrite Hp. intros ->. done.
Qed.

Lemma OnPeerDiscovered_ok `{Env} id host port r : runtime_ok r → runtime_ok (OnPeerDiscovered id host port r).
Proof.
  intros Hr. unfold OnPeerDiscovered. destruct (negb (started r)); [done|].
  destruct (_ || _); [done|]. apply applyPeersTopology_ok. intros p Hp. by apply (ok_proto r Hr).
Qed.

(** The callback is the protocol part of OnPeerDiscovered: with another protocol
    in place it changes the configuration and the session the same way. *)
Lemma OnPeerDiscovered_set_proto `{Env} id host port p r :
  let r' := OnPeerDiscovered id host port r in
  let r1 := OnPeerDiscovered id host port (set_proto p r) in
  config r1 = config r' ∧ ns r1 = ns r' ∧
  (r_proto r1 = Some p ∧ config r' = config r ∨
   r_proto r1 = Some (proto_SetPeers (peer_ids (config r')) p)).
Proof.
  unfold OnPeerDiscovered. cbn [started set_proto set_layers config].
  destruct (negb (started r)); [by split_and!; [..|left]|].
  destruct (_ || _); [by split_and!; [..|left]|]. by split_and!; [..|right].
Qed.

Lemma OnPeerDiscovered_ID `{Env} id host port r : cfg_ID (config (OnPeerDiscovered id host port r)) = cfg_ID (config r).
Proof. unfold OnPeerDiscovered. destruct (negb (started r)); [done|]. by destruct (_ || _). Qed.

(** What the callback leaves of a protocol that has already added the sender. *)
Lemma callback_covers `{Env} id host port p0 p q r :
  runtime_ok r → r_proto r = Some p0 → keeps p0 p →
  r_proto (OnPeerDiscovered id host port (set_proto p r)) = Some q →
  covers (OnPeerDiscovered id host port r) q.
Proof.
  intros Hr Hp0 [Hid Hsub] Hq. set (r' := OnPeerDiscovered id host port r). unfold covers. destruct (ok_proto r Hr p0 Hp0) as [Hid0 Hin0].
  pose proof (ok_self r' (OnPeerDiscovered_ok id host port r Hr)) as Hself.
  assert (cfg_ID (config r') = cfg_ID (config r)) as HID by apply OnPeerDiscovered_ID.
  subst r'. destruct (OnPeerDiscovered_set_proto id host port p r) as (_ & _ & [[Hq' Hc]|Hq']);
    rewrite Hq' in Hq; injection Hq as <-.
  - rewrite Hc. split; [congruence|]. intros i Hi Hne. by apply Hsub, Hin0.
  - destruct (proto_SetPeers_spec (peer_ids (config (OnPeerDiscovered id host port r))) p) as [-> Hin]. split; [congruence|].
    intros i Hi Hne. apply Hin; [done|done|]. rewrite Hid, Hid0. intros ->. by rewrite HID in Hself.
Qed.

(** The runtime after the discovery a message causes, if it causes one. *)
Definition discovered_runtime `{Env} (from : string) (p : ClusterProtocol) (r : Runtime) : Runtime :=
  match proto_discovers from p with
  | Some (id, host, port) => OnPeerDiscovered id host port r
  | None => r
  end.

Lemma gossip_message_covers `{Env, Codec GossipMessage, Codec MembershipEvent} env g r :
  runtime_ok r → r_proto r = Some (PGossip g) →
  covers (discovered_runtime (env_From env) (PGossip g) r) (proto_OnMessage r env (PGossip g)).1.1.
Proof.
  intros Hr Hp. destruct (ok_proto r Hr _ Hp) as [Hid Hin]. unfold discovered_runtime; cbn [proto_OnMessage proto_discovers].
  destruct (gossip_OnMessage_frame (gossip_callback r) env g) as [HID HP].
  destruct (Gossip.OnMessage (gossip_callback r) env g) as [[g' lines] out]. unfold covers. cbn [fst proto_nodeID proto_peers] in *.
  rewrite HID, HP, discoverSender_eq. destruct (gossip_discovers (env_From env) g) as [[[i h] port]|] eqn:Hd.
  - set (g1 := set_peers (peers g ++ [i]) g). unfold gossip_callback.
    destruct (OnPeerDiscovered_set_proto i h port (PGossip g1) r) as (_ & _ & Hcase).
    destruct (r_proto (OnPeerDiscovered i h port (set_proto (PGossip g1) r))) as [q|] eqn:Hq; [|naive_solver].
    assert (∃ g2, q = PGossip g2) as [g2 ->] by (destruct Hcase as [[[= ->] _]|[= ->]]; by eexists).
    apply (callback_covers i h port (PGossip g) (PGossip g1) (PGossip g2) r Hr Hp); [|done].
    split; [done|]. cbn. set_solver.
  - destruct (_ && _); [|by split]. cbn. split; [done|]. intros i Hi Hne. apply elem_of_app. left. by apply Hin.
Qed.

Lemma baseline_message_covers `{Env, Codec GossipMessage, Codec MembershipEvent} env b r :
  runtime_ok r → r_proto r = Some (PBaseline b) →
  covers (discovered_runtime (env_From env) (PBaseline b) r) (proto_OnMessage r env (PBaseline b)).1.1.
Proof.
  intros Hr Hp. destruct (ok_proto r Hr _ Hp) as [Hid Hin]. unfold discovered_runtime; cbn [proto_OnMessage proto_discovers].
  pose proof (baseline_OnMessage_frame (baseline_callback r) env b) as Hf.
  unfold baseline_discovers, baseline_OnMessage in *. destruct (splitSender (env_From env)) as [[i h] port].
  destruct (bool_decide (i = b_nodeID b)) eqn:Hself; [by split|]. apply bool_decide_eq_false in Hself.
  specialize (Hf Hself). destruct (match DecodeJSON _ with Some ev => _ | None => _ end) as [b' out].
  unfold covers. cbn [fst proto_nodeID proto_peers] in *. destruct Hf as [-> ->].
  destruct (hear_eq (baseline_callback r) i h port b) as [-> ->].
  destruct (lastSeen b !! i); [by split|]. cbv zeta. set (b1 := with_maps _ _ _ _ _).
  assert (keeps (PBaseline b) (PBaseline b1)) as Hk by (split; [done|]; cbn; set_solver).
  destruct (b_peerDiscoveryCb b && bool_decide (h ≠ EmptyString)).
  - unfold baseline_callback. destruct (OnPeerDiscovered_set_proto i h port (PBaseline b1) r) as (_ & _ & Hcase).
    destruct (r_proto (OnPeerDiscovered i h port (set_proto (PBaseline b1) r))) as [q|] eqn:Hq; [|naive_solver].
    assert (∃ b2, q = PBaseline b2) as [b2 ->] by (destruct Hcase as [[[= ->] _]|[= ->]]; by eexists).
    by apply (callback_covers i h port (PBaseline b) (PBaseline b1) (PBaseline b2) r Hr Hp).
  - destruct Hk as [_ Hk]. split; [done|]. intros j Hj Hne. by apply Hk, Hin.
Qed.

Lemma deliver_ok `{Env, Codec GossipMessage, Codec MembershipEvent} env p r :
  runtime_ok r → r_proto r = Some p → runtime_ok (deliver env p r).1.1.
Proof.
  intros Hr Hp. unfold deliver. fold (discovered_runtime (env_From env) p r).
  assert (Hcov : covers (discovered_runtime (env_From env) p r) (proto_OnMessage r env p).1.1)
    by (destruct p; [by apply gossip_message_covers|by apply baseline_message_covers]).
  assert (runtime_ok (discovered_runtime (env_From env) p r)) as [Hs Hself _].
  { unfold discovered_runtime. destruct (proto_discovers _ _) as [[[i h] port]|]; [by apply OnPeerDiscovered_ok|done]. }
  destruct (proto_OnMessage r env p) as [[p' lines] out]. split; cbn [config ns r_proto set_proto set_layers fst]; [done|done|].
  intros q [= <-]. exact Hcov.
Qed.

(** ** Steps *)

(** Sends and probes change what the session knows of its peers, not who they
    are. *)
Definition same_peers (s s' : nodeSession) : Prop := ∀ id, is_Some (ns_peers s' !! id) ↔ is_Some (ns_peers s !! id).

Lemma Send_same_peers `{PeerRPC} f c env s : same_peers s (Send f c env s).1.1.
Proof.
  unfold Send. destruct (ns_peers s !! env_To env) as [ps|] eqn:Hps; [|by intros id].
  assert (∀ ps', same_peers s (ns_with_peers (<[env_To env := ps']> (ns_peers s)) s)) as Hins.
  { intros ps' id. cbn. destruct (decide (env_To env = id)) as [<-|Hne]; [|by rewrite lookup_insert_ne].
    rewrite lookup_insert_eq, Hps. by split; eexists. }
  destruct (negb _); [by intros id|]. destruct (_ && c); [by intros id|].
  destruct (if ps_conn ps then _ else _) as [ps1 [e|]]; [apply Hins|].
  destruct (note_result _ ps1) as [ps2 e]. apply Hins.
Qed.

Lemma send_list_same_peers `{PeerRPC, SendEnv} e i envs s : same_peers s (send_list e i envs s).1.
Proof.
  revert i s; induction envs as [|env envs IH]; intros i s; cbn [send_list]; [by intros id|].
  pose proof (Send_same_peers (Some (engine_decider (drop_draw i) e)) (ctx_done i) env s) as Hs.
  destruct (Send _ _ env s) as [[s1 req] err]. specialize (IH (S i) s1).
  destruct (send_list e (S i) envs s1) as [s2 out]. cbn in *. intros id. by rewrite (IH id), (Hs id).
Qed.

Lemma runtime_ok_session r s : same_peers (ns r) s → runtime_ok r → runtime_ok (set_ns s r).
Proof. intros Hs [Hse Hself Hp]. split; cbn; [intros id; rewrite Hse; symmetry; apply Hs|done|done]. Qed.

Lemma runtime_ok_sendAll `{PeerRPC, SendEnv} envs r : runtime_ok r → runtime_ok (sendAll envs r).1.
Proof.
  unfold sendAll. pose proof (send_list_same_peers (fault r) 0 (mjoin (expand (config r) <$> envs)) (ns r)) as Hs.
  destruct (send_list _ _ _ _) as [s out]. by apply runtime_ok_session.
Qed.

Lemma runtime_ok_proto r p p' : runtime_ok r → r_proto r = Some p → keeps p p' → runtime_ok (set_proto p' r).
Proof.
  intros [Hs Hself Hp] Hpr [Hid Hsub]. split; cbn; [done|done|]. intros q [= <-].
  destruct (Hp p Hpr) as [Hid' Hin]. unfold covers; cbn. split; [congruence|]. intros id Hi Hne. by apply Hsub, Hin.
Qed.

Lemma runtime_ok_action `{Env, Protobuf} req r : runtime_ok r → runtime_ok (handleActionEvent req r).1.1.
Proof.
  intros Hr. unfold handleActionEvent. destruct req as [req|]; [|done].
  destruct (ar_Action req); [done| | |done].
  - destruct (Unmarshal_KVPutRequest _) as [q|]; [|done].
    destruct (PutAction [put_Key q; put_Value q] (r_proto r)) as [[p' lines]|e] eqn:Hput; [|done].
    destruct (r_proto r) as [p|] eqn:Hp; [|done]. apply PutAction_keeps in Hput as (p1 & -> & Hk).
    by apply (runtime_ok_proto r p p1).
  - destruct (Unmarshal_KVGetRequest _) as [key|]; [|done].
    destruct (GetActionWithMetadata [key] (r_proto r)) as [[md []]|e]; [|done..].
    by destruct (Marshal_KVGetResponse _).
Qed.

Lemma proto_Start_spec id p : proto_nodeID (proto_Start id p) = id ∧ proto_peers (proto_Start id p) = proto_peers p.
Proof.
  destruct p as [g|b]; [done|]. cbn. unfold baseline_Start; cbn.
  apply (foldl_invariant (λ c, b_nodeID c = id ∧ b_peers c = b_peers b)); [done|]. intros c q _ Hc. exact Hc.
Qed.

Lemma Load_fresh key p : Load id key factories = Ok p → proto_nodeID p = EmptyString.
Proof.
  unfold Load, factories. destruct (decide (key = "gossip")) as [->|]; [by vm_compute; intros [= <-]|].
  destruct (decide (key = "baseline")) as [->|]; [by vm_compute; intros [= <-]|].
  by rewrite !lookup_insert_ne, lookup_empty by done.
Qed.

(** A swap installs a fresh protocol that works for the node and knows its peers. *)
Lemma applyProtocolSwap_ok `{Env} key r : runtime_ok r → runtime_ok (applyProtocolSwap key r).1.
Proof.
  intros Hr. unfold applyProtocolSwap. destruct (Load id key factories) as [p|e] eqn:Hl; [|done].
  destruct Hr as [Hs Hself _]. split; cbn; [done|done|]. intros q [= <-]. unfold covers; cbn.
  destruct (proto_Start_spec (cfg_ID (config r)) (proto_SetLogger (proto_SetPeerDiscoveryCallback (proto_SetPeers (peer_ids (config r)) p))))
    as [-> ->]. split; [done|]. intros i Hi Hne.
  destruct (proto_SetPeers_spec (peer_ids (config r)) p) as [_ Hin].
  assert (∀ p', proto_peers (proto_SetLogger (proto_SetPeerDiscoveryCallback p')) = proto_peers p') as -> by (by intros []).
  apply Hin; [done..|]. by rewrite (Load_fresh key p Hl).
Qed.

Lemma handle_event_ok `{Env, Codec GossipMessage, Codec MembershipEvent, Protobuf, PeerRPC, SendEnv} ev r r' out :
  runtime_ok r → handle_event ev r = Done (r', out) → runtime_ok r'.
Proof.
  intros Hr. destruct ev as [|env|req|key]; cbn [handle_event].
  - destruct (r_proto r) as [p|] eqn:Hp; [|done]. pose proof (proto_Tick_keeps p) as Hk.
    destruct (proto_Tick p) as [p' envs]. cbn in Hk. intros [= Heq].
    change r' with (r', out).1. rewrite <-Heq. by apply runtime_ok_sendAll, (runtime_ok_proto r p).
  - destruct (r_proto r) as [p|] eqn:Hp; [|done]. pose proof (deliver_ok env p r Hr Hp) as Hd.
    destruct (deliver env p r) as [[r1 lines] envs]. cbn in Hd. pose proof (runtime_ok_sendAll envs r1 Hd) as Hs.
    destruct (sendAll envs r1) as [r2 sent]. by intros [= <- <-].
  - pose proof (runtime_ok_action req r Hr) as Ha. destruct (handleActionEvent req r) as [[r1 lines] resp]. by intros [= <- <-].
  - pose proof (applyProtocolSwap_ok key r Hr) as Ha. destruct (applyProtocolSwap key r) as [r1 err]. by intros [= <- <-].
Qed.

(** What can happen to a running node: its reactor takes an event, its timers
    fire, a message, an action or a swap is queued, the control plane answers
    with a topology or sets faults. *)
Inductive runtime_step `{Codec GossipMessage, Codec MembershipEvent, Protobuf, PeerRPC} (r : Runtime) : Runtime → Prop :=
  | step_reactor (E : Env) (S : SendEnv) r' out : reactor_step r = Done (r', out) → runtime_step r r'
  | step_tick stopped : runtime_step r (driver_tick stopped r)
  | step_probe draw cancelled : runtime_step r (set_ns (probeTick (Some (engine_decider draw (fault r))) cancelled (ns r)) r)
  | step_envelope req : runtime_step r (HandleEnvelope req r)
  | step_queue ev : runtime_step r (set_queue (eventCh r ++ [ev]) r)
  | step_topology (E : Env) answer : runtime_step r (getPeersFromControlplane answer r).1
  | step_fault (E : Env) params : runtime_step r (runtime_SetFaultParams params r).1.

Lemma runtime_ok_queue q r : runtime_ok r → runtime_ok (set_queue q r).
Proof. by intros [? ? ?]. Qed.

Lemma runtime_ok_step `{Codec GossipMessage, Codec MembershipEvent, Protobuf, PeerRPC} r r' :
  runtime_ok r → runtime_step r r' → runtime_ok r'.
Proof.
  intros Hr [E S r1 out Hstep|stopped|draw cancelled|req|ev|E answer|E params].
  - unfold reactor_step in Hstep. destruct (eventCh r) as [|ev rest]; [by injection Hstep as <- <-|].
    eapply handle_event_ok; [|exact Hstep]. by apply runtime_ok_queue.
  - unfold driver_tick. destruct (negb _); [done|]. destruct (_ && _); [done|]. by apply runtime_ok_queue.
  - apply runtime_ok_session; [|done]. unfold probeTick. intros id.
    destruct (negb _); [done|]. destruct (_ && _); [done|]. unfold probeOnce. cbn. rewrite lookup_fmap.
    by rewrite fmap_is_Some.
  - by apply runtime_ok_queue.
  - by apply runtime_ok_queue.
  - destruct answer as [infos|e]; [|done]. apply applyPeersTopology_ok. intros p Hp. by apply (ok_proto r Hr).
  - unfold runtime_SetFaultParams. destruct params as [p|]; [|done]. destruct (fault r) as [e|]; [|done].
    destruct (_ && _); [done|]. destruct (_ || _); [done|]. destruct (_ <? _); [done|]. by destruct Hr.
Qed.

(** ** Fault requests *)

Lemma lookup_desired self ids id :
  desired_partition self ids !! id = if decide (id ∈ ids ∧ id ≠ EmptyString ∧ id ≠ self) then Some tt else None.
Proof.
  unfold desired_partition.
  assert (∀ m : gmap string unit, foldl (λ m id, if bool_decide (id = EmptyString) || bool_decide (id = self) then m
      else <[id := tt]> m) m ids !! id =
    if decide (id ∈ ids ∧ id ≠ EmptyString ∧ id ≠ self) then Some tt else m !! id) as ->; [|by rewrite lookup_empty].
  induction ids as [|i ids IH]; intros m; cbn [foldl].
  { rewrite decide_False; [done|]. by intros [?%elem_of_nil _]. }
  rewrite IH. pose proof (elem_of_cons ids id i) as Hin.
  destruct (decide (id ∈ ids ∧ id ≠ EmptyString ∧ id ≠ self)) as [Hi|Hi]; [rewrite decide_True by tauto; done|].
  destruct (bool_decide (i = EmptyString)) eqn:He; [apply bool_decide_eq_true in He as ->|apply bool_decide_eq_false in He; cbn [orb]].
  { rewrite decide_False; [done|]. intros (Hc & Hne & Hs). apply Hin in Hc as [->|Hc]; [done|tauto]. }
  case_bool_decide as Hs; [subst|].
  { rewrite decide_False; [done|]. intros (Hc & Hne & Hs). apply Hin in Hc as [->|Hc]; [done|tauto]. }
  destruct (decide (i = id)) as [->|Hne]; [rewrite lookup_insert_eq, decide_True by tauto; done|].
  rewrite lookup_insert_ne by done. rewrite decide_False; [done|].
  intros (Hc & ? & ?). apply Hin in Hc as [?|?]; [congruence|tauto].
Qed.

Lemma partition_loop (desired : gmap string unit) ids e id :
  let e' := foldl (λ e id, match desired !! id with Some _ => Partition id e | None => Heal id e end) e ids in
  crashed e' = crashed e ∧ dropRate e' = dropRate e ∧ delayMs e' = delayMs e ∧
  IsPartitioned id e' = if decide (id ∈ ids) then bool_decide (is_Some (desired !! id)) else IsPartitioned id e.
Proof.
  revert e; induction ids as [|i ids IH]; intros e; cbn [foldl].
  { split_and!; [done..|]. by rewrite decide_False by apply not_elem_of_nil. }
  set (e1 := match desired !! i with Some _ => _ | None => _ end).
  destruct (IH e1) as (-> & -> & -> & ->).
  split_and!; [by unfold e1; destruct (desired !! i)..|].
  destruct (decide (id ∈ ids)) as [Hin|Hin]; [by rewrite decide_True by (by right)|].
  destruct (decide (id = i)) as [->|Hne].
  - rewrite decide_True by (by left). unfold e1, IsPartitioned. destruct (desired !! i) as [[]|] eqn:Hd; cbn.
    + by rewrite lookup_insert_eq.
    + by rewrite lookup_delete_eq.
  - rewrite decide_False by (by intros [?|?]%elem_of_cons). unfold e1, IsPartitioned.
    destruct (desired !! i); cbn; [by rewrite lookup_insert_ne|by rewrite lookup_delete_ne].
Qed.

Lemma partition_all (l : list (string * unit)) e id :
  let e' := foldl (λ e '(id, _), Partition id e) e l in
  crashed e' = crashed e ∧ dropRate e' = dropRate e ∧ delayMs e' = delayMs e ∧
  IsPartitioned id e' = if decide (id ∈ l.*1) then true else IsPartitioned id e.
Proof.
  revert e; induction l as [|[i []] l IH]; intros e; cbn [foldl].
  { split_and!; [done..|]. by rewrite decide_False by apply not_elem_of_nil. }
  destruct (IH (Partition i e)) as (-> & -> & -> & ->). split_and!; [done..|].
  rewrite fmap_cons; cbn [fst]. destruct (decide (id ∈ l.*1)) as [Hin|Hin]; [by rewrite decide_True by (by right)|].
  unfold IsPartitioned; cbn. destruct (decide (id = i)) as [->|Hne].
  - by rewrite lookup_insert_eq, decide_True by (by left).
  - by rewrite lookup_insert_ne, decide_False by (done || by intros [?|?]%elem_of_cons).
Qed.

Lemma apply_fault_spec `{RangeOrder} self known p e :
  let e' := apply_fault self known p e in
  crashed e' = fr_Crashed p ∧ dropRate e' = fr_DropRate p ∧ delayMs e' = fr_DelayMs p ∧
  ∀ id, IsPartitioned id e' =
    if decide (id ∈ fr_Partition p ∧ id ≠ EmptyString ∧ id ≠ self) then true
    else if decide (id ∈ known) then false else IsPartitioned id e.
Proof.
  unfold apply_fault. set (e0 := SetDelay _ _). set (desired := desired_partition self (fr_Partition p)).
  assert (∀ id, let e' := foldl (λ e '(id, _), Partition id e)
     (foldl (λ e id, match desired !! id with Some _ => Partition id e | None => Heal id e end) e0 known) (range 96 desired) in
    crashed e' = crashed e0 ∧ dropRate e' = dropRate e0 ∧ delayMs e' = delayMs e0 ∧
    IsPartitioned id e' = if decide (is_Some (desired !! id)) then true
      else if decide (id ∈ known) then bool_decide (is_Some (desired !! id)) else IsPartitioned id e0) as Hgen.
  { intros id. cbv zeta. destruct (partition_all (range 96 desired)
      (foldl (λ e id, match desired !! id with Some _ => Partition id e | None => Heal id e end) e0 known) id) as (-> & -> & -> & ->).
    destruct (partition_loop desired known e0 id) as (-> & -> & -> & ->). split_and!; [done..|]. apply decide_ext.
    rewrite list_elem_of_fmap. split.
    - intros ([i []] & -> & Hin%elem_of_range). by eexists.
    - intros [[] Hd]. exists (id, tt). by rewrite elem_of_range. }
  cbv zeta. destruct (Hgen EmptyString) as (-> & -> & -> & _). split_and!; [by unfold e0; destruct (fr_Crashed p)|done|done|].
  intros id. destruct (Hgen id) as (_ & _ & _ & ->). unfold desired. rewrite lookup_desired.
  destruct (decide (id ∈ fr_Partition p ∧ _)) as [Hd|Hd]; [by rewrite decide_True by eauto|].
  rewrite decide_False by (by intros []). rewrite bool_decide_false by (by intros []).
  by unfold e0; destruct (fr_Crashed p).
Qed.

(** A request that is accepted is the crash flag of the engine from then on. *)
Lemma accepted_fault_request `{RangeOrder} p e r r' :
  fault r = Some e → runtime_SetFaultParams (Some p) r = (r', None) →
  ∃ e', r' = set_fault e' r ∧ crashed e' = fr_Crashed p.
Proof.
  intros Hf. unfold runtime_SetFaultParams. rewrite Hf. destruct (_ && _); [done|]. destruct (_ || _); [done|].
  destruct (_ <? _); [done|]. intros [= <-]. eexists. split; [done|]. apply apply_fault_spec.
Qed.

(** ** A crashed node *)

Lemma crashed_sends_nothing `{PeerRPC, SendEnv} e i envs s :
  crashed e = true →
  (send_list (Some e) i envs s).1 = s ∧ Forall (λ o, ∃ err, o = OutSend None err) (send_list (Some e) i envs s).2.
Proof.
  intros He. revert i; induction envs as [|env envs IH]; intros i; cbn [send_list]; [done|].
  assert (∃ err, Send (Some (engine_decider (drop_draw i) (Some e))) (ctx_done i) env s = (s, None, err)) as [err ->].
  { unfold Send. destruct (ns_peers s !! env_To env) as [ps|]; [|by eexists]. cbn. unfold IsCrashed. rewrite He. by eexists. }
  destruct (IH (S i)) as [Hs Hf]. destruct (send_list _ _ _ _) as [s2 out]. cbn in *. split; [done|]. constructor; [by eexists|done].
Qed.

(** What handling an event may put out on a crashed node: to its peers nothing.
    The log lines of a message or a call, the reply of a call, and the end and the
    capabilities of a swap are still put out. *)
Definition leftover (ev : RuntimeEvent) (o : Output) : Prop :=
  match o, ev with
  | OutSend req _, _ => req = None
  | OutLog _, (EventMessage _ | EventAction _) => True
  | OutReply _, EventAction _ => True
  | (OutSwap _ | OutReport _ _), EventProtocolSwap _ => True
  | _, _ => False
  end.

Lemma OnPeerDiscovered_fault `{Env} id host port r : fault (OnPeerDiscovered id host port r) = fault r.
Proof. unfold OnPeerDiscovered. destruct (negb (started r)); [done|]. by destruct (_ || _). Qed.

Lemma deliver_fault `{Env, Codec GossipMessage, Codec MembershipEvent} env p r : fault (deliver env p r).1.1 = fault r.
Proof.
  unfold deliver. destruct (proto_OnMessage r env p) as [[p' lines] out]. cbn.
  destruct (proto_discovers _ p) as [[[id host] port]|]; [apply OnPeerDiscovered_fault|done].
Qed.

Lemma sendAll_crashed `{PeerRPC, SendEnv} ev e envs r :
  fault r = Some e → crashed e = true → Forall (leftover ev) (sendAll envs r).2.
Proof.
  intros Hf He. unfold sendAll. rewrite Hf.
  destruct (crashed_sends_nothing e 0 (mjoin (expand (config r) <$> envs)) (ns r) He) as [_ Hs].
  destruct (send_list _ _ _ _) as [s out]. cbn in *. eapply Forall_impl; [exact Hs|]. by intros o [err ->].
Qed.

Lemma handle_event_crashed `{Env, Codec GossipMessage, Codec MembershipEvent, Protobuf, PeerRPC, SendEnv} ev r r' out e :
  fault r = Some e → crashed e = true → handle_event ev r = Done (r', out) → Forall (leftover ev) out.
Proof.
  intros Hf He. destruct ev as [|env|req|key]; cbn [handle_event].
  - destruct (r_proto r) as [p|]; [|done]. destruct (proto_Tick p) as [p' envs]. intros [= Heq].
    change out with (r', out).2. rewrite <-Heq. by apply (sendAll_crashed _ e).
  - destruct (r_proto r) as [p|]; [|done]. pose proof (deliver_fault env p r) as Hd.
    destruct (deliver env p r) as [[r1 lines] envs]. cbn in Hd. rewrite Hf in Hd.
    pose proof (sendAll_crashed (EventMessage env) e envs r1 Hd He) as Hs. destruct (sendAll envs r1) as [r2 sent]. intros [= <- <-].
    apply Forall_app; split; [|done]. apply Forall_fmap, Forall_true. done.
  - destruct (handleActionEvent req r) as [[r1 lines] resp]. intros [= <- <-].
    apply Forall_app; split; [apply Forall_fmap, Forall_true; done|by repeat constructor].
  - destruct (applyProtocolSwap key r) as [r1 err]. intros [= <- <-]. apply Forall_app; split; [|by repeat constructor].
    destruct err; [done|]. unfold reportCapabilities. case_bool_decide; [done|]. by destruct (r_proto r1); repeat constructor.
Qed.

(** ** Properties *)

(** C9: The topology of a running node is the same in its three layers.
    Whatever events, timers, messages, topology answers and fault requests
    follow the first topology, the session has a state for exactly the
    configured peers, the node is never its own peer, and the active protocol
    runs under the node's id and knows every configured peer. *)
Theorem layers_agree `{Codec GossipMessage, Codec MembershipEvent, Protobuf, PeerRPC} (E : Env) infos cfg s fe r :
  rtc runtime_step (applyPeersTopology infos None (runtime_Start fe (NewRuntime cfg s))) r →
  (∀ id, id ∈ peer_ids (config r) ↔ is_Some (ns_peers (ns r) !! id)) ∧
  (cfg_ID (config r) ∉ peer_ids (config r)) ∧
  ∀ p, r_proto r = Some p → proto_nodeID p = cfg_ID (config r) ∧
    ∀ id, id ∈ peer_ids (config r) → id ≠ EmptyString → id ∈ proto_peers p.
Proof.
  intros Hr. assert (∀ x y, rtc runtime_step x y → runtime_ok x → runtime_ok y) as Hstar.
  { induction 1 as [|x y z Hxy _ IH]; [done|]. intros Hx. by apply IH, (runtime_ok_step x). }
  destruct (Hstar _ _ Hr) as [? ? ?]; [by apply applyPeersTopology_ok|done].
Qed.

(** C11: A fault request takes effect as a whole or not at all.  It is refused,
    and changes nothing, when it is for another node, when the drop rate is
    below 0 or above 1, or when the delay is negative; otherwise the crash flag,
    the drop rate and the delay are the requested ones, the requested peers are
    partitioned and the other configured peers are healed.  A peer that is
    neither requested nor configured keeps the partition it had. *)
Theorem fault_request_applied `{RangeOrder} p e r :
  fault r = Some e →
  let '(r', err) := runtime_SetFaultParams (Some p) r in
  if bool_decide (fr_NodeId p = EmptyString ∨ fr_NodeId p = cfg_ID (config r)) &&
     negb (SFltb (fr_DropRate p) f64_zero) && negb (SFltb f64_one (fr_DropRate p)) && (0 <=? fr_DelayMs p)
  then err = None ∧ ∃ e', r' = set_fault e' r ∧
    crashed e' = fr_Crashed p ∧ dropRate e' = fr_DropRate p ∧ delayMs e' = fr_DelayMs p ∧
    ∀ id, IsPartitioned id e' =
      if decide (id ∈ fr_Partition p ∧ id ≠ EmptyString ∧ id ≠ cfg_ID (config r)) then true
      else if decide (id ∈ peer_ids (config r)) then false else IsPartitioned id e
  else is_Some err ∧ r' = r.
Proof.
  intros Hf. unfold runtime_SetFaultParams. rewrite Hf.
  assert (bool_decide (fr_NodeId p = EmptyString ∨ fr_NodeId p = cfg_ID (config r)) =
    negb (bool_decide (fr_NodeId p ≠ EmptyString) && bool_decide (fr_NodeId p ≠ cfg_ID (config r)))) as ->.
  { rewrite <-bool_decide_and, <-bool_decide_not. apply bool_decide_ext.
    destruct (decide (fr_NodeId p = EmptyString)), (decide (fr_NodeId p = cfg_ID (config r))); tauto. }
  destruct (bool_decide _ && bool_decide _); cbn [negb andb]; [by eauto|].
  destruct (SFltb (fr_DropRate p) f64_zero); cbn [negb andb orb]; [by eauto|].
  destruct (SFltb f64_one (fr_DropRate p)); cbn [negb andb]; [by eauto|].
  rewrite Z.leb_antisym. destruct (fr_DelayMs p <? 0); cbn [negb]; [by eauto|].
  split; [done|]. exists (apply_fault (cfg_ID (config r)) (peer_ids (config r)) p e). split; [done|].
  apply apply_fault_spec.
Qed.

(** A message or a tick that comes before the first protocol is loaded crashes
    the node: the reactor runs before the node registers. *)
Lemma early_event_panics `{Env, Codec GossipMessage, Codec MembershipEvent, Protobuf, PeerRPC, SendEnv} ev r :
  handle_event ev r = Panic "nil pointer dereference" ↔
  r_proto r = None ∧ match ev with EventTick | EventMessage _ => True | _ => False end.
Proof.
  destruct ev as [|env|req|key]; cbn [handle_event].
  - destruct (r_proto r) as [p|]; [|done]. destruct (proto_Tick p). split; [done|by intros []].
  - destruct (r_proto r) as [p|]; [|done]. destruct (deliver env p r) as [[r1 ?] ?].
    destruct (sendAll _ r1). split; [done|by intros []].
  - destruct (handleActionEvent req r) as [[? ?] ?]. split; [done|by intros []].
  - destruct (applyProtocolSwap key r). split; [done|by intros []].
Qed.

(** ** Witnesses *)

Definition demo_peers : PeerRPC := {|
  rpc_Dial := λ _ _, None;
  rpc_Handshake := λ _ _, None;
  rpc_Ping := λ _ _, None;
  rpc_SendEnvelope := λ _ _ _, None;
|}.

Definition demo_sends : SendEnv := {| drop_draw := λ _, f64_zero; ctx_done := λ _, false |}.

Definition demo_config : NodeConfig :=
  {| cfg_ID := "n1"; cfg_Port := 7001; cfg_Peers := []; cfg_ClusterID := "c1"; cfg_Host := "localhost";
     cfg_ControlPlaneHost := "localhost"; cfg_ControlPlanePort := 9000 |}.

Definition demo_infos : list NodeInfo :=
  [{| ni_Id := "n1"; ni_Address := "localhost"; ni_Port := 7001 |};
   {| ni_Id := "n2"; ni_Address := "localhost"; ni_Port := 7002 |}].

#[local] Existing Instance demo_peers.
#[local] Existing Instance demo_sends.
#[local] Existing Instance demo_protobuf.
#[local] Instance demo_gossip_codec : Codec GossipMessage := countable_codec GossipMessage.
#[local] Instance demo_membership_codec : Codec MembershipEvent := countable_codec MembershipEvent.

(** A node that has fetched its topology, and the same node once it has
    swapped to gossip. *)
Definition demo_started : Runtime :=
  @applyPeersTopology (test_env 5) demo_infos None
    (runtime_Start (Some NewEngine) (NewRuntime demo_config (NewNodeSession "localhost" "n1" 7001))).

Definition run_event (ev : RuntimeEvent) (r : Runtime) : Runtime :=
  match @handle_event (test_env 5) _ _ _ _ _ ev r with Done (r', _) => r' | Panic _ => r end.

Definition demo_swapped : Runtime := run_event (EventProtocolSwap "gossip") demo_started.

Lemma layers_agree_witness :
  (∀ id, id ∈ peer_ids (config demo_swapped) ↔ is_Some (ns_peers (ns demo_swapped) !! id)) ∧
  (cfg_ID (config demo_swapped) ∉ peer_ids (config demo_swapped)) ∧
  ∀ p, r_proto demo_swapped = Some p → proto_nodeID p = cfg_ID (config demo_swapped) ∧
    ∀ id, id ∈ peer_ids (config demo_swapped) → id ≠ EmptyString → id ∈ proto_peers p.
Proof.
  apply (layers_agree (test_env 5) demo_infos demo_config (NewNodeSession "localhost" "n1" 7001) (Some NewEngine)).
  eapply rtc_l; [apply (step_queue _ (EventProtocolSwap "gossip"))|].
  eapply rtc_l; [|apply rtc_refl].
  eapply (step_reactor _ (test_env 5) demo_sends). reflexivity.
Defined.

Definition demo_fault : FaultRequest :=
  {| fr_NodeId := "n1"; fr_Crashed := true; fr_DropRate := f64_zero; fr_DelayMs := 10; fr_Partition := ["n2"; "n1"] |}.

Lemma fault_request_applied_witness :
  ∃ r', @runtime_SetFaultParams canonical_order (Some demo_fault) demo_started = (r', None) ∧
    (IsPartitioned "n2" <$> fault r') = Some true ∧ (IsPartitioned "n1" <$> fault r') = Some false.
Proof.
  pose proof (@fault_request_applied canonical_order demo_fault NewEngine demo_started eq_refl) as Hspec.
  destruct (@runtime_SetFaultParams canonical_order (Some demo_fault) demo_started) as [r' err].
  destruct (_ && _) eqn:Hc in Hspec; [|by vm_compute in Hc].
  destruct Hspec as (-> & e' & -> & _ & _ & _ & Hp). exists (set_fault e' demo_started). split; [done|]. cbn.
  rewrite !Hp. split; vm_compute; reflexivity.
Defined.
