(* ===== verification/ReactorLoop.v ===== *)
(** * The reactor of a node and its callers (internal/node/runtime/reactor.go, action.go, protocol_swap.go)

    The reactor takes events from a channel: ticks of the driver and messages of
    peers, which nobody waits for, and actions and swaps, whose callers wait for a
    reply or for the end of their own context.  The reactor is a [Server].
    NodeRuntime has a call of an action as one step, which works off the channel
    first; this file shows that it is one schedule of these goroutines. *)

From S2P Require Import Prelude GoStrings Fault Protocol Conflict Gossip Baseline NodeConfig NodeSession Messages ServerLoop ServerLoopProps NodeRuntime RuntimeProps.

(** The room of [eventCh]. *)
Definition eventCh_cap : nat := 1024.

(** A caller waits for the reply channel of an action or for the error of a swap. *)
Definition event_answers (ev : RuntimeEvent) : bool :=
  match ev with EventAction _ | EventProtocolSwap _ => true | _ => false end.

(** The runtime, how many events it has handled, and what it has put out. *)
Record Reactor := { rx_runtime : Runtime; rx_handled : nat; rx_out : list Output }.

Section Reactor.
Context `{Codec GossipMessage, Codec MembershipEvent, Protobuf}.

(** The clock, the draws, the peers and the context that the [n]-th event finds. *)
Context (env : nat → Env) (rpcs : nat → PeerRPC) (sends : nat → SendEnv).

Definition react (ev : RuntimeEvent) (x : Reactor) : outcome (Reactor * list Output) :=
  let n := rx_handled x in
  match @handle_event (env n) _ _ _ (rpcs n) (sends n) ev (rx_runtime x) with
  | Panic why => Panic why
  | Done (r, out) => Done ({| rx_runtime := r; rx_handled := S n; rx_out := rx_out x ++ out |}, out)
  end.

Definition reactor_server : Server := {|
  sv_State := Reactor;
  sv_Command := RuntimeEvent;
  sv_Result := list Output;
  sv_perform := react;
  sv_answers := event_answers;
  sv_cap := eventCh_cap;
  sv_submit_looks := false;
  sv_wait_looks := true;
|}.

(** C3: The reactor handles one event after another.  However ticks, messages,
    calls, time-outs and the reactor are scheduled, there is a history that has
    one event for each round of the reactor, and where another goroutine changes
    the runtime (a fault request, new peers, a probe) that change and nothing
    else; it handles the events in the order they were put into the channel, none
    twice and those in the channel not yet; carried out from the first runtime,
    each event at once on the runtime it finds, it ends in the runtime the node is
    in; and a caller that is returned an answer got what its own event put out
    there.  So an event is in the channel or handled even if its caller has timed
    out.  An event is one step: the other goroutines come between two events. *)
Theorem reactor_serial x0 (tr : list (label reactor_server)) s :
  loop_run tr (NewLoop (S := reactor_server) x0) = Some s →
  ∃ ops : list (op reactor_server), history tr ops ∧ sequential ops x0 (lp_state s) ∧
    omap submits tr = omap op_id ops ++ (lp_cmdCh s).*1 ∧ NoDup (omap submits tr) ∧
    (∀ id ev out, Did id ev out ∈ ops → LCall id ev ∈ tr) ∧
    (∀ id out, returned id s = Some out → ∃ ev, Did id ev out ∈ ops ∧ LCall id ev ∈ tr).
Proof. apply (loop_linearizable (S := reactor_server)). Qed.

(** A tick or a message whose sender has left, or an action whose caller has
    timed out, does not hold up the reactor: as long as nothing is stopped and
    something is to do, something moves, and the moves are bounded. *)
Lemma reactor_progress x0 (tr : list (label reactor_server)) s sched s' :
  loop_run tr (NewLoop (S := reactor_server) x0) = Some s → Forall (λ l, moves l || changes l = true) sched →
  loop_run sched s = Some s' → unstopped s' →
  (length (filter (λ l, moves l = true) sched) + work s' = work s)%nat ∧
  ((∀ id rq, lp_requests s' !! id = Some rq → at_rest rq = true) ∨ ∃ l s'', moves l = true ∧ loop_step l s' = Some s'').
Proof. apply (loop_progress (S := reactor_server)). cbn. unfold eventCh_cap. lia. Qed.
End Reactor.

(** ** A call in one step *)

Section Schedule.
Context `{Codec GossipMessage, Codec MembershipEvent, Protobuf, ENV : Env, RPC : PeerRPC, SEND : SendEnv}.

Abbreviation server := (reactor_server (λ _, ENV) (λ _, RPC) (λ _, SEND)).

(** What a part of the channel is worked off to. *)
Record worked_off (q1 q2 : list (nat * RuntimeEvent)) (s s' : Loop server) : Prop := {
  wo_ok : loop_ok s';
  wo_running : lp_running s' = true;
  wo_crashed : lp_crashed s' = false;
  wo_rest : lp_cmdCh s' = q2;
  wo_requests i : i ∉ q1.*1 → lp_requests s' !! i = lp_requests s !! i;
}.

(** One event that is handled. *)
Lemma take_event id ev q (s : Loop server) r out :
  loop_ok s → lp_running s = true → lp_crashed s = false → lp_cmdCh s = (id, ev) :: q →
  handle_event ev (rx_runtime (lp_state s : Reactor)) = Done (r, out) →
  ∃ s', loop_step LTake s = Some s' ∧ worked_off [(id, ev)] q s s' ∧ rx_runtime (lp_state s' : Reactor) = r ∧
    (event_answers ev = true → ∃ rq : Request server, lp_requests s !! id = Some rq ∧ lp_requests s' !! id = Some (set_replyCh (S := server) (Some out) rq)).
Proof.
  intros Hok Hrun Hc Hq Hh. pose proof Hok as [_ Hqueue _]. rewrite Hq in Hqueue. destruct (Hqueue id ev ltac:(left)) as (p & Hid & _ & _).
  assert (Hp : sv_perform server ev (lp_state s) =
    Done ({| rx_runtime := r; rx_handled := S (rx_handled (lp_state s)); rx_out := rx_out (lp_state s) ++ out |}, out)).
  { cbn. unfold react. by rewrite Hh. }
  destruct (loop_step LTake s) as [s'|] eqn:Hs.
  2: { unfold loop_step in Hs. rewrite Hc in Hs. unfold Run_command in Hs. rewrite Hrun, Hq, Hp in Hs. cbn [negb] in Hs.
       destruct (sv_answers server ev); [|done]. unfold Reply in Hs. cbn [set_state set_cmdCh lp_requests] in Hs. by rewrite Hid in Hs. }
  exists s'. split; [done|]. pose proof (se_ok _ _ _ (step_has_effect _ _ _ Hok Hs)) as Hok'.
  unfold loop_step in Hs. rewrite Hc in Hs. unfold Run_command in Hs. rewrite Hrun, Hq, Hp in Hs. cbn [negb sv_answers reactor_server] in Hs.
  destruct (event_answers ev) eqn:Hans.
  - unfold Reply in Hs. cbn [set_state set_cmdCh lp_requests] in Hs. rewrite Hid in Hs. cbn [rq_replyCh] in Hs. injection Hs as <-.
    split_and!; [split; cbn; try done|done|].
    + intros i Hi. rewrite lookup_insert_ne; [done|]. intros ->. apply Hi. by left.
    + intros _. eexists. split; [exact Hid|]. cbn. by rewrite lookup_insert_eq.
  - injection Hs as <-. by split_and!.
Qed.

Lemma drain_takes q1 q2 (s : Loop server) r out :
  loop_ok s → lp_running s = true → lp_crashed s = false → lp_cmdCh s = q1 ++ q2 →
  drain (snd <$> q1) (rx_runtime (lp_state s : Reactor)) = Done (r, out) →
  ∃ s', loop_run (replicate (length q1) LTake) s = Some s' ∧ worked_off q1 q2 s s' ∧ rx_runtime (lp_state s' : Reactor) = r.
Proof.
  revert s out; induction q1 as [|[id ev] q1 IH]; intros s out Hok Hrun Hc Hq; cbn [fmap list_fmap drain snd].
  { intros [= <- <-]. exists s. by split_and!. }
  destruct (handle_event ev (rx_runtime (lp_state s : Reactor))) as [[r1 out1]|] eqn:Hh; [|done].
  destruct (take_event id ev (q1 ++ q2) s r1 out1 Hok Hrun Hc Hq Hh) as (s1 & Hs1 & [Hok1 Hrun1 Hc1 Hq1 Hr1] & Hrt & _). cbn in Hrt.
  rewrite <-Hrt. destruct (drain (snd <$> q1) (rx_runtime (lp_state s1 : Reactor))) as [[r2 out2]|] eqn:Hd; [|done]. intros [= <- <-].
  destruct (IH s1 out2 Hok1 Hrun1 Hc1 Hq1 Hd) as (s' & Hs' & [Hok' Hrun' Hc' Hq' Hr'] & Hrt').
  exists s'. split; [cbn [length replicate loop_run]; by rewrite Hs1|]. split; [|done]. split; try done.
  intros i Hi. cbn in Hi. apply not_elem_of_cons in Hi as [Hne Hi]. rewrite Hr', Hr1; [done|cbn; set_solver|done].
Qed.

Lemma drain_app evs1 evs2 r r' out :
  drain (evs1 ++ evs2) r = Done (r', out) →
  ∃ r1 out1 out2, drain evs1 r = Done (r1, out1) ∧ drain evs2 r1 = Done (r', out2) ∧ out = out1 ++ out2.
Proof.
  revert r out; induction evs1 as [|ev evs1 IH]; intros r out; cbn [app drain].
  - intros Hd. by exists r, [], out.
  - destruct (handle_event ev r) as [[r1 out1]|]; [|done]. destruct (drain (evs1 ++ evs2) r1) as [[r2 out2]|] eqn:Hd; [|done].
    intros [= <- <-]. destruct (IH r1 out2 Hd) as (r3 & out3 & out4 & -> & ? & ->). exists r3, (out1 ++ out3), out4.
    by rewrite <-app_assoc.
Qed.

(** The call of a client that is served before anyone else does anything. *)
Definition call_schedule (id : nat) (ev : RuntimeEvent) (queued : nat) : list (label server) :=
  LCall (S := server) id ev :: LSubmit id :: replicate queued LTake ++ [LTake; LReturn id].

Lemma call_scheduled id ev (s : Loop server) r out :
  loop_ok s → lp_running s = true → lp_crashed s = false → lp_requests s !! id = None →
  (length (lp_cmdCh s) < eventCh_cap)%nat → event_answers ev = true →
  drain ((snd <$> lp_cmdCh s) ++ [ev]) (rx_runtime (lp_state s : Reactor)) = Done (r, out) →
  ∃ s' r1 out1 out2, loop_run (call_schedule id ev (length (lp_cmdCh s))) s = Some s' ∧ rx_runtime (lp_state s' : Reactor) = r ∧
    returned id s' = Some out2 ∧ out = out1 ++ out2 ∧ handle_event ev r1 = Done (r, out2).
Proof.
  intros Hok Hrun Hc Hid Hlen Hans Hd. apply drain_app in Hd as (r1 & out1 & out2 & Hd & He & ->).
  cbn [drain] in He. destruct (handle_event ev r1) as [[r2 out3]|] eqn:Hh; [|done]. injection He as <- <-.
  set (rq0 := {| rq_cmd := ev : sv_Command server; rq_at := InSubmit; rq_replyCh := None |}).
  set (s1 := set_request id rq0 s).
  assert (Hcall : loop_step (LCall (S := server) id ev) s = Some s1) by (unfold loop_step; rewrite Hc; unfold make_command; by rewrite Hid).
  set (s2 := set_cmdCh (lp_cmdCh s1 ++ [(id, ev : sv_Command server)]) (set_request id (set_at InWait rq0) s1)).
  assert (Hsub : loop_step (LSubmit id) s1 = Some s2).
  { unfold loop_step. cbn [lp_crashed s1 set_request]. rewrite Hc. unfold Submit. cbn [lp_requests s1 set_request]. rewrite lookup_insert_eq.
    cbn [rq_at rq0]. assert ((length (lp_cmdCh s1) <? sv_cap server)%nat = true) as -> by (apply Nat.ltb_lt; exact Hlen).
    cbn [rq_cmd rq0]. unfold after_submit. cbn [sv_answers reactor_server]. by rewrite Hans. }
  pose proof (se_ok _ _ _ (step_has_effect _ _ _ Hok Hcall)) as Hok1. pose proof (se_ok _ _ _ (step_has_effect _ _ _ Hok1 Hsub)) as Hok2.
  destruct (drain_takes (lp_cmdCh s) [(id, ev : sv_Command server)] s2 r1 out1 Hok2 Hrun Hc eq_refl Hd) as (s3 & Hs3 & Hwo & Hrt3).
  destruct Hwo as [Hok3 Hrun3 Hc3 Hq3 Hr3]. rewrite <-Hrt3 in Hh.
  destruct (take_event id ev [] s3 r2 out3 Hok3 Hrun3 Hc3 Hq3 Hh) as (s4 & Hs4 & [Hok4 Hrun4 Hc4 Hq4 Hr4] & Hrt4 & Hrep).
  destruct (Hrep Hans) as (rq & Hrq & Hrq4). assert (rq = set_at InWait rq0) as ->.
  { rewrite Hr3 in Hrq; [by cbn in Hrq; rewrite lookup_insert_eq in Hrq; injection Hrq|].
    intros ([i e] & -> & Hin)%list_elem_of_fmap. destruct Hok as [_ Hq _]. destruct (Hq i e Hin) as (p & Hi & _). cbn in Hid. congruence. }
  set (rq5 := set_replyCh (S := server) None (set_at (Returned (S := server) out3) (set_replyCh (S := server) (Some out3) (set_at InWait rq0)))).
  assert (Hret : loop_step (LReturn id) s4 = Some (set_request id rq5 s4)).
  { unfold loop_step. rewrite Hc4. unfold Wait. by rewrite Hrq4. }
  exists (set_request id rq5 s4), r1, out1, out3. split_and!; [|exact Hrt4| |by rewrite app_nil_r|by rewrite Hrt3 in Hh].
  - unfold call_schedule. cbn [loop_run]. rewrite Hcall, Hsub, <-loop_run_app, Hs3. cbn [mbind option_bind loop_run]. by rewrite Hs4, Hret.
  - unfold returned. cbn. by rewrite lookup_insert_eq.
Qed.

Lemma last_reply_app out1 out2 resp : last_reply out2 = Some resp → last_reply (out1 ++ out2) = last_reply out2.
Proof. unfold last_reply. destruct (last out2) as [o|] eqn:Ho; [|done]. intros _. by rewrite last_app, Ho. Qed.

Lemma action_replies req r r' out : handle_event (EventAction req) r = Done (r', out) → is_Some (last_reply out).
Proof.
  cbn. destruct (handleActionEvent req r) as [[r1 lines] resp]. intros [= _ <-]. unfold last_reply. rewrite last_snoc. by eexists.
Qed.

Lemma swap_replies key r r' out : handle_event (EventProtocolSwap key) r = Done (r', out) → ∃ e, last out = Some (OutSwap e).
Proof. cbn. destruct (applyProtocolSwap key r) as [r1 e]. intros [= _ <-]. exists e. by rewrite last_snoc. Qed.

Lemma set_queue_back q r : eventCh r = [] → set_queue [] (set_queue q r) = r.
Proof. destruct r. cbn. by intros ->. Qed.

(** C4: A call in one step is a schedule.  When the reactor runs, the channel has
    room and nobody else moves, the goroutines that serve a call of ExecuteAction
    or ProtocolSwap (the caller queues its event, the reactor works off what was
    queued before it and then the event, the caller receives) leave the runtime,
    and return the answer, that the one-step models of these calls have. *)
Theorem calls_are_schedules x0 tr (s : Loop server) id r' :
  let r := rx_runtime (lp_state s : Reactor) in
  let queued := snd <$> lp_cmdCh s in
  loop_run tr (NewLoop (S := server) x0) = Some s → unstopped s → lp_requests s !! id = None →
  (length (lp_cmdCh s) < eventCh_cap)%nat → eventCh r = [] →
  (∀ req resp, runtime_ExecuteAction (Some req) (set_queue queued r) = Done (r', resp) →
     ∃ s' out, loop_run (call_schedule id (EventAction (Some req)) (length (lp_cmdCh s))) s = Some s' ∧
       rx_runtime (lp_state s' : Reactor) = r' ∧ returned id s' = Some out ∧ last_reply out = resp ∧ is_Some resp) ∧
  (∀ key e, runtime_ProtocolSwap key (set_queue queued r) = Done (r', e) →
     ∃ s' out, loop_run (call_schedule id (EventProtocolSwap key) (length (lp_cmdCh s))) s = Some s' ∧
       rx_runtime (lp_state s' : Reactor) = r' ∧ returned id s' = Some out ∧ last out = Some (OutSwap e)).
Proof.
  intros r queued Hreach Hu Hid Hlen Hq. pose proof (loop_ok_new (S := server) x0) as Hok0.
  pose proof (re_ok _ _ _ (run_has_effect _ _ _ Hok0 Hreach)) as Hok.
  pose proof (live_running _ (run_live _ _ _ Hok0 Hreach Hu (loop_live_new (S := server) x0))) as Hrun. split.
  - intros req resp. unfold runtime_ExecuteAction. rewrite set_queue_back by done. change (eventCh (set_queue queued r)) with queued.
    destruct (drain _ _) as [[r1 out]|] eqn:Hd; [|done]. intros [= <- <-].
    destruct (call_scheduled id (EventAction (Some req)) s r1 out Hok Hrun (proj2 Hu) Hid Hlen eq_refl Hd)
      as (s' & r0 & out1 & out2 & Hs' & Hrt & Hret & -> & Hh).
    destruct (action_replies _ _ _ _ Hh) as [resp Hresp]. exists s', out2. rewrite (last_reply_app out1 out2 resp Hresp). by split_and!.
  - intros key e. unfold runtime_ProtocolSwap. rewrite set_queue_back by done. change (eventCh (set_queue queued r)) with queued.
    destruct (drain _ _) as [[r1 out]|] eqn:Hd; [|done]. intros [= <- <-].
    destruct (call_scheduled id (EventProtocolSwap key) s r1 out Hok Hrun (proj2 Hu) Hid Hlen eq_refl Hd)
      as (s' & r0 & out1 & out2 & Hs' & Hrt & Hret & -> & Hh).
    destruct (swap_replies _ _ _ _ Hh) as [e Hlast]. exists s', out2. rewrite last_app, Hlast. by split_and!.
Qed.
End Schedule.

(** ** A call that times out *)

#[local] Existing Instance demo_peers.
#[local] Existing Instance demo_sends.
#[local] Existing Instance demo_protobuf.
#[local] Instance reactor_gossip_codec : Codec GossipMessage := countable_codec GossipMessage.
#[local] Instance reactor_membership_codec : Codec MembershipEvent := countable_codec MembershipEvent.
#[local] Instance reactor_env : Env := test_env 5.

#[local] Abbreviation demo_server := (reactor_server (λ _, reactor_env) (λ _, demo_peers) (λ _, demo_sends)).

Definition demo_reactor : Reactor := {| rx_runtime := demo_swapped; rx_handled := 0; rx_out := [] |}.

Definition demo_run (tr : list (label demo_server)) : option (Loop demo_server) := loop_run tr (NewLoop (S := demo_server) demo_reactor).

Definition put_action : RuntimeEvent :=
  EventAction (Some {| ar_NodeId := "n1"; ar_Action := KV_PUT; ar_Payload := Marshal_KVPutRequest {| put_Key := "k"; put_Value := "v" |} |}).
Definition get_request : ActionRequest := {| ar_NodeId := "n1"; ar_Action := KV_GET; ar_Payload := Marshal_KVGetRequest "k" |}.

(** The caller of the put is told that its time is over; then the reactor does
    the put. *)
Definition late_put : list (label demo_server) := [LCall (S := demo_server) 0 put_action; LSubmit 0; LTimeout 0; LTake].

Definition timed_out (id : nat) (s : Loop demo_server) : bool :=
  match lp_requests s !! id with Some rq => match rq_at rq with TimedOut => true | _ => false end | None => false end.

Definition holds (key : string) (s : Loop demo_server) : option string :=
  match r_proto (rx_runtime (lp_state s : Reactor)) with Some (PGossip g) => Data <$> store g !! key | _ => None end.

Example timed_out_put_takes_effect :
  (λ s, (timed_out 0 s, holds "k" s)) <$> demo_run late_put = Some (true, Some "v").
Proof. vm_compute. reflexivity. Qed.

(** What a successful run shows, computed. *)
Lemma demo_shows {A} tr (f : Loop demo_server → A) a : f <$> demo_run tr = Some a → ∃ s, demo_run tr = Some s ∧ f s = a.
Proof. destruct (demo_run tr) as [s|]; [|done]. intros [= <-]. by exists s. Qed.

Lemma reactor_serial_witness :
  ∃ s (ops : list (op demo_server)), demo_run late_put = Some s ∧ timed_out 0 s = true ∧ holds "k" s = Some "v" ∧
    history late_put ops ∧ sequential ops demo_reactor (lp_state s) ∧ omap op_id ops ++ (lp_cmdCh s).*1 = [0]%nat.
Proof.
  destruct (demo_shows late_put (λ s, (timed_out 0 s, holds "k" s)) (true, Some "v") timed_out_put_takes_effect) as (s & Hrun & [= Ht Hk]).
  destruct (reactor_serial (λ _, reactor_env) (λ _, demo_peers) (λ _, demo_sends) demo_reactor late_put s Hrun) as (ops & Hh & Hseq & Hfifo & _).
  exists s, ops. split_and!; [done..|]. symmetry. exact Hfifo.
Defined.

(** A put is in the channel, and a get is called. *)
Definition queued_state (x : Reactor) : Loop demo_server :=
  set_cmdCh (S := demo_server) [(0%nat, put_action)]
    (set_request (S := demo_server) 0 {| rq_cmd := put_action : sv_Command demo_server; rq_at := InWait; rq_replyCh := None |}
      (set_request (S := demo_server) 0 {| rq_cmd := put_action : sv_Command demo_server; rq_at := InSubmit; rq_replyCh := None |}
        (NewLoop (S := demo_server) x))).

Lemma queued_run x : loop_run [LCall (S := demo_server) 0 put_action; LSubmit 0] (NewLoop (S := demo_server) x) = Some (queued_state x).
Proof. reflexivity. Qed.

Lemma calls_are_schedules_witness :
  ∃ s' out r' resp, runtime_ExecuteAction (Some get_request) (set_queue [put_action] demo_swapped) = Done (r', Some resp) ∧ rsp_Success resp = true ∧
    loop_run (call_schedule (ENV := reactor_env) (RPC := demo_peers) (SEND := demo_sends) 1 (EventAction (Some get_request)) 1)
      (queued_state demo_reactor) = Some s' ∧
    rx_runtime (lp_state s' : Reactor) = r' ∧ last_reply out = Some resp.
Proof.
  destruct (runtime_ExecuteAction (Some get_request) (set_queue [put_action] demo_swapped)) as [[r' [resp|]]|] eqn:Hex; [|by vm_compute in Hex..].
  assert (Hsucc : match runtime_ExecuteAction (Some get_request) (set_queue [put_action] demo_swapped) with
    Done (_, Some resp) => rsp_Success resp | _ => false end = true) by (vm_compute; reflexivity). rewrite Hex in Hsucc.
  destruct (calls_are_schedules (ENV := reactor_env) (RPC := demo_peers) (SEND := demo_sends) demo_reactor
    [LCall (S := demo_server) 0 put_action; LSubmit 0] (queued_state demo_reactor) 1 r' (queued_run demo_reactor))
    as [Hact _].
  { split; reflexivity. }
  { reflexivity. }
  { apply Nat.ltb_lt. reflexivity. }
  { vm_compute. reflexivity. }
  destruct (Hact get_request (Some resp) Hex) as (s' & out & Hs' & Hrt & _ & Hresp & _).
  exists s', out, r', resp. exact (conj eq_refl (conj Hsucc (conj Hs' (conj Hrt Hresp)))).
Defined.
