(* ===== verification/Cluster.v ===== *)
(** * The cluster manager (internal/cluster, internal/cluster/manager)

    Models config.go, manager.go, cluster_manager.go, nodes_manager.go and
    heartbeat_manager.go: the clusters and nodes the controlplane knows.  Nodes
    are shared by pointer in the source, so they live in a heap and a cluster
    maps node ids to addresses: who keeps a pointer sees later updates.  Each
    locked method is one atomic operation.  Times are nanoseconds. *)

From Stdlib Require Import SpecFloat.
From S2P Require Import Prelude GoStrings Fault.

(** ** cluster/config.go *)

Record FaultState := {
  fs_Crashed : bool;
  fs_DropRate : spec_float;
  fs_DelayMs : Z;
  fs_Partition : list string;
}.

Definition DefaultFaultState : FaultState :=
  {| fs_Crashed := false; fs_DropRate := f64_zero; fs_DelayMs := 0; fs_Partition := [] |}.

Record NodeActionCapabilities := { KVPut : bool; KVGet : bool; KVDelete : bool }.

Record Node := {
  n_ID : string;
  n_Address : string;
  n_Port : Z;
  n_LastSeen : Z;
  n_Status : string;
  n_Fault : FaultState;
  n_ActiveProtocolKey : string;
  n_ActiveProtocolEpoch : Z;
  n_Capabilities : NodeActionCapabilities;
  n_CapabilitiesAt : Z;
}.

(** The address of a node in the heap. *)
Abbreviation ref := nat.

Record Cluster := {
  c_ID : string;
  c_Protocol : string;
  c_Nodes : gmap string ref;
}.

(** ** manager.go *)

Record Manager := {
  clusters : gmap string Cluster;
  heap : gmap ref Node;
  next_ref : ref;
}.

Definition NewManager : Manager := {| clusters := ∅; heap := ∅; next_ref := 0 |}.

Definition set_clusters (cs : gmap string Cluster) (m : Manager) : Manager :=
  {| clusters := cs; heap := heap m; next_ref := next_ref m |}.
Definition set_heap (h : gmap ref Node) (m : Manager) : Manager :=
  {| clusters := clusters m; heap := h; next_ref := next_ref m |}.

(** [node.F = ...] through a pointer. *)
Definition update_ref (r : ref) (f : Node → Node) (m : Manager) : Manager :=
  set_heap (alter f r (heap m)) m.

Definition with_fault (fault : FaultState) (status : string) (n : Node) : Node :=
  {| n_ID := n_ID n; n_Address := n_Address n; n_Port := n_Port n; n_LastSeen := n_LastSeen n;
     n_Status := status; n_Fault := fault; n_ActiveProtocolKey := n_ActiveProtocolKey n;
     n_ActiveProtocolEpoch := n_ActiveProtocolEpoch n; n_Capabilities := n_Capabilities n;
     n_CapabilitiesAt := n_CapabilitiesAt n |}.

Definition with_seen (t : Z) (status : string) (n : Node) : Node :=
  {| n_ID := n_ID n; n_Address := n_Address n; n_Port := n_Port n; n_LastSeen := t;
     n_Status := status; n_Fault := n_Fault n; n_ActiveProtocolKey := n_ActiveProtocolKey n;
     n_ActiveProtocolEpoch := n_ActiveProtocolEpoch n; n_Capabilities := n_Capabilities n;
     n_CapabilitiesAt := n_CapabilitiesAt n |}.

Definition with_capabilities (key : string) (epoch : Z) (caps : NodeActionCapabilities) (at_ : Z) (n : Node) : Node :=
  {| n_ID := n_ID n; n_Address := n_Address n; n_Port := n_Port n; n_LastSeen := n_LastSeen n;
     n_Status := n_Status n; n_Fault := n_Fault n; n_ActiveProtocolKey := key;
     n_ActiveProtocolEpoch := epoch; n_Capabilities := caps; n_CapabilitiesAt := at_ |}.

Definition with_status (status : string) (n : Node) : Node := with_seen (n_LastSeen n) status n.

(** The address of a node, with the errors of the callers that look it up. *)
Definition find_node (no_cluster no_node : error) (clusterID nodeID : string) (m : Manager) : result ref :=
  match clusters m !! clusterID with
  | None => Err no_cluster
  | Some c => match c_Nodes c !! nodeID with
              | None => Err no_node
              | Some r => Ok r
              end
  end.

Definition cluster_invalid : error := Errorf "cluster id is not valid" [].
Definition node_invalid : error := Errorf "node id is not valid" [].
Definition cluster_missing : error := Errorf "cluster not found" [].
Definition node_missing : error := Errorf "node not found" [].

Definition SetNodeCapabilities (clusterID nodeID key : string) (epoch : Z) (caps : NodeActionCapabilities)
    (reportedAt : Z) (m : Manager) : Manager * option error :=
  match find_node cluster_missing node_missing clusterID nodeID m with
  | Err e => (m, Some e)
  | Ok r => (update_ref r (with_capabilities key epoch caps reportedAt) m, None)
  end.

(** The request SetFaultParams hands to the node session. *)
Record FaultCall := { fc_Host : string; fc_Port : Z; fc_NodeID : string; fc_Params : FaultState }.

(** The node session: its SetFaultParams, a call that changes the network [W]. *)
Abbreviation fault_session W := (option (FaultCall → W → W * option error)).

(** No session is [None].  The state changes before the call. *)
Definition SetFaultParams {W} (ns : fault_session W) (clusterID nodeID : string)
    (params : FaultState) (m : Manager) (w : W) : W * Manager * option error :=
  match find_node cluster_invalid node_invalid clusterID nodeID m with
  | Err e => (w, m, Some e)
  | Ok r =>
      let m := update_ref r (with_fault params (if fs_Crashed params then "crashed" else "active")) m in
      match ns, heap m !! r with
      | Some call, Some n =>
          let '(w, e) :=
            call {| fc_Host := n_Address n; fc_Port := n_Port n; fc_NodeID := nodeID; fc_Params := params |} w in
          (w, m, e)
      | _, _ => (w, m, None)
      end
  end.

(** ** cluster_manager.go *)

Definition normalProtocol (protocol : string) : result string :=
  let protocol := ToLower (TrimSpace protocol) in
  let protocol := if bool_decide (protocol = EmptyString) then "gossip" else protocol in
  if bool_decide (protocol = "gossip") || bool_decide (protocol = "raft") then Ok protocol
  else Err (Errorf "unsupported protocol %q (supported: gossip, raft)" [AStr protocol]).

Definition CreateCluster (clusterID protocol : string) (m : Manager) : Manager * option error :=
  match normalProtocol protocol with
  | Err e => (m, Some e)
  | Ok p =>
      match clusters m !! clusterID with
      | Some _ => (m, Some (Errorf "cluster already exists" []))
      | None => (set_clusters (<[clusterID := {| c_ID := clusterID; c_Protocol := p; c_Nodes := ∅ |}]> (clusters m)) m, None)
      end
  end.

Definition RemoveCluster (clusterID : string) (m : Manager) : Manager * option error :=
  match clusters m !! clusterID with
  | None => (m, Some (Errorf "cluster does not exist" []))
  | Some _ => (set_clusters (delete clusterID (clusters m)) m, None)
  end.

Definition GetClusters `{RangeOrder} (m : Manager) : list string := (range 103 (clusters m)).*1.

Definition GetCluster (clusterID : string) (m : Manager) : result Cluster :=
  match clusters m !! clusterID with
  | None => Err cluster_missing
  | Some c => Ok c
  end.

Definition SwapProtocol (clusterID protocol : string) (m : Manager) : Manager * option error :=
  match normalProtocol protocol with
  | Err e => (m, Some e)
  | Ok p =>
      match clusters m !! clusterID with
      | None => (m, Some cluster_missing)
      | Some c => (set_clusters (<[clusterID := {| c_ID := c_ID c; c_Protocol := p; c_Nodes := c_Nodes c |}]> (clusters m)) m, None)
      end
  end.

(** ** nodes_manager.go *)

Definition with_nodes (ns : gmap string ref) (c : Cluster) : Cluster :=
  {| c_ID := c_ID c; c_Protocol := c_Protocol c; c_Nodes := ns |}.

Definition newNode (nodeID address : string) (port now : Z) : Node :=
  {| n_ID := nodeID; n_Address := address; n_Port := port; n_LastSeen := now; n_Status := "active";
     n_Fault := DefaultFaultState; n_ActiveProtocolKey := EmptyString; n_ActiveProtocolEpoch := 0;
     n_Capabilities := {| KVPut := false; KVGet := false; KVDelete := false |}; n_CapabilitiesAt := 0 |}.

(** The nodes of a cluster, in the order of a range over its map. *)
Definition nodesOf `{RangeOrder} (site : nat) (c : Cluster) (m : Manager) : list Node :=
  omap (λ '(_, r), heap m !! r) (range site (c_Nodes c)).

Definition RegisterNode `{RangeOrder} (now : Z) (clusterID nodeID address : string) (port : Z) (m : Manager) :
    Manager * list Node :=
  let c := default {| c_ID := clusterID; c_Protocol := "gossip"; c_Nodes := ∅ |} (clusters m !! clusterID) in
  let r := next_ref m in
  let c := with_nodes (<[nodeID := r]> (c_Nodes c)) c in
  let m := {| clusters := <[clusterID := c]> (clusters m);
              heap := <[r := newNode nodeID address port now]> (heap m); next_ref := S r |} in
  (m, filter (λ n, n_ID n ≠ nodeID) (nodesOf 330 c m)).

Definition RemoveNode (clusterID nodeID : string) (m : Manager) : Manager * option error :=
  match clusters m !! clusterID with
  | None => (m, Some cluster_invalid)
  | Some c =>
      match c_Nodes c !! nodeID with
      | None => (m, Some node_invalid)
      | Some _ => (set_clusters (<[clusterID := with_nodes (delete nodeID (c_Nodes c)) c]> (clusters m)) m, None)
      end
  end.

Definition GetNodes `{RangeOrder} (clusterID : string) (m : Manager) : result (list Node) :=
  match clusters m !! clusterID with
  | None => Err cluster_invalid
  | Some c => Ok (nodesOf 374 c m)
  end.

(** GetNode returns the pointer. *)
Definition GetNode (clusterID nodeID : string) (m : Manager) : result ref :=
  find_node cluster_missing node_missing clusterID nodeID m.

(** ** heartbeat_manager.go *)

Definition Heartbeat (now : Z) (clusterID nodeID : string) (m : Manager) : Manager * option error :=
  match find_node cluster_invalid node_invalid clusterID nodeID m with
  | Err e => (m, Some e)
  | Ok r => (update_ref r (with_seen now "active") m, None)
  end.

(** One node of the cleanup loop; the pair is the cluster's node map and the
    heap.  [time.Since(node.LastSeen) > timeout] *)
Definition cleanup_node (now timeout : Z) (acc : gmap string ref * gmap ref Node) (entry : string * ref) :
    gmap string ref * gmap ref Node :=
  let '(nodes, h) := acc in
  let '(id, r) := entry in
  match h !! r with
  | None => (nodes, h)
  | Some n =>
      if (timeout <? now - n_LastSeen n) then
        if negb (fs_Crashed (n_Fault n)) then (delete id nodes, h)
        else (<[id := r]> nodes, <[r := with_status "crashed" n]> h)
      else (nodes, h)
  end.

Definition cleanup_cluster `{RangeOrder} (now timeout : Z) (m : Manager) (entry : string * Cluster) : Manager :=
  let '(cid, c) := entry in
  let '(nodes, h) := foldl (cleanup_node now timeout) (c_Nodes c, heap m) (range 178 (c_Nodes c)) in
  {| clusters := <[cid := with_nodes nodes c]> (clusters m); heap := h; next_ref := next_ref m |}.

(** One round of the loop of Cleanup, after its sleep. *)
Definition Cleanup `{RangeOrder} (now timeout : Z) (m : Manager) : Manager :=
  foldl (cleanup_cluster now timeout) m (range 177 (clusters m)).

(** ** The state invariant *)

Definition status_ok (n : Node) : Prop := n_Status n = "active" ∨ n_Status n = "crashed".

(** Every cluster is stored under its id and runs a supported protocol; every
    node of a cluster is in the heap under its id with a known status; no two
    entries share a node. *)
Record manager_ok (m : Manager) : Prop := {
  ok_cluster cid c : clusters m !! cid = Some c → c_ID c = cid ∧ (c_Protocol c = "gossip" ∨ c_Protocol c = "raft");
  ok_ref cid c id r : clusters m !! cid = Some c → c_Nodes c !! id = Some r →
    (r < next_ref m)%nat ∧ ∃ n, heap m !! r = Some n ∧ n_ID n = id ∧ status_ok n;
  ok_inj cid c id cid' c' id' r :
    clusters m !! cid = Some c → c_Nodes c !! id = Some r →
    clusters m !! cid' = Some c' → c_Nodes c' !! id' = Some r → cid = cid' ∧ id = id';
}.

Lemma normalProtocol_Ok p q : normalProtocol p = Ok q → q = "gossip" ∨ q = "raft".
Proof.
  unfold normalProtocol. set (p' := if bool_decide _ then _ else _).
  destruct (bool_decide (p' = "gossip") || bool_decide (p' = "raft")) eqn:Hb; [|done]. intros [= <-].
  by apply orb_true_iff in Hb as [?%bool_decide_eq_true|?%bool_decide_eq_true]; [left|right].
Qed.

Lemma manager_ok_new : manager_ok NewManager.
Proof. split; cbn; intros *; by rewrite lookup_empty. Qed.

(** A node is changed in place, keeping its id and a known status. *)
Lemma manager_ok_heap m h :
  manager_ok m →
  (∀ r n, heap m !! r = Some n → status_ok n → ∃ n', h !! r = Some n' ∧ n_ID n' = n_ID n ∧ status_ok n') →
  manager_ok (set_heap h m).
Proof.
  intros [Hc Hr Hi] Hh. split; cbn; [done| |done].
  intros cid c id r Hcid Hid. destruct (Hr _ _ _ _ Hcid Hid) as (Hlt & n & Hn & <- & Hs).
  split; [done|]. destruct (Hh r n Hn Hs) as (n' & ? & ? & ?). eauto.
Qed.

Lemma manager_ok_update m r f :
  manager_ok m → (∀ n, n_ID (f n) = n_ID n) → (∀ n, status_ok n → status_ok (f n)) →
  manager_ok (update_ref r f m).
Proof.
  intros Hm Hid Hst. apply manager_ok_heap; [done|]. intros r' n Hn Hs.
  destruct (decide (r = r')) as [<-|Hne].
  - exists (f n). rewrite lookup_alter_eq, Hn. split_and!; [done|apply Hid|by apply Hst].
  - exists n. by rewrite lookup_alter_ne.
Qed.

(** A cluster is replaced by one with no new nodes. *)
Lemma manager_ok_cluster m cid c nodes :
  manager_ok m → c_ID c = cid → (c_Protocol c = "gossip" ∨ c_Protocol c = "raft") → c_Nodes c = nodes →
  nodes ⊆ default ∅ (c_Nodes <$> clusters m !! cid) →
  manager_ok (set_clusters (<[cid := c]> (clusters m)) m).
Proof.
  intros [Hc Hr Hi] Hid Hp <- Hsub.
  assert (Hold : ∀ cid' c' id r, (<[cid := c]> (clusters m)) !! cid' = Some c' → c_Nodes c' !! id = Some r →
            ∃ c0, clusters m !! cid' = Some c0 ∧ c_Nodes c0 !! id = Some r).
  { intros cid' c' id r [[<- <-]|[Hne Hl]]%lookup_insert_Some Hn; [|by exists c'].
    eapply lookup_weaken in Hn; [|exact Hsub]. destruct (clusters m !! cid) as [c0|]; [by exists c0|].
    by simpl in Hn; rewrite lookup_empty in Hn. }
  split; cbn.
  - intros cid' c' [[<- <-]|[Hne Hl]]%lookup_insert_Some; [done|by apply Hc].
  - intros cid' c' id r Hl Hn. destruct (Hold _ _ _ _ Hl Hn) as (c0 & H0 & H1). by apply (Hr cid' c0).
  - intros cid1 c1 id1 cid2 c2 id2 r H1 H2 H3 H4.
    destruct (Hold _ _ _ _ H1 H2) as (c01 & ? & ?), (Hold _ _ _ _ H3 H4) as (c02 & ? & ?).
    by apply (Hi cid1 c01 id1 cid2 c02 id2 r).
Qed.

Lemma manager_ok_delete m cid : manager_ok m → manager_ok (set_clusters (delete cid (clusters m)) m).
Proof.
  intros [Hc Hr Hi]. split; cbn.
  - intros cid' c [_ ?]%lookup_delete_Some. by apply Hc.
  - intros cid' c id r [_ ?]%lookup_delete_Some. by apply (Hr cid' c id r).
  - intros cid1 c1 id1 cid2 c2 id2 r [_ ?]%lookup_delete_Some ? [_ ?]%lookup_delete_Some. by apply (Hi cid1 c1 id1 cid2 c2 id2 r).
Qed.

Lemma manager_ok_register `{RangeOrder} now cid id addr port m :
  manager_ok m → manager_ok (RegisterNode now cid id addr port m).1.
Proof.
  intros [Hc Hr Hi]. unfold RegisterNode. cbn [fst].
  set (c0 := default {| c_ID := cid; c_Protocol := "gossip"; c_Nodes := ∅ |} (clusters m !! cid)).
  set (r0 := next_ref m).
  assert (c_ID c0 = cid ∧ (c_Protocol c0 = "gossip" ∨ c_Protocol c0 = "raft")) as Hc0.
  { unfold c0. destruct (clusters m !! cid) as [c|] eqn:Hcid; [by apply Hc|]. split; [done|by left]. }
  (* an entry is the new one, or an old one at an older address *)
  assert (Hcase : ∀ cid' c' id' r, (<[cid := with_nodes (<[id := r0]> (c_Nodes c0)) c0]> (clusters m)) !! cid' = Some c' →
      c_Nodes c' !! id' = Some r →
      cid' = cid ∧ id' = id ∧ r = r0 ∨
      ((r < r0)%nat ∧ ∃ c1, clusters m !! cid' = Some c1 ∧ c_Nodes c1 !! id' = Some r)).
  { intros cid' c' id' r [[<- <-]|[Hne Hl]]%lookup_insert_Some Hn.
    - cbn in Hn. apply lookup_insert_Some in Hn as [[<- <-]|[Hne Hn]]; [by left|]. right. unfold c0 in Hn.
      destruct (clusters m !! cid) as [c1|] eqn:Hcid; [|by simpl in Hn; rewrite lookup_empty in Hn].
      split; [by apply (Hr cid c1 id' r)|]. by exists c1.
    - right. split; [by apply (Hr cid' c' id' r)|]. by exists c'. }
  split; cbn.
  - intros cid' c' [[<- <-]|[Hne Hl]]%lookup_insert_Some; [done|by apply Hc].
  - intros cid' c' id' r Hl Hn. destruct (Hcase _ _ _ _ Hl Hn) as [(-> & -> & ->)|(Hlt & c1 & H1 & H2)].
    + split; [lia|]. eexists. rewrite lookup_insert_eq. split_and!; [done|done|by left].
    + destruct (Hr cid' c1 id' r H1 H2) as (_ & n & ? & ? & ?). split; [lia|].
      exists n. by rewrite lookup_insert_ne by lia.
  - intros cid1 c1 id1 cid2 c2 id2 r H1 H2 H3 H4.
    destruct (Hcase _ _ _ _ H1 H2) as [(-> & -> & Hr1)|(Hlt1 & c1' & ? & ?)],
             (Hcase _ _ _ _ H3 H4) as [(-> & -> & Hr2)|(Hlt2 & c2' & ? & ?)]; [done|lia|lia|].
    by apply (Hi cid1 c1' id1 cid2 c2' id2 r).
Qed.

(** ** The cleanup round *)

Section CleanupProps.
Context (now timeout : Z).

(** What the round decides about a node; marking it does not change that. *)
Definition expired (n : Node) : bool := (timeout <? now - n_LastSeen n).
Definition faulted (n : Node) : bool := fs_Crashed (n_Fault n).

(** The nodes a heap marks, and the entries it makes the round drop. *)
Definition marks (h : gmap ref Node) (r : ref) : bool :=
  match h !! r with Some n => expired n && faulted n | None => false end.
Definition drops (h : gmap ref Node) (r : ref) : bool :=
  match h !! r with Some n => expired n && negb (faulted n) | None => false end.

Lemma cleanup_node_spec nodes h id r :
  nodes !! id = Some r →
  cleanup_node now timeout (nodes, h) (id, r) =
  (if drops h r then delete id nodes else nodes,
   if marks h r then alter (with_status "crashed") r h else h).
Proof.
  intros Hid. unfold cleanup_node, drops, marks, expired, faulted.
  destruct (h !! r) as [n|] eqn:Hn; [|done].
  destruct (timeout <? now - n_LastSeen n); cbn [andb]; [|done].
  destruct (fs_Crashed (n_Fault n)); cbn [negb]; [|done].
  rewrite (insert_id nodes) by done. f_equal. apply map_eq. intros k.
  destruct (decide (r = k)) as [<-|Hne].
  - by rewrite lookup_insert_eq, lookup_alter_eq, Hn.
  - by rewrite lookup_insert_ne, lookup_alter_ne.
Qed.

Lemma tests_alter h r k :
  marks (alter (with_status "crashed") r h) k = marks h k ∧ drops (alter (with_status "crashed") r h) k = drops h k.
Proof.
  unfold marks, drops. destruct (decide (r = k)) as [<-|Hne].
  - rewrite lookup_alter_eq. by destruct (h !! r).
  - by rewrite lookup_alter_ne.
Qed.

(** The loop over one cluster. *)
Lemma cleanup_fold l nodes h :
  NoDup l.*1 → (∀ id r, (id, r) ∈ l → nodes !! id = Some r) →
  let '(nodes', h') := foldl (cleanup_node now timeout) (nodes, h) l in
  (∀ r, marks h' r = marks h r ∧ drops h' r = drops h r) ∧
  (∀ id, nodes' !! id = match nodes !! id with
                        | Some r => if decide (id ∈ l.*1) then if drops h r then None else Some r else Some r
                        | None => None end) ∧
  (∀ r, h' !! r = if decide (r ∈ l.*2 ∧ marks h r = true) then with_status "crashed" <$> h !! r else h !! r).
Proof.
  revert nodes h; induction l as [|[id r] l IH]; intros nodes h Hnd Hl; cbn [foldl].
  { split_and!; [done|intros id; cbn; by destruct (nodes !! id)|]. intros r. by rewrite decide_False by (intros [[]%elem_of_nil _]). }
  apply NoDup_cons in Hnd as [Hid Hnd].
  rewrite cleanup_node_spec by (apply Hl; left).
  set (nodes1 := if drops h r then delete id nodes else nodes).
  set (h1 := if marks h r then alter (with_status "crashed") r h else h).
  assert (∀ k, marks h1 k = marks h k ∧ drops h1 k = drops h k) as Ht1.
  { intros k. unfold h1. destruct (marks h r); [apply tests_alter|done]. }
  assert (∀ id', id' ≠ id → nodes1 !! id' = nodes !! id') as Hn1.
  { intros id' Hne. unfold nodes1. destruct (drops h r); [by rewrite lookup_delete_ne|done]. }
  specialize (IH nodes1 h1 Hnd).
  destruct (foldl (cleanup_node now timeout) (nodes1, h1) l) as [nodes' h'].
  destruct IH as (Ht & Hnodes & Hheap).
  { intros id' r' Hin. rewrite Hn1; [by apply Hl; right|]. intros ->. apply Hid, list_elem_of_fmap. by exists (id, r'). }
  split_and!.
  - intros k. destruct (Ht k) as [-> ->]. apply Ht1.
  - intros id'. rewrite Hnodes. destruct (decide (id' = id)) as [->|Hne].
    + rewrite (Hl id r) by left. rewrite (decide_True (P:=id ∈ ((id, r) :: l).*1)) by (by left).
      unfold nodes1. destruct (drops h r) eqn:Hd; [by rewrite lookup_delete_eq|].
      rewrite (Hl id r) by left. by rewrite decide_False.
    + rewrite Hn1 by done. destruct (nodes !! id') as [r'|]; [|done].
      destruct (Ht1 r') as [_ ->]. cbn [fmap list_fmap fst].
      destruct (decide (id' ∈ l.*1)); [rewrite decide_True by (by right)|rewrite decide_False by (by rewrite elem_of_cons; intros [?|?])]; done.
  - intros k. rewrite Hheap. destruct (Ht1 k) as [-> _]. cbn [fmap list_fmap snd].
    assert (h1 !! k = if decide (k = r ∧ marks h r = true) then with_status "crashed" <$> h !! k else h !! k) as ->.
    { unfold h1. destruct (marks h r) eqn:Hm.
      - destruct (decide (r = k)) as [<-|Hne]; [rewrite lookup_alter_eq, decide_True by done; done|].
        rewrite lookup_alter_ne, decide_False by (try done; intros [? _]; congruence). done.
      - rewrite decide_False by (intros [_ ?]; congruence). done. }
    pose proof (elem_of_cons l.*2 k r) as Hin. destruct (decide (k = r)) as [->|Hkr].
    + destruct (marks h r); repeat case_decide; try done; try (by destruct (h !! r)); exfalso; tauto.
    + rewrite (decide_False (P:=k = r ∧ _)) by (by intros [? _]). apply decide_ext. rewrite Hin. tauto.
Qed.

Definition kept_nodes (h : gmap ref Node) (ns : gmap string ref) : gmap string ref :=
  filter (λ kr, drops h kr.2 = false) ns.

Lemma cleanup_cluster_spec `{RangeOrder} m cid c :
  clusters m !! cid = Some c →
  let m' := cleanup_cluster now timeout m (cid, c) in
  next_ref m' = next_ref m ∧
  clusters m' = <[cid := with_nodes (kept_nodes (heap m) (c_Nodes c)) c]> (clusters m) ∧
  (∀ r, marks (heap m') r = marks (heap m) r ∧ drops (heap m') r = drops (heap m) r) ∧
  (∀ r, heap m' !! r = heap m !! r ∨ heap m' !! r = with_status "crashed" <$> heap m !! r) ∧
  (∀ r, marks (heap m) r = false → heap m' !! r = heap m !! r) ∧
  (∀ id r, c_Nodes c !! id = Some r → marks (heap m) r = true → heap m' !! r = with_status "crashed" <$> heap m !! r).
Proof.
  intros Hcid. cbv zeta. unfold cleanup_cluster.
  pose proof (cleanup_fold (range 178 (c_Nodes c)) (c_Nodes c) (heap m) (range_NoDup _ _)) as Hf.
  destruct (foldl _ _ _) as [nodes' h']. destruct Hf as (Ht & Hn & Hh).
  { intros id r. by rewrite elem_of_range. }
  split_and!; cbn; [done| |done|..].
  - do 2 f_equal. apply map_eq. intros id. rewrite Hn. unfold kept_nodes.
    destruct (c_Nodes c !! id) as [r|] eqn:Hid.
    + rewrite decide_True by (apply list_elem_of_fmap; exists (id, r); by rewrite elem_of_range).
      destruct (drops (heap m) r) eqn:Hd; symmetry.
      * apply map_lookup_filter_None. right. intros r' Hr'. simplify_eq. simpl. congruence.
      * by apply map_lookup_filter_Some.
    + symmetry. apply map_lookup_filter_None. by left.
  - intros r. rewrite Hh. case_decide; auto.
  - intros r Hm. rewrite Hh, decide_False; [done|]. intros [_ ?]. congruence.
  - intros id r Hid Hm. rewrite Hh, decide_True; [done|]. split; [|done].
    apply list_elem_of_fmap. exists (id, r). by rewrite elem_of_range.
Qed.

Lemma cleanup_loop `{RangeOrder} l m :
  NoDup l.*1 → (∀ cid c, (cid, c) ∈ l → clusters m !! cid = Some c) →
  let m' := foldl (cleanup_cluster now timeout) m l in
  next_ref m' = next_ref m ∧
  (∀ cid, clusters m' !! cid =
     (if decide (cid ∈ l.*1) then λ c, with_nodes (kept_nodes (heap m) (c_Nodes c)) c else id) <$> clusters m !! cid) ∧
  (∀ r, heap m' !! r = heap m !! r ∨ heap m' !! r = with_status "crashed" <$> heap m !! r) ∧
  (∀ r, marks (heap m) r = false → heap m' !! r = heap m !! r) ∧
  (∀ cid c id r, (cid, c) ∈ l → c_Nodes c !! id = Some r → marks (heap m) r = true →
     heap m' !! r = with_status "crashed" <$> heap m !! r).
Proof.
  revert m; induction l as [|[cid c] l IH]; intros m Hnd Hl; cbv zeta; cbn [foldl].
  { split_and!; [done|intros cid; by destruct (clusters m !! cid)|auto|done|by intros ???? ?%elem_of_nil]. }
  apply NoDup_cons in Hnd as [Hcid Hnd].
  destruct (cleanup_cluster_spec m cid c) as (Hnx & Hcl & Ht & Hor & Hun & Hma); [apply Hl; left|].
  set (m1 := cleanup_cluster now timeout m (cid, c)) in *.
  destruct (IH m1 Hnd) as (Hnx' & Hcl' & Hor' & Hun' & Hma').
  { intros cid' c' Hin. rewrite Hcl, lookup_insert_ne; [by apply Hl; right|].
    intros ->. apply Hcid, list_elem_of_fmap. by exists (cid', c'). }
  assert (Hk : ∀ ns, kept_nodes (heap m1) ns = kept_nodes (heap m) ns).
  { intros ns. apply map_filter_ext. intros k r _. simpl. by destruct (Ht r) as [_ ->]. }
  split_and!.
  - by rewrite Hnx'.
  - intros cid'. rewrite Hcl', Hcl. cbn [fmap list_fmap fst]. destruct (decide (cid' = cid)) as [->|Hne].
    + rewrite lookup_insert_eq, (Hl cid c) by left. rewrite decide_False, decide_True by (done || by left). done.
    + rewrite lookup_insert_ne by done.
      destruct (decide (cid' ∈ l.*1)); [rewrite decide_True by (by right)|rewrite decide_False by (by rewrite elem_of_cons; intros [?|?])].
      * destruct (clusters m !! cid'); [|done]. cbn. by rewrite Hk.
      * done.
  - intros r. destruct (Hor' r) as [-> | ->], (Hor r) as [-> | ->]; auto. right. by destruct (heap m !! r).
  - intros r Hm. rewrite Hun'; [by apply Hun|]. by destruct (Ht r) as [-> _].
  - intros cid' c' i r Hin Hi Hm.
    apply elem_of_cons in Hin as [[= -> ->]|Hin].
    + destruct (Hor' r) as [-> | ->]; rewrite (Hma i r Hi Hm); [done|]. by destruct (heap m !! r).
    + rewrite (Hma' cid' c' i r Hin Hi); [|by destruct (Ht r) as [-> _]].
      destruct (Hor r) as [-> | ->]; [done|]. by destruct (heap m !! r).
Qed.

(** The node of a cluster under an id. *)
Definition node_at (cid id : string) (m : Manager) : option Node :=
  c ← clusters m !! cid; r ← c_Nodes c !! id; heap m !! r.

Lemma Cleanup_clusters `{RangeOrder} m :
  let m' := Cleanup now timeout m in
  next_ref m' = next_ref m ∧
  (∀ cid, clusters m' !! cid = (λ c, with_nodes (kept_nodes (heap m) (c_Nodes c)) c) <$> clusters m !! cid) ∧
  (∀ r, heap m' !! r = heap m !! r ∨ heap m' !! r = with_status "crashed" <$> heap m !! r) ∧
  (∀ r, marks (heap m) r = false → heap m' !! r = heap m !! r) ∧
  (∀ cid c id r, clusters m !! cid = Some c → c_Nodes c !! id = Some r → marks (heap m) r = true →
     heap m' !! r = with_status "crashed" <$> heap m !! r).
Proof.
  cbv zeta. destruct (cleanup_loop (range 177 (clusters m)) m) as (Hn & Hc & Ho & Hu & Hm).
  { apply range_NoDup. }
  { intros cid c. by rewrite elem_of_range. }
  split_and!; [done| |done|done|].
  - intros cid. unfold Cleanup. rewrite Hc. destruct (clusters m !! cid) as [c|] eqn:Hcid; [|done].
    rewrite decide_True; [done|]. apply list_elem_of_fmap. exists (cid, c). by rewrite elem_of_range.
  - intros cid c i r Hcid. apply Hm with cid. by rewrite elem_of_range.
Qed.

(** A cleanup round removes exactly the nodes whose last heartbeat is older
    than the timeout and that were not crashed by fault injection; a node
    crashed by fault injection that is as old stays and is marked crashed; every
    other node stays as it is. *)
Theorem Cleanup_spec `{RangeOrder} m cid id :
  node_at cid id (Cleanup now timeout m) =
  match node_at cid id m with
  | None => None
  | Some n =>
      if expired n then if faulted n then Some (with_status "crashed" n) else None
      else Some n
  end.
Proof.
  destruct (Cleanup_clusters m) as (_ & Hc & _ & Hu & Hm). unfold node_at. rewrite Hc.
  destruct (clusters m !! cid) as [c|] eqn:Hcid; [|done]. cbn.
  destruct (c_Nodes c !! id) as [r|] eqn:Hid; cbn.
  - destruct (heap m !! r) as [n|] eqn:Hn.
    + destruct (drops (heap m) r) eqn:Hd.
      * assert (kept_nodes (heap m) (c_Nodes c) !! id = None) as ->.
        { apply map_lookup_filter_None. right. intros r' Hr'. simplify_eq. simpl. congruence. }
        unfold drops in Hd. rewrite Hn in Hd. apply andb_true_iff in Hd as [-> ?%negb_true_iff]. cbn. by case_match.
      * assert (kept_nodes (heap m) (c_Nodes c) !! id = Some r) as -> by (by apply map_lookup_filter_Some).
        cbn. unfold drops in Hd. rewrite Hn in Hd. destruct (marks (heap m) r) eqn:Hmk.
        -- rewrite (Hm cid c id r), Hn by done. unfold marks in Hmk. rewrite Hn in Hmk.
           apply andb_true_iff in Hmk as [-> ->]. done.
        -- rewrite Hu, Hn by done. unfold marks in Hmk. rewrite Hn in Hmk.
           destruct (expired n); [|done]. cbn in *. by destruct (faulted n).
    + assert (marks (heap m) r = false) as Hmk by (unfold marks; by rewrite Hn).
      destruct (kept_nodes (heap m) (c_Nodes c) !! id) as [r'|] eqn:Hk; [|done].
      apply map_lookup_filter_Some in Hk as [Hk _]. simplify_eq. cbn. by rewrite Hu.
  - assert (kept_nodes (heap m) (c_Nodes c) !! id = None) as -> by (apply map_lookup_filter_None; by left). done.
Qed.

Lemma manager_ok_cleanup `{RangeOrder} m : manager_ok m → manager_ok (Cleanup now timeout m).
Proof.
  intros [Hc Hr Hi]. destruct (Cleanup_clusters m) as (Hnx & Hcl & Hor & _ & _).
  assert (Hold : ∀ cid c id r, clusters (Cleanup now timeout m) !! cid = Some c → c_Nodes c !! id = Some r →
            ∃ c0, clusters m !! cid = Some c0 ∧ c_Nodes c0 !! id = Some r ∧ c_ID c = c_ID c0 ∧ c_Protocol c = c_Protocol c0).
  { intros cid c i r. rewrite Hcl. destruct (clusters m !! cid) as [c0|]; [|done]. intros [= <-] Hk. cbn in *.
    apply map_lookup_filter_Some in Hk as [Hk _]. by exists c0. }
  split.
  - intros cid c. rewrite Hcl. destruct (clusters m !! cid) as [c0|] eqn:Hcid; [|done].
    intros [= <-]. by apply (Hc cid c0).
  - intros cid c i r H1 H2. destruct (Hold _ _ _ _ H1 H2) as (c0 & H0 & H3 & _).
    destruct (Hr cid c0 i r H0 H3) as (Hlt & n & Hn & ? & Hs). rewrite Hnx. split; [done|].
    destruct (Hor r) as [-> | ->]; rewrite Hn; [by exists n|]. cbn. eexists. split_and!; [done|done|by right].
  - intros cid1 c1 i1 cid2 c2 i2 r H1 H2 H3 H4.
    destruct (Hold _ _ _ _ H1 H2) as (c01 & ? & ? & _), (Hold _ _ _ _ H3 H4) as (c02 & ? & ? & _).
    by apply (Hi cid1 c01 i1 cid2 c02 i2 r).
Qed.
End CleanupProps.

(** ** Every operation keeps the invariant *)

Inductive manager_op (W : Type) :=
  | OpCreateCluster (cid protocol : string)
  | OpRemoveCluster (cid : string)
  | OpSwapProtocol (cid protocol : string)
  | OpRegisterNode (now : Z) (cid id addr : string) (port : Z)
  | OpRemoveNode (cid id : string)
  | OpHeartbeat (now : Z) (cid id : string)
  | OpSetCapabilities (cid id key : string) (epoch : Z) (caps : NodeActionCapabilities) (at_ : Z)
  | OpSetFaultParams (ns : fault_session W) (cid id : string) (params : FaultState)
  | OpCleanup (now timeout : Z).
Arguments OpCreateCluster {W}.
Arguments OpRemoveCluster {W}.
Arguments OpSwapProtocol {W}.
Arguments OpRegisterNode {W}.
Arguments OpRemoveNode {W}.
Arguments OpHeartbeat {W}.
Arguments OpSetCapabilities {W}.
Arguments OpSetFaultParams {W}.
Arguments OpCleanup {W}.

(** An operation on the manager, over a network that only SetFaultParams calls. *)
Definition manager_do {W} `{RangeOrder} (st : W * Manager) (op : manager_op W) : W * Manager :=
  let '(w, m) := st in
  match op with
  | OpCreateCluster cid p => (w, (CreateCluster cid p m).1)
  | OpRemoveCluster cid => (w, (RemoveCluster cid m).1)
  | OpSwapProtocol cid p => (w, (SwapProtocol cid p m).1)
  | OpRegisterNode now cid id addr port => (w, (RegisterNode now cid id addr port m).1)
  | OpRemoveNode cid id => (w, (RemoveNode cid id m).1)
  | OpHeartbeat now cid id => (w, (Heartbeat now cid id m).1)
  | OpSetCapabilities cid id key epoch caps t => (w, (SetNodeCapabilities cid id key epoch caps t m).1)
  | OpSetFaultParams ns cid id params => (SetFaultParams ns cid id params m w).1
  | OpCleanup now timeout => (w, Cleanup now timeout m)
  end.

Lemma SetFaultParams_state {W} (ns : fault_session W) cid id params m w :
  (SetFaultParams ns cid id params m w).1.2 =
  match find_node cluster_invalid node_invalid cid id m with
  | Err _ => m
  | Ok r => update_ref r (with_fault params (if fs_Crashed params then "crashed" else "active")) m
  end.
Proof. unfold SetFaultParams. destruct (find_node _ _ _ _ _); [|done]. by repeat case_match. Qed.

Lemma manager_do_ok {W} `{RangeOrder} (st : W * Manager) op : manager_ok st.2 → manager_ok (manager_do st op).2.
Proof.
  destruct st as [w m]. cbn [snd]. intros Hm. destruct op as [cid p|cid|cid p|now cid id addr port|cid id|now cid id|cid id key epoch caps t|ns cid id params|now timeout]; cbn [manager_do snd].
  - unfold CreateCluster. destruct (normalProtocol p) as [q|] eqn:Hq; [|done].
    destruct (clusters m !! cid) eqn:Hc; [done|]. eapply manager_ok_cluster; [done|done|by apply (normalProtocol_Ok p)|done|].
    apply map_empty_subseteq.
  - unfold RemoveCluster. destruct (clusters m !! cid); [|done]. by apply manager_ok_delete.
  - unfold SwapProtocol. destruct (normalProtocol p) as [q|] eqn:Hq; [|done].
    destruct (clusters m !! cid) as [c|] eqn:Hc; [|done].
    eapply manager_ok_cluster; [done|by apply (ok_cluster m Hm cid c)|by apply (normalProtocol_Ok p)|done|]. by rewrite Hc.
  - by apply manager_ok_register.
  - unfold RemoveNode. destruct (clusters m !! cid) as [c|] eqn:Hc; [|done]. destruct (c_Nodes c !! id); [|done].
    eapply manager_ok_cluster; [done|by apply (ok_cluster m Hm cid c)|by apply (ok_cluster m Hm cid c)|done|].
    rewrite Hc. apply delete_subseteq.
  - unfold Heartbeat. destruct (find_node _ _ _ _ _); [|done]. apply manager_ok_update; [done|done|by left].
  - unfold SetNodeCapabilities. destruct (find_node _ _ _ _ _); [|done]. by apply manager_ok_update.
  - rewrite SetFaultParams_state. destruct (find_node _ _ _ _ _); [|done]. apply manager_ok_update; [done|done|].
    intros n _. unfold status_ok. cbn. destruct (fs_Crashed params); auto.
  - by apply manager_ok_cleanup.
Qed.

(** In every state the manager reaches, each cluster is stored under its own
    id with a protocol it supports, each node under its own id with the status
    active or crashed, and no node belongs to two entries. *)
Theorem manager_invariant {W} `{RangeOrder} (w : W) ops : manager_ok (foldl manager_do (w, NewManager) ops).2.
Proof.
  apply (foldl_invariant (λ st, manager_ok st.2)); [apply manager_ok_new|]. intros st op _. apply manager_do_ok.
Qed.

Lemma SetFaultParams_node {W} (ns : fault_session W) cid id params m w :
  manager_ok m →
  let '(w', m', e) := SetFaultParams ns cid id params m w in
  match node_at cid id m with
  | None => w' = w ∧ m' = m ∧ is_Some e
  | Some n =>
      node_at cid id m' = Some (with_fault params (if fs_Crashed params then "crashed" else "active") n) ∧
      (∀ cid' id', (cid', id') ≠ (cid, id) → node_at cid' id' m' = node_at cid' id' m) ∧
      (w', e) = match ns with
                | None => (w, None)
                | Some call => call {| fc_Host := n_Address n; fc_Port := n_Port n; fc_NodeID := id; fc_Params := params |} w
                end
  end.
Proof.
  intros Hm. unfold SetFaultParams, find_node, node_at.
  destruct (clusters m !! cid) as [c|] eqn:Hc; cbn; [|by eauto].
  destruct (c_Nodes c !! id) as [r|] eqn:Hid; cbn; [|by eauto].
  destruct (ok_ref m Hm cid c id r Hc Hid) as (_ & n & Hn & _). rewrite Hn, lookup_alter_eq, Hn. cbn.
  destruct ns as [call|]; [destruct (call _ w) as [w' e]|]; cbn; (split_and!; [by rewrite Hc; cbn; rewrite Hid; cbn; rewrite lookup_alter_eq, Hn| |done]);
    intros cid' id' Hne; (destruct (clusters m !! cid') as [c'|] eqn:Hc'; cbn; [|done]);
    (destruct (c_Nodes c' !! id') as [r'|] eqn:Hid'; cbn; [|done]);
    rewrite lookup_alter_ne; try done; intros ->;
    destruct (ok_inj m Hm cid c id cid' c' id' r') as [-> ->]; done.
Qed.

(** Setting fault parameters changes the node, and only the node: its fault
    state becomes the given one and its status follows the crash flag, even when
    the call to the node fails; the error is that of the call; an unknown cluster
    or node is an error and changes nothing. *)
Theorem SetFaultParams_spec {W} (ns : fault_session W) cid id params m w :
  manager_ok m →
  let '(w', m', e) := SetFaultParams ns cid id params m w in
  match node_at cid id m with
  | None => w' = w ∧ m' = m ∧ is_Some e
  | Some n =>
      node_at cid id m' = Some (with_fault params (if fs_Crashed params then "crashed" else "active") n) ∧
      (∀ cid' id', (cid', id') ≠ (cid, id) → node_at cid' id' m' = node_at cid' id' m) ∧
      (w', e) = match ns with
                | None => (w, None)
                | Some call => call {| fc_Host := n_Address n; fc_Port := n_Port n; fc_NodeID := id; fc_Params := params |} w
                end
  end.
Proof. apply SetFaultParams_node. Qed.

Definition one_node : Manager := (@RegisterNode canonical_order 0 "c1" "n1" "localhost" 7001 NewManager).1.

Lemma SetFaultParams_spec_witness :
  n_Status <$> node_at "c1" "n1" (SetFaultParams None "c1" "n1"
    {| fs_Crashed := true; fs_DropRate := f64_zero; fs_DelayMs := 0; fs_Partition := [] |} one_node tt).1.2 = Some "crashed".
Proof.
  pose proof (SetFaultParams_spec (W := unit) None "c1" "n1"
    {| fs_Crashed := true; fs_DropRate := f64_zero; fs_DelayMs := 0; fs_Partition := [] |} one_node tt
    (manager_ok_register (H:=canonical_order) 0 "c1" "n1" "localhost" 7001 NewManager manager_ok_new)) as Hspec.
  destruct Hspec as [Hn _]. apply (f_equal (fmap n_Status)) in Hn. vm_compute in Hn |- *. exact Hn.
Defined.
