(* ===== verification/Metrics.v ===== *)
(** * Metrics (internal/metrics/metrics.go, and the convergence curve)

    Models the snapshots of one key over the nodes of a cluster and what Compute
    reduces them to: the divergence of each snapshot, its peak and area, the
    first agreement of a quorum, the convergence time and how long each node was
    stale.  Durations are int64 nanoseconds. *)

From Stdlib Require Import Sorted.
From S2P Require Import Prelude GoStrings GoSort.

Record NodeState := {
  Exists_ : bool;
  st_Value : string;
  st_Version : Z;
  st_Origin : string;
  HasMetadata : bool;
}.

#[export] Instance NodeState_eq_dec : EqDecision NodeState.
Proof. solve_decision. Defined.
#[export] Instance NodeState_countable : Countable NodeState.
Proof.
  refine (inj_countable' (λ s, (Exists_ s, st_Value s, st_Version s, st_Origin s, HasMetadata s))
    (λ '(e, v, n, o, h), {| Exists_ := e; st_Value := v; st_Version := n; st_Origin := o; HasMetadata := h |}) _).
  by intros [].
Defined.

Definition zeroState : NodeState :=
  {| Exists_ := false; st_Value := EmptyString; st_Version := 0; st_Origin := EmptyString; HasMetadata := false |}.

Record Snapshot := { sn_Time : Z; sn_Nodes : gmap string NodeState }.

Record TimelineEvent := {
  te_Time : Z;
  te_NodeID : string;
  te_Key : string;
  te_Value : string;
  te_Version : Z;
  te_Origin : string;
  te_Source : string;
  te_EventType : string;
  te_Round : Z;
  te_LWWTimestamp : Z;
}.

Record DivergencePoint := { dp_Time : Z; dp_Divergence : Z }.

Record Result := {
  ConvergenceTime : option Z;
  FirstAgreementTime : option Z;
  FinalConsistent : bool;
  PeakDivergence : Z;
  AreaUnderDivergence : Z;
  DivergenceOverTime : list DivergencePoint;
  StaleDurationPerNode : gmap string Z;
  Timeline : list TimelineEvent;
  ConvergenceCurve : list DivergencePoint;
}.

Definition emptyResult : Result :=
  {| ConvergenceTime := None; FirstAgreementTime := None; FinalConsistent := false; PeakDivergence := 0;
     AreaUnderDivergence := 0; DivergenceOverTime := []; StaleDurationPerNode := ∅; Timeline := [];
     ConvergenceCurve := [] |}.

(** ** metrics.go *)

Definition lessState (a b : NodeState) : bool :=
  if negb (bool_decide (st_Value a = st_Value b)) then str_lt (st_Value a) (st_Value b)
  else if negb (st_Version a =? st_Version b) then (st_Version a <? st_Version b)
  else if negb (bool_decide (st_Origin a = st_Origin b)) then str_lt (st_Origin a) (st_Origin b)
  else if negb (Bool.eqb (HasMetadata a) (HasMetadata b)) then negb (HasMetadata a) && HasMetadata b
  else false.

(** The variables of the counting loop: counts, topState, topCount. *)
Definition count_step (acc : gmap NodeState nat * NodeState * nat) (s : NodeState) :
    gmap NodeState nat * NodeState * nat :=
  let '(counts, topState, topCount) := acc in
  let count := S (default 0%nat (counts !! s)) in
  let counts := <[s := count]> counts in
  if bool_decide (topCount < count)%nat || (bool_decide (count = topCount) && lessState s topState)
  then (counts, s, count)
  else (counts, topState, topCount).

Definition mostCommonState `{RangeOrder} (nodes : gmap string NodeState) : NodeState * nat :=
  let '(_, topState, topCount) := foldl count_step (∅, zeroState, 0%nat) (range 150 nodes).*2 in
  (topState, topCount).

Definition allNodesExist (nodes : gmap string NodeState) : bool :=
  bool_decide (nodes ≠ ∅) && bool_decide (map_Forall (λ _ s, Exists_ s = true) nodes).

(** The stale loop of one snapshot: [StaleDurationPerNode[nodeID] += delta]. *)
Definition add_stale (mode : NodeState) (delta : Z) (nodeID : string) (old : option Z) (s : NodeState) : option Z :=
  if bool_decide (s ≠ mode) then Some (wrap_i64 (default 0 old + delta)) else None.

(** One snapshot of the main loop; [next] is the time of the following one. *)
Definition compute_step `{RangeOrder} (snapshot : Snapshot) (next : option Z) (r : Result) : Result :=
  let '(mode, modeCount) := mostCommonState (sn_Nodes snapshot) in
  let n := Z.of_nat (size (sn_Nodes snapshot)) in
  let divergence := n - Z.of_nat modeCount in
  let quorum := n / 2 + 1 in
  let delta := match next with Some t => Z.max 0 (wrap_i64 (t - sn_Time snapshot)) | None => 0 end in
  {| ConvergenceTime :=
       match ConvergenceTime r with
       | Some t => Some t
       | None => if (divergence =? 0) && allNodesExist (sn_Nodes snapshot) then Some (sn_Time snapshot) else None
       end;
     FirstAgreementTime :=
       match FirstAgreementTime r with
       | Some t => Some t
       | None => if (quorum <=? Z.of_nat modeCount) && (0 <? quorum) then Some (sn_Time snapshot) else None
       end;
     FinalConsistent := FinalConsistent r;
     PeakDivergence := if (PeakDivergence r <? divergence) then divergence else PeakDivergence r;
     AreaUnderDivergence :=
       match next with
       | Some _ => wrap_i64 (AreaUnderDivergence r + wrap_i64 (divergence * delta))
       | None => AreaUnderDivergence r
       end;
     DivergenceOverTime := DivergenceOverTime r ++ [{| dp_Time := sn_Time snapshot; dp_Divergence := divergence |}];
     StaleDurationPerNode :=
       match next with
       | Some _ => keyed_loop (add_stale mode delta) (StaleDurationPerNode r) (range 116 (sn_Nodes snapshot))
       | None => StaleDurationPerNode r
       end;
     Timeline := Timeline r;
     ConvergenceCurve := ConvergenceCurve r |}.

Fixpoint compute_loop `{RangeOrder} (ordered : list Snapshot) (r : Result) : Result :=
  match ordered with
  | [] => r
  | s :: rest => compute_loop rest (compute_step s (sn_Time <$> head rest) r)
  end.

Definition set_FinalConsistent (b : bool) (r : Result) : Result :=
  {| ConvergenceTime := ConvergenceTime r; FirstAgreementTime := FirstAgreementTime r; FinalConsistent := b;
     PeakDivergence := PeakDivergence r; AreaUnderDivergence := AreaUnderDivergence r;
     DivergenceOverTime := DivergenceOverTime r; StaleDurationPerNode := StaleDurationPerNode r;
     Timeline := Timeline r; ConvergenceCurve := ConvergenceCurve r |}.

Definition Compute `{RangeOrder} (snapshots : list Snapshot) : Result :=
  let ordered := SliceStable sn_Time snapshots in
  let r := compute_loop ordered emptyResult in
  match last (DivergenceOverTime r), last ordered with
  | Some d, Some s => set_FinalConsistent ((dp_Divergence d =? 0) && allNodesExist (sn_Nodes s)) r
  | _, _ => r
  end.

(** ** session_manager.go: computeConvergenceCurve *)

Definition curveValue (e : TimelineEvent) : string :=
  te_Value e +:+ "|" +:+ te_Origin e +:+ "|" +:+ itoa (te_Version e).

(** The number of distinct values the nodes hold. *)
Definition distinctValues (m : gmap string string) : Z :=
  Z.of_nat (size (map_img (SA:=gset string) m)).

Fixpoint curve_loop (events : list TimelineEvent) (nodeValues : gmap string string) : list DivergencePoint :=
  match events with
  | [] => []
  | e :: rest =>
      let nodeValues := <[te_NodeID e := curveValue e]> nodeValues in
      {| dp_Time := te_Time e; dp_Divergence := distinctValues nodeValues |} :: curve_loop rest nodeValues
  end.

Definition computeConvergenceCurve (events : list TimelineEvent) : list DivergencePoint :=
  curve_loop (SliceStable te_Time events) ∅.

(** ** The most common state *)

Definition count_of (s : NodeState) (l : list NodeState) : nat := length (filter (λ t, t = s) l).

Lemma count_of_snoc s l t : count_of s (l ++ [t]) = (count_of s l + if decide (t = s) then 1 else 0)%nat.
Proof.
  unfold count_of. rewrite filter_app, length_app. f_equal. rewrite filter_cons. by case_decide.
Qed.

Lemma count_of_perm s l l' : l ≡ₚ l' → count_of s l = count_of s l'.
Proof. intros Hp. unfold count_of. by rewrite Hp. Qed.

Lemma count_of_pos s l : (0 < count_of s l)%nat ↔ s ∈ l.
Proof.
  unfold count_of. split.
  - destruct (filter (λ t, t = s) l) as [|t l'] eqn:Hf; [simpl; lia|]. intros _.
    assert (t ∈ filter (λ t, t = s) l) as [-> ?]%list_elem_of_filter by (rewrite Hf; left). done.
  - intros Hs. assert (s ∈ filter (λ t, t = s) l) as Hin by (by apply list_elem_of_filter).
    destruct (filter (λ t, t = s) l); [by apply elem_of_nil in Hin|simpl; lia].
Qed.

Lemma lessState_irrefl a : lessState a a = false.
Proof. unfold lessState. by rewrite !bool_decide_true, Z.eqb_refl, eqb_reflx by done. Qed.

(** The fields [lessState] compares, in order. *)
Definition state_rank_lt (a b : NodeState) : Prop :=
  str_lt (st_Value a) (st_Value b) = true ∨
  st_Value a = st_Value b ∧
  (st_Version a < st_Version b ∨
   st_Version a = st_Version b ∧
   (str_lt (st_Origin a) (st_Origin b) = true ∨
    st_Origin a = st_Origin b ∧ HasMetadata a = false ∧ HasMetadata b = true)).

Lemma str_lt_ne a b : str_lt a b = true → a ≠ b.
Proof. intros H ->. by rewrite str_lt_irrefl in H. Qed.

Lemma lessState_spec a b : lessState a b = true ↔ state_rank_lt a b.
Proof.
  unfold lessState, state_rank_lt. case_bool_decide as Hv; cbn [negb]; [|tauto].
  rewrite Hv, str_lt_irrefl. destruct (Z.eqb_spec (st_Version a) (st_Version b)) as [Hn|Hn]; cbn [negb].
  2: { rewrite Z.ltb_lt. naive_solver. }
  case_bool_decide as Ho; cbn [negb].
  - rewrite Ho, str_lt_irrefl. destruct (HasMetadata a), (HasMetadata b); cbn; naive_solver lia.
  - naive_solver lia.
Qed.

Lemma lessState_trans a b c : lessState a b = true → lessState b c = true → lessState a c = true.
Proof.
  rewrite !lessState_spec. unfold state_rank_lt.
  destruct a as [ea va na oa ha], b as [eb vb nb ob hb], c as [ec vc nc oc hc]; cbn.
  intros [Ha|(-> & [Ha|(-> & [Ha|(-> & -> & ->)])])] [Hb|(Hb & [Hb'|(Hb' & [Hb''|(? & ? & ?)])])];
    subst; eauto 10 using str_lt_trans with lia.
Qed.

(** [lessState] separates the states, except for the [Exists] flag. *)
Lemma lessState_total a b :
  lessState a b = false → lessState b a = false →
  (st_Value a, st_Version a, st_Origin a, HasMetadata a) =
  (st_Value b, st_Version b, st_Origin b, HasMetadata b).
Proof.
  rewrite <-!not_true_iff_false, !lessState_spec. unfold state_rank_lt. intros Hab Hba.
  destruct (decide (st_Value a = st_Value b)) as [Hv|Hv].
  2: { destruct (str_lt_total _ _ Hv); tauto. }
  destruct (decide (st_Version a = st_Version b)) as [Hn|Hn].
  2: { destruct (Z.lt_trichotomy (st_Version a) (st_Version b)) as [?|[?|?]]; naive_solver. }
  destruct (decide (st_Origin a = st_Origin b)) as [Ho|Ho].
  2: { destruct (str_lt_total _ _ Ho); naive_solver. }
  rewrite Hv, Hn, Ho. f_equal. destruct (HasMetadata a), (HasMetadata b); naive_solver.
Qed.

(** What the counting loop computes of the values it has visited: no state
    occurs more than [c] times, [top] occurs [c] times, and no other state that
    does is smaller. *)
Definition is_mode (l : list NodeState) (top : NodeState) (c : nat) : Prop :=
  (∀ s, count_of s l ≤ c)%nat ∧ (l = [] → c = 0%nat) ∧ (l ≠ [] → count_of top l = c) ∧
  (∀ s, s ∈ l → count_of s l = c → lessState s top = false).

Lemma is_mode_perm l l' top c : l ≡ₚ l' → is_mode l top c → is_mode l' top c.
Proof.
  intros Hp (Hmax & Hnil & Htop & Hmin). split_and!.
  - intros s. by rewrite <-(count_of_perm s _ _ Hp).
  - intros ->. apply Hnil. by apply Permutation_nil_r.
  - intros Hl'. rewrite <-(count_of_perm top _ _ Hp). apply Htop. intros ->.
    by apply Permutation_nil_l in Hp.
  - intros s Hs. rewrite <-(count_of_perm s _ _ Hp). apply Hmin. by rewrite Hp.
Qed.

Lemma is_mode_snoc_top l s top c :
  is_mode l top c → (c < S (count_of s l))%nat ∨ S (count_of s l) = c ∧ lessState s top = true →
  is_mode (l ++ [s]) s (S (count_of s l)).
Proof.
  intros (Hmax & _ & _ & Hmin) Hs. split_and!.
  - intros t. rewrite count_of_snoc. specialize (Hmax t). case_decide; [subst|]; lia.
  - by intros [_ ?]%app_nil.
  - intros _. rewrite count_of_snoc, decide_True by done. lia.
  - intros t Ht. rewrite count_of_snoc. case_decide as Hst; [subst; by rewrite lessState_irrefl|].
    rewrite Nat.add_0_r. intros Hk. destruct Hs as [Hlt|[Hk' Hless]]; [specialize (Hmax t); lia|].
    destruct (lessState t s) eqn:Hts; [|done]. apply elem_of_app in Ht as [Ht|Ht%list_elem_of_singleton]; [|done].
    rewrite <-(Hmin t) by (done || congruence). symmetry. by apply (lessState_trans t s top).
Qed.

Lemma is_mode_snoc_same l s top c :
  is_mode l top c → (S (count_of s l) ≤ c)%nat → (S (count_of s l) = c → lessState s top = false) →
  is_mode (l ++ [s]) top c.
Proof.
  intros (Hmax & Hnil & Htop & Hmin) Hle Hs. split_and!.
  - intros t. rewrite count_of_snoc. specialize (Hmax t). case_decide; [subst|]; lia.
  - by intros [_ ?]%app_nil.
  - intros _. rewrite count_of_snoc. destruct l as [|u l']; [rewrite Hnil in Hle by done; lia|].
    rewrite <-Htop in Hle |- * by done. case_decide as Hst; [subst|]; lia.
  - intros t Ht. rewrite count_of_snoc. case_decide as Hst; [subst; intros; apply Hs; lia|].
    rewrite Nat.add_0_r. apply elem_of_app in Ht as [Ht|Ht%list_elem_of_singleton]; [by apply Hmin|done].
Qed.

Lemma count_loop_mode l :
  let '(counts, top, c) := foldl count_step (∅, zeroState, 0%nat) l in
  (∀ s, default 0%nat (counts !! s) = count_of s l) ∧ is_mode l top c.
Proof.
  induction l as [|s l IH] using rev_ind.
  { cbn. split; [intros s; by rewrite lookup_empty|]. split_and!; [done..|]. intros s Hs.
    by apply elem_of_nil in Hs. }
  rewrite foldl_snoc. destruct (foldl count_step _ l) as [[counts top] c]. destruct IH as [Hcounts Hmode].
  unfold count_step at 1. rewrite Hcounts.
  assert (Hins : ∀ t, default 0%nat (<[s:=S (count_of s l)]> counts !! t) = count_of t (l ++ [s])).
  { intros t. rewrite count_of_snoc. destruct (decide (s = t)) as [->|Hst].
    - rewrite lookup_insert_eq. simpl. lia.
    - rewrite lookup_insert_ne, Hcounts by done. lia. }
  destruct (bool_decide _ || _) eqn:Hc.
  - split; [done|]. apply (is_mode_snoc_top _ _ top c); [done|].
    apply orb_true_iff in Hc as [?%bool_decide_eq_true|[?%bool_decide_eq_true ?]%andb_true_iff]; auto.
  - split; [done|]. apply orb_false_iff in Hc as [?%bool_decide_eq_false Hc].
    apply is_mode_snoc_same; [done|lia|]. intros Hk. rewrite bool_decide_true in Hc by done. done.
Qed.

Definition statesOf (nodes : gmap string NodeState) : list NodeState := (map_to_list nodes).*2.

Lemma mostCommonState_is_mode `{RangeOrder} nodes :
  is_mode (statesOf nodes) (mostCommonState nodes).1 (mostCommonState nodes).2.
Proof.
  unfold mostCommonState. pose proof (count_loop_mode (range 150 nodes).*2) as Hl.
  destruct (foldl count_step _ _) as [[counts top] c]. destruct Hl as [_ Hl]. cbn.
  eapply is_mode_perm; [|exact Hl]. unfold statesOf. by rewrite (range_perm 150 nodes).
Qed.

Lemma is_mode_unique l top c top' c' :
  is_mode l top c → is_mode l top' c' → c = c' ∧ (l ≠ [] → lessState top top' = false).
Proof.
  intros (Hmax & Hnil & Htop & Hmin) (Hmax' & Hnil' & Htop' & Hmin').
  destruct (decide (l = [])) as [Hl|Hl]; [by rewrite Hnil, Hnil' by done|].
  specialize (Htop Hl). specialize (Htop' Hl).
  assert (c = c') as ->. { specialize (Hmax top'). specialize (Hmax' top). lia. }
  split; [done|]. intros _. apply Hmin'; [|done]. apply count_of_pos.
  destruct l as [|s l]; [done|]. pose proof (Hmax s) as Hs.
  pose proof (proj2 (count_of_pos s (s :: l)) ltac:(by left)). lia.
Qed.

(** ** The reference metrics *)

(** The largest number of nodes that hold the same state. *)
Definition maxCount (nodes : gmap string NodeState) : nat :=
  foldr Nat.max 0%nat ((λ s, count_of s (statesOf nodes)) <$> statesOf nodes).

Definition divergenceOf (nodes : gmap string NodeState) : Z := Z.of_nat (size nodes) - Z.of_nat (maxCount nodes).

(** Every node holds the key, all in the same state. *)
Definition converged (nodes : gmap string NodeState) : Prop :=
  nodes ≠ ∅ ∧ ∃ s, Exists_ s = true ∧ map_Forall (λ _ t, t = s) nodes.

(** More than half of the nodes are in the same state. *)
Definition majority (nodes : gmap string NodeState) : Prop :=
  ∃ s, (size nodes < 2 * count_of s (statesOf nodes))%nat.

Lemma length_statesOf nodes : length (statesOf nodes) = size nodes.
Proof. unfold statesOf. by rewrite length_fmap, length_map_to_list. Qed.

Lemma elem_of_statesOf nodes s : s ∈ statesOf nodes ↔ ∃ k, nodes !! k = Some s.
Proof.
  unfold statesOf. rewrite list_elem_of_fmap. split.
  - intros ([k t] & -> & Hk%elem_of_map_to_list). by exists k.
  - intros [k Hk%elem_of_map_to_list]. by exists (k, s).
Qed.

Lemma statesOf_nil nodes : statesOf nodes = [] ↔ nodes = ∅.
Proof. by rewrite <-map_size_empty_iff, <-length_statesOf, length_zero_iff_nil. Qed.

Lemma foldr_max_ge {A} (f : A → nat) l x : x ∈ l → (f x ≤ foldr Nat.max 0 (f <$> l))%nat.
Proof. induction 1; rewrite fmap_cons; cbn [foldr]; lia. Qed.

Lemma maxCount_ge s nodes : (count_of s (statesOf nodes) ≤ maxCount nodes)%nat.
Proof.
  destruct (decide (s ∈ statesOf nodes)) as [Hs|Hs].
  - by apply (foldr_max_ge (λ s, count_of s (statesOf nodes))).
  - rewrite <-count_of_pos in Hs. lia.
Qed.

Lemma foldr_max_attained {A} (f : A → nat) l :
  foldr Nat.max 0%nat (f <$> l) = 0%nat ∨ ∃ x, foldr Nat.max 0%nat (f <$> l) = f x.
Proof.
  induction l as [|x l IH]; [by left|]. rewrite fmap_cons; cbn [foldr].
  destruct (Nat.max_dec (f x) (foldr Nat.max 0%nat (f <$> l))) as [->| ->]; [by right; exists x|done].
Qed.

Lemma maxCount_attained nodes : maxCount nodes = 0%nat ∨ ∃ s, maxCount nodes = count_of s (statesOf nodes).
Proof. apply (foldr_max_attained (λ s, count_of s (statesOf nodes))). Qed.

Lemma modeCount_max `{RangeOrder} nodes : (mostCommonState nodes).2 = maxCount nodes.
Proof.
  destruct (mostCommonState_is_mode nodes) as (Hmax & Hnil & Htop & _).
  apply Nat.le_antisymm.
  - destruct (decide (statesOf nodes = [])) as [Hn|Hn]; [rewrite Hnil by done; lia|].
    rewrite <-Htop by done. apply maxCount_ge.
  - destruct (maxCount_attained nodes) as [->|[s ->]]; [lia|apply Hmax].
Qed.

Lemma count_of_le s l : (count_of s l ≤ length l)%nat.
Proof. apply length_filter. Qed.

Lemma count_of_all s l : count_of s l = length l ↔ Forall (λ t, t = s) l.
Proof.
  induction l as [|t l IH]; [done|]. unfold count_of. rewrite filter_cons, Forall_cons.
  pose proof (count_of_le s l). unfold count_of in *. case_decide; cbn; [rewrite <-IH|]; split; intuition lia.
Qed.

Lemma maxCount_le nodes : (maxCount nodes ≤ size nodes)%nat.
Proof.
  destruct (maxCount_attained nodes) as [->|[s ->]]; [lia|]. rewrite <-length_statesOf. apply count_of_le.
Qed.

Lemma divergence_converged nodes :
  (divergenceOf nodes =? 0) && allNodesExist nodes = true ↔ converged nodes.
Proof.
  unfold divergenceOf, allNodesExist, converged.
  rewrite !andb_true_iff, Z.eqb_eq, !bool_decide_eq_true. split.
  - intros (Hd & Hne & Hall). split; [done|].
    destruct (maxCount_attained nodes) as [H0|[s Hs]].
    { destruct Hne. apply map_size_empty_inv. lia. }
    assert (Forall (λ t, t = s) (statesOf nodes)) as Hf.
    { apply count_of_all. rewrite length_statesOf. lia. }
    assert (map_Forall (λ _ t, t = s) nodes) as Hm.
    { intros k t Hk. rewrite Forall_forall in Hf. apply Hf, elem_of_statesOf. eauto. }
    exists s. split; [|done]. apply map_choose in Hne as (k & t & Hk).
    rewrite <-(Hm k t Hk). by apply (Hall k).
  - intros (Hne & s & Hex & Hall). split; [|split; [done|]].
    + pose proof (maxCount_ge s nodes). pose proof (maxCount_le nodes).
      assert (count_of s (statesOf nodes) = size nodes); [|lia].
      rewrite <-length_statesOf. apply count_of_all, Forall_forall.
      intros t [k Hk]%elem_of_statesOf. by apply (Hall k).
    + intros k t Hk. by rewrite (Hall k t Hk).
Qed.

Lemma majority_spec nodes :
  (Z.of_nat (size nodes) / 2 + 1 <=? Z.of_nat (maxCount nodes)) && (0 <? Z.of_nat (size nodes) / 2 + 1) = true ↔
  majority nodes.
Proof.
  unfold majority. rewrite andb_true_iff, Z.leb_le, Z.ltb_lt. split.
  - intros [Hq _]. destruct (maxCount_attained nodes) as [H0|[s Hs]]; Z.to_euclidean_division_equations; [lia|]. exists s. lia.
  - intros [s Hs]. pose proof (maxCount_ge s nodes). Z.to_euclidean_division_equations. lia.
Qed.

(** ** The main loop *)

Definition conv_b (nodes : gmap string NodeState) : bool := (divergenceOf nodes =? 0) && allNodesExist nodes.

Definition maj_b (nodes : gmap string NodeState) : bool :=
  let quorum := Z.of_nat (size nodes) / 2 + 1 in
  (quorum <=? Z.of_nat (maxCount nodes)) && (0 <? quorum).

Definition divergencePoint (s : Snapshot) : DivergencePoint :=
  {| dp_Time := sn_Time s; dp_Divergence := divergenceOf (sn_Nodes s) |}.

Lemma divergence_nonneg nodes : 0 ≤ divergenceOf nodes.
Proof. unfold divergenceOf. pose proof (maxCount_le nodes). lia. Qed.

(** A time that is recorded once, at the first snapshot that satisfies [P]. *)
Definition first_time (P : gmap string NodeState → bool) (o : list Snapshot) (old : option Z) : option Z :=
  match old with Some t => Some t | None => sn_Time <$> List.find (λ s, P (sn_Nodes s)) o end.

Lemma first_time_cons P s o old :
  first_time P o (match old with
    | Some t => Some t | None => if P (sn_Nodes s) then Some (sn_Time s) else None end) =
  first_time P (s :: o) old.
Proof. unfold first_time. destruct old; [done|]. cbn. by destruct (P (sn_Nodes s)). Qed.

Lemma compute_step_fields `{RangeOrder} s next r :
  let r' := compute_step s next r in
  ConvergenceTime r' = match ConvergenceTime r with
    | Some t => Some t | None => if conv_b (sn_Nodes s) then Some (sn_Time s) else None end ∧
  FirstAgreementTime r' = match FirstAgreementTime r with
    | Some t => Some t | None => if maj_b (sn_Nodes s) then Some (sn_Time s) else None end ∧
  PeakDivergence r' = Z.max (PeakDivergence r) (divergenceOf (sn_Nodes s)) ∧
  DivergenceOverTime r' = DivergenceOverTime r ++ [divergencePoint s] ∧
  FinalConsistent r' = FinalConsistent r.
Proof.
  unfold compute_step. pose proof (modeCount_max (sn_Nodes s)) as Hm.
  destruct (mostCommonState (sn_Nodes s)) as [mode c]. cbn in Hm. subst c. cbn.
  split_and!; [done|done| |done|done]. unfold divergenceOf. case_match; lia.
Qed.

Lemma compute_loop_fields `{RangeOrder} o r :
  let r' := compute_loop o r in
  ConvergenceTime r' = first_time conv_b o (ConvergenceTime r) ∧
  FirstAgreementTime r' = first_time maj_b o (FirstAgreementTime r) ∧
  PeakDivergence r' = foldl Z.max (PeakDivergence r) (dp_Divergence ∘ divergencePoint <$> o) ∧
  DivergenceOverTime r' = DivergenceOverTime r ++ (divergencePoint <$> o) ∧
  FinalConsistent r' = FinalConsistent r.
Proof.
  revert r; induction o as [|s o IH]; intros r; cbn [compute_loop].
  { unfold first_time. cbn. rewrite app_nil_r. split_and!; [by destruct (ConvergenceTime r)|
      by destruct (FirstAgreementTime r)|done..]. }
  destruct (compute_step_fields s (sn_Time <$> head o) r) as (Hc & Hf & Hp & Hd & Hfin).
  destruct (IH (compute_step s (sn_Time <$> head o) r)) as (-> & -> & -> & -> & ->).
  rewrite Hc, Hf, Hp, Hd, Hfin, !first_time_cons, <-app_assoc. by split_and!.
Qed.

Lemma find_first_time (P : Snapshot → bool) o t :
  StronglySorted (by_key sn_Time) o →
  sn_Time <$> List.find P o = Some t ↔
  (∃ x, x ∈ o ∧ P x = true ∧ sn_Time x = t) ∧ ∀ x, x ∈ o → P x = true → t ≤ sn_Time x.
Proof.
  induction 1 as [|x o Ho IH Hx]; cbn [List.find].
  { split; [done|]. intros [(x & Hx%elem_of_nil & _) _]. done. }
  destruct (P x) eqn:HP; [change (sn_Time <$> Some x) with (Some (sn_Time x))|].
  - rewrite Forall_forall in Hx. split.
    + intros [= <-]. split; [exists x; split; [by left|done]|].
      intros y [->|Hy]%elem_of_cons _; [lia|by apply Hx].
    + intros [(y & Hy & HPy & <-) Hmin]. f_equal. apply Z.le_antisymm; [|by apply Hmin; [left|]].
      apply elem_of_cons in Hy as [->|Hy]; [lia|by apply Hx].
  - rewrite IH. split; intros [(y & Hy & HPy & Ht) Hmin].
    + split; [exists y; split; [by right|done]|]. intros z [->|Hz]%elem_of_cons HPz; [congruence|eauto].
    + apply elem_of_cons in Hy as [->|Hy]; [congruence|]. split; [by exists y|].
      intros z Hz. apply Hmin. by right.
Qed.

Lemma foldl_max_spec l a :
  a ≤ foldl Z.max a l ∧ (∀ x, x ∈ l → x ≤ foldl Z.max a l) ∧ (foldl Z.max a l = a ∨ foldl Z.max a l ∈ l).
Proof.
  revert a; induction l as [|y l IH]; intros a; cbn [foldl].
  { split; [lia|]. split; [by intros x ?%elem_of_nil|by left]. }
  destruct (IH (Z.max a y)) as (Ha & Hl & Hin). split; [lia|]. split.
  - intros x [->|Hx]%elem_of_cons; [lia|by apply Hl].
  - destruct Hin as [->|Hin]; [|right; by right]. destruct (Z.max_spec a y) as [[_ ->]|[_ ->]]; [right; left|by left].
Qed.

(** ** Staleness *)

(** The stale time of the whole cluster. *)
Definition totalStale (m : gmap string Z) : Z := foldr Z.add 0 (map_to_list m).*2.

Lemma sum_perm l l' : l ≡ₚ l' → foldr Z.add 0 l = foldr Z.add 0 l'.
Proof. induction 1; cbn [foldr]; lia. Qed.

Lemma totalStale_insert k v m : totalStale (<[k := v]> m) = totalStale m - default 0 (m !! k) + v.
Proof.
  assert (Hfresh : ∀ m' : gmap string Z, m' !! k = None → ∀ w, totalStale (<[k := w]> m') = w + totalStale m').
  { intros m' Hk w. unfold totalStale. by rewrite (sum_perm _ _ (fmap_Permutation snd _ _ (map_to_list_insert m' k w Hk))). }
  destruct (m !! k) as [w|] eqn:Hk; cbn [default from_option].
  - rewrite <-(insert_id m k w Hk) at 2. rewrite <-(insert_delete_eq m k v), <-(insert_delete_eq m k w).
    rewrite !Hfresh by apply lookup_delete_eq. unfold id. lia.
  - rewrite Hfresh by done. unfold id. lia.
Qed.

Lemma wrap_i64_congr_l a a' b : wrap_i64 a = wrap_i64 a' → wrap_i64 (a + b) = wrap_i64 (a' + b).
Proof. intros Ha. by rewrite <-wrap_i64_add, Ha, wrap_i64_add. Qed.

Definition others (mode : NodeState) (l : list NodeState) : nat := (length l - count_of mode l)%nat.

Lemma others_cons mode s l : others mode (s :: l) = ((if decide (s = mode) then 0 else 1) + others mode l)%nat.
Proof.
  unfold others. pose proof (count_of_le mode l) as Hle. unfold count_of in *. rewrite filter_cons.
  cbn [length]. repeat case_decide; try done; cbn [length]; lia.
Qed.

Lemma stale_step_total mode delta m k s :
  wrap_i64 (totalStale (keyed_step (add_stale mode delta) m (k, s))) =
  wrap_i64 (totalStale m + (if decide (s = mode) then 0 else delta)).
Proof.
  unfold keyed_step, add_stale; cbn [fst snd]. case_bool_decide as Hs.
  - rewrite decide_False, totalStale_insert, wrap_i64_add_r by done. f_equal. lia.
  - rewrite decide_True by (by destruct (decide (s = mode))). by rewrite Z.add_0_r.
Qed.

Lemma stale_loop_total mode delta m l :
  wrap_i64 (totalStale (keyed_loop (add_stale mode delta) m l)) =
  wrap_i64 (totalStale m + Z.of_nat (others mode l.*2) * delta).
Proof.
  revert m; induction l as [|[k s] l IH]; intros m; [cbn; f_equal; lia|].
  change (keyed_loop (add_stale mode delta) m ((k, s) :: l)) with
    (keyed_loop (add_stale mode delta) (keyed_step (add_stale mode delta) m (k, s)) l).
  rewrite IH, (wrap_i64_congr_l _ _ _ (stale_step_total _ _ _ _ _)). f_equal.
  rewrite fmap_cons, others_cons; cbn [snd]. case_decide; lia.
Qed.

Lemma others_divergence `{RangeOrder} nodes n :
  Z.of_nat (others (mostCommonState nodes).1 (range n nodes).*2) = divergenceOf nodes.
Proof.
  unfold divergenceOf. rewrite <-modeCount_max. pose proof (mostCommonState_is_mode nodes) as (_ & Hnil & Htop & _).
  assert ((range n nodes).*2 ≡ₚ statesOf nodes) as Hp by (unfold statesOf; by rewrite (range_perm n nodes)).
  unfold others. rewrite (count_of_perm _ _ _ Hp), Hp, length_statesOf.
  pose proof (count_of_le (mostCommonState nodes).1 (statesOf nodes)) as Hle. rewrite length_statesOf in Hle.
  destruct (decide (statesOf nodes = [])) as [Hn|Hn]; [|rewrite <-(Htop Hn) in *; lia].
  rewrite Hnil by done. apply statesOf_nil in Hn as ->. done.
Qed.

Lemma compute_step_area `{RangeOrder} s next r :
  AreaUnderDivergence r = wrap_i64 (totalStale (StaleDurationPerNode r)) →
  AreaUnderDivergence (compute_step s next r) = wrap_i64 (totalStale (StaleDurationPerNode (compute_step s next r))).
Proof.
  intros Hr. unfold compute_step. pose proof (others_divergence (sn_Nodes s) 116) as Ho.
  pose proof (modeCount_max (sn_Nodes s)) as Hm.
  destruct (mostCommonState (sn_Nodes s)) as [mode c]. cbn in Ho, Hm. subst c. cbn.
  destruct next as [t|]; [|done]. rewrite stale_loop_total, Ho, wrap_i64_add_r, Hr, wrap_i64_add. done.
Qed.

Lemma compute_loop_area `{RangeOrder} o r :
  AreaUnderDivergence r = wrap_i64 (totalStale (StaleDurationPerNode r)) →
  AreaUnderDivergence (compute_loop o r) = wrap_i64 (totalStale (StaleDurationPerNode (compute_loop o r))).
Proof. revert r; induction o; intros r Hr; cbn [compute_loop]; auto using compute_step_area. Qed.

Lemma Compute_unfold `{RangeOrder} l :
  let o := SliceStable sn_Time l in
  Compute l = match last o with
    | Some s => set_FinalConsistent (conv_b (sn_Nodes s)) (compute_loop o emptyResult)
    | None => emptyResult
    end.
Proof.
  cbn. unfold Compute. destruct (compute_loop_fields (SliceStable sn_Time l) emptyResult) as (_ & _ & _ & -> & _).
  cbn [DivergenceOverTime emptyResult app]. rewrite fmap_last.
  destruct (last (SliceStable sn_Time l)) as [s|] eqn:Hl; [done|]. by apply last_None in Hl as ->.
Qed.

Lemma Compute_empty `{RangeOrder} : Compute [] = emptyResult.
Proof. done. Qed.

Lemma Compute_fields `{RangeOrder} l :
  let o := SliceStable sn_Time l in
  ConvergenceTime (Compute l) = sn_Time <$> List.find (λ s, conv_b (sn_Nodes s)) o ∧
  FirstAgreementTime (Compute l) = sn_Time <$> List.find (λ s, maj_b (sn_Nodes s)) o ∧
  PeakDivergence (Compute l) = foldl Z.max 0 (dp_Divergence ∘ divergencePoint <$> o) ∧
  DivergenceOverTime (Compute l) = divergencePoint <$> o ∧
  FinalConsistent (Compute l) = match last o with Some s => conv_b (sn_Nodes s) | None => false end.
Proof.
  cbn. rewrite Compute_unfold. destruct (compute_loop_fields (SliceStable sn_Time l) emptyResult)
    as (Hc & Hf & Hp & Hd & Hfin).
  destruct (last (SliceStable sn_Time l)) as [s|] eqn:Hl; [by split_and!|]. by apply last_None in Hl as ->.
Qed.

Lemma find_time_spec (P : gmap string NodeState → bool) (Q : gmap string NodeState → Prop) l t :
  (∀ nodes, P nodes = true ↔ Q nodes) →
  sn_Time <$> List.find (λ s, P (sn_Nodes s)) (SliceStable sn_Time l) = Some t ↔
  (∃ s, s ∈ l ∧ Q (sn_Nodes s) ∧ sn_Time s = t) ∧ ∀ s, s ∈ l → Q (sn_Nodes s) → t ≤ sn_Time s.
Proof.
  intros HPQ. rewrite find_first_time by apply SliceStable_sorted.
  setoid_rewrite elem_of_SliceStable. by setoid_rewrite HPQ.
Qed.

Lemma converged_majority nodes : converged nodes → majority nodes.
Proof.
  intros Hc. apply divergence_converged in Hc as Hd. apply andb_true_iff in Hd as [Hd _].
  destruct Hc as [Hne _]. unfold divergenceOf in Hd.
  assert (size nodes ≠ 0%nat) by (by intros ?%map_size_empty_inv).
  destruct (maxCount_attained nodes) as [H0|[s Hs]]; [lia|]. exists s. lia.
Qed.

Lemma last_latest {A} (key : A → Z) l x :
  last (SliceStable key l) = Some x → x ∈ l ∧ ∀ y, y ∈ l → key y ≤ key x.
Proof.
  intros Hx. split; [by apply (elem_of_SliceStable key), last_Some_elem_of|].
  intros y Hy. rewrite <-(elem_of_SliceStable key) in Hy.
  apply last_Some in Hx as [o Ho]. pose proof (SliceStable_sorted key l) as Hs. rewrite Ho in *.
  clear l Ho. induction o as [|z o IH]; cbn in *.
  - apply list_elem_of_singleton in Hy as ->. lia.
  - apply StronglySorted_inv in Hs as [Hs Hz]. rewrite Forall_forall in Hz.
    apply elem_of_cons in Hy as [->|Hy]; [|by apply IH].
    apply Hz, elem_of_app. right. by left.
Qed.


Lemma FinalConsistent_snoc `{RangeOrder} l s :
  Forall (λ s', sn_Time s' ≤ sn_Time s) l → converged (sn_Nodes s) → FinalConsistent (Compute (l ++ [s])) = true.
Proof.
  intros Hl Hc. destruct (Compute_fields (l ++ [s])) as (_ & _ & _ & _ & ->).
  rewrite last_SliceStable_snoc by done. by apply divergence_converged.
Qed.

(** ** Properties *)

(** [mostCommonState] finds a state that the largest number of nodes hold,
    its count does not depend on the order in which the map is visited, and
    neither does the state itself, up to the [Exists] flag, which the
    tie-breaking comparison [lessState] does not look at. *)
Theorem mostCommonState_spec (E E' : RangeOrder) nodes :
  let '(s, n) := @mostCommonState E nodes in
  let '(s', n') := @mostCommonState E' nodes in
  n = maxCount nodes ∧ n' = n ∧
  (nodes = ∅ ∧ s = zeroState ∨ count_of s (statesOf nodes) = n ∧ s ∈ statesOf nodes) ∧
  (st_Value s, st_Version s, st_Origin s, HasMetadata s) =
  (st_Value s', st_Version s', st_Origin s', HasMetadata s').
Proof.
  pose proof (@mostCommonState_is_mode E nodes) as Hm. pose proof (@mostCommonState_is_mode E' nodes) as Hm'.
  pose proof (@modeCount_max E nodes) as Hc. pose proof (@modeCount_max E' nodes) as Hc'.
  destruct (decide (nodes = ∅)) as [->|Hne]; [cbn; unfold mostCommonState|].
  { assert (∀ E, @range E NodeState 150 ∅ = []) as Hr.
    { intros E0. apply length_zero_iff_nil. by rewrite length_range, map_size_empty. }
    rewrite !Hr. cbn. split_and!; auto. }
  destruct (@mostCommonState E nodes) as [s n], (@mostCommonState E' nodes) as [s' n']. cbn in *.
  rewrite <-statesOf_nil in Hne.
  split_and!; [done|congruence| |].
  - right. assert (count_of s (statesOf nodes) = n) as Hn by (by apply Hm). split; [done|].
    apply count_of_pos. rewrite Hn. destruct (statesOf nodes) as [|t ts] eqn:Ht; [done|].
    pose proof (proj1 Hm t) as Hle. pose proof (proj2 (count_of_pos t (t :: ts)) ltac:(by left)). lia.
  - apply lessState_total; [by apply (is_mode_unique _ _ _ _ _ Hm Hm')|by apply (is_mode_unique _ _ _ _ _ Hm' Hm)].
Qed.

(** C12: [Compute] meets the definitions of its metrics, whatever the order of
    the snapshots and of the maps: the convergence time is the earliest time at
    which there is a node and all nodes hold the key in one state; the first
    agreement is the earliest at which more than half of the nodes are in one
    state, and not to have the key is such a state, so a snapshot in which no node
    has it counts; a converged last snapshot makes the run consistent; the
    divergence series is one point per snapshot in time order and the peak is its
    largest value; hence a consistent run has a convergence time, and a run that
    converges has agreed no later. *)
Theorem Compute_spec `{RangeOrder} l :
  let r := Compute l in
  (∀ t, ConvergenceTime r = Some t ↔
     (∃ s, s ∈ l ∧ converged (sn_Nodes s) ∧ sn_Time s = t) ∧
     ∀ s, s ∈ l → converged (sn_Nodes s) → t ≤ sn_Time s) ∧
  (∀ t, FirstAgreementTime r = Some t ↔
     (∃ s, s ∈ l ∧ majority (sn_Nodes s) ∧ sn_Time s = t) ∧
     ∀ s, s ∈ l → majority (sn_Nodes s) → t ≤ sn_Time s) ∧
  (FinalConsistent r = true ↔ ∃ s, last (SliceStable sn_Time l) = Some s ∧ converged (sn_Nodes s)) ∧
  (FinalConsistent r = true → ∃ t, ConvergenceTime r = Some t) ∧
  (∀ t, ConvergenceTime r = Some t → ∃ t', FirstAgreementTime r = Some t' ∧ t' ≤ t) ∧
  DivergenceOverTime r = divergencePoint <$> SliceStable sn_Time l ∧
  (∀ s, s ∈ l → divergenceOf (sn_Nodes s) ≤ PeakDivergence r) ∧
  (PeakDivergence r = 0 ∨ ∃ s, s ∈ l ∧ divergenceOf (sn_Nodes s) = PeakDivergence r).
Proof.
  cbn. destruct (Compute_fields l) as (Hc & Hf & Hp & Hd & Hfin).
  assert (Hconv : ∀ t, ConvergenceTime (Compute l) = Some t ↔
     (∃ s, s ∈ l ∧ converged (sn_Nodes s) ∧ sn_Time s = t) ∧
     ∀ s, s ∈ l → converged (sn_Nodes s) → t ≤ sn_Time s).
  { intros t. rewrite Hc. apply find_time_spec, divergence_converged. }
  assert (Hagree : ∀ t, FirstAgreementTime (Compute l) = Some t ↔
     (∃ s, s ∈ l ∧ majority (sn_Nodes s) ∧ sn_Time s = t) ∧
     ∀ s, s ∈ l → majority (sn_Nodes s) → t ≤ sn_Time s).
  { intros t. rewrite Hf. apply find_time_spec, majority_spec. }
  assert (Hlast : FinalConsistent (Compute l) = true ↔
     ∃ s, last (SliceStable sn_Time l) = Some s ∧ converged (sn_Nodes s)).
  { rewrite Hfin. setoid_rewrite <-divergence_converged.
    destruct (last _) as [s|]; [|naive_solver]. fold (conv_b (sn_Nodes s)). naive_solver. }
  assert (Hfound : ∀ (P : gmap string NodeState → bool) s, s ∈ l → P (sn_Nodes s) = true →
    ∃ t, sn_Time <$> List.find (λ s, P (sn_Nodes s)) (SliceStable sn_Time l) = Some t).
  { intros P s Hs HP. destruct (List.find (λ s, P (sn_Nodes s)) _) as [u|] eqn:Hu; [exists (sn_Time u); reflexivity|].
    rewrite <-(elem_of_SliceStable sn_Time), list_elem_of_In in Hs.
    by rewrite (find_none _ _ Hu s Hs) in HP. }
  split_and!; [done|done|done| | |done| |].
  - intros (s & Hs & Hcv)%Hlast. apply last_latest in Hs as [Hs _]. rewrite Hc.
    by apply (Hfound conv_b s Hs), divergence_converged.
  - intros t Ht. apply Hconv in Ht as [(s & Hs & Hcv & <-) _].
    apply converged_majority in Hcv as Hmaj. destruct (Hfound maj_b s Hs) as [t' Ht'].
    { by apply majority_spec. }
    exists t'. rewrite Hf. split; [done|]. rewrite <-Hf in Ht'. apply Hagree in Ht' as [_ Hmin]. auto.
  - intros s Hs. rewrite Hp. apply (foldl_max_spec _ 0), list_elem_of_fmap. exists s.
    by rewrite elem_of_SliceStable.
  - rewrite Hp. destruct (foldl_max_spec (dp_Divergence ∘ divergencePoint <$> SliceStable sn_Time l) 0)
      as (_ & _ & [->|(s & -> & Hs)%list_elem_of_fmap]); [by left|].
    right. exists s. by rewrite elem_of_SliceStable in Hs.
Qed.

(** The area under the divergence curve is the stale time of the nodes,
    added up: both integrate the same divergence over the same intervals, so
    they agree (modulo 2^64, the arithmetic of a Duration). *)
Theorem area_is_total_stale `{RangeOrder} l :
  AreaUnderDivergence (Compute l) = wrap_i64 (totalStale (StaleDurationPerNode (Compute l))).
Proof.
  rewrite Compute_unfold. pose proof (compute_loop_area (SliceStable sn_Time l) emptyResult eq_refl) as Ha.
  by destruct (last (SliceStable sn_Time l)).
Qed.

(** Each point of the convergence curve counts the distinct last values of the
    nodes after the events up to that point. *)
Lemma curve_loop_lookup events m i :
  curve_loop events m !! i =
  (λ e, {| dp_Time := te_Time e;
           dp_Divergence := distinctValues
             (foldl (λ m e, <[te_NodeID e := curveValue e]> m) m (take (S i) events)) |}) <$> events !! i.
Proof.
  revert m i; induction events as [|e events IH]; intros m [|i]; try done. apply (IH _ i).
Qed.

Lemma length_curve events : length (computeConvergenceCurve events) = length events.
Proof.
  unfold computeConvergenceCurve. rewrite <-(SliceStable_perm te_Time events) at 2.
  generalize (∅ : gmap string string).
  induction (SliceStable te_Time events) as [|e l IH]; intros m; cbn; [done|]. by rewrite IH.
Qed.
