(* ===== verification/Sessions.v ===== *)
(** * Metrics sessions (internal/metrics/session_manager.go)

    Models the sessions of each cluster: starting and stopping, tracked keys,
    recorded snapshots and timeline events, the read-only views and the results
    computed from them.  Every method holds the manager's lock, so each one is
    one step on the map of histories.  Times are nanoseconds. *)

From S2P Require Import Prelude GoStrings GoSort Metrics.

Record SessionStats := {
  TotalRPCs : Z;
  TotalWrites : Z;
  RecentKeys : list string;
}.

Definition zeroStats : SessionStats := {| TotalRPCs := 0; TotalWrites := 0; RecentKeys := [] |}.

Record Session := {
  ClusterID : string;
  StartedAt : Z;
  StoppedAt : option Z;
  trackedKeys : gset string;
  snapshots : gmap string (list Snapshot);
  timeline : gmap string (list TimelineEvent);
  Stats : SessionStats;
}.

Record SessionSnapshot := {
  ss_ClusterID : string;
  ss_StartedAt : Z;
  ss_StoppedAt : option Z;
  ss_TrackedKeys : list string;
  ss_Stats : SessionStats;
}.

(** The [sessions] map of a SessionManager, the histories oldest first. *)
Definition SessionManager : Type := gmap string (list Session).

Definition NewSessionManager : SessionManager := ∅.

Definition history (m : SessionManager) (clusterID : string) : list Session := default [] (m !! clusterID).

(** [a.Sub(b)], saturating at the bounds of a Duration. *)
Definition time_Sub (a b : Z) : Z := Z.max (- two63) (Z.min (two63 - 1) (a - b)).

(** The time of an observation within a session. *)
Definition session_time (observedAt : Z) (s : Session) : Z := Z.max 0 (time_Sub observedAt (StartedAt s)).

Definition no_session (clusterID : string) : error := Errorf "no metrics session for cluster %q" [AStr clusterID].
Definition session_stopped (clusterID : string) : error :=
  Errorf "metrics session is stopped for cluster %q" [AStr clusterID].

Definition newSession (clusterID : string) (now : Z) : Session :=
  {| ClusterID := clusterID; StartedAt := now; StoppedAt := None; trackedKeys := ∅; snapshots := ∅;
     timeline := ∅; Stats := zeroStats |}.

Definition Start (clusterID : string) (now : Z) (m : SessionManager) : result SessionManager :=
  let clusterID := TrimSpace clusterID in
  if bool_decide (clusterID = EmptyString) then Err (Errorf "cluster id is required" []) else
  let history := history m clusterID in
  match last history with
  | Some (Build_Session _ _ None _ _ _ _) =>
      Err (Errorf "metrics session already active for cluster %q" [AStr clusterID])
  | _ =>
      let history := if bool_decide (50 ≤ length history)%nat then tail history else history in
      Ok (<[clusterID := history ++ [newSession clusterID now]]> m)
  end.

(** Replaces the last session of a history. *)
Definition update_last (f : Session → Session) (h : list Session) : list Session :=
  match last h with
  | Some s => removelast h ++ [f s]
  | None => []
  end.

Definition on_last (f : Session → Session) (clusterID : string) (m : SessionManager) : SessionManager :=
  <[clusterID := update_last f (history m clusterID)]> m.

Definition with_stopped (now : Z) (s : Session) : Session :=
  {| ClusterID := ClusterID s; StartedAt := StartedAt s; StoppedAt := Some now; trackedKeys := trackedKeys s;
     snapshots := snapshots s; timeline := timeline s; Stats := Stats s |}.

Definition Stop (clusterID : string) (now : Z) (m : SessionManager) : result SessionManager :=
  let clusterID := TrimSpace clusterID in
  if bool_decide (clusterID = EmptyString) then Err (Errorf "cluster id is required" []) else
  match last (history m clusterID) with
  | None => Err (no_session clusterID)
  | Some s =>
      match StoppedAt s with
      | Some _ => Err (Errorf "metrics session already stopped for cluster %q" [AStr clusterID])
      | None => Ok (on_last (with_stopped now) clusterID m)
      end
  end.

Definition with_stats (stats : SessionStats) (s : Session) : Session :=
  {| ClusterID := ClusterID s; StartedAt := StartedAt s; StoppedAt := StoppedAt s; trackedKeys := trackedKeys s;
     snapshots := snapshots s; timeline := timeline s; Stats := stats |}.

Definition UpdateSessionStats (clusterID : string) (stats : SessionStats) (m : SessionManager) : SessionManager :=
  match last (history m clusterID) with
  | Some _ => on_last (with_stats stats) clusterID m
  | None => m
  end.

Definition IsActive (clusterID : string) (m : SessionManager) : bool :=
  match last (history m (TrimSpace clusterID)) with
  | Some s => bool_decide (StoppedAt s = None)
  | None => false
  end.

(** The active session of a cluster, with the errors of the methods that need
    one; [clusterID] is already trimmed. *)
Definition active_session (clusterID : string) (m : SessionManager) : result Session :=
  match last (history m clusterID) with
  | None => Err (no_session clusterID)
  | Some s => match StoppedAt s with Some _ => Err (session_stopped clusterID) | None => Ok s end
  end.

Definition with_recorded (keys : gset string) (snaps : gmap string (list Snapshot))
    (tl : gmap string (list TimelineEvent)) (s : Session) : Session :=
  {| ClusterID := ClusterID s; StartedAt := StartedAt s; StoppedAt := StoppedAt s; trackedKeys := keys;
     snapshots := snaps; timeline := tl; Stats := Stats s |}.

(** [if _, exists := m[key]; !exists { m[key] = [] }] *)
Definition ensure {A} (key : string) (m : gmap string (list A)) : gmap string (list A) :=
  match m !! key with Some _ => m | None => <[key := []]> m end.

Definition append_at {A} (key : string) (x : A) (m : gmap string (list A)) : gmap string (list A) :=
  <[key := default [] (m !! key) ++ [x]]> m.

Definition track (key : string) (s : Session) : Session :=
  with_recorded (trackedKeys s ∪ {[key]}) (ensure key (snapshots s)) (ensure key (timeline s)) s.

Definition TrackKey (clusterID key : string) (m : SessionManager) : result SessionManager :=
  let clusterID := TrimSpace clusterID in
  let key := TrimSpace key in
  _ ← active_session clusterID m;
  Ok (on_last (track key) clusterID m).

Definition with_time (t : Z) (e : TimelineEvent) : TimelineEvent :=
  {| te_Time := t; te_NodeID := te_NodeID e; te_Key := te_Key e; te_Value := te_Value e;
     te_Version := te_Version e; te_Origin := te_Origin e; te_Source := te_Source e;
     te_EventType := te_EventType e; te_Round := te_Round e; te_LWWTimestamp := te_LWWTimestamp e |}.

Definition add_event (key : string) (observedAt : Z) (event : TimelineEvent) (s : Session) : Session :=
  with_recorded (trackedKeys s ∪ {[key]}) (snapshots s)
    (append_at key (with_time (session_time observedAt s) event) (ensure key (timeline s))) s.

Definition RecordTimelineEvent (clusterID key : string) (observedAt : Z) (event : TimelineEvent)
    (m : SessionManager) : result SessionManager :=
  let clusterID := TrimSpace clusterID in
  let key := TrimSpace key in
  _ ← active_session clusterID m;
  Ok (on_last (add_event key observedAt event) clusterID m).

Definition add_snapshot `{RangeOrder} (key : string) (observedAt : Z) (nodes : gmap string NodeState)
    (s : Session) : Session :=
  with_recorded (trackedKeys s ∪ {[key]})
    (append_at key {| sn_Time := session_time observedAt s;
                      sn_Nodes := copy_loop (λ st, st) (range 216 nodes) |} (ensure key (snapshots s)))
    (timeline s) s.

Definition RecordSnapshot `{RangeOrder} (clusterID key : string) (observedAt : Z) (nodes : gmap string NodeState)
    (m : SessionManager) : result SessionManager :=
  let clusterID := TrimSpace clusterID in
  let key := TrimSpace key in
  _ ← active_session clusterID m;
  Ok (on_last (add_snapshot key observedAt nodes) clusterID m).

(** The read-only copy of a session.  The keys are sorted, so the order in which
    the set is visited does not show. *)
Definition session_snapshot (s : Session) : SessionSnapshot :=
  {| ss_ClusterID := ClusterID s; ss_StartedAt := StartedAt s; ss_StoppedAt := StoppedAt s;
     ss_TrackedKeys := sort_Strings (elements (trackedKeys s)); ss_Stats := Stats s |}.

Definition GetSession (clusterID : string) (m : SessionManager) : result SessionSnapshot :=
  let clusterID := TrimSpace clusterID in
  match last (history m clusterID) with
  | None => Err (no_session clusterID)
  | Some s => Ok (session_snapshot s)
  end.

Definition GetHistory (clusterID : string) (m : SessionManager) : list SessionSnapshot :=
  session_snapshot <$> history m clusterID.

Definition with_timeline (tl : list TimelineEvent) (curve : list DivergencePoint) (r : Result) : Result :=
  {| ConvergenceTime := ConvergenceTime r; FirstAgreementTime := FirstAgreementTime r;
     FinalConsistent := FinalConsistent r; PeakDivergence := PeakDivergence r;
     AreaUnderDivergence := AreaUnderDivergence r; DivergenceOverTime := DivergenceOverTime r;
     StaleDurationPerNode := StaleDurationPerNode r; Timeline := tl; ConvergenceCurve := curve |}.

Definition key_result `{RangeOrder} (s : Session) (key : string) : Result :=
  let tl := default [] (timeline s !! key) in
  with_timeline tl (computeConvergenceCurve tl) (Compute (default [] (snapshots s !! key))).

Definition ComputeKeyResult `{RangeOrder} (clusterID key : string) (m : SessionManager) : result Result :=
  match last (history m clusterID) with
  | None => Err (no_session clusterID)
  | Some s => Ok (key_result s key)
  end.

(** The loop over the keys of the snapshots and of the timeline. *)
Definition session_results `{RangeOrder} (s : Session) : gmap string Result :=
  let allKeys := dom (snapshots s) ∪ dom (timeline s) in
  set_to_map (λ key, (key, key_result s key)) allKeys.

Definition ComputeResultsBySessionID `{RangeOrder} (clusterID : string) (sessionIdx : Z) (m : SessionManager) :
    result (gmap string Result) :=
  if (sessionIdx <? 0) then Err (Errorf "session not found" []) else
  match history m clusterID !! Z.to_nat sessionIdx with
  | None => Err (Errorf "session not found" [])
  | Some s => Ok (session_results s)
  end.

Definition ComputeAllResults `{RangeOrder} (clusterID : string) (m : SessionManager) :
    result (gmap string Result) :=
  match last (history m clusterID) with
  | None => Err (no_session clusterID)
  | Some s => Ok (session_results s)
  end.

(** ** Sequences of calls *)

Inductive session_op :=
  | OpStart (clusterID : string) (now : Z)
  | OpStop (clusterID : string) (now : Z)
  | OpStats (clusterID : string) (stats : SessionStats)
  | OpTrack (clusterID key : string)
  | OpEvent (clusterID key : string) (observedAt : Z) (event : TimelineEvent)
  | OpSnapshot (clusterID key : string) (observedAt : Z) (nodes : gmap string NodeState).

(** A method that fails leaves the manager as it was. *)
Definition or_same {A} (a : A) (r : result A) : A := match r with Ok a' => a' | Err _ => a end.

Definition session_do `{RangeOrder} (m : SessionManager) (op : session_op) : SessionManager :=
  match op with
  | OpStart c now => or_same m (Start c now m)
  | OpStop c now => or_same m (Stop c now m)
  | OpStats c stats => UpdateSessionStats c stats m
  | OpTrack c key => or_same m (TrackKey c key m)
  | OpEvent c key t e => or_same m (RecordTimelineEvent c key t e m)
  | OpSnapshot c key t nodes => or_same m (RecordSnapshot c key t nodes m)
  end.

(** ** Lemmas *)

Definition session_ok (s : Session) : Prop :=
  trackedKeys s = dom (snapshots s) ∪ dom (timeline s) ∧
  map_Forall (λ _ l, Forall (λ sn, 0 ≤ sn_Time sn) l) (snapshots s) ∧
  map_Forall (λ _ l, Forall (λ e, 0 ≤ te_Time e) l) (timeline s).

Definition history_ok (h : list Session) : Prop :=
  (length h ≤ 50)%nat ∧ Forall (λ s, StoppedAt s ≠ None) (removelast h) ∧ Forall session_ok h.

Definition sessions_ok (m : SessionManager) : Prop := map_Forall (λ _ h, history_ok h) m.

Lemma history_ok_lookup m id : sessions_ok m → history_ok (history m id).
Proof.
  intros Hm. unfold history. destruct (m !! id) as [h|] eqn:Hh; [by apply (Hm id)|].
  by repeat constructor; cbn; lia.
Qed.

Lemma last_removelast {A} (h : list A) x : last h = Some x → h = removelast h ++ [x].
Proof.
  intros Hx. apply last_Some in Hx as [l ->]. by rewrite removelast_app, app_nil_r by done.
Qed.

Lemma sessions_ok_on_last m id f s :
  sessions_ok m → last (history m id) = Some s → (session_ok s → session_ok (f s)) → sessions_ok (on_last f id m).
Proof.
  intros Hm Hs Hf. unfold on_last, update_last. rewrite Hs. apply map_Forall_insert_2; [|done].
  destruct (history_ok_lookup m id Hm) as (Hlen & Hst & Hok). apply last_removelast in Hs.
  rewrite Hs in Hlen, Hok. apply Forall_app in Hok as [Hok1 Hok2]. inversion_clear Hok2.
  rewrite length_app in Hlen. split_and!.
  - by rewrite length_app.
  - rewrite removelast_app by done. by rewrite app_nil_r.
  - apply Forall_app; split; [done|]. constructor; [auto|done].
Qed.

Lemma active_session_Ok id m s : active_session id m = Ok s ↔ last (history m id) = Some s ∧ StoppedAt s = None.
Proof. unfold active_session. destruct (last (history m id)) as [s'|]; [|naive_solver]. destruct (StoppedAt s') eqn:?; naive_solver. Qed.

Lemma active_session_spec id m : is_ok (active_session id m) =
  match last (history m id) with Some s => bool_decide (StoppedAt s = None) | None => false end.
Proof.
  unfold active_session. destruct (last (history m id)) as [s|]; [|done].
  destruct (StoppedAt s) eqn:Hs; [by rewrite bool_decide_false|by rewrite bool_decide_true].
Qed.

Lemma session_time_nonneg t s : 0 ≤ session_time t s.
Proof. unfold session_time. lia. Qed.

Lemma dom_ensure {A} key (m : gmap string (list A)) : dom (ensure key m) = dom m ∪ {[key]}.
Proof.
  unfold ensure. destruct (m !! key) eqn:Hk; [|by rewrite dom_insert_L, (comm_L (∪))].
  apply elem_of_dom_2 in Hk. set_solver.
Qed.

Lemma ensure_Forall {A} (P : A → Prop) key (m : gmap string (list A)) :
  map_Forall (λ _ l, Forall P l) m → map_Forall (λ _ l, Forall P l) (ensure key m).
Proof. intros Hm. unfold ensure. destruct (m !! key); [done|]. by apply map_Forall_insert_2. Qed.

Lemma dom_append_at {A} key x (m : gmap string (list A)) : dom (append_at key x m) = dom m ∪ {[key]}.
Proof. unfold append_at. by rewrite dom_insert_L, (comm_L (∪)). Qed.

Lemma append_at_Forall {A} (P : A → Prop) key x (m : gmap string (list A)) :
  P x → map_Forall (λ _ l, Forall P l) m → map_Forall (λ _ l, Forall P l) (append_at key x m).
Proof.
  intros Hx Hm. unfold append_at. apply map_Forall_insert_2; [|done].
  apply Forall_app; split; [|by repeat constructor]. destruct (m !! key) as [l|] eqn:Hk; [by apply (Hm key)|done].
Qed.

Lemma session_ok_track key s : session_ok s → session_ok (track key s).
Proof.
  intros (Hk & Hs & Ht). unfold session_ok; cbn. rewrite !dom_ensure, Hk.
  split_and!; [set_solver|by apply ensure_Forall..].
Qed.

Lemma session_ok_add_event key t e s : session_ok s → session_ok (add_event key t e s).
Proof.
  intros (Hk & Hs & Ht). unfold session_ok; cbn. rewrite dom_append_at, dom_ensure, Hk.
  split_and!; [set_solver|done|]. apply append_at_Forall; [apply session_time_nonneg|by apply ensure_Forall].
Qed.

Lemma session_ok_add_snapshot `{RangeOrder} key t nodes s : session_ok s → session_ok (add_snapshot key t nodes s).
Proof.
  intros (Hk & Hs & Ht). unfold session_ok; cbn. rewrite dom_append_at, dom_ensure, Hk.
  split_and!; [set_solver| |done]. apply append_at_Forall; [apply session_time_nonneg|by apply ensure_Forall].
Qed.

Lemma sessions_ok_recorded m id f :
  sessions_ok m → (∀ s, session_ok s → session_ok (f s)) →
  sessions_ok (or_same m (_ ← active_session id m; Ok (on_last f id m))).
Proof.
  intros Hm Hf. destruct (active_session id m) as [s|] eqn:Hs; [|done]. cbn.
  apply active_session_Ok in Hs as [Hs _]. apply (sessions_ok_on_last m id f s); auto.
Qed.

Lemma removelast_tail_Forall {A} (P : A → Prop) h : Forall P (removelast h) → Forall P (removelast (tail h)).
Proof. destruct h as [|x [|y h]]; [done..|]. cbn [removelast tail]. by intros [_ ?]%Forall_cons. Qed.

Lemma Forall_removelast_last {A} (P : A → Prop) h :
  Forall P (removelast h) → (∀ x, last h = Some x → P x) → Forall P h.
Proof.
  intros Hr Hl. destruct (last h) as [x|] eqn:Hx; [|by apply last_None in Hx as ->].
  rewrite (last_removelast h x Hx). apply Forall_app; split; [done|]. constructor; auto.
Qed.

Lemma history_ok_start id now h :
  history_ok h → (∀ s, last h = Some s → StoppedAt s ≠ None) →
  history_ok ((if bool_decide (50 ≤ length h)%nat then tail h else h) ++ [newSession id now]).
Proof.
  intros (Hlen & Hst & Hok) Hlast. pose proof (Forall_removelast_last _ _ Hst Hlast) as Hall. split_and!.
  - rewrite length_app. case_bool_decide; [|cbn; lia]. destruct h; cbn in *; lia.
  - rewrite removelast_app, app_nil_r by done. case_bool_decide; [by apply Forall_tail|done].
  - apply Forall_app; split; [case_bool_decide; [by apply Forall_tail|done]|].
    repeat constructor; apply map_Forall_empty.
Qed.

Lemma sessions_ok_start m id now : sessions_ok m → sessions_ok (or_same m (Start id now m)).
Proof.
  intros Hm. unfold Start. case_bool_decide; [done|]. set (i := TrimSpace id).
  pose proof (history_ok_lookup m i Hm) as Hh.
  pose proof (history_ok_start i now _ Hh) as Hn.
  destruct (last (history m i)) as [[? ? [t|] ? ? ? ?]|]; cbn [or_same]; [|done|];
    (apply map_Forall_insert_2; [apply Hn; naive_solver|done]).
Qed.

Lemma sessions_ok_do `{RangeOrder} m op : sessions_ok m → sessions_ok (session_do m op).
Proof.
  intros Hm. destruct op as [c now|c now|c stats|c key|c key t e|c key t nodes]; cbn [session_do].
  - by apply sessions_ok_start.
  - unfold Stop. case_bool_decide; [done|]. destruct (last (history m (TrimSpace c))) as [s|] eqn:Hs; [|done].
    destruct (StoppedAt s); [done|]. by apply (sessions_ok_on_last m _ _ s).
  - unfold UpdateSessionStats. destruct (last (history m c)) as [s|] eqn:Hs; [|done].
    by apply (sessions_ok_on_last m _ _ s).
  - apply sessions_ok_recorded; [done|]. apply session_ok_track.
  - apply sessions_ok_recorded; [done|]. intros s. apply session_ok_add_event.
  - apply sessions_ok_recorded; [done|]. intros s. apply session_ok_add_snapshot.
Qed.

Lemma lookup_session_results `{RangeOrder} s key :
  session_results s !! key =
  if decide (key ∈ dom (snapshots s) ∪ dom (timeline s)) then Some (key_result s key) else None.
Proof.
  unfold session_results. apply option_eq. intros r.
  rewrite (lookup_set_to_map (λ key, (key, key_result s key))) by (by intros ?????; simplify_eq).
  case_decide; naive_solver.
Qed.

Lemma elem_of_TrackedKeys s key : key ∈ ss_TrackedKeys (session_snapshot s) ↔ key ∈ trackedKeys s.
Proof. cbn. by rewrite sort_Strings_perm, elem_of_elements. Qed.

Lemma IsActive_active_session id m : IsActive id m = is_ok (active_session (TrimSpace id) m).
Proof. by rewrite active_session_spec. Qed.

Lemma is_ok_recorded {A B} (r : result A) (f : A → B) : is_ok (a ← r; Ok (f a)) = is_ok r.
Proof. by destruct r. Qed.

(** ** Properties *)

(** Whatever calls are made, every cluster keeps at most 50 sessions, of
    which only the last can be active, every time in a session is at or after
    its start, and the results computed for the latest session cover exactly
    the keys the session view reports as tracked. *)
Theorem session_invariant `{RangeOrder} ops id :
  let m := foldl session_do NewSessionManager ops in
  let h := history m id in
  (length h ≤ 50)%nat ∧
  (∀ i, (S i < length h)%nat → ∃ s t, h !! i = Some s ∧ StoppedAt s = Some t) ∧
  Forall (λ s, map_Forall (λ _ l, Forall (λ sn, 0 ≤ sn_Time sn) l) (snapshots s)) h ∧
  (h = [] ∨ ∃ out s, ComputeAllResults id m = Ok out ∧ last h = Some s ∧
     ∀ key, is_Some (out !! key) ↔ key ∈ ss_TrackedKeys (session_snapshot s)).
Proof.
  intros m h. subst h.
  assert (Hm : sessions_ok m).
  { unfold m. apply foldl_invariant; [apply map_Forall_empty|]. intros a x _. apply sessions_ok_do. }
  destruct (history_ok_lookup m id Hm) as (Hlen & Hst & Hok).
  split; [done|]. split; [|split].
  - intros i Hi. destruct (last (history m id)) as [s|] eqn:Hs;
      [|apply last_None in Hs; rewrite Hs in Hi; cbn in Hi; lia].
    apply last_removelast in Hs. rewrite Hs, length_app in Hi; cbn in Hi.
    rewrite Hs, lookup_app_l by lia. destruct (removelast (history m id) !! i) as [u|] eqn:Hu;
      [|apply lookup_ge_None in Hu; lia].
    apply (Forall_lookup_1 _ _ _ _ Hst) in Hu as Hne. destruct (StoppedAt u) as [t|] eqn:Ht; [|done]. by exists u, t.
  - eapply Forall_impl; [exact Hok|]. by intros s (_ & ? & _).
  - unfold ComputeAllResults. destruct (last (history m id)) as [s|] eqn:Hs; [right|left; by apply last_None].
    exists (session_results s), s. split_and!; [done..|]. intros key.
    rewrite (elem_of_TrackedKeys s), lookup_session_results.
    assert (session_ok s) as (-> & _) by (by rewrite Forall_forall in Hok; apply Hok, last_Some_elem_of).
    case_decide; [by split; eauto|]. split; [by intros []|done].
Qed.

(** A session can be started exactly when the cluster has no active one, and
    everything else needs one: stopping, tracking a key, recording an event and
    recording a snapshot succeed exactly when the cluster is active. *)
Theorem session_lifecycle `{RangeOrder} id m now key t e nodes :
  let blank := bool_decide (TrimSpace id = EmptyString) in
  is_ok (Start id now m) = negb blank && negb (IsActive id m) ∧
  is_ok (Stop id now m) = negb blank && IsActive id m ∧
  is_ok (TrackKey id key m) = IsActive id m ∧
  is_ok (RecordTimelineEvent id key t e m) = IsActive id m ∧
  is_ok (RecordSnapshot id key t nodes m) = IsActive id m.
Proof.
  rewrite IsActive_active_session. cbn. split_and!; [..|by apply is_ok_recorded|by apply is_ok_recorded|by apply is_ok_recorded].
  - unfold Start, active_session. case_bool_decide; [done|].
    by destruct (last (history m (TrimSpace id))) as [[? ? [?|] ? ? ? ?]|].
  - unfold Stop, active_session. case_bool_decide; [done|].
    destruct (last (history m (TrimSpace id))) as [s|]; [|done]. by destruct (StoppedAt s).
Qed.

(** ** The latest session after a change *)

Lemma last_on_last f id m : last (history (on_last f id m) id) = f <$> last (history m id).
Proof.
  unfold on_last, update_last. unfold history at 1, SessionManager. rewrite lookup_insert_eq. cbn.
  destruct (last (history m id)) as [s|]; [|done]. by rewrite last_snoc.
Qed.

Lemma active_last id m :
  IsActive id m = true ↔ ∃ s, last (history m (TrimSpace id)) = Some s ∧ StoppedAt s = None.
Proof.
  unfold IsActive. destruct (last (history m (TrimSpace id))) as [s|]; [|naive_solver].
  rewrite bool_decide_eq_true. naive_solver.
Qed.

Lemma RecordSnapshot_active `{RangeOrder} id key t nodes m s :
  last (history m (TrimSpace id)) = Some s → StoppedAt s = None →
  RecordSnapshot id key t nodes m = Ok (on_last (add_snapshot (TrimSpace key) t nodes) (TrimSpace id) m).
Proof. intros Hs Ha. unfold RecordSnapshot, active_session. by rewrite Hs, Ha. Qed.

Lemma snapshots_add_snapshot `{RangeOrder} key t nodes s key' :
  snapshots (add_snapshot key t nodes s) !! key' =
  if decide (key = key')
  then Some (default [] (snapshots s !! key) ++ [{| sn_Time := session_time t s; sn_Nodes := nodes |}])
  else snapshots s !! key'.
Proof.
  cbn. unfold append_at, ensure. rewrite copy_loop_range.
  replace ((λ st : NodeState, st) <$> nodes) with nodes by (symmetry; apply map_fmap_id).
  case_decide as Hk; [subst key'; rewrite lookup_insert_eq|rewrite lookup_insert_ne by done].
  - destruct (snapshots s !! key) eqn:Hs; [by rewrite Hs|by rewrite lookup_insert_eq].
  - destruct (snapshots s !! key); [done|]. by rewrite lookup_insert_ne.
Qed.
