(* ===== verification/Service.v ===== *)
(** * The control-plane service (internal/controlplane/service)

    Models service.go: what the control plane does on top of the cluster
    manager and the metrics sessions.  The nodes are reached through the
    interface NodeOperator, whose calls read and change a network state [W].
    GetNode hands out a pointer, so a caller that keeps it sees later updates.
    Each [time.Now()] is an argument. *)

From S2P Require Import Prelude GoStrings GoSort Gossip Fault Messages Cluster Metrics Sessions.

(** ** node_operator.go *)

Class NodeOperator (W : Type) := {
  node_StopNode : string → Z → W → W * option error;
  node_Ping : string → Z → W → W * option error;
  node_ExecuteAction : string → Z → ActionRequest → W → W * result ActionResponse;
  node_SwapProtocol : string → Z → string → string → string → Z → W → W * option error;
}.

(** ** service.go *)

Record baseline := { b_rpcs : Z; b_writes : Z }.
Definition no_baseline : baseline := {| b_rpcs := 0; b_writes := 0 |}.

(** A log listener is the queue of its channel. *)
Record Service := {
  cluster : Manager;
  metrics : SessionManager;
  metricsLoops : gset string;
  logListeners : gmap nat (list (option LogRequest));
  totalRPCs : gmap string Z;
  totalWrites : gmap string Z;
  recentKeys : gmap string (list string);
  sessionBaselines : gmap string baseline;
}.

Definition NewClusterService (m : Manager) : Service :=
  {| cluster := m; metrics := NewSessionManager; metricsLoops := ∅; logListeners := ∅; totalRPCs := ∅;
     totalWrites := ∅; recentKeys := ∅; sessionBaselines := ∅ |}.

Definition set_cluster (m : Manager) (s : Service) : Service :=
  {| cluster := m; metrics := metrics s; metricsLoops := metricsLoops s; logListeners := logListeners s;
     totalRPCs := totalRPCs s; totalWrites := totalWrites s; recentKeys := recentKeys s;
     sessionBaselines := sessionBaselines s |}.
Definition set_metrics (m : SessionManager) (s : Service) : Service :=
  {| cluster := cluster s; metrics := m; metricsLoops := metricsLoops s; logListeners := logListeners s;
     totalRPCs := totalRPCs s; totalWrites := totalWrites s; recentKeys := recentKeys s;
     sessionBaselines := sessionBaselines s |}.
Definition set_sampling (loops : gset string) (baselines : gmap string baseline) (s : Service) : Service :=
  {| cluster := cluster s; metrics := metrics s; metricsLoops := loops; logListeners := logListeners s;
     totalRPCs := totalRPCs s; totalWrites := totalWrites s; recentKeys := recentKeys s;
     sessionBaselines := baselines |}.
Definition set_counts (rpcs writes : gmap string Z) (recent : gmap string (list string)) (s : Service) : Service :=
  {| cluster := cluster s; metrics := metrics s; metricsLoops := metricsLoops s; logListeners := logListeners s;
     totalRPCs := rpcs; totalWrites := writes; recentKeys := recent; sessionBaselines := sessionBaselines s |}.
Definition set_listeners (l : gmap nat (list (option LogRequest))) (s : Service) : Service :=
  {| cluster := cluster s; metrics := metrics s; metricsLoops := metricsLoops s; logListeners := l;
     totalRPCs := totalRPCs s; totalWrites := totalWrites s; recentKeys := recentKeys s;
     sessionBaselines := sessionBaselines s |}.

Definition count (m : gmap string Z) (k : string) : Z := default 0 (m !! k).

(** RecordTimelineEvent's error is dropped by all callers of the service. *)
Definition record_event (clusterID key : string) (observedAt : Z) (e : TimelineEvent) (s : Service) : Service :=
  set_metrics (or_same (metrics s) (RecordTimelineEvent clusterID key observedAt e (metrics s))) s.

Definition lifecycleEvent (nodeID eventType details : string) : TimelineEvent :=
  {| te_Time := 0; te_NodeID := nodeID; te_Key := "__CLUSTER__"; te_Value := details; te_Version := 0;
     te_Origin := EmptyString; te_Source := EmptyString; te_EventType := eventType; te_Round := 0;
     te_LWWTimestamp := 0 |}.

Definition RecordLifecycleEvent (now : Z) (clusterID nodeID eventType details : string) (s : Service) : Service :=
  if negb (IsActive clusterID (metrics s)) then s
  else record_event clusterID "__CLUSTER__" now (lifecycleEvent nodeID eventType details) s.

Definition StartMetricsSession (now : Z) (clusterID : string) (s : Service) : Service * option error :=
  let clusterID := TrimSpace clusterID in
  if bool_decide (clusterID = EmptyString) then (s, Some (Errorf "cluster id is required" [])) else
  match GetCluster clusterID (cluster s) with
  | Err e => (s, Some e)
  | Ok _ =>
      match Start clusterID now (metrics s) with
      | Err e => (s, Some e)
      | Ok m =>
          (set_sampling ({[clusterID]} ∪ metricsLoops s)
             (<[clusterID := {| b_rpcs := count (totalRPCs s) clusterID; b_writes := count (totalWrites s) clusterID |}]>
                (sessionBaselines s)) (set_metrics m s), None)
      end
  end.

Definition StartMetricsSessionIfInactive (now : Z) (clusterID : string) (s : Service) : Service * result bool :=
  if IsActive clusterID (metrics s) then (s, Ok false) else
  match StartMetricsSession now clusterID s with
  | (s, Some e) => (s, Err e)
  | (s, None) => (s, Ok true)
  end.

Definition AddMetricsWatchKey (clusterID key : string) (s : Service) : result Service :=
  m ← TrackKey clusterID key (metrics s); Ok (set_metrics m s).

Definition RecordWriteKeyForMetrics (clusterID key : string) (s : Service) : Service :=
  if IsActive clusterID (metrics s) then set_metrics (or_same (metrics s) (TrackKey clusterID key (metrics s))) s
  else s.

(** The maps GetMetricsSnapshot and GetMetricsHistory build. *)
Record MetricsView := {
  mv_isActive : bool;
  mv_clusterId : string;
  mv_startedAt : Z;
  mv_stoppedAt : option Z;
  mv_trackedKeys : list string;
  mv_results : gmap string Result;
  mv_clusterStats : SessionStats;
}.

(** The totals of a cluster since its baseline. *)
Definition stats_since (clusterID : string) (s : Service) : SessionStats :=
  let b := default no_baseline (sessionBaselines s !! clusterID) in
  {| TotalRPCs := wrap_u64 (count (totalRPCs s) clusterID - b_rpcs b);
     TotalWrites := wrap_u64 (count (totalWrites s) clusterID - b_writes b);
     RecentKeys := default [] (recentKeys s !! clusterID) |}.

Definition GetMetricsSnapshot `{RangeOrder} (clusterID : string) (s : Service) : result MetricsView :=
  let clusterID := TrimSpace clusterID in
  snap ← GetSession clusterID (metrics s);
  results ← ComputeAllResults clusterID (metrics s);
  Ok {| mv_isActive := IsActive clusterID (metrics s); mv_clusterId := clusterID; mv_startedAt := ss_StartedAt snap;
        mv_stoppedAt := ss_StoppedAt snap; mv_trackedKeys := ss_TrackedKeys snap; mv_results := results;
        mv_clusterStats := stats_since clusterID s |}.

Definition history_entry `{RangeOrder} (clusterID : string) (s : Service) (i : nat) (snap : SessionSnapshot) :
    option MetricsView :=
  match ComputeResultsBySessionID clusterID (Z.of_nat i) (metrics s) with
  | Err _ => None
  | Ok results =>
      Some {| mv_isActive := bool_decide (ss_StoppedAt snap = None); mv_clusterId := ss_ClusterID snap;
              mv_startedAt := ss_StartedAt snap; mv_stoppedAt := ss_StoppedAt snap;
              mv_trackedKeys := ss_TrackedKeys snap; mv_results := results; mv_clusterStats := ss_Stats snap |}
  end.

Definition GetMetricsHistory `{RangeOrder} (clusterID : string) (s : Service) : list MetricsView :=
  let clusterID := TrimSpace clusterID in
  omap id (imap (history_entry clusterID s) (GetHistory clusterID (metrics s))).

(** *** Reading and writing keys on the nodes *)

Record KVGetResult := { Value_ : string; Version_ : Z; Origin_ : string; HasMetadata_ : bool }.

Definition zeroGet : KVGetResult :=
  {| Value_ := EmptyString; Version_ := 0; Origin_ := EmptyString; HasMetadata_ := false |}.

Definition resultOf (out : KVGetResponse) : KVGetResult :=
  {| Value_ := kg_Value out; Version_ := kg_Version out; Origin_ := kg_Origin out; HasMetadata_ := kg_HasMetadata out |}.

Definition kvAction (nodeID : string) (action : ActionType) (payload : string) : ActionRequest :=
  {| ar_NodeId := nodeID; ar_Action := action; ar_Payload := payload |}.

(** GetNode, and what its pointer shows. *)
Definition node_of (clusterID nodeID : string) (s : Service) : result Node :=
  match GetNode clusterID nodeID (cluster s) with
  | Err e => Err e
  | Ok r => match heap (cluster s) !! r with Some n => Ok n | None => Err node_missing end
  end.

Definition ExecuteKVGetObserved {W} `{Protobuf, NodeOperator W} (clusterID nodeID key : string) (s : Service) (w : W) :
    W * result (KVGetResult * bool) :=
  match node_of clusterID nodeID s with
  | Err e => (w, Err e)
  | Ok n =>
      match node_ExecuteAction (n_Address n) (n_Port n) (kvAction nodeID KV_GET (Marshal_KVGetRequest key)) w with
      | (w, Err e) => (w, Err e)
      | (w, Ok resp) =>
          if negb (rsp_Success resp) then (w, Ok (zeroGet, false))
          else (w, Ok (resultOf (Unmarshal_KVGetResponse (rsp_Payload resp)), true))
      end
  end.

Definition ExecuteKVGet {W} `{Protobuf, NodeOperator W} (clusterID nodeID key : string) (s : Service) (w : W) :
    W * result KVGetResult :=
  match ExecuteKVGetObserved clusterID nodeID key s w with
  | (w, Err e) => (w, Err e)
  | (w, Ok (res, found)) => if found then (w, Ok res) else (w, Err (Errorf "not found" []))
  end.

(** recentKeys: a key seen for the first time goes in front, ten are kept. *)
Definition remember (key : string) (keys : list string) : list string :=
  if bool_decide (key ∈ keys) then keys else take 10 (key :: keys).

Definition ExecuteKVPut {W} `{Protobuf, NodeOperator W} (clusterID nodeID key value : string) (s : Service) (w : W) :
    W * Service * option error :=
  match node_of clusterID nodeID s with
  | Err e => (w, s, Some e)
  | Ok n =>
      let payload := Marshal_KVPutRequest {| put_Key := key; put_Value := value |} in
      match node_ExecuteAction (n_Address n) (n_Port n) (kvAction nodeID KV_PUT payload) w with
      | (w, Err e) => (w, s, Some e)
      | (w, Ok resp) =>
          if negb (rsp_Success resp) then (w, s, None)
          else
            (w, set_counts (totalRPCs s)
                  (<[clusterID := wrap_u64 (count (totalWrites s) clusterID + 1)]> (totalWrites s))
                  (<[clusterID := remember key (default [] (recentKeys s !! clusterID))]> (recentKeys s)) s, None)
      end
  end.

(** *** Convergence *)

(** The state a read shows. *)
Definition observed (res : KVGetResult) (found : bool) : NodeState :=
  if found then
    {| Exists_ := true; st_Value := Value_ res; st_Version := Version_ res; st_Origin := Origin_ res;
       HasMetadata := HasMetadata_ res |}
  else zeroState.

(** The inner loop: [first] is the state of the first node, once it is set. *)
Fixpoint check_nodes {W} `{Protobuf, NodeOperator W} (clusterID key : string) (s : Service) (nodes : list Node)
    (first : option NodeState) (w : W) : W * result bool :=
  match nodes with
  | [] => (w, Ok true)
  | n :: rest =>
      match ExecuteKVGetObserved clusterID (n_ID n) key s w with
      | (w, Err e) =>
          (w, Err (Wrapf "convergence check failed for node %s key %s: %w" [AStr (n_ID n); AStr key] e))
      | (w, Ok (res, found)) =>
          let state := observed res found in
          match first with
          | None => if negb (Exists_ state) then (w, Ok false) else check_nodes clusterID key s rest (Some state) w
          | Some f => if bool_decide (state = f) then check_nodes clusterID key s rest first w else (w, Ok false)
          end
      end
  end.

Fixpoint check_keys {W} `{Protobuf, NodeOperator W} (clusterID : string) (s : Service) (nodes : list Node)
    (keys : list string) (w : W) : W * result bool :=
  match keys with
  | [] => (w, Ok true)
  | key :: rest =>
      match check_nodes clusterID key s nodes None w with
      | (w, Ok true) => check_keys clusterID s nodes rest w
      | stop => stop
      end
  end.

Definition IsClusterConverged {W} `{RangeOrder, Protobuf, NodeOperator W} (clusterID : string) (s : Service) (w : W) :
    W * result bool :=
  match GetSession clusterID (metrics s) with
  | Err e => (w, Err e)
  | Ok session =>
      if bool_decide (ss_TrackedKeys session = []) then (w, Ok true) else
      match GetNodes clusterID (cluster s) with
      | Err e => (w, Err e)
      | Ok [] => (w, Ok false)
      | Ok nodes => check_keys clusterID s nodes (ss_TrackedKeys session) w
      end
  end.

(** WaitForConvergence polls.  [elapsed i] is [time.Since(start)] at round [i];
    the service and the network may change between rounds, [env i] are the ones
    round [i] sees. *)
Fixpoint wait_rounds {W} `{RangeOrder, Protobuf, NodeOperator W} (fuel i : nat) (elapsed : nat → Z)
    (env : nat → Service * W) (clusterID : string) (timeout : Z) : option bool :=
  match fuel with
  | O => None
  | S fuel =>
      if (elapsed i <? timeout) then
        match IsClusterConverged clusterID (env i).1 (env i).2 with
        | (_, Ok true) => Some true
        | _ => wait_rounds fuel (S i) elapsed env clusterID timeout
        end
      else Some false
  end.

Definition WaitForConvergence {W} `{RangeOrder, Protobuf, NodeOperator W} (fuel : nat) (elapsed : nat → Z)
    (env : nat → Service * W) (clusterID : string) (timeout : Z) : option bool :=
  wait_rounds fuel 0 elapsed env clusterID timeout.

(** *** Sampling *)

(** The inner loop of the sampler: the states, or nothing once a read fails. *)
Fixpoint sample_nodes {W} `{Protobuf, NodeOperator W} (clusterID key : string) (s : Service) (nodes : list Node)
    (states : gmap string NodeState) (w : W) : W * option (gmap string NodeState) :=
  match nodes with
  | [] => (w, Some states)
  | n :: rest =>
      match ExecuteKVGetObserved clusterID (n_ID n) key s w with
      | (w, Err _) => (w, None)
      | (w, Ok (res, found)) => sample_nodes clusterID key s rest (<[n_ID n := observed res found]> states) w
      end
  end.

Fixpoint sample_keys {W} `{RangeOrder, Protobuf, NodeOperator W} (now : Z) (clusterID : string) (nodes : list Node)
    (keys : list string) (s : Service) (w : W) : W * Service :=
  match keys with
  | [] => (w, s)
  | key :: rest =>
      match sample_nodes clusterID key s nodes ∅ w with
      | (w, None) => sample_keys now clusterID nodes rest s w
      | (w, Some states) =>
          sample_keys now clusterID nodes rest
            (set_metrics (or_same (metrics s) (RecordSnapshot clusterID key now states (metrics s))) s) w
      end
  end.

Definition sampleAllTrackedKeys {W} `{RangeOrder, Protobuf, NodeOperator W} (now : Z) (clusterID : string)
    (s : Service) (w : W) : W * Service :=
  if negb (IsActive clusterID (metrics s)) then (w, s) else
  match GetSession clusterID (metrics s) with
  | Err _ => (w, s)
  | Ok session =>
      if bool_decide (ss_TrackedKeys session = []) then (w, s) else
      match GetNodes clusterID (cluster s) with
      | Err _ => (w, s)
      | Ok [] => (w, s)
      | Ok nodes => sample_keys now clusterID nodes (ss_TrackedKeys session) s w
      end
  end.

(** A round of runMetricsSampler, until its context is cancelled. *)
Definition sampler_round {W} `{RangeOrder, Protobuf, NodeOperator W} (now : Z) (clusterID : string)
    (s : Service) (w : W) : W * Service :=
  if bool_decide (clusterID ∈ metricsLoops s) then sampleAllTrackedKeys now clusterID s w else (w, s).

(** [now] is the time of the last sample, [now'] that of the stop. *)
Definition StopMetricsSession {W} `{RangeOrder, Protobuf, NodeOperator W} (now now' : Z) (clusterID : string)
    (s : Service) (w : W) : W * Service * result MetricsView :=
  let clusterID := TrimSpace clusterID in
  let '(w, s) := sampleAllTrackedKeys now clusterID s w in
  let finalStats := stats_since clusterID s in
  let s := set_sampling (metricsLoops s ∖ {[clusterID]}) (delete clusterID (sessionBaselines s)) s in
  let s := set_metrics (UpdateSessionStats clusterID finalStats (metrics s)) s in
  match Stop clusterID now' (metrics s) with
  | Err e => (w, s, Err e)
  | Ok m => let s := set_metrics m s in (w, s, GetMetricsSnapshot clusterID s)
  end.

Definition StopMetricsSessionIfActive {W} `{RangeOrder, Protobuf, NodeOperator W} (now now' : Z) (clusterID : string)
    (s : Service) (w : W) : W * Service :=
  if IsActive clusterID (metrics s) then (StopMetricsSession now now' clusterID s w).1 else (w, s).

(** *** Logs *)

(** The event a timeline line carries, with the key it is recorded under. *)
Definition parseTimelineLog (req : LogRequest) : option TimelineEvent :=
  let raw := TrimPrefix (lr_Message req) "TL_EVENT:" in
  let parts := Split raw "|" in
  if bool_decide (length parts < 6)%nat then None else
  Some {| te_Time := 0; te_NodeID := lr_NodeId req; te_Key := nth 1 parts EmptyString;
          te_Value := nth 2 parts EmptyString; te_Version := ParseInt_value (nth 3 parts EmptyString);
          te_Origin := nth 4 parts EmptyString; te_Source := nth 5 parts EmptyString;
          te_EventType := nth 0 parts EmptyString;
          te_Round := if bool_decide (6 < length parts)%nat then ParseUint_value (nth 6 parts EmptyString) else 0;
          te_LWWTimestamp := if bool_decide (7 < length parts)%nat then ParseInt_value (nth 7 parts EmptyString) else 0 |}.

Definition handleTimelineLog (now : Z) (req : LogRequest) (s : Service) : Service :=
  match parseTimelineLog req with
  | None => s
  | Some e =>
      let ts := if (0 <? lr_Timestamp req) then lr_Timestamp req * 1000000 else now in
      record_event (lr_ClusterId req) (te_Key e) ts e s
  end.

(** A send that is dropped when the channel (capacity 100) is full. *)
Definition offer (req : option LogRequest) (queue : list (option LogRequest)) : list (option LogRequest) :=
  if bool_decide (length queue < 100)%nat then queue ++ [req] else queue.

Definition BroadcastLog (now : Z) (req : option LogRequest) (s : Service) : Service :=
  let s :=
    match req with
    | None => s
    | Some r =>
        let s :=
          if Contains (lr_Message r) "TRACE:SEND:"
          then set_counts (<[lr_ClusterId r := wrap_u64 (count (totalRPCs s) (lr_ClusterId r) + 1)]> (totalRPCs s))
                 (totalWrites s) (recentKeys s) s
          else s in
        if HasPrefix (lr_Message r) "TL_EVENT:" then handleTimelineLog now r s else s
    end in
  set_listeners (offer req <$> logListeners s) s.

(** [ch] is the new channel. *)
Definition SubscribeLogs (ch : nat) (s : Service) : Service := set_listeners (<[ch := []]> (logListeners s)) s.
Definition UnsubscribeLogs (ch : nat) (s : Service) : Service := set_listeners (delete ch (logListeners s)) s.

(** *** Clusters and nodes *)

Definition svc_CreateCluster (now : Z) (clusterID protocol : string) (s : Service) : Service * option error :=
  match CreateCluster clusterID protocol (cluster s) with
  | (m, Some e) => (set_cluster m s, Some e)
  | (m, None) =>
      (RecordLifecycleEvent now clusterID "SYSTEM" "CLUSTER_CREATE"
         ("new cluster created with protocol: " +:+ protocol) (set_cluster m s), None)
  end.

Definition svc_RemoveCluster (clusterID : string) (s : Service) : Service * option error :=
  let '(m, e) := RemoveCluster clusterID (cluster s) in (set_cluster m s, e).

Definition svc_Heartbeat (now : Z) (clusterID nodeID : string) (s : Service) : Service * option error :=
  let '(m, e) := Heartbeat now clusterID nodeID (cluster s) in (set_cluster m s, e).

Definition svc_GetNodes `{RangeOrder} (clusterID : string) (s : Service) : result (list Node) :=
  GetNodes clusterID (cluster s).

Definition GetClusterProtocol (clusterID : string) (s : Service) : result string :=
  c ← GetCluster clusterID (cluster s);
  Ok (if bool_decide (c_Protocol c = EmptyString) then "gossip" else c_Protocol c).

(** The errors of the nodes are dropped. *)
Definition SetClusterProtocol {W} `{RangeOrder, NodeOperator W} (clusterID protocolKey : string) (s : Service) (w : W) :
    W * Service * option error :=
  let protocolKey := ToLower (TrimSpace protocolKey) in
  match GetNodes clusterID (cluster s) with
  | Err e => (w, s, Some e)
  | Ok nodes =>
      let w := foldl (λ w n, (node_SwapProtocol (n_Address n) (n_Port n) clusterID (n_ID n) protocolKey 0 w).1) w nodes in
      let '(m, e) := SwapProtocol clusterID protocolKey (cluster s) in
      (w, set_cluster m s, e)
  end.

(** The events SetFaultParams derives from the old and the new fault state. *)
Definition fault_events (now : Z) (clusterID nodeID : string) (old new : FaultState) (s : Service) : Service :=
  let s :=
    if negb (fs_Crashed old) && fs_Crashed new then RecordLifecycleEvent now clusterID nodeID "CRASH" "node crashed" s
    else if fs_Crashed old && negb (fs_Crashed new)
    then RecordLifecycleEvent now clusterID nodeID "RECOVER" "node recovered" s
    else s in
  if bool_decide (length (fs_Partition old) < length (fs_Partition new))%nat
  then RecordLifecycleEvent now clusterID nodeID "PARTITION" "new network partition applied" s
  else if bool_decide (length (fs_Partition new) < length (fs_Partition old))%nat
  then RecordLifecycleEvent now clusterID nodeID "HEAL" "network partition healed" s
  else s.

(** [oldNode] is the pointer: its fields are read after the update. *)
Definition svc_SetFaultParams {W} (ns : fault_session W) (now : Z) (clusterID nodeID : string)
    (fault : FaultState) (s : Service) (w : W) : W * Service * option error :=
  let oldNode := GetNode clusterID nodeID (cluster s) in
  match SetFaultParams ns clusterID nodeID fault (cluster s) w with
  | (w, m, Some e) => (w, set_cluster m s, Some e)
  | (w, m, None) =>
      let s := set_cluster m s in
      match oldNode with
      | Ok r => match heap (cluster s) !! r with
                | Some n => (w, fault_events now clusterID nodeID (n_Fault n) fault s, None)
                | None => (w, s, None)
                end
      | Err _ => (w, s, None)
      end
  end.

Definition ReportNodeCapabilities (clusterID nodeID key : string) (epoch : Z) (caps : NodeActionCapabilities)
    (reportedAt : Z) (s : Service) : Service * option error :=
  let '(m, e) := SetNodeCapabilities clusterID nodeID key epoch caps reportedAt (cluster s) in (set_cluster m s, e).

Definition RemoveNodeC (clusterID nodeID : string) (s : Service) : Service * option error :=
  let '(m, e) := RemoveNode clusterID nodeID (cluster s) in (set_cluster m s, e).

(** The pointer is used without looking at GetNode's error. *)
Definition svc_RemoveNode {W} `{NodeOperator W} (clusterID nodeID : string) (s : Service) (w : W) :
    outcome (W * Service * option error) :=
  match node_of clusterID nodeID s with
  | Err _ => Panic "nil pointer dereference"
  | Ok n =>
      let '(w, _) := node_StopNode (n_Address n) (n_Port n) w in
      let '(s, e) := RemoveNodeC clusterID nodeID s in
      Done (w, s, e)
  end.

(** [now] is the registration, [now'] the time of the event. *)
Definition svc_RegisterNode {W} `{RangeOrder, NodeOperator W} (now now' : Z) (clusterID nodeID host : string) (port : Z)
    (s : Service) (w : W) : W * Service :=
  let '(w, _) := node_Ping host port w in
  let '(m, _) := RegisterNode now clusterID nodeID host port (cluster s) in
  (w, RecordLifecycleEvent now' clusterID nodeID "NODE_JOIN"
        ("node joined cluster at " +:+ host +:+ ":" +:+ itoa port) (set_cluster m s)).

(** ** Lemmas: reads over a quiet network *)

Section Reads.
Context {W : Type} `{RangeOrder, Protobuf, NodeOperator W}.

(** Reading a key changes nothing a later read could see. *)
Definition quiet (w : W) : Prop :=
  ∀ host port nodeID payload, (node_ExecuteAction host port (kvAction nodeID KV_GET payload) w).1 = w.

(** The state of a key on a node, as a read shows it. *)
Definition read (clusterID key : string) (s : Service) (w : W) (n : Node) : result NodeState :=
  match (ExecuteKVGetObserved clusterID (n_ID n) key s w).2 with
  | Err e => Err e
  | Ok (res, found) => Ok (observed res found)
  end.

Lemma ExecuteKVGetObserved_quiet clusterID id key s w :
  quiet w → (ExecuteKVGetObserved clusterID id key s w).1 = w.
Proof.
  intros Hq. unfold ExecuteKVGetObserved. destruct (node_of _ _ _) as [n|]; [|done].
  pose proof (Hq (n_Address n) (n_Port n) id (Marshal_KVGetRequest key)) as Hw.
  destruct (node_ExecuteAction _ _ _ w) as [w' [resp|e]]; cbn in *; [|done]. by destruct (rsp_Success resp).
Qed.

(** A read as a pair, when the network is quiet. *)
Lemma read_cases clusterID key s w n :
  quiet w →
  (∃ res found, ExecuteKVGetObserved clusterID (n_ID n) key s w = (w, Ok (res, found)) ∧
     read clusterID key s w n = Ok (observed res found)) ∨
  (∃ e, ExecuteKVGetObserved clusterID (n_ID n) key s w = (w, Err e) ∧ read clusterID key s w n = Err e).
Proof.
  intros Hq. pose proof (ExecuteKVGetObserved_quiet clusterID (n_ID n) key s w Hq) as Hw. unfold read.
  destruct (ExecuteKVGetObserved _ _ _ s w) as [w' [[res found]|e]]; cbn in Hw; subst w'; cbn; [left|right]; eauto.
Qed.

Lemma read_cluster clusterID key s s' w n :
  cluster s = cluster s' → read clusterID key s w n = read clusterID key s' w n.
Proof. intros Hc. unfold read, ExecuteKVGetObserved, node_of. by rewrite Hc. Qed.

Lemma check_nodes_rest clusterID key s nodes f w :
  quiet w → (check_nodes clusterID key s nodes (Some f) w).1 = w ∧
  ((check_nodes clusterID key s nodes (Some f) w).2 = Ok true ↔ Forall (λ n, read clusterID key s w n = Ok f) nodes).
Proof.
  intros Hq. induction nodes as [|n nodes [IHw IH]]; [done|]. cbn [check_nodes]. rewrite Forall_cons.
  destruct (read_cases clusterID key s w n Hq) as [(res & found & -> & ->)|(e & -> & ->)]; [|by split; [|naive_solver]].
  case_bool_decide as Hf; [|split; [done|naive_solver]]. split; [done|]. rewrite IH. naive_solver.
Qed.

(** All the nodes hold the key, in one state. *)
Definition agreed (clusterID key : string) (s : Service) (nodes : list Node) (w : W) : Prop :=
  ∃ f, Exists_ f = true ∧ Forall (λ n, read clusterID key s w n = Ok f) nodes.

Lemma check_nodes_agreed clusterID key s nodes w :
  quiet w → nodes ≠ [] → (check_nodes clusterID key s nodes None w).1 = w ∧
  ((check_nodes clusterID key s nodes None w).2 = Ok true ↔ agreed clusterID key s nodes w).
Proof.
  intros Hq Hne. destruct nodes as [|n nodes]; [done|]. cbn [check_nodes]. unfold agreed. setoid_rewrite Forall_cons.
  destruct (read_cases clusterID key s w n Hq) as [(res & found & -> & ->)|(e & -> & ->)]; [|by split; [|naive_solver]].
  destruct (Exists_ (observed res found)) eqn:Hex; cbn [negb].
  - destruct (check_nodes_rest clusterID key s nodes (observed res found) w Hq) as [-> ->]. split; [done|]. naive_solver.
  - split; [done|]. split; [done|]. intros (f & Hf & Hr & _). congruence.
Qed.

Lemma check_keys_agreed clusterID s nodes keys w :
  quiet w → nodes ≠ [] →
  (check_keys clusterID s nodes keys w).2 = Ok true ↔ Forall (λ key, agreed clusterID key s nodes w) keys.
Proof.
  intros Hq Hne. induction keys as [|key keys IH]; [done|]. cbn [check_keys]. rewrite Forall_cons.
  destruct (check_nodes_agreed clusterID key s nodes w Hq Hne) as [Hw Hr].
  destruct (check_nodes clusterID key s nodes None w) as [w' r]. cbn in Hw, Hr. subst w'. rewrite <-Hr.
  destruct r as [[]|e]; [rewrite IH|..]; naive_solver.
Qed.

(** What the sampler records of a key. *)
Lemma sample_nodes_agreed clusterID key s nodes states f w :
  quiet w → Forall (λ n, read clusterID key s w n = Ok f) nodes → map_Forall (λ _ t, t = f) states →
  ∃ states', sample_nodes clusterID key s nodes states w = (w, Some states') ∧
    map_Forall (λ _ t, t = f) states' ∧ (nodes ≠ [] → states' ≠ ∅) ∧ (states ≠ ∅ → states' ≠ ∅).
Proof.
  intros Hq. revert states. induction nodes as [|n nodes IH]; intros states Hf Hst; cbn [sample_nodes].
  { exists states. split_and!; auto. }
  apply Forall_cons in Hf as [Hn Hf].
  destruct (read_cases clusterID key s w n Hq) as [(res & found & -> & Hr)|(e & -> & Hr)]; [|congruence].
  destruct (IH (<[n_ID n := observed res found]> states) Hf) as (states' & -> & Hall & _ & Hne).
  { apply map_Forall_insert_2; [congruence|done]. }
  assert (states' ≠ ∅) by (apply Hne, insert_non_empty). exists states'. by split_and!.
Qed.
End Reads.

(** ** Lemmas: the sampler *)

Section Sampling.
Context {W : Type} `{RangeOrder, Protobuf, NodeOperator W}.
Context (now : Z) (clusterID : string) (Htrim : TrimSpace clusterID = clusterID).

(** The latest session gained one converged snapshot for each of the keys. *)
Definition sampled (keys : list string) (sess sess' : Session) : Prop :=
  StoppedAt sess' = None ∧ StartedAt sess' = StartedAt sess ∧ timeline sess' = timeline sess ∧
  (∀ key, key ∉ keys → snapshots sess' !! key = snapshots sess !! key) ∧
  ∀ key, key ∈ keys → ∃ nodes, converged nodes ∧
    snapshots sess' !! key =
    Some (default [] (snapshots sess !! key) ++ [{| sn_Time := session_time now sess; sn_Nodes := nodes |}]).

Lemma sample_keys_sampled nodes keys s w sess :
  quiet w → nodes ≠ [] → NoDup keys → Forall (λ key, TrimSpace key = key) keys →
  Forall (λ key, agreed clusterID key s nodes w) keys →
  last (history (metrics s) clusterID) = Some sess → StoppedAt sess = None →
  ∃ m sess', sample_keys now clusterID nodes keys s w = (w, set_metrics m s) ∧
    last (history m clusterID) = Some sess' ∧ sampled keys sess sess'.
Proof.
  intros Hq Hne. revert s sess. induction keys as [|key keys IH]; intros s sess Hnd Htk Hag Hl Ha; cbn [sample_keys].
  { exists (metrics s), sess. split; [by destruct s|]. split; [done|]. split_and!; [done..|]. by intros key ?%elem_of_nil. }
  apply NoDup_cons in Hnd as [Hk Hnd]. apply Forall_cons in Htk as [Htkey Htk].
  apply Forall_cons in Hag as [(f & Hf & Hrd) Hag].
  destruct (sample_nodes_agreed clusterID key s nodes ∅ f w Hq Hrd (map_Forall_empty _)) as (st & -> & Hst & Hst' & _).
  rewrite (RecordSnapshot_active _ _ _ _ _ sess) by (by rewrite ?Htrim). cbn [or_same]. rewrite Htrim, Htkey.
  set (s1 := set_metrics _ s). set (sess1 := add_snapshot key now st sess).
  destruct (IH s1 sess1 Hnd Htk) as (m & sess' & -> & Hl' & Hs); [|by unfold s1; cbn; rewrite last_on_last, Hl|done|].
  { eapply Forall_impl; [exact Hag|]. intros k (f' & Hf' & Hr'). exists f'. split; [done|].
    eapply Forall_impl; [exact Hr'|]. intros n. by rewrite (read_cluster clusterID k s1 s). }
  destruct Hs as (Ha' & Hst1 & Htl & Hsame & Hnew). exists m, sess'. split; [done|]. split; [done|].
  split_and!; [done|done|done| |].
  - intros k Hk'. rewrite Hsame by (intros ?; apply Hk'; by right). unfold sess1.
    rewrite snapshots_add_snapshot, decide_False; [done|]. intros ->. apply Hk'. by left.
  - intros k [->|Hin]%elem_of_cons.
    + exists st. split; [split; [by apply Hst'|by exists f]|]. rewrite Hsame by done.
      unfold sess1. by rewrite snapshots_add_snapshot, decide_True.
    + destruct (Hnew k Hin) as (nodes' & Hc & ->). exists nodes'. split; [done|]. unfold sess1.
      rewrite snapshots_add_snapshot, decide_False by (by intros ->). done.
Qed.
End Sampling.

Lemma IsClusterConverged_keys {W} `{RangeOrder, Protobuf, NodeOperator W} clusterID s w :
  quiet w →
  (IsClusterConverged clusterID s w).2 = Ok true ↔
  ∃ sess, last (history (metrics s) (TrimSpace clusterID)) = Some sess ∧
    (trackedKeys sess = ∅ ∨
     ∃ nodes, GetNodes clusterID (cluster s) = Ok nodes ∧ nodes ≠ [] ∧
       ∀ key, key ∈ trackedKeys sess → agreed clusterID key s nodes w).
Proof.
  intros Hq. unfold IsClusterConverged, GetSession.
  destruct (last (history (metrics s) (TrimSpace clusterID))) as [sess|]; [|naive_solver].
  assert (Hnil : ss_TrackedKeys (session_snapshot sess) = [] ↔ trackedKeys sess = ∅).
  { cbn. assert (trackedKeys sess = ∅ ↔ elements (trackedKeys sess) = []) as ->
      by (by rewrite elements_empty_iff, leibniz_equiv_iff).
    split; intros He.
    - apply Permutation_nil_r. by rewrite <-(sort_Strings_perm (elements _)), He.
    - by rewrite He. }
  case_bool_decide as Hk; [naive_solver|].
  destruct (GetNodes clusterID (cluster s)) as [nodes|e]; [|split; [done|naive_solver]].
  destruct nodes as [|n nodes]; [split; [done|naive_solver]|].
  rewrite check_keys_agreed by done. rewrite Forall_forall. setoid_rewrite (elem_of_TrackedKeys sess).
  split; [intros Hall; exists sess; split; [done|right]; by exists (n :: nodes)|].
  intros (sess' & [= <-] & [He|(nodes' & [= <-] & _ & Hall)]); [by apply Hnil in He|done].
Qed.

Lemma sampleAll_sampled {W} `{RangeOrder, Protobuf, NodeOperator W} now clusterID s w sess :
  quiet w → TrimSpace clusterID = clusterID → last (history (metrics s) clusterID) = Some sess →
  StoppedAt sess = None → Forall (λ key, TrimSpace key = key) (elements (trackedKeys sess)) →
  (IsClusterConverged clusterID s w).2 = Ok true →
  ∃ m sess', sampleAllTrackedKeys now clusterID s w = (w, set_metrics m s) ∧
    last (history m clusterID) = Some sess' ∧ sampled now (ss_TrackedKeys (session_snapshot sess)) sess sess'.
Proof.
  intros Hq Htrim Hl Ha Htk Hc. apply IsClusterConverged_keys in Hc as (sess0 & Hl0 & Hc); [|done].
  rewrite Htrim in Hl0. simplify_eq. unfold sampleAllTrackedKeys.
  assert (IsActive clusterID (metrics s) = true) as -> by (apply active_last; rewrite Htrim; eauto).
  cbn [negb]. unfold GetSession. rewrite Htrim, Hl.
  case_bool_decide as Hk.
  { exists (metrics s), sess. split; [by destruct s|]. split; [done|]. rewrite Hk. split_and!; [done..|].
    by intros key ?%elem_of_nil. }
  destruct Hc as [He|(nodes & -> & Hne & Hag)].
  { destruct Hk. cbn. by rewrite He, elements_empty. }
  destruct nodes as [|n nodes]; [done|]. eapply sample_keys_sampled; try done.
  - cbn. rewrite sort_Strings_perm. apply NoDup_elements.
  - cbn. by rewrite sort_Strings_perm.
  - apply Forall_forall. intros key Hkey%elem_of_TrackedKeys. by apply Hag.
Qed.

(** The session a stop seals, and the state it leaves. *)
Definition sealed (now' : Z) (clusterID : string) (s : Service) (sess : Session) : Session :=
  with_stopped now' (with_stats (stats_since clusterID s) sess).

Lemma StopMetricsSession_active {W} `{RangeOrder, Protobuf, NodeOperator W} now now' clusterID s w w' s1 sess :
  TrimSpace clusterID = clusterID → clusterID ≠ EmptyString →
  sampleAllTrackedKeys now clusterID s w = (w', s1) →
  last (history (metrics s1) clusterID) = Some sess → StoppedAt sess = None →
  ∃ s2 view, StopMetricsSession now now' clusterID s w = (w', s2, Ok view) ∧
    last (history (metrics s2) clusterID) = Some (sealed now' clusterID s1 sess) ∧
    metricsLoops s2 = metricsLoops s1 ∖ {[clusterID]} ∧
    sessionBaselines s2 = delete clusterID (sessionBaselines s1) ∧
    totalRPCs s2 = totalRPCs s1 ∧ totalWrites s2 = totalWrites s1 ∧
    mv_results view = session_results (sealed now' clusterID s1 sess) ∧
    mv_clusterStats view = stats_since clusterID s2.
Proof.
  intros Htrim Hne Hsample Hl Ha. unfold StopMetricsSession. rewrite Htrim, Hsample.
  unfold UpdateSessionStats; cbn [metrics set_sampling set_metrics]. rewrite Hl.
  unfold Stop. rewrite Htrim, bool_decide_false, last_on_last, Hl by done.
  assert (StoppedAt (with_stats (stats_since clusterID s1) sess) = None) as Ha' by done.
  change ((with_stats ?st) <$> Some sess) with (Some (with_stats st sess)). cbv beta iota. rewrite Ha'.
  unfold GetMetricsSnapshot, GetSession, ComputeAllResults; cbn [metrics set_metrics].
  rewrite !Htrim, last_on_last, last_on_last, Hl. eexists _, _. split; [done|]. cbn [metrics set_metrics].
  rewrite last_on_last, last_on_last, Hl. by split_and!.
Qed.

(** ** Lemmas: polling *)

Section Polling.
Context {W : Type} `{RangeOrder, Protobuf, NodeOperator W}.
Context (elapsed : nat → Z) (env : nat → Service * W) (clusterID : string) (timeout : Z).
Context (Hsleep : ∀ i, elapsed i + 1000000000 ≤ elapsed (S i)).

(** Round [j] starts in time and finds the cluster converged. *)
Definition converged_round (j : nat) : Prop :=
  elapsed j < timeout ∧ (IsClusterConverged clusterID (env j).1 (env j).2).2 = Ok true.

Lemma elapsed_mono i j : (i ≤ j)%nat → elapsed i ≤ elapsed j.
Proof. induction 1 as [|j Hij IH]; [done|]. specialize (Hsleep j). lia. Qed.

Lemma wait_rounds_total n i :
  timeout ≤ elapsed i + 1000000000 * Z.of_nat n →
  ∃ b, wait_rounds (S n) i elapsed env clusterID timeout = Some b ∧
    (b = true ↔ ∃ j, (i ≤ j)%nat ∧ converged_round j).
Proof.
  revert i; induction n as [|n IH]; intros i Hn; cbn [wait_rounds].
  - destruct (Z.ltb_spec (elapsed i) timeout); [lia|]. exists false. split; [done|]. split; [done|].
    intros (j & Hij & Hj & _). pose proof (elapsed_mono i j Hij). lia.
  - destruct (Z.ltb_spec (elapsed i) timeout).
    + assert (Hrest : ∃ b, wait_rounds (S n) (S i) elapsed env clusterID timeout = Some b ∧
        (b = true ↔ ∃ j, (S i ≤ j)%nat ∧ converged_round j)) by (apply IH; specialize (Hsleep i); lia).
      unfold converged_round in *.
      destruct (IsClusterConverged clusterID (env i).1 (env i).2) as [w' r] eqn:Hr.
      assert (r = Ok true ∨ r ≠ Ok true) as [->|Hne] by (destruct r as [[]|]; [by left|by right..]).
      * exists true. split; [done|]. split; [intros _|done]. exists i. split; [done|]. by rewrite Hr.
      * destruct Hrest as (b & Hb & Hiff). exists b. split; [by destruct r as [[]|]|]. rewrite Hiff.
        split; intros (j & Hij & Hj); [exists j; split; [lia|done]|].
        destruct (decide (i = j)) as [<-|]; [rewrite Hr in Hj; by destruct Hj|]. exists j. split; [lia|done].
    + exists false. split; [done|]. split; [done|]. intros (j & Hij & Hj & _). pose proof (elapsed_mono i j Hij). lia.
Qed.
End Polling.

(** ** Properties *)

(** C13: If the convergence check says yes on a quiet network, the run that is
    stopped then is reported consistent: the last sample finds every tracked key
    in one state on all nodes, and every result of the stopped session has
    FinalConsistent set. *)
Theorem converged_run_is_consistent {W} `{RangeOrder, Protobuf, NodeOperator W} now now' clusterID s w sess :
  quiet w → TrimSpace clusterID = clusterID → clusterID ≠ EmptyString → sessions_ok (metrics s) →
  last (history (metrics s) clusterID) = Some sess → StoppedAt sess = None →
  Forall (λ key, TrimSpace key = key) (elements (trackedKeys sess)) →
  map_Forall (λ _ l, Forall (λ sn, sn_Time sn ≤ session_time now sess) l) (snapshots sess) →
  (IsClusterConverged clusterID s w).2 = Ok true →
  ∃ s' view, StopMetricsSession now now' clusterID s w = (w, s', Ok view) ∧
    (∀ key, is_Some (mv_results view !! key) ↔ key ∈ trackedKeys sess) ∧
    map_Forall (λ _ r, FinalConsistent r = true) (mv_results view).
Proof.
  intros Hq Htrim Hne Hok Hl Ha Htk Htimes Hc.
  destruct (sampleAll_sampled now clusterID s w sess Hq Htrim Hl Ha Htk Hc) as (m & sess' & Hsample & Hl' & Hs).
  destruct Hs as (Ha' & _ & Htl & Hsame & Hnew).
  destruct (StopMetricsSession_active now now' clusterID s w w _ sess' Htrim Hne Hsample Hl' Ha')
    as (s2 & view & Hstop & _ & _ & _ & _ & _ & Hview & _).
  exists s2, view. split; [done|]. rewrite Hview. set (sess2 := sealed _ _ _ sess').
  assert (session_ok sess) as (Hdom & _).
  { destruct (history_ok_lookup _ clusterID Hok) as (_ & _ & Hall). rewrite Forall_forall in Hall.
    by apply Hall, last_Some_elem_of. }
  assert (Hkeys : ∀ key, is_Some (session_results sess2 !! key) ↔ key ∈ trackedKeys sess).
  { intros key. rewrite lookup_session_results. change (snapshots sess2) with (snapshots sess').
    change (timeline sess2) with (timeline sess'). rewrite Htl. split.
    - case_decide as Hin; [intros _|by intros []].
      destruct (decide (key ∈ ss_TrackedKeys (session_snapshot sess))) as [|Hk]; [by apply elem_of_TrackedKeys|].
      by rewrite elem_of_union, elem_of_dom, (Hsame key Hk), <-elem_of_dom, <-elem_of_union, <-Hdom in Hin.
    - intros Hk%elem_of_TrackedKeys. destruct (Hnew key Hk) as (nodes & _ & Hsn). rewrite decide_True; [by eexists|].
      apply elem_of_union_l, elem_of_dom. by rewrite Hsn. }
  split; [done|]. intros key r Hr. assert (key ∈ trackedKeys sess) as Hk%elem_of_TrackedKeys by (apply Hkeys; by eexists).
  destruct (Hnew key Hk) as (nodes & Hcv & Hsn).
  rewrite lookup_session_results in Hr. case_decide; [|done]. injection Hr as <-. unfold key_result; cbn [FinalConsistent with_timeline].
  change (snapshots sess2) with (snapshots sess'). rewrite Hsn. apply FinalConsistent_snoc; [|done].
  destruct (snapshots sess !! key) as [l|] eqn:Hk'; [by apply (Htimes key)|done].
Qed.


(** C40: The polling loop returns: when each round takes at least the second it
    sleeps, one round per second of the timeout and one more is enough.  The
    answer is yes exactly when a round that starts before the timeout finds the
    cluster converged. *)
Theorem WaitForConvergence_total {W} `{RangeOrder, Protobuf, NodeOperator W} elapsed (env : nat → Service * W)
    clusterID timeout seconds :
  0 ≤ elapsed 0%nat → (∀ i, elapsed i + 1000000000 ≤ elapsed (S i)) →
  timeout ≤ 1000000000 * Z.of_nat seconds →
  ∃ b, WaitForConvergence (S seconds) elapsed env clusterID timeout = Some b ∧
    (b = true ↔ ∃ i, elapsed i < timeout ∧ (IsClusterConverged clusterID (env i).1 (env i).2).2 = Ok true).
Proof.
  intros Hstart Hsleep Htimeout.
  destruct (wait_rounds_total elapsed env clusterID timeout Hsleep seconds 0) as (b & Hb & Hiff); [lia|].
  exists b. split; [done|]. rewrite Hiff. unfold converged_round.
  split; [intros (j & _ & Hj); by exists j|intros (j & Hj); exists j; split; [lia|done]].
Qed.

(** Stopping a session seals into it the counts since its start, removes its
    sampler and its baseline; but the view it returns is computed after the
    baseline is gone, so the throughput it shows is the cluster's whole total. *)
Theorem StopMetricsSession_stats {W} `{RangeOrder, Protobuf, NodeOperator W} now now' clusterID s w w' s1 sess b :
  TrimSpace clusterID = clusterID → clusterID ≠ EmptyString →
  sampleAllTrackedKeys now clusterID s w = (w', s1) →
  last (history (metrics s1) clusterID) = Some sess → StoppedAt sess = None →
  sessionBaselines s1 !! clusterID = Some b →
  ∃ s2 view sess', StopMetricsSession now now' clusterID s w = (w', s2, Ok view) ∧
    last (history (metrics s2) clusterID) = Some sess' ∧ StoppedAt sess' = Some now' ∧
    TotalWrites (Stats sess') = wrap_u64 (count (totalWrites s1) clusterID - b_writes b) ∧
    TotalRPCs (Stats sess') = wrap_u64 (count (totalRPCs s1) clusterID - b_rpcs b) ∧
    (clusterID ∉ metricsLoops s2) ∧ sessionBaselines s2 !! clusterID = None ∧
    TotalWrites (mv_clusterStats view) = wrap_u64 (count (totalWrites s1) clusterID) ∧
    TotalRPCs (mv_clusterStats view) = wrap_u64 (count (totalRPCs s1) clusterID).
Proof.
  intros Htrim Hne Hsample Hl Ha Hb.
  destruct (StopMetricsSession_active now now' clusterID s w w' s1 sess Htrim Hne Hsample Hl Ha)
    as (s2 & view & Hstop & Hl2 & Hloops & Hbase & Hrpcs & Hwrites & _ & Hstats).
  exists s2, view, (sealed now' clusterID s1 sess).
  assert (stats_since clusterID s1 =
    {| TotalRPCs := wrap_u64 (count (totalRPCs s1) clusterID - b_rpcs b);
       TotalWrites := wrap_u64 (count (totalWrites s1) clusterID - b_writes b);
       RecentKeys := default [] (recentKeys s1 !! clusterID) |}) as Hseal by (unfold stats_since; by rewrite Hb).
  split; [done|]. split; [done|]. unfold sealed. rewrite Hseal. split_and!; [done..|rewrite Hloops; set_solver| | |].
  - by rewrite Hbase, lookup_delete_eq.
  - rewrite Hstats. unfold stats_since. rewrite Hbase, lookup_delete_eq, Hwrites. cbn. f_equal. lia.
  - rewrite Hstats. unfold stats_since. rewrite Hbase, lookup_delete_eq, Hrpcs. cbn. f_equal. lia.
Qed.

(** SetFaultParams never records an event: the node it looks up before the
    update is a pointer, which already shows the new fault state when the old
    and the new one are compared. *)
Theorem SetFaultParams_records_nothing {W} (ns : fault_session W) now clusterID nodeID fault s w :
  metrics (svc_SetFaultParams ns now clusterID nodeID fault s w).1.2 = metrics s.
Proof.
  unfold svc_SetFaultParams. pose proof (SetFaultParams_state ns clusterID nodeID fault (cluster s) w) as Hst.
  destruct (SetFaultParams ns clusterID nodeID fault (cluster s) w) as [[w' m] [e|]] eqn:Hf; [done|]. cbn in Hst. subst m.
  unfold GetNode. unfold find_node in *. destruct (clusters (cluster s) !! clusterID) as [c|]; [|done].
  destruct (c_Nodes c !! nodeID) as [r|]; [|done]. cbn [cluster set_cluster heap update_ref set_heap].
  rewrite lookup_alter_eq. destruct (heap (cluster s) !! r) as [n|]; [|done]. cbn [fmap option_fmap option_map n_Fault with_fault].
  unfold fault_events. rewrite bool_decide_false by lia. by destruct (fs_Crashed fault).
Qed.

(** A lifecycle event makes its pseudo key __CLUSTER__ a tracked key of the
    session, and no node holds that key: from then on the convergence check
    cannot succeed. *)
Theorem lifecycle_event_blocks_convergence {W} `{RangeOrder, Protobuf, NodeOperator W} now clusterID nodeID eventType
    details s w :
  quiet w →
  (∀ host port id rsp, (node_ExecuteAction host port (kvAction id KV_GET (Marshal_KVGetRequest "__CLUSTER__")) w).2 = Ok rsp →
     rsp_Success rsp = false) →
  IsActive clusterID (metrics s) = true →
  (IsClusterConverged clusterID (RecordLifecycleEvent now clusterID nodeID eventType details s) w).2 ≠ Ok true.
Proof.
  intros Hq Hno Hact Hc. apply IsClusterConverged_keys in Hc as (sess & Hl & Hc); [|done].
  unfold RecordLifecycleEvent in Hl. rewrite Hact in Hl; cbn [negb] in Hl.
  apply active_last in Hact as (sess0 & Hl0 & Ha0).
  unfold record_event, RecordTimelineEvent in Hl.
  assert (active_session (TrimSpace clusterID) (metrics s) = Ok sess0) as Hok by (by apply active_session_Ok).
  rewrite Hok in Hl. cbn [mbind result_bind or_same metrics set_metrics] in Hl. rewrite last_on_last, Hl0 in Hl.
  injection Hl as <-.
  assert (TrimSpace "__CLUSTER__" = "__CLUSTER__") as Ht by done. rewrite Ht in Hc.
  destruct Hc as [He|(nodes & _ & Hne & Hag)]; [cbn in He; set_solver|].
  destruct (Hag "__CLUSTER__") as (f & Hf & Hr); [cbn; set_solver|].
  destruct nodes as [|n nodes]; [done|]. apply Forall_cons in Hr as [Hr _].
  unfold read, ExecuteKVGetObserved in Hr. destruct (node_of _ _ _) as [n0|]; [|done].
  specialize (Hno (n_Address n0) (n_Port n0) (n_ID n)).
  destruct (node_ExecuteAction _ _ _ w) as [w' [rsp|e]]; cbn in Hno, Hr; [|done].
  rewrite (Hno rsp eq_refl) in Hr. cbn in Hr. injection Hr as <-. done.
Qed.

(** What [parseTimelineLog] reads is recorded in the active session. *)
Lemma timeline_event_recorded now r event s sess :
  parseTimelineLog r = Some event → HasPrefix (lr_Message r) "TL_EVENT:" = true → 0 < lr_Timestamp r →
  last (history (metrics s) (TrimSpace (lr_ClusterId r))) = Some sess → StoppedAt sess = None →
  last (history (metrics (BroadcastLog now (Some r) s)) (TrimSpace (lr_ClusterId r))) =
  Some (add_event (TrimSpace (te_Key event)) (lr_Timestamp r * 1000000) event sess).
Proof.
  intros Hparse Hprefix Hpos Hl Ha. unfold BroadcastLog. rewrite Hprefix.
  set (s0 := if Contains _ _ then _ else s). assert (metrics s0 = metrics s) as Hm by (unfold s0; by destruct (Contains _ _)).
  unfold handleTimelineLog. rewrite Hparse. cbn [metrics set_listeners]. unfold record_event; cbn [metrics set_metrics].
  unfold RecordTimelineEvent. rewrite Hm.
  assert (active_session (TrimSpace (lr_ClusterId r)) (metrics s) = Ok sess) as -> by (by apply active_session_Ok).
  cbn [mbind result_bind or_same]. rewrite last_on_last, Hl. destruct (Z.ltb_spec 0 (lr_Timestamp r)); [done|lia].
Qed.

(** The event of a timeline message, and of one whose value and version arrive
    as other texts. *)
Definition event_of (nodeID : string) (m : TimelineMsg) : TimelineEvent :=
  {| te_Time := 0; te_NodeID := nodeID; te_Key := tm_key m; te_Value := tm_value m; te_Version := tm_version m;
     te_Origin := tm_origin m; te_Source := tm_source m; te_EventType := tm_type m; te_Round := tm_round m;
     te_LWWTimestamp := tm_ts m |}.

Definition texts_free (c : Ascii.ascii) (m : TimelineMsg) : bool :=
  forallb (byte_free c) [tm_type m; tm_key m; tm_value m; tm_origin m; tm_source m].

Lemma timeline_fields_parsed r m value version :
  lr_Message r = "TL_EVENT:" +:+ Join [tm_type m; tm_key m; value; version; tm_origin m; tm_source m; itoa (tm_round m); itoa (tm_ts m)] "|" →
  forallb (byte_free "|") [tm_type m; tm_key m; value; version; tm_origin m; tm_source m] = true →
  in_u64 (tm_round m) → in_i64 (tm_ts m) →
  parseTimelineLog r =
  Some {| te_Time := 0; te_NodeID := lr_NodeId r; te_Key := tm_key m; te_Value := value; te_Version := ParseInt_value version;
          te_Origin := tm_origin m; te_Source := tm_source m; te_EventType := tm_type m; te_Round := tm_round m;
          te_LWWTimestamp := tm_ts m |}.
Proof.
  intros Hm Hfree Hr Hts. unfold parseTimelineLog. rewrite Hm, TrimPrefix_app, Split_Join; [|done|].
  - cbn [length nth]. rewrite bool_decide_false by lia. rewrite !bool_decide_true by lia.
    by rewrite ParseInt_itoa, ParseUint_itoa by done.
  - cbn [forallb] in *. rewrite !itoa_byte_free by done.
    repeat match goal with H : _ && _ = true |- _ => apply andb_true_iff in H as [? H] end.
    repeat (apply andb_true_iff; split); done.
Qed.

(** ** Witnesses

    A cluster of one node whose keys are the network state: a read answers the
    value stored under the key. *)

Definition demo_get `{Protobuf} (store : gmap string string) (req : ActionRequest) : ActionResponse :=
  match ar_Action req, store !! ar_Payload req with
  | KV_GET, Some v => {| rsp_Success := true; rsp_Message := EmptyString; rsp_Payload :=
      default EmptyString (Marshal_KVGetResponse {| kg_Value := v; kg_Version := 1; kg_Origin := "n1"; kg_HasMetadata := true |}) |}
  | _, _ => {| rsp_Success := false; rsp_Message := "not found"; rsp_Payload := EmptyString |}
  end.

Definition demo_operator `{Protobuf} : NodeOperator (gmap string string) := {|
  node_StopNode := λ _ _ w, (w, None);
  node_Ping := λ _ _ w, (w, None);
  node_ExecuteAction := λ _ _ req w, (w, Ok (demo_get w req));
  node_SwapProtocol := λ _ _ _ _ _ _ w, (w, None);
|}.

#[local] Existing Instance canonical_order.
#[local] Existing Instance demo_protobuf.
#[local] Existing Instance demo_operator.

Definition demo_store : gmap string string := {["k" := "v"]}.

Definition demo_session : SessionManager :=
  foldl session_do NewSessionManager [OpStart "c1" 0; OpTrack "c1" "k"].

Definition demo_service : Service :=
  set_sampling {["c1"]} {["c1" := {| b_rpcs := 0; b_writes := 2 |}]}
    (set_counts ∅ {["c1" := 5]} ∅ (set_metrics demo_session (NewClusterService one_node))).

Definition latest (clusterID : string) (m : SessionManager) : Session :=
  default (newSession EmptyString 0) (last (history m clusterID)).

Lemma sessions_ok_reachable `{RangeOrder} ops : sessions_ok (foldl session_do NewSessionManager ops).
Proof. apply foldl_invariant; [apply map_Forall_empty|]. intros a x _. apply sessions_ok_do. Qed.

Lemma demo_quiet w : quiet w.
Proof. done. Qed.

Lemma converged_run_is_consistent_witness :
  ∃ s' view, StopMetricsSession 7 8 "c1" demo_service demo_store = (demo_store, s', Ok view) ∧
    (∀ key, is_Some (mv_results view !! key) ↔ key ∈ trackedKeys (latest "c1" demo_session)) ∧
    map_Forall (λ _ r, FinalConsistent r = true) (mv_results view).
Proof.
  apply (converged_run_is_consistent 7 8 "c1" demo_service demo_store (latest "c1" demo_session) (demo_quiet _));
    [vm_compute; reflexivity|discriminate|apply sessions_ok_reachable|vm_compute; reflexivity|vm_compute; reflexivity|
     by_evaluation|by_evaluation|vm_compute; reflexivity].
Defined.

Lemma WaitForConvergence_total_witness :
  ∃ b, WaitForConvergence 3 (λ i, 1000000000 * Z.of_nat i) (λ _, (demo_service, demo_store)) "c1" 2000000000 = Some b ∧
    (b = true ↔ ∃ i, 1000000000 * Z.of_nat i < 2000000000 ∧
       (IsClusterConverged "c1" demo_service demo_store).2 = Ok true).
Proof.
  apply (WaitForConvergence_total (λ i, 1000000000 * Z.of_nat i) (λ _, (demo_service, demo_store)) "c1" 2000000000 2);
    [lia|intros i; lia|lia].
Defined.

Lemma StopMetricsSession_stats_witness :
  ∃ s2 view sess', StopMetricsSession 7 8 "c1" demo_service demo_store = (demo_store, s2, Ok view) ∧
    last (history (metrics s2) "c1") = Some sess' ∧ StoppedAt sess' = Some 8 ∧
    TotalWrites (Stats sess') = 3 ∧ TotalRPCs (Stats sess') = 0 ∧
    ("c1" ∉ metricsLoops s2) ∧ sessionBaselines s2 !! "c1" = None ∧
    TotalWrites (mv_clusterStats view) = 5 ∧ TotalRPCs (mv_clusterStats view) = 0.
Proof.
  destruct (StopMetricsSession_stats 7 8 "c1" demo_service demo_store demo_store
    (sampleAllTrackedKeys 7 "c1" demo_service demo_store).2
    (latest "c1" (metrics (sampleAllTrackedKeys 7 "c1" demo_service demo_store).2)) {| b_rpcs := 0; b_writes := 2 |})
    as (s2 & view & sess' & H1 & H2 & H3 & H4 & H5 & H6 & H7 & H8 & H9);
    [vm_compute; reflexivity|discriminate|vm_compute; reflexivity..|].
  assert (count (totalWrites (sampleAllTrackedKeys 7 "c1" demo_service demo_store).2) "c1" = 5) as Hw by (vm_compute; reflexivity).
  assert (count (totalRPCs (sampleAllTrackedKeys 7 "c1" demo_service demo_store).2) "c1" = 0) as Hr by (vm_compute; reflexivity).
  rewrite Hw in H4, H8. rewrite Hr in H5, H9. exists s2, view, sess'. split_and!; assumption.
Defined.

Lemma lifecycle_event_blocks_convergence_witness :
  (IsClusterConverged "c1" (RecordLifecycleEvent 3 "c1" "n1" "NODE_JOIN" "joined" demo_service) demo_store).2 ≠ Ok true.
Proof.
  apply (lifecycle_event_blocks_convergence 3 "c1" "n1" "NODE_JOIN" "joined" demo_service demo_store (demo_quiet _));
    [intros host port id rsp; vm_compute; intros [= <-]; reflexivity|vm_compute; reflexivity].
Defined.

(** RemoveNode crashes on a node the manager does not know. *)
Lemma svc_RemoveNode_unknown {W} `{NodeOperator W} clusterID nodeID s w :
  node_at clusterID nodeID (cluster s) = None ↔
  svc_RemoveNode clusterID nodeID s w = Panic "nil pointer dereference".
Proof.
  unfold svc_RemoveNode, node_of, GetNode, find_node, node_at.
  destruct (clusters (cluster s) !! clusterID) as [c|]; cbn; [|by split].
  destruct (c_Nodes c !! nodeID) as [r|]; cbn; [|by split].
  destruct (heap (cluster s) !! r) as [n|]; [|by split].
  destruct (node_StopNode _ _ w) as [w' o]. destruct (RemoveNodeC clusterID nodeID s). split; discriminate.
Qed.
