(* ===== verification/World.v ===== *)
(** * What the control plane takes from the operating system

    The clock and the processes, as interfaces over a state [W] that also holds
    whatever the nodes do: the definitions of the control plane thread it through
    their calls.  A clock may answer anything; the theorems that need more say
    so. *)

From S2P Require Import Prelude.

Class Clock (W : Type) := { time_Now : W → W * Z }.

(** What [kill(2)] answers: done, no such process (ESRCH), or another error. *)
Inductive kill_result := Killed | NoSuchProcess | KillError (e : error).

(** Starting a command in a directory, with its arguments, and the process id
    it gets; killing a process group. *)
Class Processes (W : Type) := {
  os_Start : string → list string → W → W * result Z;
  os_Kill : Z → W → W * kill_result;
}.

(** A clock that stands still, and processes that always start and die, to run
    the definitions. *)
Definition stopped_clock (W : Type) (t : Z) : Clock W := {| time_Now := λ w, (w, t) |}.
Definition docile_processes (W : Type) (pid : Z) : Processes W :=
  {| os_Start := λ _ _ w, (w, Ok pid); os_Kill := λ _ w, (w, Killed) |}.
