(* ===== verification/CPServer.v ===== *)
(** * The control plane's RPC server and the node's client of it

    Models internal/controlplane/rpc/server.go (the handlers the control plane
    exposes to the nodes) and internal/node/session/controlplane.go (the session
    a node calls them through), and composes them.  The client takes the
    generated gRPC stub as an interface; the server is one implementation of it.
    A call that does not come back in time is an error of the stub. *)

From S2P Require Import Prelude GoStrings Gossip Fault NodeConfig NodeRuntime Messages Cluster Metrics Sessions Service World.

(** ** The messages of cluster.proto *)

Inductive RegisterStatus := UNKNOWN | SUCCESS | FAILED.

#[export] Instance RegisterStatus_eq_dec : EqDecision RegisterStatus.
Proof. solve_decision. Defined.

(** A port is an int32 here and a uint32 in NodeInfo. *)
Record RegisterNodeRequest := { rr_ClusterId : string; rr_NodeId : string; rr_Address : string; rr_Port : Z }.
Record Assignment := { as_Key : string; as_Epoch : Z }.
Record RegisterNodeResponse := { rp_Status : RegisterStatus; rp_Message : string; rp_Assigned : option Assignment }.
Record HeartbeatRequest := { hb_Id : string; hb_ClusterId : string }.
Record CapabilitiesRequest := {
  cr_ClusterId : string;
  cr_NodeId : string;
  cr_ActiveProtocol : option Assignment;
  cr_Actions : option NodeActionCapabilities;
  cr_ReportedAt : Z;
}.

(** The generated client stub. *)
Class Orchestrator (S : Type) := {
  call_RegisterNode : RegisterNodeRequest → S → S * result RegisterNodeResponse;
  call_GetPeers : string → S → S * result (list NodeInfo);
  call_Heartbeat : HeartbeatRequest → S → S * result bool;
  call_ReportLog : LogRequest → S → S * result bool;
  call_ReportNodeCapabilities : CapabilitiesRequest → S → S * result (bool * string);
}.

(** ** rpc/server.go *)

Section Server.
Context {W : Type} `{RangeOrder, NodeOperator W, Clock W}.

Definition registration_failed (e : error) : RegisterNodeResponse :=
  {| rp_Status := FAILED; rp_Message := error_text e; rp_Assigned := None |}.

Definition server_RegisterNode (req : RegisterNodeRequest) (st : W * Service) : (W * Service) * RegisterNodeResponse :=
  let '(w, s) := st in
  let '(w, now) := time_Now w in
  let '(w, now') := time_Now w in
  let '(w, s) := svc_RegisterNode now now' (rr_ClusterId req) (rr_NodeId req) (rr_Address req) (rr_Port req) s w in
  ((w, s),
   match GetClusterProtocol (rr_ClusterId req) s with
   | Err e => registration_failed e
   | Ok protocolName =>
       {| rp_Status := SUCCESS; rp_Message := "node registered";
          rp_Assigned := Some {| as_Key := protocolName; as_Epoch := 0 |} |}
   end).

Definition peer_info (n : Node) : NodeInfo :=
  {| ni_Id := n_ID n; ni_Address := n_Address n; ni_Port := wrap_u32 (n_Port n) |}.

Definition server_GetPeers (clusterID : string) (s : Service) : result (list NodeInfo) :=
  nodes ← svc_GetNodes clusterID s; Ok (map peer_info nodes).

(** An error comes back as the error of the call. *)
Definition server_Heartbeat (req : HeartbeatRequest) (st : W * Service) : (W * Service) * result bool :=
  let '(w, s) := st in
  let '(w, now) := time_Now w in
  match svc_Heartbeat now (hb_ClusterId req) (hb_Id req) s with
  | (s, Some e) => ((w, s), Err e)
  | (s, None) => ((w, s), Ok true)
  end.

Definition server_ReportLog (req : LogRequest) (st : W * Service) : (W * Service) * result bool :=
  let '(w, s) := st in
  let '(w, now) := time_Now w in
  ((w, BroadcastLog now (Some req) s), Ok true).

Definition no_capabilities : NodeActionCapabilities := {| KVPut := false; KVGet := false; KVDelete := false |}.

(** A missing message reads as its zero value. *)
Definition server_ReportNodeCapabilities (req : CapabilitiesRequest) (s : Service) : Service * (bool * string) :=
  let a := default {| as_Key := EmptyString; as_Epoch := 0 |} (cr_ActiveProtocol req) in
  match ReportNodeCapabilities (cr_ClusterId req) (cr_NodeId req) (as_Key a) (as_Epoch a)
          (default no_capabilities (cr_Actions req)) (cr_ReportedAt req) s with
  | (s, Some e) => (s, (false, error_text e))
  | (s, None) => (s, (true, "capabilities recorded"))
  end.

#[export] Instance server : Orchestrator (W * Service) := {|
  call_RegisterNode req st := let '(st, resp) := server_RegisterNode req st in (st, Ok resp);
  call_GetPeers clusterID st := (st, server_GetPeers clusterID st.2);
  call_Heartbeat := server_Heartbeat;
  call_ReportLog := server_ReportLog;
  call_ReportNodeCapabilities req st :=
    let '(s, resp) := server_ReportNodeCapabilities req st.2 in ((st.1, s), Ok resp);
|}.
End Server.

(** ** node/session/controlplane.go *)

(** Whether there is a connection. *)
Record cpsession := {
  cs_cpHost : string;
  cs_cpPort : Z;
  cs_nodeID : string;
  cs_clusterID : string;
  cs_nodeHost : string;
  cs_nodePort : Z;
  cs_conn : bool;
}.

Definition NewControlplaneSession (nodeID clusterID cpHost : string) (cpPort : Z) (nodeHost : string) (nodePort : Z) :
    cpsession :=
  {| cs_cpHost := cpHost; cs_cpPort := cpPort; cs_nodeID := nodeID; cs_clusterID := clusterID;
     cs_nodeHost := nodeHost; cs_nodePort := nodePort; cs_conn := false |}.

Definition set_conn (b : bool) (s : cpsession) : cpsession :=
  {| cs_cpHost := cs_cpHost s; cs_cpPort := cs_cpPort s; cs_nodeID := cs_nodeID s; cs_clusterID := cs_clusterID s;
     cs_nodeHost := cs_nodeHost s; cs_nodePort := cs_nodePort s; cs_conn := b |}.

Section Client.
Context {S : Type} `{Orchestrator S}.

(** [grpc.NewClient], which looks at the form of the address only. *)
Context (NewClient : string → option error).

Definition connect (s : cpsession) : cpsession * option error :=
  if cs_conn s then (s, None)
  else match NewClient (cs_cpHost s +:+ ":" +:+ itoa (cs_cpPort s)) with
       | Some e => (s, Some e)
       | None => (set_conn true s, None)
       end.

Definition invalidateConn (s : cpsession) : cpsession := set_conn false s.

(** [fmt.Errorf] of a message without its own format. *)
Definition session_error (msg : string) : error := Errorf msg [].

Definition assigned_key (resp : RegisterNodeResponse) : result string :=
  if bool_decide (rp_Status resp ≠ SUCCESS) then Err (Errorf "registration rejected: %s" [AStr (rp_Message resp)])
  else match rp_Assigned resp with
       | None => Err (session_error "registration response missing assigned protocol")
       | Some a =>
           if bool_decide (as_Key a = EmptyString)
           then Err (session_error "registration response missing assigned protocol key")
           else Ok (as_Key a)
       end.

Definition Establish (s : cpsession) (st : S) : S * cpsession * result string :=
  match connect s with
  | (s, Some e) => (st, s, Err e)
  | (s, None) =>
      match call_RegisterNode
              {| rr_ClusterId := cs_clusterID s; rr_NodeId := cs_nodeID s; rr_Address := cs_nodeHost s;
                 rr_Port := wrap_i32 (cs_nodePort s) |} st with
      | (st, Err e) => (st, invalidateConn s, Err e)
      | (st, Ok resp) => (st, s, assigned_key resp)
      end
  end.

Definition cp_Heartbeat (s : cpsession) (st : S) : S * cpsession * option error :=
  match connect s with
  | (s, Some e) => (st, s, Some e)
  | (s, None) =>
      match call_Heartbeat {| hb_Id := cs_nodeID s; hb_ClusterId := cs_clusterID s |} st with
      | (st, Err e) => (st, invalidateConn s, Some e)
      | (st, Ok false) => (st, s, Some (session_error "heartbeat rejected by controlplane"))
      | (st, Ok true) => (st, s, None)
      end
  end.

Definition FetchPeers (s : cpsession) (st : S) : S * cpsession * result (list NodeInfo) :=
  match connect s with
  | (s, Some e) => (st, s, Err e)
  | (s, None) =>
      match call_GetPeers (cs_clusterID s) st with
      | (st, Err e) => (st, invalidateConn s, Err e)
      | (st, Ok peers) => (st, s, Ok peers)
      end
  end.

(** [now] is the time in milliseconds.  A lost log line keeps the connection. *)
Definition ReportLog (now : Z) (level msg : string) (s : cpsession) (st : S) : S * cpsession * option error :=
  match connect s with
  | (s, Some e) => (st, s, Some e)
  | (s, None) =>
      match call_ReportLog
              {| lr_ClusterId := cs_clusterID s; lr_NodeId := cs_nodeID s; lr_Timestamp := now; lr_Level := level;
                 lr_Message := msg |} st with
      | (st, Err e) => (st, s, Some e)
      | (st, Ok _) => (st, s, None)
      end
  end.

Definition cp_ReportNodeCapabilities (now : Z) (protocolKey : string) (epoch : Z) (caps : ProtocolCapabilities)
    (s : cpsession) (st : S) : S * cpsession * option error :=
  match connect s with
  | (s, Some e) => (st, s, Some e)
  | (s, None) =>
      match call_ReportNodeCapabilities
              {| cr_ClusterId := cs_clusterID s; cr_NodeId := cs_nodeID s;
                 cr_ActiveProtocol := Some {| as_Key := protocolKey; as_Epoch := epoch |};
                 cr_Actions := Some {| KVPut := cap_KVPut caps; KVGet := cap_KVGet caps; KVDelete := cap_KVDelete caps |};
                 cr_ReportedAt := now |} st with
      | (st, Err e) => (st, s, Some e)
      | (st, Ok (false, msg)) => (st, s, Some (Errorf "capability report rejected: %s" [AStr msg]))
      | (st, Ok (true, _)) => (st, s, None)
      end
  end.
End Client.
