(* ===== verification/CPServerProps.v ===== *)
(** * Properties of registration and discovery

    A node that establishes its session is known to the control plane under its
    id, and every node of the cluster that fetches its peers from then on gets
    its address. *)

From S2P Require Import Prelude GoStrings Protocol Fault NodeConfig NodeSession NodeRuntime Messages Cluster Metrics Sessions Service World CPServer.

(** ** The table after a registration *)

Lemma node_at_register `{RangeOrder} now cid id addr port m cid' id' :
  manager_ok m →
  node_at cid' id' (RegisterNode now cid id addr port m).1 =
  if bool_decide (cid' = cid ∧ id' = id) then Some (newNode id addr port now) else node_at cid' id' m.
Proof.
  intros Hm. unfold node_at, RegisterNode. cbn [fst clusters heap].
  set (c0 := default _ _). set (r0 := next_ref m).
  assert (Hold : ∀ c r, clusters m !! cid' = Some c → c_Nodes c !! id' = Some r → r ≠ r0).
  { intros c r Hc Hr. destruct (ok_ref _ Hm _ _ _ _ Hc Hr). unfold r0. lia. }
  destruct (decide (cid' = cid)) as [->|Hne].
  - rewrite lookup_insert_eq. cbn. destruct (decide (id' = id)) as [->|Hid].
    + rewrite lookup_insert_eq. cbn. rewrite lookup_insert_eq. by rewrite bool_decide_true.
    + rewrite lookup_insert_ne by done. rewrite bool_decide_false by naive_solver.
      destruct (clusters m !! cid) as [c|] eqn:Hc; cbn; [|by rewrite lookup_empty].
      destruct (c_Nodes c !! id') as [r|] eqn:Hr; [|done]. cbn.
      rewrite lookup_insert_ne; [done|]. intros <-. by apply (Hold c r0).
  - rewrite lookup_insert_ne by done. rewrite bool_decide_false by naive_solver.
    destruct (clusters m !! cid') as [c|] eqn:Hc; [|done]. cbn.
    destruct (c_Nodes c !! id') as [r|] eqn:Hr; [|done]. cbn.
    rewrite lookup_insert_ne; [done|]. intros <-. by apply (Hold c r0).
Qed.

Lemma clusters_register `{RangeOrder} now cid id addr port m :
  ∃ c, clusters (RegisterNode now cid id addr port m).1 !! cid = Some c ∧
    c_Protocol c = default "gossip" (c_Protocol <$> clusters m !! cid).
Proof.
  unfold RegisterNode. cbn [fst clusters]. eexists. rewrite lookup_insert_eq. split; [done|]. cbn.
  by destruct (clusters m !! cid).
Qed.

Lemma elem_of_GetNodes `{RangeOrder} cid m nodes n :
  GetNodes cid m = Ok nodes → n ∈ nodes ↔ ∃ id, node_at cid id m = Some n.
Proof.
  unfold GetNodes, node_at. destruct (clusters m !! cid) as [c|]; [|done]. intros [= <-].
  unfold nodesOf. rewrite list_elem_of_omap. cbn. split.
  - intros ([id r] & Hin%elem_of_range & Hn). exists id. by rewrite Hin.
  - intros (id & Hid). destruct (c_Nodes c !! id) as [r|] eqn:Hr; [|done]. exists (id, r).
    split; [by apply elem_of_range|done].
Qed.

(** A lifecycle event leaves the table alone. *)
Lemma lifecycle_cluster now cid id type text s : cluster (RecordLifecycleEvent now cid id type text s) = cluster s.
Proof. unfold RecordLifecycleEvent. by destruct (IsActive cid (metrics s)). Qed.

(** ** Sessions *)

Section Sessions.
Context {W : Type} `{RangeOrder, NodeOperator W, Clock W} (NewClient : string → option error).

(** The address of the control plane is well formed, or already dialled. *)
Definition can_connect (s : cpsession) : Prop :=
  cs_conn s = true ∨ NewClient (cs_cpHost s +:+ ":" +:+ itoa (cs_cpPort s)) = None.

Lemma connect_ok s : can_connect s → connect NewClient s = (set_conn true s, None).
Proof. unfold connect. destruct s as [? ? ? ? ? ? []]; intros [?|Hn]; cbn in *; try done. by rewrite Hn. Qed.

(** The protocol a cluster is registered with: its own, or gossip. *)
Definition protocol_of (cid : string) (m : Manager) : string :=
  match clusters m !! cid with
  | Some c => if bool_decide (c_Protocol c = EmptyString) then "gossip" else c_Protocol c
  | None => "gossip"
  end.

Lemma protocol_of_named cid m : protocol_of cid m ≠ EmptyString.
Proof. unfold protocol_of. destruct (clusters m !! cid); [|done]. by case_bool_decide. Qed.

(** Establishing a session registers the node, with a port cut to an int32. *)
Lemma Establish_registers s w svc :
  can_connect s → manager_ok (cluster svc) →
  ∃ w' svc' now,
    Establish NewClient s (w, svc) = ((w', svc'), set_conn true s, Ok (protocol_of (cs_clusterID s) (cluster svc))) ∧
    cluster svc' = (RegisterNode now (cs_clusterID s) (cs_nodeID s) (cs_nodeHost s) (wrap_i32 (cs_nodePort s)) (cluster svc)).1.
Proof.
  intros Hc Hm. unfold Establish. rewrite connect_ok by done. cbn -[wrap_i32 RegisterNode].
  destruct (time_Now w) as [w1 now], (time_Now w1) as [w2 now']. unfold svc_RegisterNode.
  destruct (node_Ping _ _ w2) as [w3 e]. cbn -[wrap_i32 RegisterNode].
  pose proof (clusters_register now (cs_clusterID s) (cs_nodeID s) (cs_nodeHost s) (wrap_i32 (cs_nodePort s)) (cluster svc)) as Hr.
  destruct (RegisterNode _ _ _ _ _ _) as [m peers] eqn:HR. cbn [fst] in Hr. destruct Hr as (c & Hcid & Hp).
  exists w3. eexists. exists now.
  unfold GetClusterProtocol, GetCluster. rewrite lifecycle_cluster. cbn [cluster set_cluster]. rewrite Hcid. cbn -[wrap_i32 RegisterNode].
  assert ((if bool_decide (c_Protocol c = EmptyString) then "gossip" else c_Protocol c) = protocol_of (cs_clusterID s) (cluster svc)) as ->.
  { unfold protocol_of. rewrite Hp. by destruct (clusters (cluster svc) !! cs_clusterID s). }
  unfold assigned_key. cbn [rp_Status rp_Assigned as_Key]. rewrite bool_decide_false by (intros Hx; by apply Hx).
  rewrite bool_decide_false by apply protocol_of_named. split; [reflexivity|]. by rewrite lifecycle_cluster, HR.
Qed.

Lemma FetchPeers_spec s w svc :
  can_connect s →
  FetchPeers NewClient s (w, svc) =
  match GetNodes (cs_clusterID s) (cluster svc) with
  | Ok nodes => ((w, svc), set_conn true s, Ok (map peer_info nodes))
  | Err e => ((w, svc), set_conn false s, Err e)
  end.
Proof.
  intros Hc. unfold FetchPeers. rewrite connect_ok by done. cbn. unfold server_GetPeers, svc_GetNodes.
  by destruct (GetNodes (cs_clusterID s) (cluster svc)); destruct s.
Qed.

(** The peer other nodes are told of. *)
Definition discovered_peer (s : cpsession) : Peer :=
  let host := TrimSpace (cs_nodeHost s) in
  {| peer_ID := cs_nodeID s; peer_Host := if bool_decide (host = EmptyString) then "localhost" else host;
     peer_Port := cs_nodePort s `mod` 2 ^ 32 |}.

Lemma wrap_u32_i32 z : wrap_u32 (wrap_i32 z) = z `mod` 2 ^ 32.
Proof.
  unfold wrap_u32, wrap_i32. rewrite Zminus_mod_idemp_l. f_equal. lia.
Qed.

Lemma register_session svc svc' now (s : cpsession) cid id :
  manager_ok (cluster svc) →
  cluster svc' = (RegisterNode now (cs_clusterID s) (cs_nodeID s) (cs_nodeHost s) (wrap_i32 (cs_nodePort s)) (cluster svc)).1 →
  manager_ok (cluster svc') ∧
  node_at cid id (cluster svc') =
  (if bool_decide (cid = cs_clusterID s ∧ id = cs_nodeID s)
   then Some (newNode (cs_nodeID s) (cs_nodeHost s) (wrap_i32 (cs_nodePort s)) now)
   else node_at cid id (cluster svc)).
Proof. intros Hm ->. split; [by apply manager_ok_register|by apply node_at_register]. Qed.

(** Two nodes that register in one cluster find each other through the control
    plane: both registrations succeed with the protocol of the cluster, and when
    the second fetches its peers its runtime takes the first into its
    configuration, its session and its protocol, under the id and the host the
    first gave and its port as an unsigned 32-bit number. *)
Theorem registered_nodes_meet `{Env} (a b : cpsession) w svc r :
  can_connect a → can_connect b → manager_ok (cluster svc) →
  cs_clusterID b = cs_clusterID a → cs_nodeID a ≠ cs_nodeID b → cfg_ID (config r) = cs_nodeID b →
  ∃ (st1 st2 st3 : W * Service) b' p infos,
    Establish NewClient a (w, svc) = (st1, set_conn true a, Ok p) ∧
    Establish NewClient b st1 = (st2, set_conn true b, Ok p) ∧
    FetchPeers NewClient (set_conn true b) st2 = (st3, b', Ok infos) ∧
    ∃ r', getPeersFromControlplane (Ok infos) r = (r', None) ∧
      discovered_peer a ∈ cfg_Peers (config r') ∧
      (∀ q, q ∈ cfg_Peers (config r') → peer_ID q ≠ cs_nodeID b).
Proof.
  intros Ha Hb Hm Hcl Hne Hid.
  destruct (Establish_registers a w svc Ha Hm) as (w1 & svc1 & now1 & He1 & Hs1).
  destruct (register_session svc svc1 now1 a (cs_clusterID a) (cs_nodeID a) Hm Hs1) as [Hm1 Hn1].
  destruct (Establish_registers b w1 svc1 Hb Hm1) as (w2 & svc2 & now2 & He2 & Hs2).
  destruct (register_session svc1 svc2 now2 b (cs_clusterID a) (cs_nodeID a) Hm1 Hs2) as [Hm2 Hn2].
  rewrite bool_decide_true in Hn1 by done. rewrite bool_decide_false, Hn1 in Hn2 by naive_solver.
  assert (protocol_of (cs_clusterID b) (cluster svc1) = protocol_of (cs_clusterID a) (cluster svc)) as Hp.
  { rewrite Hcl, Hs1. unfold protocol_of.
    destruct (clusters_register now1 (cs_clusterID a) (cs_nodeID a) (cs_nodeHost a) (wrap_i32 (cs_nodePort a)) (cluster svc)) as (c & -> & ->).
    by destruct (clusters (cluster svc) !! cs_clusterID a). }
  rewrite Hp in He2.
  pose proof (FetchPeers_spec (set_conn true b) w2 svc2 (or_introl eq_refl)) as Hf. cbn [set_conn cs_clusterID] in Hf.
  destruct (GetNodes (cs_clusterID b) (cluster svc2)) as [nodes|e] eqn:Hg.
  2: { exfalso. unfold node_at in Hn2. unfold GetNodes in Hg. rewrite Hcl in Hg. by destruct (clusters (cluster svc2) !! cs_clusterID a). }
  exists (w1, svc1), (w2, svc2). eexists _, _, _, (map peer_info nodes). split_and!; [exact He1|exact He2|exact Hf|].
  eexists. split; [reflexivity|].
  assert (Hin : newNode (cs_nodeID a) (cs_nodeHost a) (wrap_i32 (cs_nodePort a)) now1 ∈ nodes).
  { apply (elem_of_GetNodes _ _ _ _ Hg). exists (cs_nodeID a). by rewrite Hcl. }
  unfold applyPeersTopology. cbn [config set_layers cfg_SetPeers cfg_with_peers cfg_Peers]. split.
  - apply list_elem_of_omap. exists (Some (peer_info (newNode (cs_nodeID a) (cs_nodeHost a) (wrap_i32 (cs_nodePort a)) now1))).
    split; [by apply list_elem_of_fmap_2, list_elem_of_fmap_2|].
    cbn. rewrite bool_decide_false by congruence. by rewrite wrap_u32_i32.
  - intros q (info & _ & Hq)%list_elem_of_omap. destruct info as [info|]; [|done]. cbn in Hq.
    case_bool_decide as Hi; [done|]. injection Hq as <-. cbn. congruence.
Qed.

(** The port a node registers goes through an int32 and is handed out as a
    uint32: peers get it modulo 2^32, the control plane itself calls the node
    back at the signed residue.  Both are the port of the node exactly when it
    is in the range of an int32 and not negative. *)
Theorem registered_port_bounds (s : cpsession) w svc :
  can_connect s → manager_ok (cluster svc) →
  ∃ st' p n, Establish NewClient s (w, svc) = (st', set_conn true s, Ok p) ∧
    node_at (cs_clusterID s) (cs_nodeID s) (cluster st'.2) = Some n ∧
    - 2 ^ 31 ≤ n_Port n < 2 ^ 31 ∧ 0 ≤ ni_Port (peer_info n) < 2 ^ 32 ∧
    (n_Port n = cs_nodePort s ∧ ni_Port (peer_info n) = cs_nodePort s ↔ 0 ≤ cs_nodePort s < 2 ^ 31).
Proof.
  intros Hc Hm. destruct (Establish_registers s w svc Hc Hm) as (w1 & svc1 & now & He & Hs).
  destruct (register_session svc svc1 now s (cs_clusterID s) (cs_nodeID s) Hm Hs) as [_ Hn].
  rewrite bool_decide_true in Hn by done. do 3 eexists. split; [exact He|]. split; [exact Hn|].
  cbn [newNode n_Port peer_info ni_Port]. rewrite wrap_u32_i32. unfold wrap_i32.
  pose proof (Z.mod_pos_bound (cs_nodePort s + 2 ^ 31) (2 ^ 32) ltac:(done)).
  pose proof (Z.mod_pos_bound (cs_nodePort s) (2 ^ 32) ltac:(done)).
  split_and!; [lia..|split].
  - intros [Hi Hu]. rewrite Hu in *. lia.
  - intros Hr. rewrite !Z.mod_small; lia.
Qed.

(** ** Nodes the control plane has dropped *)

Lemma Heartbeat_unknown s w svc :
  can_connect s → node_at (cs_clusterID s) (cs_nodeID s) (cluster svc) = None →
  manager_ok (cluster svc) →
  ∃ w' e, cp_Heartbeat NewClient s (w, svc) = ((w', svc), set_conn false s, Some e).
Proof.
  intros Hc Hn Hm. unfold cp_Heartbeat. rewrite connect_ok by done. cbn. destruct (time_Now w) as [w' now].
  unfold svc_Heartbeat, Heartbeat. exists w'. cbn.
  assert (∃ e, find_node cluster_invalid node_invalid (cs_clusterID s) (cs_nodeID s) (cluster svc) = Err e) as [e ->].
  { unfold find_node. unfold node_at in Hn. destruct (clusters (cluster svc) !! cs_clusterID s) as [c|] eqn:Hcl; [|by eexists].
    cbn in Hn. destruct (c_Nodes c !! cs_nodeID s) as [r|] eqn:Hr; [|by eexists]. cbn in Hn.
    destruct (ok_ref _ Hm _ _ _ _ Hcl Hr) as (_ & n & Hh & _). congruence. }
  exists e. by destruct svc, s.
Qed.

(** The control-plane loop of a node: [n] heartbeats, whatever they answer. *)
Fixpoint sync_cycles (n : nat) (s : cpsession) (st : W * Service) : (W * Service) * list (option error) :=
  match n with
  | O => (st, [])
  | S n =>
      let '(st, s, e) := cp_Heartbeat NewClient s st in
      let '(st, es) := sync_cycles n s st in (st, e :: es)
  end.

(** A node the control plane no longer knows does not come back by itself: its
    sync loop sends heartbeats only, all of them fail, and the table of the
    control plane stays as it is. *)
Theorem dropped_node_stays_out n s w svc :
  NewClient (cs_cpHost s +:+ ":" +:+ itoa (cs_cpPort s)) = None →
  node_at (cs_clusterID s) (cs_nodeID s) (cluster svc) = None → manager_ok (cluster svc) →
  ∃ w' es, sync_cycles n s (w, svc) = ((w', svc), es) ∧ length es = n ∧ Forall (λ e, e ≠ None) es.
Proof.
  revert s w; induction n as [|n IH]; intros s w Hd Hn Hm; [by exists w, []|].
  destruct (Heartbeat_unknown s w svc (or_intror Hd) Hn Hm) as (w1 & e & He).
  destruct (IH (set_conn false s) w1) as (w2 & es & Hs & Hl & Hf); [done..|].
  exists w2, (Some e :: es). cbn [sync_cycles]. rewrite He, Hs. split_and!; [done|cbn; lia|by constructor].
Qed.
End Sessions.

(** ** Witnesses *)

#[local] Existing Instance canonical_order.
#[local] Existing Instance demo_protobuf.
#[local] Existing Instance demo_operator.
#[local] Instance demo_clock : Clock (gmap string string) := stopped_clock _ 7.

Definition demo_cp (id : string) (port : Z) : cpsession := NewControlplaneSession id "c1" "localhost" 9091 " host1 " port.
Definition well_formed (addr : string) : option error := None.
Definition empty_service : Service := NewClusterService NewManager.
Definition node_b : Runtime :=
  {| config := {| cfg_ID := "b"; cfg_Port := 9002; cfg_Peers := []; cfg_ClusterID := "c1"; cfg_Host := "localhost";
                  cfg_ControlPlaneHost := "localhost"; cfg_ControlPlanePort := 9091 |};
     ns := NewNodeSession "localhost" "b" 9002; r_proto := None; eventCh := []; fault := None; started := false |}.

Lemma registered_nodes_meet_witness :
  ∃ (st1 st2 st3 : gmap string string * Service) b' p infos,
    Establish well_formed (demo_cp "a" 9001) (demo_store, empty_service) = (st1, set_conn true (demo_cp "a" 9001), Ok p) ∧
    Establish well_formed (demo_cp "b" 9002) st1 = (st2, set_conn true (demo_cp "b" 9002), Ok p) ∧
    FetchPeers well_formed (set_conn true (demo_cp "b" 9002)) st2 = (st3, b', Ok infos) ∧
    ∃ r', @getPeersFromControlplane (test_env 5) (Ok infos) node_b = (r', None) ∧
      {| peer_ID := "a"; peer_Host := "host1"; peer_Port := 9001 |} ∈ cfg_Peers (config r') ∧
      (∀ q, q ∈ cfg_Peers (config r') → peer_ID q ≠ "b").
Proof.
  apply (registered_nodes_meet (H2 := test_env 5) well_formed (demo_cp "a" 9001) (demo_cp "b" 9002) demo_store empty_service node_b);
    [by right|by right|exact manager_ok_new|done..].
Defined.

Lemma registered_port_bounds_witness :
  ∃ st' p n, Establish well_formed (demo_cp "a" 3000000000) (demo_store, empty_service) =
      (st', set_conn true (demo_cp "a" 3000000000), Ok p) ∧
    node_at "c1" "a" (cluster st'.2) = Some n ∧ n_Port n ≠ 3000000000.
Proof.
  destruct (registered_port_bounds well_formed (demo_cp "a" 3000000000) demo_store empty_service (or_intror eq_refl) manager_ok_new)
    as (st & p & n & He & Hn & Hp & _).
  exists st, p, n. split_and!; [exact He|exact Hn|lia].
Defined.

Lemma dropped_node_stays_out_witness :
  ∃ w' es, sync_cycles well_formed 3 (demo_cp "a" 9001) (demo_store, empty_service) = ((w', empty_service), es) ∧
    length es = 3%nat ∧ Forall (λ e, e ≠ None) es.
Proof.
  apply (dropped_node_stays_out well_formed 3 (demo_cp "a" 9001) demo_store empty_service); [done|done|exact manager_ok_new].
Defined.
