(* ===== verification/Reporting.v ===== *)
(** * From a node's log to the timeline

    Models internal/node/runtime/logger.go, the logger a protocol is given, and
    composes the way of a timeline event: gossip formats it and hands the line
    to the logger as a format, the logger formats it again and reports it
    through the session of the control plane, whose server records it.  The
    logger reports from a goroutine of its own, so this is one report; reports
    of several lines may overtake each other. *)

From S2P Require Import Prelude GoStrings GoTime TabWriter GoPrintf Protocol VectorClock Conflict Gossip Fault NodeConfig NodeRuntime Messages Cluster Metrics Sessions Service World CPServer.

(** ** runtime/logger.go *)

(** Whether there is a session to report to. *)
Record Logger := { lg_nodeID : string; lg_cp : bool; lg_prefix : string }.

Definition NewLogger (nodeID prefix : string) (cp : bool) : Logger := {| lg_nodeID := nodeID; lg_cp := cp; lg_prefix := prefix |}.

(** A line break at the end. *)
Fixpoint ends_with_newline (s : string) : bool :=
  match s with
  | EmptyString => false
  | String a EmptyString => is_byte 10 a
  | String _ r => ends_with_newline r
  end.

(** The text without its last byte. *)
Fixpoint drop_last (s : string) : string :=
  match s with
  | EmptyString | String _ EmptyString => EmptyString
  | String a r => String a (drop_last r)
  end.

Definition printed_line (l : Logger) (msg : string) : string :=
  if bool_decide (lg_prefix l = EmptyString) then
    msg +:+ (if bool_decide (msg = EmptyString) || ends_with_newline msg then EmptyString else newline)
  else "[" +:+ lg_prefix l +:+ "] " +:+ msg +:+ newline.

Definition cleanMsg (msg : string) : string := if ends_with_newline msg then drop_last msg else msg.

(** What is printed, and what is reported, of a formatted message. *)
Definition Logger_log (l : Logger) (msg : string) : string * option string :=
  (printed_line l msg, if lg_cp l then Some (cleanMsg msg) else None).

(** Printf with a format only. *)
Definition Logger_Printf (l : Logger) (format : string) : string * option string := Logger_log l (Sprintf format).

Section Report.
Context {S : Type} `{Orchestrator S} (NewClient : string → option error).

(** A line a protocol logs, reported at a time in milliseconds; the logger
    drops the error. *)
Definition report_line (now : Z) (l : Logger) (line : TimelineMsg) (cs : cpsession) (st : S) : S * cpsession :=
  match (Logger_Printf l (formatTimelineEvent line)).2 with
  | Some msg => (ReportLog NewClient now "INFO" msg cs st).1
  | None => (st, cs)
  end.
End Report.

(** The line the node's session logs when it sends a traced envelope. *)
Definition trace_line (env : Envelope) : option string :=
  if bool_decide (env_TraceMetadata env = EmptyString) then None
  else Some ("TRACE:SEND:" +:+ Join [env_From env; env_To env; env_TraceMetadata env; itoa (Z.of_nat (String.length (env_Payload env)))] ":").

(** ** A line passes the logger *)

Lemma ends_with_newline_app s t : t ≠ EmptyString → ends_with_newline (s +:+ t) = ends_with_newline t.
Proof.
  intros Ht. induction s as [|a s IH]; [done|]. change (String a s +:+ t) with (String a (s +:+ t)).
  rewrite <- IH. destruct s; [by destruct t|done].
Qed.

Lemma ends_with_newline_free s : byte_free (Ascii.ascii_of_nat 10) s = true → ends_with_newline s = false.
Proof.
  unfold byte_free. induction s as [|a s IH]; [done|]. cbn [str_forallb]. intros [Ha%negb_true_iff Hs]%andb_true_iff.
  specialize (IH Hs). destruct s; [|done]. cbn. unfold is_byte. apply N.eqb_neq. intros He.
  apply Ascii.eqb_neq in Ha. apply Ha. unfold byte_of in He. by rewrite <- (Ascii.ascii_N_embedding a), He.
Qed.

(** A line that ends with a number has no line break at its end. *)
Lemma cleanMsg_itoa p z : cleanMsg (p +:+ itoa z) = p +:+ itoa z.
Proof.
  unfold cleanMsg. assert (itoa z ≠ EmptyString) as Hne.
  { intros He. pose proof (ParseDecimal_itoa z) as Hp. by rewrite He in Hp. }
  rewrite ends_with_newline_app, ends_with_newline_free; [done|by apply itoa_byte_free|done].
Qed.

Lemma str_forallb_formatted (P : Ascii.ascii → bool) m :
  str_forallb P "TL_EVENT:" = true → P "|"%char = true → (∀ z, str_forallb P (itoa z) = true) →
  forallb (str_forallb P) [tm_type m; tm_key m; tm_value m; tm_origin m; tm_source m] = true →
  str_forallb P (formatTimelineEvent m) = true.
Proof.
  intros Hp Hbar Hz Hf. unfold formatTimelineEvent. rewrite str_forallb_app, Hp. apply str_forallb_Join; [done|].
  cbn [forallb] in *. rewrite !Hz. repeat match goal with H : _ && _ = true |- _ => apply andb_true_iff in H as [-> H] end. done.
Qed.

Lemma line_unchanged m : texts_free "%" m = true → cleanMsg (Sprintf (formatTimelineEvent m)) = formatTimelineEvent m.
Proof.
  intros Hf. rewrite Sprintf_free.
  - unfold formatTimelineEvent, Join. cbn [String.concat]. rewrite !append_assoc. apply cleanMsg_itoa.
  - apply str_forallb_formatted; [done|done| |done]. intros z. by apply itoa_byte_free.
Qed.

(** A value that ends with a percent sign takes the bar after it along. *)
Lemma percent_line m value :
  tm_value m = value +:+ "%" → forallb (byte_free "%") [tm_type m; tm_key m; value; tm_origin m; tm_source m] = true →
  cleanMsg (Sprintf (formatTimelineEvent m)) =
  "TL_EVENT:" +:+ Join [tm_type m; tm_key m; value +:+ "%!"; "(MISSING)" +:+ itoa (tm_version m); tm_origin m; tm_source m;
    itoa (tm_round m); itoa (tm_ts m)] "|".
Proof.
  intros Hv Hf. set (pre := "TL_EVENT:" +:+ tm_type m +:+ "|" +:+ tm_key m +:+ "|" +:+ value).
  set (post := itoa (tm_version m) +:+ "|" +:+ tm_origin m +:+ "|" +:+ tm_source m +:+ "|" +:+ itoa (tm_round m) +:+ "|" +:+ itoa (tm_ts m)).
  assert (formatTimelineEvent m = pre +:+ "%|" +:+ post) as ->.
  { unfold formatTimelineEvent, Join, pre, post. cbn [String.concat]. rewrite Hv, <- !append_assoc. done. }
  assert (byte_free "%" pre = true ∧ byte_free "%" post = true) as [Hpre Hpost].
  { unfold pre, post, byte_free. rewrite !str_forallb_app. cbn [forallb] in Hf.
    pose proof (λ z, itoa_byte_free "%" z eq_refl ltac:(done)) as Hz. unfold byte_free in Hz, Hf. rewrite !Hz.
    repeat match goal with H : _ && _ = true |- _ => apply andb_true_iff in H as [-> H] end. done. }
  rewrite Sprintf_percent_bar by done. unfold Join. cbn [String.concat].
  assert (∀ z, pre +:+ "%!|(MISSING)" +:+ itoa (tm_version m) +:+ "|" +:+ tm_origin m +:+ "|" +:+ tm_source m +:+ "|" +:+
    itoa (tm_round m) +:+ "|" +:+ z = "TL_EVENT:" +:+ (tm_type m) +:+ "|" +:+ tm_key m +:+ "|" +:+ (value +:+ "%!") +:+ "|" +:+
    ("(MISSING)" +:+ itoa (tm_version m)) +:+ "|" +:+ tm_origin m +:+ "|" +:+ tm_source m +:+ "|" +:+ itoa (tm_round m) +:+ "|" +:+ z) as He.
  { intros z. unfold pre. rewrite <- !append_assoc. done. }
  rewrite <- He. unfold post. rewrite !append_assoc. apply cleanMsg_itoa.
Qed.

Section Recorded.
Context {W : Type} `{RangeOrder, NodeOperator W, Clock W} (NewClient : string → option error).

(** The request a report makes. *)
Definition log_request (now : Z) (cs : cpsession) (msg : string) : LogRequest :=
  {| lr_ClusterId := cs_clusterID cs; lr_NodeId := cs_nodeID cs; lr_Timestamp := now; lr_Level := "INFO"; lr_Message := msg |}.

Lemma report_line_server now l line cs (w : W) s :
  lg_cp l = true → cs_conn cs = true →
  report_line NewClient now l line cs (w, s) =
  (((time_Now w).1, BroadcastLog (time_Now w).2 (Some (log_request now cs (cleanMsg (Sprintf (formatTimelineEvent line))))) s), cs).
Proof.
  intros Hl Hc. unfold report_line, Logger_Printf, Logger_log. rewrite Hl. cbn [snd]. unfold ReportLog, connect. rewrite Hc.
  cbn [call_ReportLog server server_ReportLog]. unfold server_ReportLog. by destruct (time_Now w).
Qed.

(** The event recorded is the one the line carries. *)
Lemma report_recorded now l line cs (w : W) s sess :
  lg_cp l = true → cs_conn cs = true → texts_free "%" line = true → texts_free "|" line = true →
  in_i64 (tm_version line) → in_u64 (tm_round line) → in_i64 (tm_ts line) → 0 < now →
  last (history (metrics s) (TrimSpace (cs_clusterID cs))) = Some sess → StoppedAt sess = None →
  last (history (metrics (report_line NewClient now l line cs (w, s)).1.2) (TrimSpace (cs_clusterID cs))) =
  Some (add_event (TrimSpace (tm_key line)) (now * 1000000) (event_of (cs_nodeID cs) line) sess).
Proof.
  intros Hl Hc Hp Hb Hv Hr Hts Hnow Hlast Hst. rewrite report_line_server, line_unchanged by done. cbn [fst snd].
  set (r := log_request now cs (formatTimelineEvent line)).
  assert (Hparse : parseTimelineLog r = Some (event_of (cs_nodeID cs) line)).
  { unfold texts_free in Hb. cbn [forallb] in Hb.
    rewrite (timeline_fields_parsed r line (tm_value line) (itoa (tm_version line))); [|done| |done|done].
    - by rewrite ParseInt_itoa.
    - cbn [forallb]. rewrite itoa_byte_free by done.
      repeat match goal with H : _ && _ = true |- _ => apply andb_true_iff in H as [-> H] end. done. }
  by apply (timeline_event_recorded (time_Now w).2 r _ s sess Hparse); [apply HasPrefix_app|..].
Qed.

(** A traced send is counted once, and records nothing else. *)
Lemma trace_counted now l env msg cs (w : W) s :
  lg_cp l = true → cs_conn cs = true → trace_line env = Some msg →
  ∃ line s', (Logger_log l msg).2 = Some line ∧
    ReportLog NewClient now "INFO" line cs (w, s) = (((time_Now w).1, s'), cs, None) ∧
    totalRPCs s' = <[cs_clusterID cs := wrap_u64 (count (totalRPCs s) (cs_clusterID cs) + 1)]> (totalRPCs s) ∧
    metrics s' = metrics s ∧ totalWrites s' = totalWrites s.
Proof.
  intros Hl Hc Hmsg.
  assert (Hfacts : cleanMsg msg = msg ∧ Contains msg "TRACE:SEND:" = true ∧ HasPrefix msg "TL_EVENT:" = false).
  { unfold trace_line in Hmsg. case_bool_decide; [done|]. injection Hmsg as <-. unfold Join. cbn [String.concat].
    assert (∀ t, Contains ("TRACE:SEND:" +:+ t) "TRACE:SEND:" = true) as Hc' by (by intros []).
    split_and!; [rewrite !append_assoc; apply cleanMsg_itoa|apply Hc'|done]. }
  destruct Hfacts as (Hclean & Hcontains & Hprefix).
  exists msg, (BroadcastLog (time_Now w).2 (Some (log_request now cs msg)) s). unfold Logger_log. rewrite Hl. cbn [snd].
  rewrite Hclean. split; [done|]. split.
  - unfold ReportLog, connect. rewrite Hc. cbn [call_ReportLog server]. unfold server_ReportLog. by destruct (time_Now w).
  - unfold BroadcastLog. cbn [lr_Message log_request]. by rewrite Hcontains, Hprefix.
Qed.

(** C38: A write at a node reaches the timeline as it was made. Put at a gossip
    node that has a logger logs one line; when the logger reports it over an
    open session to a control plane whose metrics session of the cluster is
    active, the event recorded under the key holds the value, the version, the
    origin and the time that the store of the node holds now. The key, the
    value and the id of the node hold no bar and no percent sign. *)
Theorem write_reaches_timeline `{Env} key data g l cs now (w : W) s sess :
  logger g = true → lg_cp l = true → cs_conn cs = true → 0 < now →
  forallb (byte_free "%") [key; data; nodeID g] = true → forallb (byte_free "|") [key; data; nodeID g] = true →
  in_i64 (Protocol.now 7) → in_u64 (Protocol.now 32) →
  last (history (metrics s) (TrimSpace (cs_clusterID cs))) = Some sess → StoppedAt sess = None →
  ∃ g' line v, Put key data g = (g', [line]) ∧ store g' !! key = Some v ∧ Data v = data ∧
    last (history (metrics (report_line NewClient now l line cs (w, s)).1.2) (TrimSpace (cs_clusterID cs))) =
    Some (add_event (TrimSpace key) (now * 1000000)
      {| te_Time := 0; te_NodeID := cs_nodeID cs; te_Key := key; te_Value := Data v; te_Version := Version v;
         te_Origin := Origin v; te_Source := nodeID g; te_EventType := TimelineEventWrite; te_Round := Protocol.now 32;
         te_LWWTimestamp := Timestamp v |} sess).
Proof.
  intros Hlog Hl Hc Hnow Hp Hb Hts Hr Hlast Hst. unfold Put. set (v := {| Data := data |}). unfold emitTimelineEvent at 1.
  change (logger (set_store _ g)) with (logger g). rewrite Hlog. eexists _, _, v. split_and!; [done|by apply lookup_insert_eq|done|].
  set (line := {| tm_type := TimelineEventWrite |}). cbn [forallb] in Hp, Hb.
  repeat match goal with H : _ && _ = true |- _ => apply andb_true_iff in H as [? H] end.
  assert (Hfree : ∀ c, byte_free c TimelineEventWrite = true → byte_free c key = true → byte_free c data = true →
    byte_free c (nodeID g) = true → texts_free c line = true).
  { intros c Ht Hk Hd Hn. unfold texts_free. cbn [forallb line tm_type tm_key tm_value tm_origin tm_source]. by rewrite Ht, Hk, Hd, Hn. }
  assert (in_i64 (tm_version line)) as Hv.
  { cbn [line tm_version]. destruct (store g !! key); [apply wrap_i64_range|]. unfold in_i64, two63. lia. }
  apply (report_recorded now l line cs w s sess); try done; by apply Hfree.
Qed.

(** A line whose value ends with a percent sign. *)
Lemma percent_recorded now l line value cs (w : W) s sess :
  lg_cp l = true → cs_conn cs = true → tm_value line = value +:+ "%" →
  let line' := {| tm_type := tm_type line; tm_key := tm_key line; tm_value := value; tm_version := tm_version line;
    tm_origin := tm_origin line; tm_source := tm_source line; tm_round := tm_round line; tm_ts := tm_ts line |} in
  texts_free "%" line' = true → texts_free "|" line' = true →
  in_u64 (tm_round line) → in_i64 (tm_ts line) → 0 < now →
  last (history (metrics s) (TrimSpace (cs_clusterID cs))) = Some sess → StoppedAt sess = None →
  last (history (metrics (report_line NewClient now l line cs (w, s)).1.2) (TrimSpace (cs_clusterID cs))) =
  Some (add_event (TrimSpace (tm_key line)) (now * 1000000)
    {| te_Time := 0; te_NodeID := cs_nodeID cs; te_Key := tm_key line; te_Value := value +:+ "%!"; te_Version := 0;
       te_Origin := tm_origin line; te_Source := tm_source line; te_EventType := tm_type line; te_Round := tm_round line;
       te_LWWTimestamp := tm_ts line |} sess).
Proof.
  intros Hl Hc Hvalue line' Hp Hb Hr Hts Hnow Hlast Hst. rewrite report_line_server by done. cbn [fst snd].
  set (r := log_request now cs _). unfold texts_free in Hp, Hb. cbn [forallb line' tm_type tm_key tm_value tm_origin tm_source] in Hp, Hb.
  assert (Hm : lr_Message r = "TL_EVENT:" +:+ Join [tm_type line; tm_key line; value +:+ "%!"; "(MISSING)" +:+ itoa (tm_version line);
    tm_origin line; tm_source line; itoa (tm_round line); itoa (tm_ts line)] "|") by (by apply percent_line).
  set (event := {| te_Time := 0 |}). assert (Hparse : parseTimelineLog r = Some event).
  { rewrite (timeline_fields_parsed r line (value +:+ "%!") ("(MISSING)" +:+ itoa (tm_version line))); [done|done| |done|done].
    cbn [forallb]. unfold byte_free in *. rewrite !str_forallb_app.
    pose proof (itoa_byte_free "|" (tm_version line) eq_refl ltac:(done)) as Hz. unfold byte_free in Hz. rewrite Hz.
    repeat match goal with H : _ && _ = true |- _ => apply andb_true_iff in H as [-> H] end. done. }
  by apply (timeline_event_recorded (time_Now w).2 r _ s sess Hparse); [rewrite Hm; apply HasPrefix_app|..].
Qed.

(** C39: A value that ends with a percent sign is written as it is but misreported.
    Let the key, the value up to that sign, and the id of the node hold no bar and
    no percent sign, and the clocks be in range.  Put at a gossip node that has a
    logger stores the whole
    value, under the next version, and logs one line.  The logger takes the line as
    a format, so the sign and the bar after it are a directive without an operand:
    when the line is reported over an open session to a control plane whose metrics
    session of the cluster is active, what is recorded under the key is the value
    with an exclamation mark after the percent sign, under version 0. *)
Theorem percent_value_misreported `{Env} key value g l cs now (w : W) s sess :
  logger g = true → lg_cp l = true → cs_conn cs = true → 0 < now →
  forallb (byte_free "%") [key; value; nodeID g] = true → forallb (byte_free "|") [key; value; nodeID g] = true →
  in_i64 (Protocol.now 7) → in_u64 (Protocol.now 32) →
  last (history (metrics s) (TrimSpace (cs_clusterID cs))) = Some sess → StoppedAt sess = None →
  ∃ g' line v, Put key (value +:+ "%") g = (g', [line]) ∧ store g' !! key = Some v ∧ Data v = value +:+ "%" ∧
    Version v = match store g !! key with Some old => wrap_i64 (Version old + 1) | None => 1 end ∧
    last (history (metrics (report_line NewClient now l line cs (w, s)).1.2) (TrimSpace (cs_clusterID cs))) =
    Some (add_event (TrimSpace key) (now * 1000000)
      {| te_Time := 0; te_NodeID := cs_nodeID cs; te_Key := key; te_Value := value +:+ "%!"; te_Version := 0;
         te_Origin := Origin v; te_Source := nodeID g; te_EventType := TimelineEventWrite; te_Round := Protocol.now 32;
         te_LWWTimestamp := Timestamp v |} sess).
Proof.
  intros Hlog Hl Hc Hnow Hp Hb Hts Hr Hlast Hst. unfold Put. set (v := {| Data := value +:+ "%" |}). unfold emitTimelineEvent at 1.
  change (logger (set_store _ g)) with (logger g). rewrite Hlog. eexists _, _, v.
  split_and!; [done|by apply lookup_insert_eq|done|reflexivity|].
  set (line := {| tm_type := TimelineEventWrite |}). cbn [forallb] in Hp, Hb.
  repeat match goal with H : _ && _ = true |- _ => apply andb_true_iff in H as [? H] end.
  by apply (percent_recorded now l line value cs w s sess); try done;
    unfold texts_free; cbn [forallb line tm_type tm_key tm_value tm_origin tm_source];
    repeat match goal with H : byte_free _ _ = true |- _ => rewrite H end.
Qed.
End Recorded.

(** ** Witnesses *)

#[local] Existing Instance demo_protobuf.
#[local] Existing Instance demo_operator.
#[local] Instance demo_clock : Clock (gmap string string) := stopped_clock _ 7.
#[local] Instance demo_env : Env := test_env 5.

Definition demo_logger : Logger := NewLogger "n1" "runtime" true.

Definition demo_reporter : cpsession := set_conn true (NewControlplaneSession "n1" "c1" "localhost" 9091 "localhost" 9001).

Definition demo_gossip : GossipProtocol := Gossip.SetLogger (Gossip.Start "n1" NewGossipProtocol).

Lemma write_reaches_timeline_witness :
  ∃ g' line v, Put "k" "v" demo_gossip = (g', [line]) ∧ store g' !! "k" = Some v ∧ Data v = "v" ∧
    last (history (metrics (report_line (λ _, None) 2 demo_logger line demo_reporter (demo_store, demo_service)).1.2) (TrimSpace (cs_clusterID demo_reporter))) =
    Some (add_event (TrimSpace "k") (2 * 1000000)
      {| te_Time := 0; te_NodeID := cs_nodeID demo_reporter; te_Key := "k"; te_Value := Data v; te_Version := Version v;
         te_Origin := Origin v; te_Source := nodeID demo_gossip; te_EventType := TimelineEventWrite; te_Round := Protocol.now 32;
         te_LWWTimestamp := Timestamp v |} (latest "c1" demo_session)).
Proof.
  apply (write_reaches_timeline (λ _, None) "k" "v" demo_gossip demo_logger demo_reporter 2 demo_store demo_service (latest "c1" demo_session));
    [done|done|done|lia|vm_compute; reflexivity|vm_compute; reflexivity|split; vm_compute; congruence|
     split; vm_compute; congruence|vm_compute; reflexivity|vm_compute; reflexivity].
Defined.

Lemma percent_value_misreported_witness :
  ∃ g' line v, Put "load" "50%" demo_gossip = (g', [line]) ∧ store g' !! "load" = Some v ∧ Data v = "50%" ∧ Version v = 1 ∧
    last (history (metrics (report_line (λ _, None) 2 demo_logger line demo_reporter (demo_store, demo_service)).1.2) (TrimSpace (cs_clusterID demo_reporter))) =
    Some (add_event (TrimSpace "load") (2 * 1000000)
      {| te_Time := 0; te_NodeID := cs_nodeID demo_reporter; te_Key := "load"; te_Value := "50%!"; te_Version := 0;
         te_Origin := Origin v; te_Source := nodeID demo_gossip; te_EventType := TimelineEventWrite; te_Round := Protocol.now 32;
         te_LWWTimestamp := Timestamp v |} (latest "c1" demo_session)).
Proof.
  apply (percent_value_misreported (λ _, None) "load" "50" demo_gossip demo_logger demo_reporter 2 demo_store demo_service (latest "c1" demo_session));
    [done|done|done|lia|vm_compute; reflexivity|vm_compute; reflexivity|split; vm_compute; congruence|
     split; vm_compute; congruence|vm_compute; reflexivity|vm_compute; reflexivity].
Defined.

(** Any line that holds the mark of a trace counts as a send, so a key can. *)
Example key_counts_as_send :
  count (totalRPCs (report_line (λ _, None) 2 demo_logger
    {| tm_type := TimelineEventWrite; tm_key := "TRACE:SEND:"; tm_value := "v"; tm_version := 1; tm_origin := "n1"; tm_source := "n1";
       tm_round := 12; tm_ts := 99 |} demo_reporter (demo_store, demo_service)).1.2) "c1" = 1.
Proof. vm_compute. reflexivity. Qed.
