(* ===== verification/NodeServer.v ===== *)
(** * The node's RPC surface and the control plane's clients

    Models internal/node/server.go (the handlers a node exposes),
    internal/controlplane/rpc/node_client.go and controlplane/session/node.go
    (the calls of the control plane), and composes them: a network of node
    processes by address implements the interface NodeOperator of the service.
    gRPC itself is the lookup of the address: a call to an address where no node
    runs fails. *)

From Stdlib Require Import SpecFloat.
From S2P Require Import Prelude GoStrings Protocol VectorClock Conflict Gossip GossipProps Baseline Fault NodeConfig NodeSession Messages NodeRuntime RuntimeProps Cluster Metrics Sessions Service.

(** ** server.go *)

(** A node process: its runtime, and whether Stop has cancelled it. *)
Record NodeProcess := { np_runtime : Runtime; np_stopped : bool }.

Definition set_runtime (r : Runtime) (n : NodeProcess) : NodeProcess :=
  {| np_runtime := r; np_stopped := np_stopped n |}.

(** [status.Error(codes.Unavailable, ...)] *)
Definition unavailable (msg : string) : error := Errorf msg [].

(** The gate most handlers start with. *)
Definition node_gate (n : NodeProcess) : bool := t_Allow (runtime_BeforeTick (np_runtime n)).

Definition rpc_Ping (n : NodeProcess) : result string :=
  if negb (node_gate n) then Err (unavailable "node is crashed") else Ok "Pong".

Record HandshakeRequest := { hs_NodeId : string; hs_Addr : string; hs_Port : Z }.

(** The answers carry a success flag and a message. *)
Definition rpc_Handshake (req : option HandshakeRequest) (n : NodeProcess) : result (bool * string) :=
  if negb (node_gate n) then Err (unavailable "node is crashed")
  else match req with
       | None => Ok (false, "handshake request is nil")
       | Some h =>
           if bool_decide (hs_NodeId h = EmptyString) then Ok (false, "node_id is required")
           else if bool_decide (hs_Addr h = EmptyString) then Ok (false, "addr is required")
           else if (hs_Port h <=? 0) then Ok (false, "port must be > 0")
           else Ok (true, "handshake successful")
       end.

Definition rpc_StopNode (n : NodeProcess) : NodeProcess := {| np_runtime := np_runtime n; np_stopped := true |}.

(** The id part of the From field. *)
Definition envelope_sender (from : string) : string :=
  match IndexByte from "@"%char with Some idx => str_take idx from | None => from end.

Definition rpc_SendEnvelope (req : option EnvelopeRequest) (n : NodeProcess) : NodeProcess * result (bool * string) :=
  if negb (node_gate n) then (n, Err (unavailable "node is crashed"))
  else match req with
       | None => (n, Ok (false, "nil envelope"))
       | Some req =>
           let sender := envelope_sender (er_From req) in
           if negb (r_Allow (runtime_BeforeReceive sender (np_runtime n))) then (n, Err (unavailable "partitioned"))
           else (set_runtime (HandleEnvelope req (np_runtime n)) n, Ok (true, "delivered"))
       end.

(** The message of a refused request is the error of the runtime. *)
Definition rpc_SetFaultParams `{RangeOrder} (req : option FaultRequest) (n : NodeProcess) :
    NodeProcess * (bool * error) :=
  match req with
  | None => (n, (false, Errorf "nil fault request" []))
  | Some _ =>
      match runtime_SetFaultParams req (np_runtime n) with
      | (r, Some e) => (set_runtime r n, (false, e))
      | (r, None) => (set_runtime r n, (true, Errorf "fault parameters applied" []))
      end
  end.

(** The processes by address. *)
Abbreviation network := (gmap (string * Z) NodeProcess).

Section Handlers.
Context `{Env, Codec GossipMessage, Codec MembershipEvent, Protobuf, PeerRPC, SendEnv}.

(** A panic of the reactor ends the process: the caller sees the connection
    break.  An action always gets its reply; the context of the caller may end
    earlier, which is a failed call of the network. *)
Definition broken : error := unavailable "connection closed".
Definition dead (n : NodeProcess) : NodeProcess := {| np_runtime := np_runtime n; np_stopped := true |}.

Definition rpc_ExecuteAction (req : option ActionRequest) (n : NodeProcess) : NodeProcess * result ActionResponse :=
  if negb (node_gate n) then (n, Err (unavailable "node is crashed"))
  else match req with
       | None => (n, Ok (fail_ "nil action request"))
       | Some _ =>
           match runtime_ExecuteAction req (np_runtime n) with
           | Panic _ => (dead n, Err broken)
           | Done (r, None) => (set_runtime r n, Err broken)
           | Done (r, Some resp) => (set_runtime r n, Ok resp)
           end
       end.

Record ProtocolAssignment := { pa_Key : string; pa_Epoch : Z }.

(** The assigned protocol of a request may be missing. *)
Definition rpc_ChangeProtocol (req : option (option ProtocolAssignment)) (n : NodeProcess) :
    NodeProcess * result (bool * error) :=
  if negb (node_gate n) then (n, Err (unavailable "node is crashed"))
  else match req with
       | None => (n, Ok (false, Errorf "nil change protocol request" []))
       | Some None => (n, Ok (false, Errorf "assigned_protocol is required" []))
       | Some (Some a) =>
           if bool_decide (pa_Key a = EmptyString)
           then (n, Ok (false, Errorf "assigned_protocol.key is required" []))
           else match runtime_ProtocolSwap (pa_Key a) (np_runtime n) with
                | Panic _ => (dead n, Err broken)
                | Done (r, Some e) => (set_runtime r n, Ok (false, e))
                | Done (r, None) => (set_runtime r n, Ok (true, Errorf "protocol change acknowledged" []))
                end
       end.

(** ** node_client.go, session/node.go

    The network holds the processes by address. *)

Definition unreachable : error := Errorf "connection refused" [].

Definition on_node {A} (host : string) (port : Z) (call : NodeProcess → NodeProcess * result A) (w : network) :
    network * result A :=
  match w !! (host, port) with
  | Some n =>
      if np_stopped n then (w, Err unreachable)
      else let '(n, res) := call n in (<[(host, port) := n]> w, res)
  | None => (w, Err unreachable)
  end.

Definition errorOf {A} (r : result A) : option error := match r with Ok _ => None | Err e => Some e end.

Definition client_StopNode (host : string) (port : Z) (w : network) : network * option error :=
  match on_node host port (λ n, (rpc_StopNode n, Ok tt)) w with
  | (w, Ok _) => (w, None)
  | (w, Err e) => (w, Some (Wrapf "StopNode RPC failed: %w" [] e))
  end.

Definition client_Ping (host : string) (port : Z) (w : network) : network * option error :=
  let '(w, res) := on_node host port (λ n, (n, rpc_Ping n)) w in (w, errorOf res).

Definition client_ExecuteAction (host : string) (port : Z) (req : ActionRequest) (w : network) :
    network * result ActionResponse :=
  on_node host port (rpc_ExecuteAction (Some req)) w.

Definition client_SwapProtocol (host : string) (port : Z) (clusterID nodeID protocolKey : string) (epoch : Z)
    (w : network) : network * option error :=
  match on_node host port (rpc_ChangeProtocol (Some (Some {| pa_Key := protocolKey; pa_Epoch := epoch |}))) w with
  | (w, Err e) => (w, Some (Wrapf "ChangeProtocol RPC failed: %w" [] e))
  | (w, Ok (false, msg)) => (w, Some (Wrapf "ChangeProtocol rejected: %s" [] msg))
  | (w, Ok (true, _)) => (w, None)
  end.

#[export] Instance NodeClient : NodeOperator network := {|
  node_StopNode := client_StopNode;
  node_Ping := client_Ping;
  node_ExecuteAction := client_ExecuteAction;
  node_SwapProtocol := client_SwapProtocol;
|}.

(** The fault request of a fault state: the delay is cut to an int32. *)
Definition faultRequest (nodeID : string) (params : FaultState) : FaultRequest :=
  {| fr_NodeId := nodeID; fr_Crashed := fs_Crashed params; fr_DropRate := fs_DropRate params;
     fr_DelayMs := wrap_i32 (fs_DelayMs params); fr_Partition := fs_Partition params |}.

Definition session_SetFaultParams (call : FaultCall) (w : network) : network * option error :=
  match on_node (fc_Host call) (fc_Port call)
          (λ n, let '(n, res) := rpc_SetFaultParams (Some (faultRequest (fc_NodeID call) (fc_Params call))) n in (n, Ok res)) w with
  | (w, Err e) => (w, Some (Wrapf "SetFaultParams RPC failed: %w" [] e))
  | (w, Ok (false, msg)) => (w, Some (Wrapf "SetFaultParams rejected: %s" [] msg))
  | (w, Ok (true, _)) => (w, None)
  end.
End Handlers.

(** ** Lemmas *)

Section Crashed.
Context `{Env, Codec GossipMessage, Codec MembershipEvent, Protobuf, PeerRPC, SendEnv}.

Lemma gate_crashed n e : fault (np_runtime n) = Some e → crashed e = true → node_gate n = false.
Proof. intros Hf He. unfold node_gate, runtime_BeforeTick. rewrite Hf. cbn. unfold IsCrashed. by rewrite He. Qed.

(** C10: A node that fault injection has crashed says nothing to its peers and
    serves no call.  Every call but a fault request and a stop is refused and
    changes nothing, its timers do nothing, it sends no heartbeat.  Handling an
    event that is still queued sends no message to a peer: what it may put out is,
    towards the control plane, the log lines of a message or a call and the
    capabilities after a protocol swap, and, to whoever waits for it, the answer of
    a call or of a swap that was let in before.  A valid fault request that clears
    the flag opens the gate again. *)
Theorem crashed_node_is_silent n e :
  fault (np_runtime n) = Some e → crashed e = true →
  is_ok (rpc_Ping n) = false ∧
  (∀ req, is_ok (rpc_Handshake req n) = false) ∧
  (∀ req, (rpc_SendEnvelope req n).1 = n ∧ is_ok (rpc_SendEnvelope req n).2 = false) ∧
  (∀ req, (rpc_ExecuteAction req n).1 = n ∧ is_ok (rpc_ExecuteAction req n).2 = false) ∧
  (∀ req, (rpc_ChangeProtocol req n).1 = n ∧ is_ok (rpc_ChangeProtocol req n).2 = false) ∧
  (∀ stopped, driver_tick stopped (np_runtime n) = np_runtime n) ∧
  (∀ draw c, probeTick (Some (engine_decider draw (fault (np_runtime n)))) c (ns (np_runtime n)) = ns (np_runtime n)) ∧
  (∀ answer, sendHeartbeatToControlPlane answer (np_runtime n) = None) ∧
  (∀ ev r out, handle_event ev (np_runtime n) = Done (r, out) → Forall (leftover ev) out) ∧
  (∀ p, (rpc_SetFaultParams (Some p) n).2.1 = true → fr_Crashed p = false → node_gate (rpc_SetFaultParams (Some p) n).1 = true).
Proof.
  intros Hf He. pose proof (gate_crashed n e Hf He) as Hg.
  assert (t_Allow (runtime_BeforeTick (np_runtime n)) = false) as Ht by exact Hg.
  split_and!.
  - unfold rpc_Ping. by rewrite Hg.
  - intros req. unfold rpc_Handshake. by rewrite Hg.
  - intros req. unfold rpc_SendEnvelope. by rewrite Hg.
  - intros req. unfold rpc_ExecuteAction. by rewrite Hg.
  - intros req. unfold rpc_ChangeProtocol. by rewrite Hg.
  - intros stopped. unfold driver_tick. by rewrite Ht.
  - intros draw c. unfold probeTick. rewrite Hf. cbn. unfold IsCrashed. by rewrite He.
  - intros answer. unfold sendHeartbeatToControlPlane. by rewrite Ht.
  - intros ev r out. by apply handle_event_crashed with e.
  - intros p Hok Hc. unfold rpc_SetFaultParams in *.
    destruct (runtime_SetFaultParams (Some p) (np_runtime n)) as [r [err|]] eqn:Hset; [done|].
    destruct (accepted_fault_request p e (np_runtime n) r Hf Hset) as (e' & -> & Hce).
    unfold node_gate, runtime_BeforeTick. cbn. unfold IsCrashed. by rewrite Hce, Hc.
Qed.
End Crashed.

(** ** Reads after writes *)

Section EndToEnd.
Context `{Env, Codec GossipMessage, Codec MembershipEvent, Protobuf, PeerRPC, SendEnv}.

(** A process that runs gossip and has worked off its queue. *)
Definition serves (n : NodeProcess) (g : GossipProtocol) : Prop :=
  np_stopped n = false ∧ node_gate n = true ∧ eventCh (np_runtime n) = [] ∧ r_proto (np_runtime n) = Some (PGossip g).

Lemma rpc_put n g key value bytes id :
  serves n g → Unmarshal_KVPutRequest bytes = Some {| put_Key := key; put_Value := value |} →
  ∃ n', rpc_ExecuteAction (Some (kvAction id KV_PUT bytes)) n = (n', Ok (success EmptyString)) ∧
    serves n' (Gossip.Put key value g).1.
Proof.
  intros (Hst & Hg & Hq & Hp) Hb. unfold rpc_ExecuteAction. rewrite Hg. cbn [negb].
  unfold runtime_ExecuteAction. rewrite Hq. cbn [app drain handle_event]. unfold handleActionEvent.
  cbn [ar_Action kvAction ar_Payload]. rewrite Hb. cbn [r_proto set_queue set_layers]. rewrite Hp.
  cbn [PutAction put_Key put_Value]. destruct (Gossip.Put key value g) as [g' lines]. cbn [fst].
  unfold last_reply. rewrite app_nil_r, last_snoc. eexists. split; [done|]. done.
Qed.

Lemma rpc_get n g key value version origin bytes id :
  serves n g → GetWithMetadata key g = (value, version, origin, true) → origin ≠ EmptyString →
  Unmarshal_KVGetRequest bytes = Some key →
  (∃ bytes', Marshal_KVGetResponse {| kg_Value := value; kg_Version := version; kg_Origin := origin; kg_HasMetadata := true |} = Some bytes' ∧
    ∃ n', rpc_ExecuteAction (Some (kvAction id KV_GET bytes)) n = (n', Ok (success bytes'))) ∨
  Marshal_KVGetResponse {| kg_Value := value; kg_Version := version; kg_Origin := origin; kg_HasMetadata := true |} = None.
Proof.
  intros (Hst & Hg & Hq & Hp) Hget Ho Hb. unfold rpc_ExecuteAction. rewrite Hg. cbn [negb].
  unfold runtime_ExecuteAction. rewrite Hq. cbn [app drain handle_event]. unfold handleActionEvent.
  cbn [ar_Action kvAction ar_Payload]. rewrite Hb. cbn [r_proto set_queue set_layers]. rewrite Hp.
  cbn [GetActionWithMetadata]. rewrite Hget. cbn [md_Version md_Origin md_Value].
  rewrite (bool_decide_true (origin ≠ EmptyString)), orb_true_r by done.
  destruct (Marshal_KVGetResponse _) as [bytes'|]; [left|by right]. exists bytes'. split; [done|].
  unfold last_reply. cbn. by eexists.
Qed.

Definition next_version (key : string) (g : GossipProtocol) : Z :=
  match store g !! key with Some v => wrap_i64 (Version v + 1) | None => 1 end.

Lemma get_after_put key value g :
  GetWithMetadata key (Gossip.Put key value g).1 = (value, next_version key g, nodeID g, true).
Proof. unfold GetWithMetadata, Gossip.Put, next_version. cbn [fst store set_store]. by rewrite lookup_insert_eq. Qed.

Lemma next_version_range key g : in_i64 (next_version key g).
Proof. unfold next_version. destruct (store g !! key); [apply wrap_i64_range|]. unfold in_i64, two63. lia. Qed.

Lemma node_ExecuteAction_on (host : string) (port : Z) (req : ActionRequest) (w : network) (n n' : NodeProcess) res :
  w !! (host, port) = Some n → np_stopped n = false → rpc_ExecuteAction (Some req) n = (n', res) →
  node_ExecuteAction host port req w = (<[(host, port) := n']> w, res).
Proof. intros Hn Hst Hr. cbn. unfold client_ExecuteAction, on_node. by rewrite Hn, Hst, Hr. Qed.

(** C8: A key that is written through the service can be read back through the
    service from the same node: the value, the node as its origin, the next
    version and the metadata flag come back through both encodings, the RPC gate,
    the reactor and the gossip store, and the write is counted. *)
Theorem service_read_your_write `{!ProtobufLaws} (clusterID id key value : string) (s : Service)
    (w : network) (nd : Node) (n : NodeProcess) (g : GossipProtocol) :
  node_of clusterID id s = Ok nd → w !! (n_Address nd, n_Port nd) = Some n → serves n g → nodeID g ≠ EmptyString →
  proto_string key → proto_string value → proto_string (nodeID g) →
  ∃ w' s' w'', ExecuteKVPut clusterID id key value s w = (w', s', None) ∧
    count (totalWrites s') clusterID = wrap_u64 (count (totalWrites s) clusterID + 1) ∧
    ExecuteKVGet clusterID id key s' w' =
      (w'', Ok {| Value_ := value; Version_ := next_version key g; Origin_ := nodeID g; HasMetadata_ := true |}).
Proof.
  intros Hnd Hn Hs Hid Hk Hv Hi.
  destruct (rpc_put n g key value _ id Hs (put_request_roundtrip key value Hk Hv)) as (n1 & Hput & Hs1).
  pose proof (node_ExecuteAction_on _ _ _ _ _ _ _ Hn (proj1 Hs) Hput) as Hcall.
  set (w' := <[(n_Address nd, n_Port nd) := n1]> w) in *.
  unfold ExecuteKVPut. rewrite Hnd, Hcall. cbn [rsp_Success success negb].
  set (s' := set_counts _ _ _ s).
  assert (w' !! (n_Address nd, n_Port nd) = Some n1) as Hn1 by apply lookup_insert_eq.
  destruct (get_response_roundtrip {| kg_Value := value; kg_Version := next_version key g; kg_Origin := nodeID g; kg_HasMetadata := true |}
    Hv Hi (next_version_range key g)) as (bytes & Hm & Hu).
  destruct (rpc_get n1 (Gossip.Put key value g).1 key value (next_version key g) (nodeID g) _ id Hs1
    (get_after_put key value g) Hid (get_request_roundtrip key Hk)) as [(bytes' & Hm' & n2 & Hget)|Hnone]; [|congruence].
  rewrite Hm in Hm'. injection Hm' as <-.
  pose proof (node_ExecuteAction_on _ _ _ _ _ _ _ Hn1 (proj1 Hs1) Hget) as Hcall'.
  eexists w', s', _. split; [done|]. split; [unfold s', count; cbn; by rewrite lookup_insert_eq|].
  unfold ExecuteKVGet, ExecuteKVGetObserved. assert (node_of clusterID id s' = Ok nd) as -> by exact Hnd.
  rewrite Hcall'. cbn [rsp_Success success negb rsp_Payload]. by rewrite Hu.
Qed.
End EndToEnd.

(** ** Witnesses *)

#[local] Existing Instance demo_peers.
#[local] Existing Instance demo_sends.
#[local] Existing Instance demo_protobuf.
#[local] Existing Instance demo_protobuf_laws.
#[local] Instance server_gossip_codec : Codec GossipMessage := countable_codec GossipMessage.
#[local] Instance server_membership_codec : Codec MembershipEvent := countable_codec MembershipEvent.
#[local] Instance server_env : Env := test_env 5.

Definition crashed_process : NodeProcess :=
  {| np_runtime := set_fault (Crash NewEngine) demo_swapped; np_stopped := false |}.

Lemma crashed_node_is_silent_witness :
  is_ok (rpc_Ping crashed_process) = false ∧
  (rpc_SendEnvelope (Some {| er_From := "n2@h:1"; er_To := "n1"; er_Protocol := "gossip"; er_Payload := "x" |})
     crashed_process).1 = crashed_process.
Proof.
  destruct (crashed_node_is_silent crashed_process (Crash NewEngine) eq_refl eq_refl) as (Hping & _ & Hsend & _).
  split; [exact Hping|apply Hsend].
Defined.

Definition demo_process : NodeProcess := {| np_runtime := demo_swapped; np_stopped := false |}.

Definition demo_network : network := {[("localhost", 7001) := demo_process]}.

Definition demo_gossip : GossipProtocol :=
  match r_proto demo_swapped with Some (PGossip g) => g | _ => NewGossipProtocol end.

Lemma service_read_your_write_witness :
  ∃ w' s' w'', ExecuteKVPut "c1" "n1" "k" "v" (NewClusterService one_node) demo_network = (w', s', None) ∧
    count (totalWrites s') "c1" = 1 ∧
    ExecuteKVGet "c1" "n1" "k" s' w' =
      (w'', Ok {| Value_ := "v"; Version_ := 1; Origin_ := "n1"; HasMetadata_ := true |}).
Proof.
  apply (service_read_your_write "c1" "n1" "k" "v" (NewClusterService one_node) demo_network
    (newNode "n1" "localhost" 7001 0) demo_process demo_gossip);
    [vm_compute; reflexivity|reflexivity|vm_compute; by split_and!|vm_compute; discriminate|exact I..].
Defined.
