(* ===== verification/RuntimeNet.v ===== *)
(** * The processes of a gossip cluster

    Node processes that run gossip: their timers and callers fill their queues,
    their reactors handle one event at a time, and what they send may be lost,
    delayed, repeated or misrouted.  Such a cluster refines the network of
    GossipNet, so what a process answers to a read is a write, and none of its
    own writes is later.  A swap of the protocol is left out: the new protocol
    starts with an empty store. *)

From S2P Require Import Prelude GoStrings Protocol VectorClock Conflict Gossip GossipProps GossipNet Baseline Fault NodeConfig NodeSession Messages NodeRuntime RuntimeProps NodeServer.

(** [puts] is a ghost: the values the handled puts have created, latest first. *)
Record ProcNet := {
  procs : gmap string NodeProcess;
  flying : list EnvelopeRequest;
  puts : list (string * Value);
}.

Definition put_proc (id : string) (p : NodeProcess) (c : ProcNet) : ProcNet :=
  {| procs := <[id := p]> (procs c); flying := flying c; puts := puts c |}.

(** What the outputs of a step put on the network. *)
Definition requests (out : list Output) : list EnvelopeRequest :=
  omap (λ o, match o with OutSend req _ => req | _ => None end) out.

Section Processes.
Context `{GC : GossipCodec, Codec MembershipEvent, Protobuf}.

(** The value an event has written, in the state after it. *)
Definition written (ev : RuntimeEvent) (r : Runtime) : list (string * Value) :=
  match ev, r_proto r with
  | EventAction (Some req), Some (PGossip g) =>
      match ar_Action req, Unmarshal_KVPutRequest (ar_Payload req) with
      | KV_PUT, Some p =>
          match store g !! put_Key p with Some v => [(put_Key p, v)] | None => [] end
      | _, _ => []
      end
  | _, _ => []
  end.

(** A request whose strings JSON can carry. *)
Definition valid_action (req : ActionRequest) : Prop :=
  ar_Action req = KV_PUT → ∀ p, Unmarshal_KVPutRequest (ar_Payload req) = Some p →
  valid_text (put_Key p) ∧ valid_text (put_Value p).

(** ** The steps *)

(** What can happen to a process but for its reactor and its peers: timers, a
    call of the control plane, an answer with a topology. *)
Inductive local_move (p : NodeProcess) : NodeProcess → Prop :=
  | mv_tick stopped : local_move p (set_runtime (driver_tick stopped (np_runtime p)) p)
  | mv_probe `{PeerRPC} draw cancelled :
      let r := np_runtime p in
      local_move p (set_runtime (set_ns (probeTick (Some (engine_decider draw (fault r))) cancelled (ns r)) r) p)
  | mv_action req :
      node_gate p = true → valid_action req →
      local_move p (set_runtime (set_queue (eventCh (np_runtime p) ++ [EventAction (Some req)]) (np_runtime p)) p)
  | mv_fault `{RangeOrder} req : local_move p (rpc_SetFaultParams req p).1
  | mv_topology (E : Env) answer :
      local_move p (set_runtime (getPeersFromControlplane answer (np_runtime p)).1 p)
  | mv_stop : local_move p (rpc_StopNode p).

(** A message stays in flight when it is received; it may reach any process. *)
Inductive proc_step (c : ProcNet) : ProcNet → Prop :=
  | ps_move id p p' : procs c !! id = Some p → local_move p p' → proc_step c (put_proc id p' c)
  | ps_receive id p req p' res :
      procs c !! id = Some p → req ∈ flying c → rpc_SendEnvelope (Some req) p = (p', res) →
      proc_step c (put_proc id p' c)
  | ps_react (E : Env) (S : SendEnv) (P : PeerRPC) id p ev rest r out :
      procs c !! id = Some p → eventCh (np_runtime p) = ev :: rest →
      reactor_step (np_runtime p) = Done (r, out) →
      proc_step c {| procs := <[id := set_runtime r p]> (procs c); flying := flying c ++ requests out;
                     puts := written ev r ++ puts c |}
  | ps_lose reqs : reqs ⊆ flying c → proc_step c {| procs := procs c; flying := reqs; puts := puts c |}.

Definition runs_gossip (p : NodeProcess) (g : GossipProtocol) : Prop := r_proto (np_runtime p) = Some (PGossip g).

(** Every process has just been given the gossip protocol. *)
Definition proc_initial (c : ProcNet) : Prop :=
  (∀ id p, procs c !! id = Some p →
     valid_text id ∧ eventCh (np_runtime p) = [] ∧ ∃ g, runs_gossip p g ∧ nodeID g = id ∧ store g = ∅) ∧
  flying c = [] ∧ puts c = [].

Inductive proc_reachable (P : ProcNet → ProcNet → Prop) : ProcNet → Prop :=
  | pr_init c : proc_initial c → proc_reachable P c
  | pr_step c c' : proc_reachable P c → proc_step c c' → P c c' → proc_reachable P c'.

(** The stamp of a put exceeds that of the value it overwrites. *)
Definition causal_puts (c c' : ProcNet) : Prop :=
  ∀ key v p g old, puts c' = (key, v) :: puts c → procs c !! Origin v = Some p → runs_gossip p g →
  store g !! key = Some old → stamp_lt (stamp old) (stamp v).

(** ** The refinement *)

Definition carried (wire : list Envelope) (payload : string) : Prop := ∃ e, e ∈ wire ∧ env_Payload e = payload.

Definition event_ok (wire : list Envelope) (ev : RuntimeEvent) : Prop :=
  match ev with
  | EventMessage env => carried wire (env_Payload env)
  | EventAction (Some req) => valid_action req
  | EventProtocolSwap _ => False
  | _ => True
  end.

Record refines (c : ProcNet) (n : Net) : Prop := {
  rf_dom : dom (nodes n) = dom (procs c);
  rf_node id p : procs c !! id = Some p →
    ∃ g, nodes n !! id = Some g ∧ runs_gossip p g ∧ nodeID g = id ∧ Forall (event_ok (wire n)) (eventCh (np_runtime p));
  rf_wire req : req ∈ flying c → carried (wire n) (er_Payload req);
  rf_writes : writes n = puts c;
}.

Lemma carried_app w w' payload : carried w payload → carried (w ++ w') payload.
Proof. intros (e & He & Hp). exists e. split; [by apply elem_of_app; left|done]. Qed.

Lemma event_ok_app w w' ev : event_ok w ev → event_ok (w ++ w') ev.
Proof. destruct ev as [|env|[req|]|]; cbn; try done. apply carried_app. Qed.

(** A process that moves along a step of its node. *)
Lemma refines_update c n id p p' g' sent reqs ws :
  refines c n → procs c !! id = Some p → runs_gossip p' g' → nodeID g' = id →
  Forall (event_ok (wire n ++ sent)) (eventCh (np_runtime p')) →
  (∀ req, req ∈ reqs → carried sent (er_Payload req)) →
  refines {| procs := <[id := p']> (procs c); flying := flying c ++ reqs; puts := ws |}
          {| nodes := <[id := g']> (nodes n); wire := wire n ++ sent; writes := ws |}.
Proof.
  intros [Hd Hn Hw _] Hp Hg' Hid Hq Hreqs. split; cbn [procs flying puts nodes wire writes].
  - by rewrite !dom_insert_L, Hd.
  - intros i q [[<- <-]|[Hne Hq']]%lookup_insert_Some.
    + exists g'. by rewrite lookup_insert_eq.
    + destruct (Hn i q Hq') as (g & Hg & Hr & Hi & Hev). exists g. rewrite lookup_insert_ne by done.
      split_and!; [done..|]. eapply Forall_impl; [exact Hev|]. intros ev. apply event_ok_app.
  - intros req [Hr|Hr]%elem_of_app; [by apply carried_app, Hw|].
    destruct (Hreqs req Hr) as (e & He & Hpay). exists e. split; [by apply elem_of_app; right|done].
  - done.
Qed.

(** *** What the operations of a runtime do to its protocol *)

Lemma OnMessage_ext `{Env} cb e e' g :
  env_From e = env_From e' → env_Payload e = env_Payload e' → OnMessage cb e g = OnMessage cb e' g.
Proof. unfold OnMessage. by intros -> ->. Qed.

Lemma gossip_callback_peers `{Env} r : peer_callback (gossip_callback r).
Proof.
  intros id host port g. unfold gossip_callback.
  destruct (OnPeerDiscovered_set_proto id host port (PGossip g) r) as (_ & _ & [[-> _]| ->]); [done|].
  apply SetPeers_same_data.
Qed.

(** What a send puts on the network carries the payload of its envelope. *)
Lemma Send_payload `{PeerRPC} f cancelled env s req :
  (Send f cancelled env s).1.2 = Some req → er_Payload req = env_Payload env.
Proof.
  unfold Send. intros Hs. repeat case_match; simplify_eq/=; done.
Qed.

Lemma send_list_payload `{PeerRPC, SendEnv} e i envs s req :
  req ∈ requests (send_list e i envs s).2 → carried envs (er_Payload req).
Proof.
  revert i s. induction envs as [|env envs IH]; intros i s; cbn [send_list].
  { intros Hr. destruct (not_elem_of_nil _ Hr). }
  pose proof (Send_payload (Some (engine_decider (drop_draw i) e)) (ctx_done i) env s) as Hs.
  destruct (Send _ _ env s) as [[s1 req1] err]. specialize (IH (S i) s1).
  destruct (send_list e (S i) envs s1) as [s2 out]. cbn [fst snd] in *.
  assert (req ∈ requests out → carried (env :: envs) (er_Payload req)) as Hrest.
  { intros (e' & He' & Hp)%IH. exists e'. split; [by right|done]. }
  unfold requests. cbn. destruct req1 as [q|]; [|exact Hrest].
  intros [->|Hr]%elem_of_cons; [|by apply Hrest]. exists env. split; [left|by rewrite (Hs q)].
Qed.

Lemma sendAll_spec `{PeerRPC, SendEnv} envs r :
  r_proto (sendAll envs r).1 = r_proto r ∧ eventCh (sendAll envs r).1 = eventCh r ∧
  ∀ req, req ∈ requests (sendAll envs r).2 → carried envs (er_Payload req).
Proof.
  unfold sendAll. pose proof (send_list_payload (fault r) 0 (mjoin (expand (config r) <$> envs)) (ns r)) as Hp.
  destruct (send_list _ _ _ _) as [s out]. split_and!; [done..|]. intros req (e & He & Hpay)%Hp.
  apply list_elem_of_join in He as (l & He & (env & -> & Henv)%list_elem_of_fmap).
  exists env. split; [done|]. rewrite <-Hpay. unfold expand in He. case_bool_decide.
  - by apply list_elem_of_fmap in He as (id & -> & _).
  - by apply list_elem_of_singleton in He as ->.
Qed.

(** The call an event makes of the gossip protocol: the state after it, what it
    sends and the values it writes. *)
Inductive gossip_call (E : Env) (g : GossipProtocol) : RuntimeEvent → GossipProtocol → list Envelope → list (string * Value) → Prop :=
  | gc_tick : gossip_call E g EventTick (Gossip.Tick g).1 (Gossip.Tick g).2 []
  | gc_message cb env : peer_callback cb →
      gossip_call E g (EventMessage env) (Gossip.OnMessage cb env g).1.1 (Gossip.OnMessage cb env g).2 []
  | gc_put req p v :
      ar_Action req = KV_PUT → Unmarshal_KVPutRequest (ar_Payload req) = Some p →
      store (Gossip.Put (put_Key p) (put_Value p) g).1 !! put_Key p = Some v →
      gossip_call E g (EventAction (Some req)) (Gossip.Put (put_Key p) (put_Value p) g).1 [] [(put_Key p, v)]
  | gc_other act : gossip_call E g (EventAction act) g [] [].

Lemma requests_lines lines out : requests ((OutLog <$> lines) ++ out) = requests out.
Proof. unfold requests. by induction lines as [|l lines IH]. Qed.

Lemma handleActionEvent_gossip {E : Env} act r g :
  r_proto r = Some (PGossip g) →
  let r' := (handleActionEvent act r).1.1 in
  ∃ g', r_proto r' = Some (PGossip g') ∧ eventCh r' = eventCh r ∧
    gossip_call E g (EventAction act) g' [] (written (EventAction act) r').
Proof.
  intros Hp. pose proof (gc_other E g act) as Hother. cbv zeta.
  destruct act as [req|]; [|by exists g; unfold written; cbn; rewrite Hp].
  destruct (Unmarshal_KVPutRequest (ar_Payload req)) as [p|] eqn:Hu; [destruct (ar_Action req) eqn:Ha|]; cycle -1.
  all: try (assert ((handleActionEvent (Some req) r).1.1 = r) as ->
      by (unfold handleActionEvent; rewrite ?Hu, ?Ha; repeat case_match; by simplify_eq/=);
    exists g; unfold written; rewrite Hp, ?Ha, ?Hu; by destruct (ar_Action req)).
  set (g' := (Gossip.Put (put_Key p) (put_Value p) g).1).
  assert (∃ v, store g' !! put_Key p = Some v) as [v Hv].
  { subst g'. unfold Gossip.Put. cbn [fst store set_store]. rewrite lookup_insert_eq. by eexists. }
  exists g'. unfold handleActionEvent. rewrite Ha, Hu, Hp. cbn [PutAction].
  rewrite (surjective_pairing (Gossip.Put _ _ g)). fold g'. cbn [fst r_proto set_layers written].
  rewrite Ha, Hu, Hv. split_and!; [done..|]. by apply gc_put.
Qed.

Lemma handle_event_gossip {E : Env} `{PeerRPC, SendEnv} ev r g :
  r_proto r = Some (PGossip g) → (∀ key, ev ≠ EventProtocolSwap key) →
  ∃ r' out g' sent, handle_event ev r = Done (r', out) ∧ r_proto r' = Some (PGossip g') ∧ eventCh r' = eventCh r ∧
    (∀ req, req ∈ requests out → carried sent (er_Payload req)) ∧ gossip_call E g ev g' sent (written ev r').
Proof.
  intros Hp Hns. destruct ev as [|env|act|key]; [| | |by destruct (Hns key)]; cbn [handle_event].
  - rewrite Hp. cbn [proto_Tick]. pose proof (gc_tick E g) as Hcall.
    destruct (Gossip.Tick g) as [g' envs]. cbn [fst snd] in Hcall.
    destruct (sendAll_spec envs (set_proto (PGossip g') r)) as (Hpr & Hq & Hsent).
    destruct (sendAll envs _) as [r' out]. by exists r', out, g', envs.
  - rewrite Hp. unfold deliver. cbn [proto_OnMessage proto_discovers].
    pose proof (gc_message E g (gossip_callback r) env (gossip_callback_peers r)) as Hcall.
    destruct (Gossip.OnMessage _ env g) as [[g' lines] envs]. cbn [fst snd] in Hcall.
    set (r1 := match gossip_discovers (env_From env) g with Some _ => _ | None => _ end).
    assert (eventCh r1 = eventCh r) as Hq1.
    { subst r1. destruct (gossip_discovers _ g) as [[[id host] port]|]; [|done].
      unfold OnPeerDiscovered. destruct (negb _); [done|]. by destruct (_ || _). }
    destruct (sendAll_spec envs (set_proto (PGossip g') r1)) as (Hpr & Hq & Hsent).
    destruct (sendAll envs _) as [r' out]. cbn [fst snd] in *.
    exists r', ((OutLog <$> lines) ++ out), g', envs. rewrite Hq. split_and!; [done..| |done].
    intros req Hr. apply Hsent. by rewrite requests_lines in Hr.
  - destruct (handleActionEvent_gossip act r g Hp) as (g' & Hp' & Hq & Hcall).
    destruct (handleActionEvent act r) as [[r' lines] resp]. cbn [fst] in *.
    eexists r', _, g', []. split_and!; [done..| |done].
    intros req Hr. rewrite requests_lines in Hr. destruct (not_elem_of_nil _ Hr).
Qed.

Lemma local_move_gossip p p' g :
  local_move p p' → runs_gossip p g →
  (∃ evs, eventCh (np_runtime p') = eventCh (np_runtime p) ++ evs ∧ ∀ w, Forall (event_ok w) evs) ∧
  (runs_gossip p' g ∨ ∃ (E : Env) ids, runs_gossip p' (Gossip.SetPeers ids g)).
Proof.
  assert (∀ q, eventCh (np_runtime q) = eventCh (np_runtime p) → ∃ evs, eventCh (np_runtime q) = eventCh (np_runtime p) ++ evs ∧ ∀ w, Forall (event_ok w) evs) as Hsame.
  { intros q ->. exists []. by rewrite app_nil_r. }
  intros [stopped|PR draw cancelled r|req Hgate Hv|RO req|E answer|] Hg.
  - unfold driver_tick. destruct (negb _); [by split; [apply Hsame|left]|].
    destruct (_ && _); [by split; [apply Hsame|left]|]. split; [|by left].
    exists [EventTick]. split; [done|]. intros w. by constructor.
  - split; [by apply Hsame|by left].
  - split; [|by left]. exists [EventAction (Some req)]. split; [done|]. intros w. by constructor.
  - assert (r_proto (np_runtime (rpc_SetFaultParams req p).1) = r_proto (np_runtime p) ∧
            eventCh (np_runtime (rpc_SetFaultParams req p).1) = eventCh (np_runtime p)) as [Hpr Hq].
    { unfold rpc_SetFaultParams. destruct req as [req|]; [|done]. unfold runtime_SetFaultParams.
      by repeat case_match; simplify_eq/=. }
    split; [by apply Hsame|left]. unfold runs_gossip. by rewrite Hpr.
  - split; [apply Hsame; by destruct answer|]. destruct answer as [infos|e]; [right|by left].
    eexists E, _. unfold runs_gossip in *. cbn. by rewrite Hg.
  - split; [by apply Hsame|by left].
Qed.

(** *** Every step of the cluster is a step of the network, or none *)

Lemma refines_local c n id p p' g' :
  refines c n → procs c !! id = Some p → runs_gossip p' g' → nodeID g' = id →
  Forall (event_ok (wire n)) (eventCh (np_runtime p')) →
  refines (put_proc id p' c) {| nodes := <[id := g']> (nodes n); wire := wire n; writes := writes n |}.
Proof.
  intros Hr Hp Hg Hid Hq. rewrite (rf_writes c n Hr). unfold put_proc.
  rewrite <-(app_nil_r (flying c)), <-(app_nil_r (wire n)).
  apply (refines_update c n id p); [done..| |intros req Hreq; destruct (not_elem_of_nil _ Hreq)].
  by rewrite app_nil_r.
Qed.

Lemma refines_stutter c n id p p' g :
  refines c n → procs c !! id = Some p → nodes n !! id = Some g → runs_gossip p' g → nodeID g = id →
  Forall (event_ok (wire n)) (eventCh (np_runtime p')) → refines (put_proc id p' c) n.
Proof.
  intros Hr Hp Hn Hg Hid Hq. pose proof (refines_local c n id p p' g Hr Hp Hg Hid Hq) as Hr'.
  rewrite insert_id in Hr' by done. by destruct n.
Qed.

(** [c'] is refined by the same network or by one a step away. *)
Definition follows (c : ProcNet) (n : Net) (c' : ProcNet) : Prop :=
  refines c' n ∨ ∃ l n', step n l n' ∧ refines c' n' ∧ (causal_puts c c' → causal_clocks n l n').

Lemma follow_move c n id p p' :
  refines c n → procs c !! id = Some p → local_move p p' → follows c n (put_proc id p' c).
Proof.
  intros Hr Hp Hm. destruct (rf_node c n Hr id p Hp) as (g & Hg & Hrun & Hid & Hq).
  destruct (local_move_gossip p p' g Hm Hrun) as [(evs & Hevs & Hok) Hcase].
  assert (Forall (event_ok (wire n)) (eventCh (np_runtime p'))) as Hq' by (rewrite Hevs; by apply Forall_app).
  destruct Hcase as [Hrun'|(E & ids & Hrun')]; [left; by eapply refines_stutter|]. right.
  exists (LPeers id), {| nodes := <[id := Gossip.SetPeers ids g]> (nodes n); wire := wire n; writes := writes n |}.
  split_and!; [by apply step_peers|eapply refines_local; [done..| |done]|done].
  destruct (same_data_fields _ _ (SetPeers_same_data ids g)) as (_ & -> & _). done.
Qed.

Lemma follow_receive c n id p req p' res :
  refines c n → procs c !! id = Some p → req ∈ flying c → rpc_SendEnvelope (Some req) p = (p', res) →
  follows c n (put_proc id p' c).
Proof.
  intros Hr Hp Hreq Hcall. left. destruct (rf_node c n Hr id p Hp) as (g & Hg & Hrun & Hid & Hq).
  assert (runs_gossip p' g ∧ Forall (event_ok (wire n)) (eventCh (np_runtime p'))) as [Hrun' Hq']; [|by eapply refines_stutter].
  unfold rpc_SendEnvelope in Hcall. destruct (negb _); [by simplify_eq|]. destruct (negb _); [by simplify_eq|].
  injection Hcall as <- _. split; [exact Hrun|]. apply Forall_app. split; [exact Hq|]. constructor; [|done].
  by apply (rf_wire c n Hr).
Qed.

(** A reactor that runs gossip never panics. *)
Lemma reactor_gossip {E : Env} `{PeerRPC, SendEnv} c n id p ev rest :
  refines c n → procs c !! id = Some p → eventCh (np_runtime p) = ev :: rest →
  ∃ g r out g' sent, nodes n !! id = Some g ∧ runs_gossip p g ∧ nodeID g = id ∧ event_ok (wire n) ev ∧
    Forall (event_ok (wire n)) rest ∧ reactor_step (np_runtime p) = Done (r, out) ∧ runs_gossip (set_runtime r p) g' ∧
    eventCh r = rest ∧ (∀ req, req ∈ requests out → carried sent (er_Payload req)) ∧ gossip_call E g ev g' sent (written ev r).
Proof.
  intros Hr Hp Hq. destruct (rf_node c n Hr id p Hp) as (g & Hg & Hrun & Hid & Hok). rewrite Hq in Hok.
  apply Forall_cons in Hok as [Hev Hrest]. unfold reactor_step. rewrite Hq.
  destruct (handle_event_gossip ev (set_queue rest (np_runtime p)) g) as (r & out & g' & sent & Hh & Hp' & Hq' & Hs & Hc);
    [exact Hrun|by intros key ->|]. by exists g, r, out, g', sent.
Qed.

Lemma SetPeers_nodeID `{Env} ids g : nodeID (Gossip.SetPeers ids g) = nodeID g.
Proof. destruct (same_data_fields _ _ (SetPeers_same_data ids g)) as (_ & -> & _). done. Qed.

(** What the call of an event is in the network. *)
Lemma call_steps {E : Env} n id g ev g' sent ws :
  gossip_call E g ev g' sent ws → nodes n !! id = Some g → event_ok (wire n) ev →
  nodeID g' = nodeID g ∧
  let n' := {| nodes := <[id := g']> (nodes n); wire := wire n ++ sent; writes := ws ++ writes n |} in
  (n' = n ∨ (∃ l, step n l n' ∧ (∀ w, causal_clocks n l w) ∧ ws = []) ∨
   ∃ key data v, step n (LPut id key data) n' ∧ ws = [(key, v)] ∧ Origin v = nodeID g ∧ store g' !! key = Some v).
Proof.
  intros Hc Hg Hev. destruct Hc as [|cb env Hcb|req p v Ha Hu Hv|act]; cbn [app].
  - destruct (Tick_sends g) as (_ & Hid & _). split; [done|]. right; left. exists (LTick id).
    split_and!; [by apply GossipNet.step_tick|done..].
  - destruct (OnMessage_effect cb env g Hcb) as (_ & _ & _ & Hid & _). split; [done|]. right; left. exists (LDeliver id).
    destruct Hev as (e & He & Hpay). rewrite (OnMessage_ext cb env (with_from (env_From env) e) g) by done.
    split_and!; [by apply step_deliver|done..].
  - destruct (Put_value _ _ _ _ Hv) as (_ & Ho & _ & _ & _ & Heq). split; [by rewrite Heq|]. right; right.
    exists (put_Key p), (put_Value p), v. rewrite app_nil_r. split_and!; [|done..].
    destruct (Hev Ha p Hu). by apply step_put.
  - split; [done|]. left. rewrite insert_id, app_nil_r by done. by destruct n.
Qed.

Lemma follow_react {E : Env} {S : SendEnv} {P : PeerRPC} c n id p ev rest r out :
  refines c n → procs c !! id = Some p → eventCh (np_runtime p) = ev :: rest →
  reactor_step (np_runtime p) = Done (r, out) →
  follows c n {| procs := <[id := set_runtime r p]> (procs c); flying := flying c ++ requests out; puts := written ev r ++ puts c |}.
Proof.
  intros Hr Hp Hq Hd. destruct (reactor_gossip c n id p ev rest Hr Hp Hq) as
    (g & r' & out' & g' & sent & Hg & Hrun & Hid & Hev & Hrest & Hd' & Hrun' & Hq' & Hs & Hc).
  rewrite Hd in Hd'. injection Hd' as <- <-. destruct (call_steps n id g ev g' sent _ Hc Hg Hev) as [Hid' Hcase].
  assert (Hr' : refines {| procs := <[id := set_runtime r p]> (procs c); flying := flying c ++ requests out; puts := written ev r ++ puts c |}
      {| nodes := <[id := g']> (nodes n); wire := wire n ++ sent; writes := written ev r ++ writes n |}).
  { rewrite (rf_writes c n Hr). apply (refines_update c n id p); [done..|congruence| |done].
    cbn [np_runtime set_runtime]. rewrite Hq'. eapply Forall_impl; [exact Hrest|]. intros ev'. apply event_ok_app. }
  destruct Hcase as [Heq|[(l & Hstep & Hcl & _)|(key & data & v & Hstep & Hws & Ho & Hv)]].
  - left. by rewrite Heq in Hr'.
  - right. by eexists l, _.
  - right. eexists (LPut id key data), _. split_and!; [exact Hstep|done|]. rewrite Hws.
    intros Hcp g1 g2 old v' Hg1 Hg2 Hold Hv'. cbn [nodes] in Hg2. rewrite lookup_insert_eq in Hg2. apply (inj Some) in Hg2 as <-.
    rewrite Hv in Hv'. injection Hv' as <-. rewrite Hg in Hg1. injection Hg1 as <-.
    apply (Hcp key v p g old); [done|by rewrite Ho, Hid|done..].
Qed.

Lemma proc_step_follows c n c' : refines c n → proc_step c c' → follows c n c'.
Proof.
  intros Hr [id p p' Hp Hm|id p req p' res Hp Hreq Hcall|E S P id p ev rest r out Hp Hq Hd|reqs Hsub].
  - by eapply follow_move.
  - by eapply follow_receive.
  - by eapply follow_react.
  - left. destruct Hr as [Hdom Hn Hw Hws]. split; [done..| |done]. intros req Hreq. by apply Hw, Hsub.
Qed.

(** The swap to gossip that follows a registration leaves such a process. *)
Lemma swap_starts_gossip `{Env} r :
  ∃ r' g, applyProtocolSwap "gossip" r = (r', None) ∧ config r' = config r ∧ eventCh r' = eventCh r ∧
    r_proto r' = Some (PGossip g) ∧ nodeID g = cfg_ID (config r) ∧ store g = ∅ ∧
    ∀ id, id ∈ peer_ids (config r) → id ≠ EmptyString → id ∈ peers g.
Proof.
  unfold applyProtocolSwap. change (Load id "gossip" factories) with (Ok (PGossip NewGossipProtocol)).
  eexists _, _. split; [reflexivity|]. do 4 (split; [reflexivity|]).
  destruct (SetPeers_spec (peer_ids (config r)) NewGossipProtocol) as (Hp & _ & Hd).
  split; [by destruct (same_data_fields _ _ Hd)|]. intros id Hin Hne. cbn. rewrite Hp. by apply list_elem_of_filter.
Qed.

Definition initial_net (c : ProcNet) : Net :=
  {| nodes := omap (λ p, match r_proto (np_runtime p) with Some (PGossip g) => Some g | _ => None end) (procs c);
     wire := []; writes := [] |}.

Lemma proc_initial_refines c : proc_initial c → initial (initial_net c) ∧ refines c (initial_net c).
Proof.
  intros (Hc & Hf & Hp).
  assert (∀ id p, procs c !! id = Some p → ∃ g, nodes (initial_net c) !! id = Some g ∧ runs_gossip p g ∧ nodeID g = id ∧ store g = ∅) as Hg.
  { intros id p Hid. destruct (Hc id p Hid) as (_ & _ & g & Hrun & ? & ?). exists g.
    split_and!; [|done..]. cbn. by rewrite lookup_omap, Hid; cbn; rewrite Hrun. }
  split.
  - split; [|done]. intros id g Hn. cbn in Hn. apply lookup_omap_Some in Hn as (p & Hrun & Hid).
    destruct (Hg id p Hid) as (g' & Hn & _ & ? & ?). destruct (Hc id p Hid) as (? & _).
    cbn in Hn. rewrite lookup_omap, Hid in Hn. cbn in Hn. by simplify_eq.
  - split; [| | |by rewrite Hp].
    + apply set_eq. intros id. rewrite !elem_of_dom. split.
      * intros [g Hn]. cbn in Hn. apply lookup_omap_Some in Hn as (p & _ & Hid). by eexists.
      * intros [p Hid]. destruct (Hg id p Hid) as (g & Hn & _). by eexists.
    + intros id p Hid. destruct (Hg id p Hid) as (g & Hn & ? & ? & _). destruct (Hc id p Hid) as (_ & Hq & _).
      exists g. by rewrite Hq.
    + rewrite Hf. intros req Hreq. destruct (not_elem_of_nil _ Hreq).
Qed.

Lemma reachable_refines c : proc_reachable causal_puts c → ∃ n, reachable causal_clocks n ∧ refines c n.
Proof.
  induction 1 as [c Hi|c c' _ (n & Hn & Hr) Hstep Hcp].
  - destruct (proc_initial_refines c Hi) as [Hin Hr]. eexists. split; [by apply reach_init|done].
  - destruct (proc_step_follows c n c' Hr Hstep) as [Hr'|(l & n' & Hs & Hr' & Hcl)]; [by exists n|].
    exists n'. split; [|done]. eapply reach_step; [done..|]. by apply Hcl.
Qed.

(** ** What a process holds *)

(** No write that node [id] has made of the key is later than [v]; none at all
    when it holds nothing. *)
Lemma own_writes c n id g key u :
  reachable causal_clocks n → refines c n → Z.of_nat (length (puts c)) < two63 → nodes n !! id = Some g →
  (key, u) ∈ puts c → Origin u = id → ∃ v, store g !! key = Some v ∧ core_le u v.
Proof.
  intros Hn Hr Hlen Hg Hu Ho. rewrite <-(rf_writes c n Hr) in *.
  pose proof (causal_reachable n Hn Hlen) as [Hown Hws Hh]. pose proof (inv_reachable _ n Hn Hlen) as Hinv.
  pose proof (dot_bound n key u Hinv Hu) as Hdot. rewrite Ho, (Hown id g key Hg) in Hdot.
  destruct (Hws key u Hu) as [Hpos _]. destruct (store g !! key) as [v|] eqn:Hv.
  - exists v. split; [done|]. assert (held n key v) as [_ Hord]%Hh by (by econstructor).
    apply Hord; [done|]. by rewrite Ho.
  - change (VectorClock _) with (∅ : vclock) in Hdot. unfold vc_get in Hdot. rewrite lookup_empty in Hdot. cbn in Hdot. lia.
Qed.

(** The value of a write, in its three parts a reader sees. *)
Definition shows (kg : KVGetResponse) (w : Value) : Prop :=
  kg = {| kg_Value := Data w; kg_Version := Version w; kg_Origin := Origin w; kg_HasMetadata := true |}.

Lemma shows_core kg v w : core w = core v → shows kg v → shows kg w.
Proof. unfold shows, core, stamp. intros Hc. injection Hc as -> _ -> ->. done. Qed.

(** The reply to a read. *)
Lemma read_reply {E : Env} `{PeerRPC, SendEnv} req key r g r' out :
  r_proto r = Some (PGossip g) → ar_Action req = KV_GET → Unmarshal_KVGetRequest (ar_Payload req) = Some key →
  handle_event (EventAction (Some req)) r = Done (r', out) →
  match store g !! key with
  | None => last_reply out = Some (fail_ "key not found")
  | Some v => 1 ≤ Version v → ∃ kg, shows kg v ∧
      match Marshal_KVGetResponse kg with
      | Some bytes => last_reply out = Some (success bytes)
      | None => last_reply out = Some (fail_ "serialization failed")
      end
  end.
Proof.
  intros Hp Ha Hu. cbn [handle_event]. unfold handleActionEvent. rewrite Ha, Hu, Hp. cbn [GetActionWithMetadata].
  unfold GetWithMetadata. destruct (store g !! key) as [v|]; [|by intros [= <- <-]].
  cbn [md_Version md_Origin md_Value]. intros Hh Hv. rewrite (proj2 (Z.ltb_lt 0 (Version v))) in Hh by lia. cbn [orb] in Hh.
  eexists. split; [reflexivity|]. destruct (Marshal_KVGetResponse _); by injection Hh as <- <-.
Qed.
End Processes.

Section Theorems.
Context `{GC : GossipCodec, Codec MembershipEvent, Protobuf}.

(** C1: A fixed set of node processes that have just been given the gossip protocol,
    with nothing queued or in flight and under ids that are valid UTF-8, refines the
    abstract network of gossip nodes, as long as none of them is given a protocol
    again (a second ChangeProtocol would start an empty store; such calls are no
    step here), none is restarted and none joins. Within that, whatever the timers,
    the other calls of the control plane (actions whose strings are valid UTF-8,
    fault requests, stops), the topologies it hands out, the losses, repetitions and
    delays of the network and the interleaving of the reactors, if the stamp of
    every put exceeds that of the value it overwrites then the stores of the
    processes, the payloads in flight or queued, and the writes made are those of a
    reachable state of the network with causal clocks; and no reactor ever panics. *)
Theorem cluster_refines_network c :
  proc_reachable causal_puts c →
  (∃ n, reachable causal_clocks n ∧ refines c n) ∧
  ∀ (E : Env) (S : SendEnv) (P : PeerRPC) id p, procs c !! id = Some p →
    ∃ r out, reactor_step (np_runtime p) = Done (r, out).
Proof.
  intros Hc. destruct (reachable_refines c Hc) as (n & Hn & Hr). split; [by exists n|]. intros E S P id p Hp.
  destruct (eventCh (np_runtime p)) as [|ev rest] eqn:Hq; [unfold reactor_step; rewrite Hq; by eexists _, _|].
  destruct (reactor_gossip c n id p ev rest Hr Hp Hq) as (g & r & out & g' & sent & _ & _ & _ & _ & _ & Hd & _). by exists r, out.
Qed.

(** C2: A process answers a read with a write.  Take such a cluster: processes that
    have just been given gossip, with nothing queued or in flight and under ids
    that are valid UTF-8, none of which is given a protocol again (a second
    ChangeProtocol empties the store, and then a node does not find what it wrote),
    restarted or added; assume that the stamp of every put exceeds that of the
    value it overwrites, and that fewer than 2^63 puts are made.  In every state it
    reaches, the reply of a process to a read carries the data, version and origin
    of a write of that key, made by whichever node, and no write that the process
    itself has made of the key is later, so it reads its own writes; it answers
    "key not found" only if it has never written the key. *)
Theorem reads_are_writes (E : Env) (S : SendEnv) (P : PeerRPC) c id p req key rest r out resp :
  proc_reachable causal_puts c → Z.of_nat (length (puts c)) < two63 →
  procs c !! id = Some p → eventCh (np_runtime p) = EventAction (Some req) :: rest →
  ar_Action req = KV_GET → Unmarshal_KVGetRequest (ar_Payload req) = Some key →
  reactor_step (np_runtime p) = Done (r, out) → last_reply out = Some resp →
  (∀ bytes, resp = success bytes → ∃ kg w, Marshal_KVGetResponse kg = Some bytes ∧ shows kg w ∧ (key, w) ∈ puts c ∧
     ∀ u, (key, u) ∈ puts c → Origin u = id → core u = core w ∨ stamp_lt (stamp u) (stamp w)) ∧
  (resp = fail_ "key not found" → ∀ u, (key, u) ∈ puts c → Origin u ≠ id).
Proof.
  intros Hc Hlen Hp Hq Ha Hu Hd Hresp. destruct (reachable_refines c Hc) as (n & Hn & Hr).
  destruct (rf_node c n Hr id p Hp) as (g & Hg & Hrun & _). unfold reactor_step in Hd. rewrite Hq in Hd.
  assert (Hl : Z.of_nat (length (writes n)) < two63) by (by rewrite (rf_writes c n Hr)).
  pose proof (λ u, own_writes c n id g key u Hn Hr Hlen Hg) as Hown.
  pose proof (read_reply req key (set_queue rest (np_runtime p)) g r out Hrun Ha Hu Hd) as Hreply.
  destruct (store g !! key) as [v|] eqn:Hv.
  - assert (good (writes n) key v) as [_ _ _ _ Hver (w & Hw & Hwv & _)].
    { apply (inv_held n (inv_reachable _ n Hn Hl)). by econstructor. }
    destruct (Hreply ltac:(lia)) as (kg & Hkg & Hm). split.
    + intros bytes ->. destruct (Marshal_KVGetResponse kg) as [bytes'|] eqn:Hmar; rewrite Hresp in Hm; [|done].
      injection Hm as <-. exists kg, w. rewrite <-(rf_writes c n Hr) at 1. split_and!; [done|by eapply shows_core|done|].
      intros u Huw Ho. destruct (Hown u Huw Ho) as (v' & [= <-] & Hle). unfold core_le in Hle.
      by rewrite (core_stamp _ _ Hwv), Hwv.
    + intros ->. destruct (Marshal_KVGetResponse kg); rewrite Hresp in Hm; discriminate.
  - rewrite Hreply in Hresp. injection Hresp as <-. split; [done|]. intros _ u Huw Ho.
    destruct (Hown u Huw Ho) as (v & [=] & _).
Qed.
End Theorems.

(** ** Witnesses *)

#[local] Existing Instance demo_peers.
#[local] Existing Instance demo_sends.
#[local] Existing Instance demo_protobuf.
#[local] Instance net_gossip_codec : Codec GossipMessage := countable_codec GossipMessage.
#[local] Existing Instance run_codec.
#[local] Instance net_membership_codec : Codec MembershipEvent := countable_codec MembershipEvent.
#[local] Instance net_env : Env := test_env 100.

Definition cfg_of (id : string) (port : Z) : NodeConfig :=
  {| cfg_ID := id; cfg_Port := port; cfg_Peers := []; cfg_ClusterID := "c1"; cfg_Host := "localhost";
     cfg_ControlPlaneHost := "localhost"; cfg_ControlPlanePort := 9000 |}.

Definition net_process (id : string) (port : Z) (others : list NodeInfo) : NodeProcess :=
  let r := applyPeersTopology others None
             (runtime_Start (Some NewEngine) (NewRuntime (cfg_of id port) (NewNodeSession "localhost" id port))) in
  {| np_runtime := (applyProtocolSwap "gossip" r).1; np_stopped := false |}.

Lemma net_process_fresh id port others :
  let r := np_runtime (net_process id port others) in
  eventCh r = [] ∧ ∃ g, runs_gossip (net_process id port others) g ∧ nodeID g = id ∧ store g = ∅.
Proof.
  unfold net_process. cbn [np_runtime]. destruct (swap_starts_gossip (applyPeersTopology others None
    (runtime_Start (Some NewEngine) (NewRuntime (cfg_of id port) (NewNodeSession "localhost" id port)))))
    as (r' & g & -> & _ & Hq & Hp & Hid & Hs & _). split; [exact Hq|]. by exists g.
Qed.

Definition proc_net0 : ProcNet :=
  {| procs := {["n1" := net_process "n1" 7001 [{| ni_Id := "n2"; ni_Address := "localhost"; ni_Port := 7002 |}];
                "n2" := net_process "n2" 7002 [{| ni_Id := "n1"; ni_Address := "localhost"; ni_Port := 7001 |}]]};
     flying := []; puts := [] |}.

(** A call queues an action, and a reactor takes its next event. *)
Definition call_on (id : string) (req : ActionRequest) (c : ProcNet) : ProcNet :=
  match procs c !! id with
  | Some p => put_proc id (set_runtime (set_queue (eventCh (np_runtime p) ++ [EventAction (Some req)]) (np_runtime p)) p) c
  | None => c
  end.

Definition react_on (id : string) (c : ProcNet) : ProcNet :=
  match procs c !! id with
  | Some p =>
      match eventCh (np_runtime p), reactor_step (np_runtime p) with
      | ev :: _, Done (r, out) =>
          {| procs := <[id := set_runtime r p]> (procs c); flying := flying c ++ requests out;
             puts := written ev r ++ puts c |}
      | _, _ => c
      end
  | None => c
  end.

Definition put_request : ActionRequest := {| ar_NodeId := "n1"; ar_Action := KV_PUT; ar_Payload := Marshal_KVPutRequest {| put_Key := "k"; put_Value := "x" |} |}.
Definition get_request : ActionRequest := {| ar_NodeId := "n1"; ar_Action := KV_GET; ar_Payload := Marshal_KVGetRequest "k" |}.

(** Node n1 has handled a put, and a read is next. *)
Definition proc_net1 : ProcNet := call_on "n1" get_request (react_on "n1" (call_on "n1" put_request proc_net0)).

Lemma net_steps_call id req c :
  match procs c !! id with Some p => node_gate p | None => false end = true → valid_action req → proc_step c (call_on id req c).
Proof. unfold call_on. destruct (procs c !! id) as [p|] eqn:Hp; [|done]. intros Hg Hv. eapply ps_move; [done|]. by apply mv_action. Qed.

Lemma net_steps_react id c :
  match procs c !! id with Some p => match eventCh (np_runtime p), reactor_step (np_runtime p) with _ :: _, Done _ => true | _, _ => false end | None => false end = true →
  proc_step c (react_on id c).
Proof.
  unfold react_on. destruct (procs c !! id) as [p|] eqn:Hp; [|done].
  destruct (eventCh (np_runtime p)) as [|ev rest] eqn:Hq; [done|].
  destruct (reactor_step (np_runtime p)) as [[r out]|] eqn:Hd; [|done]. intros _. by eapply (ps_react _ net_env demo_sends demo_peers).
Qed.

Lemma proc_net1_reachable : proc_reachable causal_puts proc_net1.
Proof.
  assert (proc_initial proc_net0) as H0.
  { split; [|done]. intros id p Hp. unfold proc_net0 in Hp. cbn [procs] in Hp.
    apply lookup_insert_Some in Hp as [[<- <-]|[_ [<- <-]%lookup_singleton_Some]]; (split; [exact I|]); apply net_process_fresh. }
  assert (∀ c c', puts c' = puts c → causal_puts c c') as Hquiet.
  { intros c c' Hc key v p g old Hputs. rewrite Hc in Hputs. apply (f_equal length) in Hputs. cbn in Hputs. lia. }
  assert (proc_reachable causal_puts (call_on "n1" put_request proc_net0)) as H1.
  { apply (pr_step _ proc_net0); [by apply pr_init| |apply Hquiet; reflexivity].
    apply net_steps_call; [vm_compute; reflexivity|intros _ q _; exact (conj I I)]. }
  assert (proc_reachable causal_puts (react_on "n1" (call_on "n1" put_request proc_net0))) as H2.
  { apply (pr_step _ _ _ H1); [apply net_steps_react; vm_compute; reflexivity|].
    intros key v p g old _ Hp Hrun Hold.
    assert (map_Forall (λ _ p, match r_proto (np_runtime p) with Some (PGossip g) => store g | _ => ∅ end = ∅)
      (procs (call_on "n1" put_request proc_net0))) as Hall by (by_evaluation).
    specialize (Hall _ _ Hp). cbv beta in Hall. rewrite Hrun in Hall. by rewrite Hall in Hold. }
  apply (pr_step _ _ _ H2); [|apply Hquiet; vm_compute; reflexivity].
  apply net_steps_call; [vm_compute; reflexivity|intros _ q _; exact (conj I I)].
Qed.

Lemma cluster_refines_network_witness :
  (∃ n, reachable causal_clocks n ∧ refines proc_net1 n) ∧
  ∃ p r out, procs proc_net1 !! "n1" = Some p ∧ reactor_step (np_runtime p) = Done (r, out).
Proof.
  destruct (cluster_refines_network proc_net1 proc_net1_reachable) as [Hr Hd]. split; [exact Hr|].
  destruct (procs proc_net1 !! "n1") as [p|] eqn:Hp; [|by vm_compute in Hp].
  destruct (Hd net_env demo_sends demo_peers "n1" p Hp) as (r & out & Hstep). by exists p, r, out.
Defined.

Lemma reads_are_writes_witness :
  ∃ p r out bytes kg w, procs proc_net1 !! "n1" = Some p ∧ reactor_step (np_runtime p) = Done (r, out) ∧
    last_reply out = Some (success bytes) ∧ Marshal_KVGetResponse kg = Some bytes ∧ shows kg w ∧
    ("k", w) ∈ puts proc_net1 ∧ Data w = "x".
Proof.
  destruct (procs proc_net1 !! "n1") as [p|] eqn:Hp; [|by vm_compute in Hp].
  assert (eventCh (np_runtime p) = [EventAction (Some get_request)]) as Hq.
  { vm_compute in Hp. injection Hp as <-. vm_compute. reflexivity. }
  destruct (reactor_step (np_runtime p)) as [[r out]|] eqn:Hd.
  2: { vm_compute in Hp. injection Hp as <-. by vm_compute in Hd. }
  assert (∃ bytes, last_reply out = Some (success bytes)) as [bytes Hb].
  { vm_compute in Hp. injection Hp as <-. vm_compute in Hd. injection Hd as <- <-. by eexists. }
  destruct (reads_are_writes net_env demo_sends demo_peers proc_net1 "n1" p get_request "k" [] r out (success bytes)
    proc_net1_reachable ltac:(by vm_compute) Hp Hq eq_refl eq_refl Hd Hb) as [Hread _].
  destruct (Hread bytes eq_refl) as (kg & w & Hm & Hs & Hw & _). exists p, r, out, bytes, kg, w. split_and!; [done..|].
  revert Hw. vm_compute. intros Hw. apply list_elem_of_singleton in Hw. by injection Hw as ->.
Defined.
