(* ===== verification/NodeMain.v ===== *)
(** * The node process (cmd/node/main.go)

    From the arguments of the process to its configuration: the flags of the Go
    package flag, the options file, and the parts of the node that are built
    from them. *)

From S2P Require Import Prelude GoStrings GoTime GoFlag ConfigFile Protocol VectorClock Conflict Gossip Baseline Fault NodeConfig NodeSession Messages NodeRuntime CPServer.

(** ** Flags *)

Record node_flags := {
  nf_config : string; nf_id : string; nf_port : Z; nf_peers : string;
  nf_cluster_id : string; nf_host : string; nf_cp_host : string; nf_cp_port : Z;
}.

#[export] Instance node_flags_settable : Settable node_flags := λ f,
  Build_node_flags (nf_config f) (nf_id f) (nf_port f) (nf_peers f) (nf_cluster_id f) (nf_host f) (nf_cp_host f) (nf_cp_port f).

Definition default_flags : node_flags :=
  {| nf_config := EmptyString; nf_id := EmptyString; nf_port := 0; nf_peers := EmptyString; nf_cluster_id := "default";
     nf_host := "localhost"; nf_cp_host := EmptyString; nf_cp_port := 0 |}.

Definition node_flag (name : string) : option (flag_kind node_flags) :=
  if (name =? "config")%string then Some (FString (λ v f, f <| nf_config := v |>))
  else if (name =? "id")%string then Some (FString (λ v f, f <| nf_id := v |>))
  else if (name =? "port")%string then Some (FInt (λ v f, f <| nf_port := v |>))
  else if (name =? "peers")%string then Some (FString (λ v f, f <| nf_peers := v |>))
  else if (name =? "cluster-id")%string then Some (FString (λ v f, f <| nf_cluster_id := v |>))
  else if (name =? "host")%string then Some (FString (λ v f, f <| nf_host := v |>))
  else if (name =? "cp-host")%string then Some (FString (λ v f, f <| nf_cp_host := v |>))
  else if (name =? "cp-port")%string then Some (FInt (λ v f, f <| nf_cp_port := v |>))
  else None.

(** ** main *)

(** The options: the file's if one is named, with the flags over them. *)
Definition runtime_options (ReadFile : string → result string) (f : node_flags) : result NodeRuntimeConfig :=
  let loaded :=
    if bool_decide (nf_config f = EmptyString) then Ok DefaultNodeRuntimeConfig
    else match LoadNodeRuntimeConfig (ReadFile (nf_config f)) with
         | (_, Some e) => Err (Wrapf "failed to load runtime config: %v" [] e)
         | (cfg, None) => Ok cfg
         end in
  cfg ← loaded;
  let c := nrc_ControlPlane cfg in
  let c := if bool_decide (nf_cp_host f = EmptyString) then c else c <| cpc_Host := nf_cp_host f |> in
  let c := if nf_cp_port f =? 0 then c else c <| cpc_Port := nf_cp_port f |> in
  Ok {| nrc_ControlPlane := c |}.

Definition node_config (f : node_flags) (opts : NodeRuntimeConfig) : result NodeConfig :=
  match NewConfig (nf_id f) (nf_port f) (nf_peers f) with
  | Err e => Err (Wrapf "invalid node config: %v" [] e)
  | Ok cfg =>
      Ok {| cfg_ID := cfg_ID cfg; cfg_Port := cfg_Port cfg; cfg_Peers := cfg_Peers cfg; cfg_ClusterID := nf_cluster_id f;
            cfg_Host := nf_host f; cfg_ControlPlaneHost := cpc_Host (nrc_ControlPlane opts);
            cfg_ControlPlanePort := cpc_Port (nrc_ControlPlane opts) |}
  end.

Definition configured (ReadFile : string → result string) (args : list string) : result NodeConfig :=
  '(f, _) ← parse_flags node_flag args default_flags;
  opts ← runtime_options ReadFile f;
  node_config f opts.

(** The session to the control plane and the runtime of the process, which then
    starts; an error ends the process. *)
Definition node_main (ReadFile : string → result string) (args : list string) : result (cpsession * Runtime) :=
  cfg ← configured ReadFile args;
  Ok (NewControlplaneSession (cfg_ID cfg) (cfg_ClusterID cfg) (cfg_ControlPlaneHost cfg) (cfg_ControlPlanePort cfg) (cfg_Host cfg) (cfg_Port cfg),
      runtime_Start (Some NewEngine) (NewRuntime cfg (NewNodeSession (cfg_Host cfg) (cfg_ID cfg) (cfg_Port cfg)))).
