(* ===== verification/NodeBoot.v ===== *)
(** * The start of a node (Start of internal/node/runtime/runtime.go)

    A node registers with the control plane, fetches its peers and swaps to the
    protocol of its cluster; then its timers start.  Its reactor and its server
    run from the beginning, so messages may come before the protocol does.  The
    node is composed with the control plane it registers at. *)

From S2P Require Import Prelude GoStrings Protocol VectorClock Conflict Gossip GossipProps Baseline Fault NodeConfig NodeSession Messages NodeRuntime RuntimeProps NodeServer RuntimeNet Cluster Metrics Sessions Service World CPServer CPServerProps.

Section Boot.
Context {S : Type} `{Orchestrator S, Env, Codec GossipMessage, Codec MembershipEvent, Protobuf, PeerRPC, SendEnv}.
Context (NewClient : string → option error).

(** Until the swap: the node registers and fetches its peers; [early] are the
    messages that arrive meanwhile.  The reply of the peer fetch may be an error,
    which is only logged. *)
Definition boot_register (early : list EnvelopeRequest) (cs : cpsession) (r : Runtime) (st : S) :
    S * cpsession * result (string * Runtime) :=
  let r := foldl (λ r req, HandleEnvelope req r) r early in
  let '(st, cs, registered) := Establish NewClient cs st in
  match registered with
  | Err e => (st, cs, Err (Wrapf "registration failed: %v" [] e))
  | Ok assignedProtocol =>
      let '(st, cs, fetched) := FetchPeers NewClient cs st in
      (st, cs, Ok (assignedProtocol, (getPeersFromControlplane fetched r).1))
  end.

(** What the start of [r] comes to. [log.Fatalf] ends the process: the error. *)
Definition boot (early : list EnvelopeRequest) (cs : cpsession) (r : Runtime) (st : S) :
    outcome (S * cpsession * result Runtime) :=
  match boot_register early cs r st with
  | (st, cs, Err e) => Done (st, cs, Err e)
  | (st, cs, Ok (assignedProtocol, r)) =>
      match runtime_ProtocolSwap assignedProtocol r with
      | Panic why => Panic why
      | Done (r, Some e) =>
          Done (st, cs, Err (Wrapf "protocol initialization failed for %s: %v" [AStr assignedProtocol] e))
      | Done (r, None) => Done (st, cs, Ok r)
      end
  end.

(** One cycle of the sync loop: a heartbeat, unless the fault gate is closed.
    Its error is only logged. *)
Definition runControlplaneSyncCycle (r : Runtime) (cs : cpsession) (st : S) : S * cpsession * option error :=
  if negb (t_Allow (runtime_BeforeTick r)) then (st, cs, None) else cp_Heartbeat NewClient cs st.
End Boot.

(** ** What a start comes to *)

Lemma early_messages early r :
  let r' := foldl (λ r req, HandleEnvelope req r) r early in
  (∃ msgs, eventCh r' = eventCh r ++ (EventMessage <$> msgs) ∧ length msgs = length early) ∧
  r_proto r' = r_proto r ∧ config r' = config r.
Proof.
  revert r. induction early as [|req early IH]; intros r; cbn [foldl].
  { split; [exists []; by rewrite app_nil_r|done]. }
  destruct (IH (HandleEnvelope req r)) as ((msgs & Hq & Hl) & Hp & Hc). split; [|by rewrite Hp, Hc].
  eexists (_ :: msgs). cbn [fmap list_fmap length]. rewrite Hl. split; [|done].
  rewrite Hq. unfold HandleEnvelope. cbn [eventCh set_queue]. rewrite <-app_assoc. reflexivity.
Qed.

Section Outcome.
Context {W : Type} `{NodeOperator W, Clock W}.
Context {E : Env} `{Codec GossipMessage, Codec MembershipEvent, Protobuf, PeerRPC, SendEnv}.
Context (NewClient : string → option error).

(** The swap of a node without a protocol, after messages have come or not. *)
Lemma first_swap key r msgs :
  r_proto r = None → eventCh r = EventMessage <$> msgs →
  runtime_ProtocolSwap key r =
  match msgs with
  | [] => let '(r', e) := applyProtocolSwap key (set_queue [] r) in Done (r', e)
  | _ :: _ => Panic "nil pointer dereference"
  end.
Proof.
  intros Hp Hq. unfold runtime_ProtocolSwap. rewrite Hq. destruct msgs as [|env msgs]; cbn [fmap list_fmap app drain handle_event].
  - destruct (applyProtocolSwap key (set_queue [] r)) as [r' e]. rewrite app_nil_r, last_snoc. done.
  - cbn [r_proto set_queue]. by rewrite Hp.
Qed.

End Outcome.

(** ** Witness *)

Section Witness.
Let C := countable_codec GossipMessage.
Let CM := countable_codec MembershipEvent.
#[local] Existing Instances C CM demo_operator demo_protobuf demo_peers demo_sends.
#[local] Instance boot_clock : Clock (gmap string string) := stopped_clock _ 7.
#[local] Instance boot_env : Env := test_env 5.

End Witness.
