(* ===== verification/GoPath.v ===== *)
(** * File paths (path/filepath, on Unix)

    The purely lexical part of the Go library: Clean, Join and IsAbs. *)

From S2P Require Import Prelude GoStrings.

(** The elements of a path, newest first: [.] and empty ones are dropped, [..]
    takes back the element before it, if there is one to take back. *)
Fixpoint clean_parts (rooted : bool) (acc parts : list string) : list string :=
  match parts with
  | [] => rev acc
  | p :: rest =>
      if bool_decide (p = EmptyString ∨ p = ".") then clean_parts rooted acc rest
      else if bool_decide (p = "..") then
        match acc with
        | [] => clean_parts rooted (if rooted then [] else [".."]) rest
        | q :: acc' => clean_parts rooted (if bool_decide (q = "..") then ".." :: acc else acc') rest
        end
      else clean_parts rooted (p :: acc) rest
  end.

Definition IsAbs (path : string) : bool := HasPrefix path "/".

Definition Clean (path : string) : string :=
  let out := Join (clean_parts (IsAbs path) [] (Split path "/")) "/" in
  if IsAbs path then "/" +:+ out
  else if bool_decide (out = EmptyString) then "." else out.

(** [filepath.Join(a, b)] *)
Definition JoinPath (a b : string) : string :=
  if bool_decide (a = EmptyString) then if bool_decide (b = EmptyString) then EmptyString else Clean b
  else Clean (a +:+ "/" +:+ b).

Example Clean_dots : Clean "./a//b/../c/." = "a/c". Proof. reflexivity. Qed.
Example Clean_above : Clean "../../x" = "../../x". Proof. reflexivity. Qed.
Example Clean_root : Clean "/../x" = "/x". Proof. reflexivity. Qed.
Example JoinPath_here : JoinPath "." "examples/a.yaml" = "examples/a.yaml". Proof. reflexivity. Qed.
