(* ===== verification/GoFmt.v ===== *)
(** * Numbers and times as text

    The verb [%.2f] of package fmt and the layout time.RFC3339 of package time.
    A time is a number of nanoseconds since 1970; the offset of the local time
    zone, in seconds, is an argument. *)

From Stdlib Require Import SpecFloat.
From S2P Require Import Prelude GoStrings GoTime.

(** ** Two decimals *)

(** [m 2^e] in hundredths, rounded to the nearest, ties to even. *)
Definition hundredths (m e : Z) : Z :=
  if 0 <=? e then m * 2 ^ e * 100
  else
    let d := 2 ^ (- e) in
    let q := (m * 100) / d in
    let r := (m * 100) `mod` d in
    if (2 * r <? d) || (2 * r =? d) && Z.even q then q else q + 1.

(** [appendInt]: at least as many digits as the width. *)
Fixpoint zeros (n : nat) : string := match n with O => EmptyString | S n => String "0" (zeros n) end.
Definition pad_int (width : nat) (z : Z) : string :=
  let s := itoa (Z.abs z) in
  (if z <? 0 then "-" else EmptyString) +:+ zeros (width - String.length s) +:+ s.

Definition fixed2 (f : spec_float) : string :=
  match f with
  | S754_nan => "NaN"
  | S754_infinity s => if s then "-Inf" else "+Inf"
  | S754_zero s => if s then "-0.00" else "0.00"
  | S754_finite s m e =>
      let n := hundredths (Z.pos m) e in
      (if s then "-" else EmptyString) +:+ itoa (n / 100) +:+ "." +:+ pad_int 2 (n `mod` 100)
  end.

Lemma hundredths_nearest m e :
  e < 0 → 2 * Z.abs (hundredths m e * 2 ^ (- e) - m * 100) ≤ 2 ^ (- e).
Proof.
  intros He. unfold hundredths. rewrite (proj2 (Z.leb_gt 0 e)) by done.
  assert (0 < 2 ^ (- e)) as Hd by (apply Z.pow_pos_nonneg; lia). set (d := 2 ^ (- e)) in *.
  pose proof (Z.div_mod (m * 100) d ltac:(lia)) as Hdm. pose proof (Z.mod_pos_bound (m * 100) d Hd) as Hr.
  set (q := m * 100 / d) in *. set (r := (m * 100) `mod` d) in *. cbv zeta.
  destruct (Z.ltb_spec (2 * r) d); cbn [orb].
  { replace (q * d - m * 100) with (- r) by lia. lia. }
  destruct (Z.eqb_spec (2 * r) d); cbn [andb].
  - destruct (Z.even q); [replace (q * d - m * 100) with (- r) by lia|replace ((q + 1) * d - m * 100) with (d - r) by lia]; lia.
  - replace ((q + 1) * d - m * 100) with (d - r) by lia. lia.
Qed.

Example fixed2_examples :
  fixed2 (S754_finite false 7205759403792794 (-56)) = "0.10" ∧ fixed2 (S754_finite false 1 (-3)) = "0.12" ∧
  fixed2 (S754_finite false 3 (-3)) = "0.38" ∧ fixed2 (S754_finite false 1 0) = "1.00".
Proof. by vm_compute. Qed.

(** ** Calendar dates *)

Definition leap (y : Z) : bool := (y `mod` 4 =? 0) && (negb (y `mod` 100 =? 0) || (y `mod` 400 =? 0)).

Definition days_in (y m : Z) : Z :=
  if m =? 2 then (if leap y then 29 else 28)
  else if existsb (Z.eqb m) [4; 6; 9; 11] then 30 else 31.

(** The month and the day of the month, of a day of a year. *)
Fixpoint month_of (lengths : list Z) (m yday : Z) : Z * Z :=
  match lengths with
  | [] => (m, yday + 1)
  | n :: rest => if yday <? n then (m, yday + 1) else month_of rest (m + 1) (yday - n)
  end.

Definition month_lengths (leap_year : bool) : list Z := [31; if leap_year then 29 else 28; 31; 30; 31; 30; 31; 31; 30; 31; 30; 31].

(** The date of a day since 1970, in the Gregorian calendar: whole cycles of 400
    years are taken off, then of 100, of 4 and of one.  The last of four
    centuries, or years, is a day longer. *)
Definition civil_of_day (z : Z) : Z * Z * Z :=
  let z := z + 719162 in
  let n400 := z / 146097 in
  let d := z `mod` 146097 in
  let n100 := Z.min (d / 36524) 3 in
  let d := d - 36524 * n100 in
  let n4 := d / 1461 in
  let d := d `mod` 1461 in
  let n1 := Z.min (d / 365) 3 in
  let yday := d - 365 * n1 in
  let y := 400 * n400 + 100 * n100 + 4 * n4 + n1 + 1 in
  let '(m, day) := month_of (month_lengths (leap y)) 1 yday in
  (y, m, day).

(** The days before a year, counted from 1970. *)
Definition days_before_year (y : Z) : Z := 365 * (y - 1) + (y - 1) / 4 - (y - 1) / 100 + (y - 1) / 400 - 719162.

Definition days_before_month (y m : Z) : Z := foldr Z.add 0 (take (Z.to_nat (m - 1)) (month_lengths (leap y))).

Lemma days_in_lengths y m : 1 ≤ m ≤ 12 → month_lengths (leap y) !! Z.to_nat (m - 1) = Some (days_in y m).
Proof.
  intros Hm. assert (m ∈ seqZ 1 12) as Hin by (apply elem_of_seqZ; lia). unfold days_in.
  repeat (apply elem_of_cons in Hin as [->|Hin]; [by destruct (leap y)|]). destruct (not_elem_of_nil _ Hin).
Qed.

(** A day of the year lies in its month. *)
Lemma month_of_spec lengths m yday : 0 ≤ yday < foldr Z.add 0 lengths →
  let '(m', d) := month_of lengths m yday in
  m ≤ m' ∧ 1 ≤ d ∧ (∃ n, lengths !! Z.to_nat (m' - m) = Some n ∧ d ≤ n) ∧
  foldr Z.add 0 (take (Z.to_nat (m' - m)) lengths) + d - 1 = yday.
Proof.
  revert m yday. induction lengths as [|n lengths IH]; intros m yday; cbn [month_of foldr]; [lia|]. intros Hy.
  destruct (Z.ltb_spec yday n).
  - replace (m - m) with 0 by lia. change (Z.to_nat 0) with 0%nat. cbn [take foldr lookup list_lookup]. split_and!; [lia|lia|by exists n; split; [|lia]|lia].
  - specialize (IH (m + 1) (yday - n) ltac:(lia)). destruct (month_of lengths (m + 1) (yday - n)) as [m' d].
    destruct IH as (Hm & Hd & (n' & Hn' & Hle) & Hsum). replace (Z.to_nat (m' - m)) with (S (Z.to_nat (m' - (m + 1)))) by lia.
    cbn [lookup list_lookup take foldr]. split_and!; [lia|lia|by exists n'|lia].
Qed.

Lemma leap_spec n400 n100 n4 n1 :
  0 ≤ n100 ≤ 3 → 0 ≤ n4 ≤ 24 → 0 ≤ n1 ≤ 3 →
  leap (400 * n400 + 100 * n100 + 4 * n4 + n1 + 1) = (n1 =? 3) && (negb (n4 =? 24) || (n100 =? 3)).
Proof.
  intros H1 H2 H3. unfold leap.
  replace (400 * n400 + 100 * n100 + 4 * n4 + n1 + 1) with (n1 + 1 + (100 * n400 + 25 * n100 + n4) * 4) at 1 by lia.
  replace (400 * n400 + 100 * n100 + 4 * n4 + n1 + 1) with (4 * n4 + n1 + 1 + (4 * n400 + n100) * 100) at 1 by lia.
  replace (400 * n400 + 100 * n100 + 4 * n4 + n1 + 1) with (100 * n100 + 4 * n4 + n1 + 1 + n400 * 400) by lia.
  rewrite !Z.mod_add by lia. apply eq_bool_prop_intro. rewrite !andb_True, !orb_True, !negb_True, !Is_true_true, !Z.eqb_eq.
  Z.to_euclidean_division_equations. lia.
Qed.

(** Every day has a date of the calendar, and as many days lie before it. *)
Lemma civil_of_day_spec z :
  let '(y, m, d) := civil_of_day z in
  1 ≤ m ≤ 12 ∧ 1 ≤ d ≤ days_in y m ∧ days_before_year y + days_before_month y m + d - 1 = z.
Proof.
  unfold civil_of_day. cbv zeta. set (n400 := (z + 719162) / 146097). set (d1 := (z + 719162) `mod` 146097).
  assert (z + 719162 = 146097 * n400 + d1) as Hz by (apply Z.div_mod; lia).
  assert (0 ≤ d1 < 146097) as Hd1 by (apply Z.mod_pos_bound; lia).
  set (n100 := Z.min (d1 / 36524) 3). set (d2 := d1 - 36524 * n100).
  assert (0 ≤ n100 ≤ 3 ∧ 0 ≤ d2 ∧ (d2 < 36524 ∨ (n100 = 3 ∧ d2 = 36524))) as (Hn100 & Hd2 & Hd2').
  { subst d2 n100. pose proof (Z.div_mod d1 36524 ltac:(lia)). pose proof (Z.mod_pos_bound d1 36524 ltac:(lia)). lia. }
  set (n4 := d2 / 1461). set (d3 := d2 `mod` 1461).
  assert (d2 = 1461 * n4 + d3) as Hn4 by (apply Z.div_mod; lia).
  assert (0 ≤ d3 < 1461) as Hd3 by (apply Z.mod_pos_bound; lia).
  set (n1 := Z.min (d3 / 365) 3). set (yday := d3 - 365 * n1).
  assert (0 ≤ n1 ≤ 3 ∧ 0 ≤ yday ∧ (yday < 365 ∨ (n1 = 3 ∧ yday = 365))) as (Hn1 & Hy & Hy').
  { subst yday n1. pose proof (Z.div_mod d3 365 ltac:(lia)). pose proof (Z.mod_pos_bound d3 365 ltac:(lia)). lia. }
  assert (d3 = 365 * n1 + yday) as Hd3y by lia. assert (d1 = 36524 * n100 + d2) as Hd1y by lia. clearbody n100 d2 n4 d3 n1 yday d1 n400.
  assert (0 ≤ n4 ≤ 24) as Hn4' by lia.
  set (y := 400 * n400 + 100 * n100 + 4 * n4 + n1 + 1).
  pose proof (leap_spec n400 n100 n4 n1 Hn100 Hn4' Hn1) as Hleap. fold y in Hleap.
  assert (yday < foldr Z.add 0 (month_lengths (leap y))) as Hyl.
  { rewrite Hleap. destruct (Z.eqb_spec n1 3); [|cbn; lia]. destruct (Z.eqb_spec n4 24); [|cbn; lia].
    destruct (Z.eqb_spec n100 3); cbn; lia. }
  pose proof (month_of_spec (month_lengths (leap y)) 1 yday ltac:(lia)) as Hm.
  destruct (month_of _ 1 yday) as [m d]. destruct Hm as (Hm1 & Hd0 & (n & Hn & Hdn) & Hsum).
  assert (m ≤ 12) as Hm12.
  { apply lookup_lt_Some in Hn. change (length (month_lengths (leap y))) with 12%nat in Hn. lia. }
  rewrite days_in_lengths in Hn by lia. injection Hn as <-. split_and!; [lia..|].
  unfold days_before_month. assert (days_before_year y = z - yday) as Hyear; [|lia].
  unfold days_before_year. assert ((y - 1) / 4 = 100 * n400 + 25 * n100 + n4) as ->.
  { subst y. symmetry. apply (Z.div_unique_pos _ _ _ n1); lia. }
  assert ((y - 1) / 100 = 4 * n400 + n100) as -> by (subst y; symmetry; apply (Z.div_unique_pos _ _ _ (4 * n4 + n1)); lia).
  assert ((y - 1) / 400 = n400) as -> by (subst y; symmetry; apply (Z.div_unique_pos _ _ _ (100 * n100 + 4 * n4 + n1)); lia).
  subst y. lia.
Qed.

(** ** time.RFC3339 *)

Definition zone_text (offset : Z) : string :=
  if offset =? 0 then "Z"
  else
    let zone := Z.quot offset 60 in
    (if zone <? 0 then "-" else "+") +:+ pad_int 2 (Z.abs zone / 60) +:+ ":" +:+ pad_int 2 ((Z.abs zone) `mod` 60).

Definition RFC3339 (offset : Z) (t : Z) : string :=
  let s := t / ns_per_second + offset in
  let '(y, m, d) := civil_of_day (s / 86400) in
  let r := s `mod` 86400 in
  pad_int 4 y +:+ "-" +:+ pad_int 2 m +:+ "-" +:+ pad_int 2 d +:+ "T" +:+
  pad_int 2 (r / 3600) +:+ ":" +:+ pad_int 2 ((r / 60) `mod` 60) +:+ ":" +:+ pad_int 2 (r `mod` 60) +:+ zone_text offset.

Example RFC3339_examples :
  RFC3339 0 (1136214245 * ns_per_second + 7) = "2006-01-02T15:04:05Z" ∧
  RFC3339 (-25200) (1136239445 * ns_per_second) = "2006-01-02T15:04:05-07:00" ∧
  RFC3339 19800 (1709164800 * ns_per_second) = "2024-02-29T05:30:00+05:30".
Proof. by vm_compute. Qed.
