(* ===== verification/GossipLog.v ===== *)
(** * The log file of gossip (internal/node/protocol/gossip/logging.go)

    Every line the gossip protocol logs is appended to a file of its day.  The
    environment, the offset of the local time zone, the clock and what the file
    system answers are arguments; the files are a map from paths to texts.  The
    mutex makes a call one step. *)

From S2P Require Import Prelude GoStrings GoTime GoPath GoFmt TabWriter.

Definition defaultGossipLogDir : string := "logs".

(** What the file system answers: an error of MkdirAll, of OpenFile, or of the
    write, of which some bytes are written. *)
Record FileAnswers := {
  fa_MkdirAll : option error;
  fa_OpenFile : option error;
  fa_Write : option (nat * error);
}.

Definition no_errors : FileAnswers := {| fa_MkdirAll := None; fa_OpenFile := None; fa_Write := None |}.

(** [now.Format("2006-01-02")] and [now.Format("2006-01-02 15:04:05.000")]. *)
Definition date_text (offset t : Z) : string :=
  let '(y, m, d) := civil_of_day ((t / ns_per_second + offset) / 86400) in
  pad_int 4 y +:+ "-" +:+ pad_int 2 m +:+ "-" +:+ pad_int 2 d.

Definition stamp_text (offset t : Z) : string :=
  let r := (t / ns_per_second + offset) `mod` 86400 in
  date_text offset t +:+ " " +:+ pad_int 2 (r / 3600) +:+ ":" +:+ pad_int 2 ((r / 60) `mod` 60) +:+ ":" +:+
  pad_int 2 (r `mod` 60) +:+ "." +:+ pad_int 3 ((t `mod` ns_per_second) / 1000000).

Definition log_path (logDirEnv : string) (offset t : Z) : string :=
  JoinPath (if bool_decide (logDirEnv = EmptyString) then defaultGossipLogDir else logDirEnv) ("gossip-" +:+ date_text offset t +:+ ".log").

Definition log_line (offset t : Z) (msg : string) : string := stamp_text offset t +:+ " [gossip] " +:+ msg.

(** A file that does not exist is created empty. *)
Definition append_file (path text : string) (files : gmap string string) : gmap string string :=
  <[path := default EmptyString (files !! path) +:+ text]> files.

Definition appendGossipFileLog (logDirEnv : string) (offset now : Z) (answers : FileAnswers) (msg : string) (files : gmap string string) :
    gmap string string * option error :=
  match fa_MkdirAll answers with
  | Some e => (files, Some e)
  | None =>
      let path := log_path logDirEnv offset now in
      match fa_OpenFile answers with
      | Some e => (files, Some e)
      | None =>
          let text := log_line offset now msg +:+ newline in
          match fa_Write answers with
          | Some (n, e) => (append_file path (str_take n text) files, Some e)
          | None => (append_file path text files, None)
          end
      end
  end.

(** ** What a day's file holds *)

(** The calls that succeed, in the order of the lock: the time and the message. *)
Definition log_all (logDirEnv : string) (offset : Z) (calls : list (Z * string)) (files : gmap string string) : gmap string string :=
  foldl (λ fs c, (appendGossipFileLog logDirEnv offset c.1 no_errors c.2 fs).1) files calls.

(** The calls whose lines go to a file. *)
Definition calls_of (logDirEnv : string) (offset : Z) (path : string) (calls : list (Z * string)) : list (Z * string) :=
  filter (λ c, log_path logDirEnv offset c.1 = path) calls.

Definition log_text (offset : Z) (calls : list (Z * string)) : string :=
  foldr (λ c s, log_line offset c.1 c.2 +:+ newline +:+ s) EmptyString calls.

Lemma log_all_file logDirEnv offset calls files path :
  default EmptyString (log_all logDirEnv offset calls files !! path) =
  default EmptyString (files !! path) +:+ log_text offset (calls_of logDirEnv offset path calls).
Proof.
  revert files; induction calls as [|[t msg] calls IH]; intros files; [cbn; by rewrite append_nil_r|].
  unfold log_all, calls_of in *. cbn [foldl]. rewrite IH, filter_cons.
  cbn [appendGossipFileLog fa_MkdirAll fa_OpenFile fa_Write no_errors fst snd]. unfold append_file. case_decide as Hp; cbn in Hp.
  - rewrite Hp, lookup_insert_eq. cbn. by rewrite !append_assoc.
  - by rewrite lookup_insert_ne by done.
Qed.

(** ** Reading it back *)

Lemma pad_int_free c n z : is_digit c = false → c ≠ "-"%char → byte_free c (pad_int n z) = true.
Proof.
  intros Hc Hm. unfold byte_free, pad_int. rewrite !str_forallb_app. pose proof (itoa_byte_free c (Z.abs z) Hc Hm) as Hi.
  unfold byte_free in Hi. rewrite Hi. assert (str_forallb (λ b, negb (Ascii.eqb b c)) (zeros (n - String.length (itoa (Z.abs z)))) = true) as ->.
  { generalize (n - String.length (itoa (Z.abs z)))%nat. intros k. induction k as [|k IH]; [done|]. cbn [zeros str_forallb]. rewrite IH.
    destruct (Ascii.eqb_spec "0" c) as [<-|]; [by vm_compute in Hc|done]. }
  destruct (z <? 0); [|done]. cbn [str_forallb]. destruct (Ascii.eqb_spec "-" c) as [<-|]; done.
Qed.

Lemma stamp_free c offset t :
  is_digit c = false → c ∉ ["-"; " "; ":"; "."]%char → byte_free c (stamp_text offset t) = true.
Proof.
  intros Hd Hc. unfold stamp_text, date_text. destruct (civil_of_day _) as [[y m] d]. unfold byte_free.
  assert (Hne : ∀ a, a ∈ ["-"; " "; ":"; "."]%char → str_forallb (λ b, negb (Ascii.eqb b c)) (String a EmptyString) = true).
  { intros a Ha. cbn [str_forallb]. destruct (Ascii.eqb_spec a c) as [->|]; [done|done]. }
  assert (Hp : ∀ n z, str_forallb (λ b, negb (Ascii.eqb b c)) (pad_int n z) = true).
  { intros n z. apply pad_int_free; [done|]. intros ->. apply Hc. left. }
  cbv zeta. rewrite !str_forallb_app, !Hp, !Hne by set_solver. done.
Qed.

(** The message of a line: what follows the tag. *)
Definition log_message (line : string) : string :=
  match IndexByte line "]" with Some i => str_drop (2 + i) line | None => EmptyString end.

Lemma log_message_line offset t msg : log_message (log_line offset t msg) = msg.
Proof.
  unfold log_message, log_line.
  change (" [gossip] " +:+ msg) with ((" [gossip" +:+ "] ") +:+ msg). rewrite <- !append_assoc, append_assoc.
  set (p := stamp_text offset t +:+ " [gossip").
  assert (Hp : byte_free "]" p = true).
  { unfold p, byte_free. rewrite str_forallb_app. pose proof (stamp_free "]" offset t eq_refl) as Hs. unfold byte_free in Hs.
    rewrite Hs; [done|]. set_solver. }
  rewrite IndexByte_app_free by done.
  change (p +:+ "] " +:+ msg) with (p +:+ String "]" (String " " EmptyString +:+ msg)). change (IndexByte ("] " +:+ msg) "]") with (Some O).
  cbn [fmap option_fmap option_map]. rewrite Nat.add_0_r.
  change (p +:+ String "]" (String " " EmptyString +:+ msg)) with (p +:+ ("] " +:+ msg)). rewrite (append_assoc p "] " msg).
  replace (2 + String.length p)%nat with (String.length (p +:+ "] ")) by (rewrite str_length_app; cbn; lia).
  apply str_drop_app.
Qed.

(** A message without a line break is one line, and the file of a day, split
    at its line breaks, is the messages logged that day in their order. *)
Definition log_messages (file : string) : list string := log_message <$> removelast (Split file (Ascii.ascii_of_nat 10)).

Lemma log_line_free offset t msg : byte_free (Ascii.ascii_of_nat 10) msg = true → byte_free (Ascii.ascii_of_nat 10) (log_line offset t msg) = true.
Proof.
  intros Hm. unfold log_line, byte_free. rewrite !str_forallb_app.
  pose proof (stamp_free (Ascii.ascii_of_nat 10) offset t eq_refl) as Hs. unfold byte_free in Hs, Hm. rewrite Hs, Hm; [done|]. set_solver.
Qed.

Lemma log_text_lines offset calls :
  Forall (λ c, byte_free (Ascii.ascii_of_nat 10) c.2 = true) calls →
  Split (log_text offset calls) (Ascii.ascii_of_nat 10) = ((λ c, log_line offset c.1 c.2) <$> calls) ++ [EmptyString].
Proof.
  induction 1 as [|c calls Hc _ IH]; [done|]. cbn [log_text foldr fmap list_fmap app]. 
  rewrite <- IH. apply (Split_app _ (log_line offset c.1 c.2)). by apply log_line_free.
Qed.

(** The log file of a day reads back. After calls that succeed, in the
    order of the lock, the file of a path that held nothing is, split at its
    line breaks, exactly the messages whose date names that path, in their
    order, each once; a message of another day is in no line of it. The
    messages have no line break. *)
Theorem log_read_back logDirEnv offset calls files path :
  files !! path = None →
  Forall (λ c, byte_free (Ascii.ascii_of_nat 10) c.2 = true) calls →
  log_messages (default EmptyString (log_all logDirEnv offset calls files !! path)) = (calls_of logDirEnv offset path calls).*2.
Proof.
  intros Hn Hc. rewrite log_all_file, Hn. cbn [default from_option]. change (EmptyString +:+ ?s) with s.
  assert (Hf : Forall (λ c, byte_free (Ascii.ascii_of_nat 10) c.2 = true) (calls_of logDirEnv offset path calls)).
  { rewrite Forall_forall in *. intros c [_ Hin]%list_elem_of_filter. by apply Hc. }
  unfold log_messages. rewrite log_text_lines by done.
  rewrite removelast_last, <- list_fmap_compose. apply list_fmap_ext. intros i c _. apply log_message_line.
Qed.

(** A call that fails touches no other file, and of the file of its day it
    appends a prefix of its line, nothing before the write. *)
Lemma appendGossipFileLog_error logDirEnv offset now answers msg files files' e :
  appendGossipFileLog logDirEnv offset now answers msg files = (files', Some e) →
  files' = files ∨
  ∃ n, fa_Write answers = Some (n, e) ∧
    files' = append_file (log_path logDirEnv offset now) (str_take n (log_line offset now msg +:+ newline)) files.
Proof.
  unfold appendGossipFileLog. destruct (fa_MkdirAll answers); [intros [= <- _]; by left|].
  destruct (fa_OpenFile answers); [intros [= <- _]; by left|].
  destruct (fa_Write answers) as [[n e']|]; intros [= <- <-]. right. by exists n.
Qed.

(** Two days of three messages: 2024-02-29 23:59:59.999, and the day after. *)
Definition leap_second : Z := 1709251199999 * 1000000.
Definition demo_calls : list (Z * string) :=
  [(leap_second, "node=n1 tick"); (leap_second + 1000000, "node=n1 send"); (leap_second + 2000000, "node=n2 [x] tick")]%Z.

Example demo_path : log_path EmptyString 0 leap_second = "logs/gossip-2024-02-29.log".
Proof. vm_compute. reflexivity. Qed.

Example demo_line : log_line 0 leap_second "node=n1 tick" = "2024-02-29 23:59:59.999 [gossip] node=n1 tick".
Proof. vm_compute. reflexivity. Qed.

Lemma log_read_back_witness :
  log_messages (default EmptyString (log_all "tmp/" 0 demo_calls ∅ !! "tmp/gossip-2024-03-01.log")) = ["node=n1 send"; "node=n2 [x] tick"].
Proof.
  rewrite (log_read_back "tmp/" 0 demo_calls ∅ "tmp/gossip-2024-03-01.log"); [by vm_compute|apply lookup_empty|].
  repeat constructor.
Defined.
