(* ===== verification/Actor.v ===== *)
(** * The control-plane actor (internal/controlplane/actor.go)

    The actor owns the service and the node processes it has started, and runs
    one command at a time: [handle] is the body of its loop.  The state of a run
    is the world [W] (the nodes, the processes, the clock) with the actor.  What
    the other goroutines do between two commands of a hypothesis is an argument;
    log lines are left out. *)

From S2P Require Import Prelude GoStrings GoPath GoSort Fault Messages Commands Experiment Cluster Metrics Sessions Service World.

Record ActorOptions := {
  ao_ProjectRoot : string;
  ao_DefaultCPHost : string;
  ao_DefaultCPPort : Z;
  ao_NodeBinaryPath : string;
}.

Record managedNodeProcess := { mp_NodeID : string; mp_ClusterID : string; mp_PID : Z }.

(** A hypothesis that runs in its own goroutine. *)
Record Hypothesis_run := {
  hr_name : string;
  hr_clusterID : string;
  hr_batches : list CommandBatch;
  hr_trackedKeys : list string;
}.

(** The processes by key: the pid of the handle, if there is one.  [hypotheses]
    are the goroutines started so far. *)
Record Actor := {
  a_service : Service;
  a_options : ActorOptions;
  nodeProcs : gmap string (option Z);
  nodeMeta : gmap string string;
  hypotheses : list Hypothesis_run;
}.

Definition NewActor (s : Service) (o : ActorOptions) : Actor :=
  {| a_service := s; a_options := o; nodeProcs := ∅; nodeMeta := ∅; hypotheses := [] |}.

Definition set_service (s : Service) (a : Actor) : Actor :=
  {| a_service := s; a_options := a_options a; nodeProcs := nodeProcs a; nodeMeta := nodeMeta a; hypotheses := hypotheses a |}.
Definition set_procs (ps : gmap string (option Z)) (meta : gmap string string) (a : Actor) : Actor :=
  {| a_service := a_service a; a_options := a_options a; nodeProcs := ps; nodeMeta := meta; hypotheses := hypotheses a |}.
Definition set_hypotheses (hs : list Hypothesis_run) (a : Actor) : Actor :=
  {| a_service := a_service a; a_options := a_options a; nodeProcs := nodeProcs a; nodeMeta := nodeMeta a; hypotheses := hs |}.

(** ** What a command answers *)

Record ClusterInfo := { ci_ID : string; ci_Protocol : string; ci_Nodes : list Node }.

Inductive ReplyData :=
  | DStarted (started : bool) (nodeID : string)
  | DStopped (nodeID : string)
  | DProcesses (procs : list managedNodeProcess)
  | DNodes (nodes : list Node)
  | DClusters (clusters : list ClusterInfo)
  | DStatusOk
  | DSymmetric
  | DValue (value : string) (metadata : option (Z * string))
  | DKilled (clusterID : string) (stopped : Z)
  | DMetricsStarted (clusterID : string) (intervalMs : Z)
  | DMetrics (view : MetricsView)
  | DHistory (views : list MetricsView)
  | DHypothesis (name clusterID path resolvedPath : string) (steps : Z)
  | DHelp (lines : list string).

(** CommandResult: a command may answer with both. *)
Record CommandResult := { cr_Data : option ReplyData; cr_Error : option error }.

Definition reply (d : ReplyData) : CommandResult := {| cr_Data := Some d; cr_Error := None |}.
Definition reply_nil : CommandResult := {| cr_Data := None; cr_Error := None |}.
Definition reply_error (e : error) : CommandResult := {| cr_Data := None; cr_Error := Some e |}.

(** [cmd.Reply(nil, err)] or the data. *)
Definition reply_of (d : option ReplyData) (e : option error) : CommandResult :=
  match e with Some e => reply_error e | None => {| cr_Data := d; cr_Error := None |} end.

(** ** Process keys *)

Definition managedProcessKey (clusterID nodeID : string) : string := clusterID +:+ "::" +:+ nodeID.

(** [strings.SplitN(key, sep, 2)]: around the first separator, if there is one. *)
Fixpoint SplitPair (sep s : string) : option (string * string) :=
  if HasPrefix s sep then Some (EmptyString, TrimPrefix s sep)
  else match s with
       | EmptyString => None
       | String a r => prod_map (String a) id <$> SplitPair sep r
       end.

Definition parseManagedProcessKey (key : string) : string * string :=
  match SplitPair "::" key with
  | Some (clusterID, nodeID) => (clusterID, nodeID)
  | None => (EmptyString, key)
  end.

(** ** Hypothesis keys *)

(** The keys a hypothesis writes, each once, in their order. *)
Fixpoint write_keys (seen : gset string) (steps : list TimelineStep) : list string :=
  match steps with
  | [] => []
  | s :: rest =>
      let key := TrimSpace (st_Key s) in
      if negb (bool_decide (TrimSpace (st_Action s) = "write")) then write_keys seen rest
      else if bool_decide (key = EmptyString) then write_keys seen rest
      else if bool_decide (key ∈ seen) then write_keys seen rest
      else key :: write_keys ({[key]} ∪ seen) rest
  end.

Definition collectHypothesisWriteKeys (e : Experiment) : list string := write_keys ∅ (x_Timeline e).

(** ** Partitions *)

(** The list of blocked peers with [other] put in, once, or taken out. *)
Definition partition_update (other : string) (enabled : bool) (peers : list string) : list string :=
  let next := filter (λ p, p ≠ other ∨ enabled = true) peers in
  if enabled && negb (bool_decide (other ∈ peers)) then next ++ [other] else next.

Definition with_crashed (b : bool) (f : FaultState) : FaultState :=
  {| fs_Crashed := b; fs_DropRate := fs_DropRate f; fs_DelayMs := fs_DelayMs f; fs_Partition := fs_Partition f |}.
Definition with_drop_rate (r : SpecFloat.spec_float) (f : FaultState) : FaultState :=
  {| fs_Crashed := fs_Crashed f; fs_DropRate := r; fs_DelayMs := fs_DelayMs f; fs_Partition := fs_Partition f |}.
Definition with_delay (ms : Z) (f : FaultState) : FaultState :=
  {| fs_Crashed := fs_Crashed f; fs_DropRate := fs_DropRate f; fs_DelayMs := ms; fs_Partition := fs_Partition f |}.
Definition with_partition (ps : list string) (f : FaultState) : FaultState :=
  {| fs_Crashed := fs_Crashed f; fs_DropRate := fs_DropRate f; fs_DelayMs := fs_DelayMs f; fs_Partition := ps |}.

Definition update_partition (other : string) (enabled : bool) (f : FaultState) : FaultState :=
  with_partition (partition_update other enabled (fs_Partition f)) f.

Definition help_lines : list string :=
  ["start-node <node-id> <port> [--cluster-id <id>] [--host <host>] [--peers <csv>] [--cp-host <host>] [--cp-port <port>]";
   "stop-node <node-id>";
   "list-node-procs";
   "new-cluster <cluster-id> [--protocol <gossip|raft>] (default: gossip)";
   "add-node <cluster-id> <node-id> <host> <port>";
   "remove-node <cluster-id> <node-id>";
   "list-nodes <cluster-id>";
   "list-clusters";
   "set-protocol <cluster-id> <gossip|raft>";
   "kill-cluster <cluster-id>";
   "kv-put <cluster-id> <node-id> <key> <value>";
   "kv-get <cluster-id> <node-id> <key>";
   "run-hypothesis <relative-experiment-path>";
   "metrics-start <cluster-id> [interval-ms]";
   "metrics-watch-key <cluster-id> <key>";
   "metrics-show <cluster-id>";
   "metrics-stop <cluster-id>";
   "set-fault <cluster-id> <node-id> <crashed:true|false> <drop-rate:0..1> <delay-ms:int> [partition-csv]";
   "fault-crash <cluster-id> <node-id>";
   "fault-recover <cluster-id> <node-id>";
   "fault-drop <cluster-id> <node-id> <drop-rate:0..1>";
   "fault-delay <cluster-id> <node-id> <delay-ms:int>";
   "fault-partition <cluster-id> <node-id> <peer-id> <enabled:true|false>";
   "help"].

(** [if x == zero { x = y }] *)
Definition or_string (x y : string) : string := if bool_decide (x = EmptyString) then y else x.
Definition or_int (x y : Z) : Z := if (x =? 0) then y else x.

Section Run.
Context {W : Type} `{RangeOrder, Protobuf, NodeOperator W, Clock W, Processes W}.

(** The manager's session to the nodes, the files, and the YAML decoder. *)
Context (ns : fault_session W) (ReadFile : string → W → result string) (decode : string → result Experiment).

Abbreviation St := (W * Actor)%type.

(** A call of the service. *)
Definition on_service {A} (call : Service → W → W * Service * A) (st : St) : St * A :=
  let '(w, a) := st in
  let '(w, s, r) := call (a_service a) w in ((w, set_service s a), r).

(** A call of the service that looks at the clock. *)
Definition timed {A} (call : Z → Service → Service * A) (st : St) : St * A :=
  on_service (λ s w, let '(w, now) := time_Now w in let '(s, r) := call now s in (w, s, r)) st.

(** *** Processes *)

Definition killProcessTree (proc : option Z) (w : W) : W * option error :=
  match proc with
  | None => (w, Some (Errorf "process is not running" []))
  | Some pid =>
      if (pid <=? 0) then (w, Some (Errorf "invalid process id" []))
      else match os_Kill pid w with
           | (w, KillError e) => (w, Some e)
           | (w, _) => (w, None)
           end
  end.

Definition delete_keys {V} (keys : list string) (m : gmap string V) : gmap string V :=
  foldl (λ m k, delete k m) m keys.

(** Every managed process is killed, whatever the kills answer. *)
Definition stopAllManagedNodeProcesses (st : St) : St :=
  let '(w, a) := st in
  let procs := range 84 (nodeProcs a) in
  let w := foldl (λ w '(_, proc), match proc with None => w | Some _ => (killProcessTree proc w).1 end) w procs in
  (w, set_procs (delete_keys procs.*1 (nodeProcs a)) (delete_keys procs.*1 (nodeMeta a)) a).

Definition process_entry (a : Actor) (entry : string * option Z) : managedNodeProcess :=
  let '(key, proc) := entry in
  let '(clusterID, nodeID) := parseManagedProcessKey key in
  {| mp_NodeID := nodeID;
     mp_ClusterID := or_string clusterID (default EmptyString (nodeMeta a !! key));
     mp_PID := default 0 proc |}.

Definition findManagedProcessByNodeID (nodeID : string) (a : Actor) : result (string * option Z) :=
  match filter (λ '(key, _), (parseManagedProcessKey key).2 = nodeID) (range 853 (nodeProcs a)) with
  | [] => Err (Errorf "node process not running: %s" [AStr nodeID])
  | [found] => Ok found
  | matches =>
      Err (Errorf "node id %s is running in multiple clusters %v; use kill-cluster or make node ids unique"
             [AStr nodeID; AStrs ((λ '(key, _), default EmptyString (nodeMeta a !! key)) <$> matches)])
  end.

Definition forget_process (key : string) (a : Actor) : Actor :=
  set_procs (delete key (nodeProcs a)) (delete key (nodeMeta a)) a.

(** The command line of a node. *)
Definition node_args (cmd : Command) (clusterID host cpHost : string) (cpPort : Z) : list string :=
  ["-id"; cmd_NodeID cmd; "-port"; itoa (cmd_Port cmd); "-cluster-id"; clusterID; "-host"; host;
   "-cp-host"; cpHost; "-cp-port"; itoa cpPort]
  ++ (if bool_decide (cmd_PeersCSV cmd = EmptyString) then [] else ["-peers"; cmd_PeersCSV cmd]).

Definition startNodeProcess (cmd : Command) (st : St) : St * option error :=
  let '(w, a) := st in
  let clusterID := or_string (cmd_ClusterID cmd) "default" in
  let procKey := managedProcessKey clusterID (cmd_NodeID cmd) in
  match nodeProcs a !! procKey with
  | Some _ => (st, Some (Errorf "node process already running: %s (cluster %s)" [AStr (cmd_NodeID cmd); AStr clusterID]))
  | None =>
      let projectRoot := or_string (or_string (cmd_ProjectRoot cmd) (ao_ProjectRoot (a_options a))) "." in
      let cpHost := or_string (or_string (cmd_CPHost cmd) (ao_DefaultCPHost (a_options a))) "localhost" in
      let cpPort := or_int (or_int (cmd_CPPort cmd) (ao_DefaultCPPort (a_options a))) 9000 in
      let host := or_string (cmd_Host cmd) "localhost" in
      match os_Start projectRoot (["go"; "run"; "./cmd/node"] ++ node_args cmd clusterID host cpHost cpPort) w with
      | (w, Err e) => ((w, a), Some (Wrapf "failed to start node process %s: %w" [AStr (cmd_NodeID cmd)] e))
      | (w, Ok pid) =>
          ((w, set_procs (<[procKey := Some pid]> (nodeProcs a)) (<[procKey := clusterID]> (nodeMeta a)) a), None)
      end
  end.

(** The goroutine that waits for a process started under [procKey]: it forgets
    the key when the process has exited. *)
Definition process_exited (procKey : string) (a : Actor) : Actor := forget_process procKey a.

Definition stopNodeProcess (nodeID : string) (st : St) : St * CommandResult :=
  let '(w, a) := st in
  match findManagedProcessByNodeID nodeID a with
  | Err e => (st, reply_error e)
  | Ok (procKey, proc) =>
      match proc with
      | None => (st, reply_error (Errorf "node process has no process handle: %s" [AStr nodeID]))
      | Some _ =>
          match killProcessTree proc w with
          | (w, Some e) => ((w, a), reply_error (Wrapf "failed to stop node process %s: %w" [AStr nodeID] e))
          | (w, None) => ((w, forget_process procKey a), reply (DStopped nodeID))
          end
      end
  end.

(** The kills of killCluster, up to the first that fails; a process without a
    handle is passed over. *)
Fixpoint kill_processes (procs : list (string * option Z)) (stopped : Z) (w : W) : W * Z * option error :=
  match procs with
  | [] => (w, stopped, None)
  | (_, None) :: rest => kill_processes rest stopped w
  | (key, Some pid) :: rest =>
      match killProcessTree (Some pid) w with
      | (w, Some e) =>
          (w, stopped, Some (Wrapf "failed to stop node process %s: %w" [AStr (parseManagedProcessKey key).2] e))
      | (w, None) => kill_processes rest (stopped + 1) w
      end
  end.

Definition killCluster (clusterID : string) (st : St) : St * result Z :=
  let clusterID := TrimSpace clusterID in
  if bool_decide (clusterID = EmptyString) then (st, Err (Errorf "cluster id is required" [])) else
  let '(st, _) :=
    on_service (λ s w, let '(w, now) := time_Now w in let '(w, now') := time_Now w in
                       (StopMetricsSessionIfActive now now' clusterID s w, tt)) st in
  let '(w, a) := st in
  let toKill := filter (λ '(key, _), default EmptyString (nodeMeta a !! key) = clusterID) (range 624 (nodeProcs a)) in
  match kill_processes toKill 0 w with
  | (w, stopped, Some e) => ((w, a), Err e)
  | (w, stopped, None) =>
      let a := set_procs (delete_keys toKill.*1 (nodeProcs a)) (delete_keys toKill.*1 (nodeMeta a)) a in
      let removed :=
        if is_ok (GetCluster clusterID (cluster (a_service a))) then svc_RemoveCluster clusterID (a_service a)
        else (a_service a, None) in
      match removed with
      | (s, Some e) => ((w, set_service s a), Err e)
      | (s, None) =>
          ((w, set_service s a),
           if (stopped =? 0) then Err (Errorf "no managed node processes found for cluster %s" [AStr clusterID])
           else Ok stopped)
      end
  end.

(** *** Faults *)

Definition setFault (clusterID nodeID : string) (f : FaultState) (st : St) : St * option error :=
  on_service (λ s w, let '(w, now) := time_Now w in svc_SetFaultParams ns now clusterID nodeID f s w) st.

(** The fault state of a node, changed and set again. *)
Definition updateFault (clusterID nodeID : string) (f : FaultState → FaultState) (st : St) : St * option error :=
  match node_of clusterID nodeID (a_service st.2) with
  | Err e => (st, Some e)
  | Ok n => setFault clusterID nodeID (f (n_Fault n)) st
  end.

(** The second update may fail: the command succeeds all the same. *)
Definition setPartition (clusterID nodeID peerID : string) (enabled : bool) (st : St) : St * CommandResult :=
  match updateFault clusterID nodeID (update_partition peerID enabled) st with
  | (st, Some e) => (st, reply_error e)
  | (st, None) => ((updateFault clusterID peerID (update_partition nodeID enabled) st).1, reply DSymmetric)
  end.

(** *** Hypotheses *)

Definition runHypothesis (cmd : Command) (st : St) : St * CommandResult :=
  let '(w, a) := st in
  let relOrAbsPath := TrimSpace (cmd_FilePath cmd) in
  if bool_decide (relOrAbsPath = EmptyString) then (st, reply_error (Errorf "hypothesis file path is required" [])) else
  let projectRoot := or_string (or_string (TrimSpace (cmd_ProjectRoot cmd)) (TrimSpace (ao_ProjectRoot (a_options a)))) "." in
  let absPath := if IsAbs relOrAbsPath then relOrAbsPath else JoinPath projectRoot relOrAbsPath in
  match LoadFile (ReadFile absPath w) decode with
  | Err e => (st, reply_error (Wrapf "load hypothesis: %w" [] e))
  | Ok exp =>
      let clusterID := TrimSpace (cc_ID (x_Cluster exp)) in
      if bool_decide (clusterID = EmptyString) then (st, reply_error (Errorf "cluster.id is required in hypothesis yaml" []))
      else
        match Compile {| o_ClusterID := clusterID; o_ControlPlaneHost := ao_DefaultCPHost (a_options a);
                         o_ControlPlanePort := ao_DefaultCPPort (a_options a) |} (Some exp) with
        | Err e => (st, reply_error (Wrapf "compile hypothesis: %w" [] e))
        | Ok batches =>
            ((w, set_hypotheses
                   (hypotheses a ++ [{| hr_name := x_Name exp; hr_clusterID := clusterID; hr_batches := batches;
                                        hr_trackedKeys := collectHypothesisWriteKeys exp |}]) a),
             reply (DHypothesis (x_Name exp) clusterID relOrAbsPath absPath (Z.of_nat (length batches))))
        end
  end.

(** *** The loop *)

Definition cluster_info (s : Service) (id : string) : option ClusterInfo :=
  match svc_GetNodes id s with
  | Err _ => None
  | Ok nodes =>
      Some {| ci_ID := id;
              ci_Protocol := match GetCluster id (cluster s) with Ok c => c_Protocol c | Err _ => EmptyString end;
              ci_Nodes := nodes |}
  end.

Definition status_reply (r : St * option error) : outcome (St * CommandResult) :=
  Done (r.1, reply_of (Some DStatusOk) r.2).

Definition createCluster (cmd : Command) (st : St) : St * CommandResult :=
  let '(st, e) := timed (λ now s, svc_CreateCluster now (cmd_ClusterID cmd) (cmd_Protocol cmd) s) st in
  (st, reply_of None e).

(** RegisterNode has no error to answer with. *)
Definition addNode (cmd : Command) (st : St) : St * CommandResult :=
  let '(st, _) :=
    on_service (λ s w, let '(w, now) := time_Now w in let '(w, now') := time_Now w in
                       (svc_RegisterNode now now' (cmd_ClusterID cmd) (cmd_NodeID cmd) (cmd_Host cmd) (cmd_Port cmd) s w, tt)) st in
  (st, reply_nil).

Definition removeNode (cmd : Command) (st : St) : outcome (St * CommandResult) :=
  match svc_RemoveNode (cmd_ClusterID cmd) (cmd_NodeID cmd) (a_service st.2) st.1 with
  | Panic why => Panic why
  | Done (w, s, e) => Done ((w, set_service s st.2), reply_of None e)
  end.

Definition listNodes (cmd : Command) (st : St) : CommandResult :=
  match svc_GetNodes (cmd_ClusterID cmd) (a_service st.2) with Ok nodes => reply (DNodes nodes) | Err e => reply_error e end.

Definition listClusters (st : St) : CommandResult :=
  let s := a_service st.2 in reply (DClusters (omap (cluster_info s) (GetClusters (cluster s)))).

Definition kvPut (cmd : Command) (st : St) : St * CommandResult :=
  match on_service (λ s w, ExecuteKVPut (cmd_ClusterID cmd) (cmd_NodeID cmd) (cmd_Key cmd) (cmd_Value cmd) s w) st with
  | (st, Some e) => (st, reply_error e)
  | ((w, a), None) =>
      ((w, set_service (RecordWriteKeyForMetrics (cmd_ClusterID cmd) (cmd_Key cmd) (a_service a)) a), reply DStatusOk)
  end.

Definition kvGet (cmd : Command) (st : St) : St * CommandResult :=
  match ExecuteKVGet (cmd_ClusterID cmd) (cmd_NodeID cmd) (cmd_Key cmd) (a_service st.2) st.1 with
  | (w, Err e) => ((w, st.2), reply_error e)
  | (w, Ok res) =>
      ((w, st.2), reply (DValue (Value_ res) (if HasMetadata_ res then Some (Version_ res, Origin_ res) else None)))
  end.

Definition metricsStart (cmd : Command) (st : St) : St * CommandResult :=
  let '(st, r) := timed (λ now s, StartMetricsSessionIfInactive now (cmd_ClusterID cmd) s) st in
  (st, match r with
       | Err e => reply_error e
       | Ok _ => reply (DMetricsStarted (cmd_ClusterID cmd) (if (cmd_IntervalMs cmd <=? 0) then 1000 else cmd_IntervalMs cmd))
       end).

Definition metricsStop (cmd : Command) (st : St) : St * CommandResult :=
  let '(st, r) :=
    on_service (λ s w, let '(w, now) := time_Now w in let '(w, now') := time_Now w in
                       StopMetricsSession now now' (cmd_ClusterID cmd) s w) st in
  (st, match r with Ok view => reply (DMetrics view) | Err e => reply_error e end).

Definition metricsWatchKey (cmd : Command) (st : St) : St * CommandResult :=
  match AddMetricsWatchKey (cmd_ClusterID cmd) (cmd_Key cmd) (a_service st.2) with
  | Err e => (st, reply_error e)
  | Ok s => ((st.1, set_service s st.2), reply DStatusOk)
  end.

Definition metricsShow (cmd : Command) (st : St) : CommandResult :=
  match GetMetricsSnapshot (cmd_ClusterID cmd) (a_service st.2) with Ok view => reply (DMetrics view) | Err e => reply_error e end.

Definition logLifecycleEvent (cmd : Command) (st : St) : St * CommandResult :=
  let '(st, _) :=
    timed (λ now s, (RecordLifecycleEvent now (cmd_ClusterID cmd) (cmd_NodeID cmd) (cmd_EventType cmd) (cmd_Value cmd) s, tt)) st in
  (st, reply DStatusOk).

(** One command: the new state and what the actor replies. *)
Definition handle (cmd : Command) (st : St) : outcome (St * CommandResult) :=
  let clusterID := cmd_ClusterID cmd in
  let nodeID := cmd_NodeID cmd in
  match cmd_Type cmd with
  | CmdCreateCluster => Done (createCluster cmd st)
  | CmdStartNodeProcess =>
      let '(st, e) := startNodeProcess cmd st in
      Done (st, {| cr_Data := Some (DStarted (bool_decide (e = None)) nodeID); cr_Error := e |})
  | CmdStopNodeProcess => Done (stopNodeProcess nodeID st)
  | CmdListNodeProcesses => Done (st, reply (DProcesses (process_entry st.2 <$> range 172 (nodeProcs st.2))))
  | CmdAddNode => Done (addNode cmd st)
  | CmdRemoveNode => removeNode cmd st
  | CmdListNodes => Done (st, listNodes cmd st)
  | CmdListClusters => Done (st, listClusters st)
  | CmdSetFaultParams =>
      status_reply (setFault clusterID nodeID
        {| fs_Crashed := cmd_Crashed cmd; fs_DropRate := cmd_DropRate cmd; fs_DelayMs := cmd_DelayMs cmd;
           fs_Partition := cmd_Partition cmd |} st)
  | CmdCrashNode => status_reply (updateFault clusterID nodeID (with_crashed true) st)
  | CmdRecoverNode => status_reply (updateFault clusterID nodeID (with_crashed false) st)
  | CmdSetDropRate => status_reply (updateFault clusterID nodeID (with_drop_rate (cmd_DropRate cmd)) st)
  | CmdSetDelay => status_reply (updateFault clusterID nodeID (with_delay (cmd_DelayMs cmd)) st)
  | CmdSetPartition => Done (setPartition clusterID nodeID (cmd_PeerID cmd) (cmd_Enabled cmd) st)
  | CmdKVPut => Done (kvPut cmd st)
  | CmdKVGet => Done (kvGet cmd st)
  | CmdSetClusterProtocol =>
      status_reply (on_service (λ s w, SetClusterProtocol clusterID (cmd_Protocol cmd) s w) st)
  | CmdKillCluster =>
      let '(st, r) := killCluster clusterID st in
      Done (st, match r with Ok stopped => reply (DKilled clusterID stopped) | Err e => reply_error e end)
  | CmdMetricsStart => Done (metricsStart cmd st)
  | CmdMetricsStop => Done (metricsStop cmd st)
  | CmdMetricsWatchKey => Done (metricsWatchKey cmd st)
  | CmdLogLifecycleEvent => Done (logLifecycleEvent cmd st)
  | CmdMetricsShow => Done (st, metricsShow cmd st)
  | CmdMetricsHistory => Done (st, reply (DHistory (GetMetricsHistory clusterID (a_service st.2))))
  | CmdRunHypothesis => Done (runHypothesis cmd st)
  | CmdHelp => Done (st, reply (DHelp help_lines))
  end.

(** ** runtime_commands.go, the rest *)

(** ExecuteRuntimeCommand: the data of the reply, unless there is an error. *)
Definition ExecuteRuntimeCommand (raw : string) (st : St) : outcome (St * result (option ReplyData)) :=
  match runtime_command raw with
  | Err e => Done (st, Err e)
  | Ok None => Done (st, Ok None)
  | Ok (Some cmd) =>
      match handle cmd st with
      | Panic why => Panic why
      | Done (st, r) => Done (st, match cr_Error r with Some e => Err e | None => Ok (cr_Data r) end)
      end
  end.

(** ** Running a hypothesis *)

(** Whether the metrics session is started, and the keys are watched. *)
Record hyp_flags := { metricsStarted : bool; watchRegistered : bool }.

Fixpoint watch_keys (clusterID : string) (keys : list string) (s : Service) : Service * bool :=
  match keys with
  | [] => (s, true)
  | key :: rest =>
      match AddMetricsWatchKey clusterID key s with
      | Err _ => (s, false)
      | Ok s => watch_keys clusterID rest s
      end
  end.

(** What a batch does about the metrics before its commands. *)
Definition hyp_metrics (clusterID : string) (keys : list string) (f : hyp_flags) (st : St) : St * hyp_flags :=
  let '(st, ms) :=
    if metricsStarted f then (st, true)
    else match timed (λ now s, StartMetricsSessionIfInactive now clusterID s) st with
         | (st, Ok startedNow) => (st, startedNow || IsActive clusterID (metrics (a_service st.2)))
         | (st, Err _) => (st, false)
         end in
  if ms && negb (watchRegistered f) then
    let '(w, a) := st in
    let '(s, all) := watch_keys clusterID keys (a_service a) in
    ((w, set_service s a), {| metricsStarted := ms; watchRegistered := all |})
  else (st, {| metricsStarted := ms; watchRegistered := watchRegistered f |}).

Definition nested_hypothesis (raw : string) : bool :=
  HasPrefix (TrimSpace raw) "run-hypothesis" || HasPrefix (TrimSpace raw) "run-experiment".

(** The commands of a batch, up to the first that fails.  [others j] is what
    happens before the [j]-th. *)
Fixpoint hyp_commands (others : nat → St → St) (j : nat) (cmds : list string) (st : St) : outcome (St * bool) :=
  match cmds with
  | [] => Done (st, true)
  | raw :: rest =>
      if nested_hypothesis raw then hyp_commands others (S j) rest st
      else match ExecuteRuntimeCommand raw (others j st) with
           | Panic why => Panic why
           | Done (st, Err _) => Done (st, false)
           | Done (st, Ok _) => hyp_commands others (S j) rest st
           end
  end.

(** The batches, and whether all of them were completed; [waits i] is what
    happens while batch [i] waits for its time. *)
Fixpoint hyp_batches (waits : nat → St → St) (others : nat → nat → St → St) (clusterID : string) (keys : list string)
    (i : nat) (batches : list CommandBatch) (f : hyp_flags) (st : St) : outcome (St * hyp_flags * bool) :=
  match batches with
  | [] => Done (st, f, true)
  | b :: rest =>
      let '(st, f) := hyp_metrics clusterID keys f (waits i st) in
      match hyp_commands (others i) 0 (b_Commands b) st with
      | Panic why => Panic why
      | Done (st, false) => Done (st, f, false)
      | Done (st, true) => hyp_batches waits others clusterID keys (S i) rest f st
      end
  end.

(** executeHypothesis; [settle] is what happens while it waits for convergence
    (and five seconds more when that times out), which changes nothing itself. *)
Definition executeHypothesis (waits : nat → St → St) (others : nat → nat → St → St) (settle : St → St)
    (h : Hypothesis_run) (st : St) : outcome (St * bool) :=
  match hyp_batches waits others (hr_clusterID h) (hr_trackedKeys h) 0 (hr_batches h)
          {| metricsStarted := false; watchRegistered := false |} st with
  | Panic why => Panic why
  | Done (st, f, completed) =>
      if negb (metricsStarted f) then Done (st, completed)
      else
        let st := if completed then settle st else st in
        let '(st, _) :=
          on_service (λ s w, let '(w, now) := time_Now w in let '(w, now') := time_Now w in
                             StopMetricsSession now now' (hr_clusterID h) s w) st in
        Done (st, completed)
  end.
End Run.
