(* ===== verification/ControlPlane.v ===== *)
(** * The states of the control plane

    The steps of the control plane as a relation (a command of its actor, a
    request of a node, a round of its own goroutines, a process that exits) and
    the invariant of the states they reach. *)

From S2P Require Import Prelude GoStrings GoSort Fault Messages Commands Experiment Cluster Metrics Sessions Service World CPServer Actor.

(** ** The state invariant *)

Record service_ok (s : Service) : Prop := {
  svc_manager : manager_ok (cluster s);
  svc_sessions : sessions_ok (metrics s);
}.

(** Every process has a handle with a positive pid, and is kept under the key of
    its cluster, which is recorded. *)
Record processes_ok (a : Actor) : Prop := {
  procs_meta key : is_Some (nodeProcs a !! key) ↔ is_Some (nodeMeta a !! key);
  procs_key key c : nodeMeta a !! key = Some c → ∃ id, key = managedProcessKey c id;
  procs_pid key p : nodeProcs a !! key = Some p → ∃ pid, p = Some pid ∧ 0 < pid;
}.

Lemma service_ok_session `{RangeOrder} op s : service_ok s → service_ok (set_metrics (session_do (metrics s) op) s).
Proof. intros [Hm Hs]. split; [done|]. by apply sessions_ok_do. Qed.

Lemma service_ok_manager {W} `{RangeOrder} (w : W) op s :
  service_ok s → service_ok (set_cluster (manager_do (w, cluster s) op).2 s).
Proof. intros [Hm Hs]. split; [|done]. by apply (manager_do_ok (w, cluster s) op). Qed.

(** The parts of the service that the invariant does not look at. *)
Lemma service_ok_same s s' : cluster s' = cluster s → metrics s' = metrics s → service_ok s → service_ok s'.
Proof. intros Hc Hm [? ?]. split; [by rewrite Hc|by rewrite Hm]. Qed.

Section Keeps.
Context `{RangeOrder}.

Lemma ok_event cid key t e s : service_ok s → service_ok (record_event cid key t e s).
Proof. apply (service_ok_session (OpEvent cid key t e)). Qed.

Lemma ok_lifecycle now cid id type text s : service_ok s → service_ok (RecordLifecycleEvent now cid id type text s).
Proof. intros Hs. unfold RecordLifecycleEvent. destruct (IsActive cid (metrics s)); [|done]. by apply ok_event. Qed.

Lemma ok_start now cid s : service_ok s → service_ok (StartMetricsSession now cid s).1.
Proof.
  intros Hs. unfold StartMetricsSession. cbv zeta. case_bool_decide; [done|].
  destruct (GetCluster _ _); [|done]. destruct (Start (TrimSpace cid) now (metrics s)) as [m|] eqn:Hst; [|done].
  eapply (service_ok_same (set_metrics m s)); [done|done|].
  pose proof (service_ok_session (OpStart (TrimSpace cid) now) s Hs) as Hok. cbn [session_do] in Hok. by rewrite Hst in Hok.
Qed.

Lemma ok_start_inactive now cid s : service_ok s → service_ok (StartMetricsSessionIfInactive now cid s).1.
Proof.
  intros Hs. unfold StartMetricsSessionIfInactive. destruct (IsActive cid (metrics s)); [done|].
  pose proof (ok_start now cid s Hs). by destruct (StartMetricsSession now cid s) as [? [?|]].
Qed.

Lemma ok_watch cid key s s' : service_ok s → AddMetricsWatchKey cid key s = Ok s' → service_ok s'.
Proof.
  intros Hs. unfold AddMetricsWatchKey. destruct (TrackKey cid key (metrics s)) as [m|] eqn:Ht; [|done]. intros [= <-].
  pose proof (service_ok_session (OpTrack cid key) s Hs) as Hok. cbn [session_do] in Hok. by rewrite Ht in Hok.
Qed.

Lemma ok_write_key cid key s : service_ok s → service_ok (RecordWriteKeyForMetrics cid key s).
Proof.
  intros Hs. unfold RecordWriteKeyForMetrics. destruct (IsActive cid (metrics s)); [|done].
  by apply (service_ok_session (OpTrack cid key)).
Qed.

Lemma ok_broadcast now req s : service_ok s → service_ok (BroadcastLog now req s).
Proof.
  intros Hs. unfold BroadcastLog. cbv zeta.
  match goal with |- service_ok (set_listeners _ ?s0) => apply (service_ok_same s0); [done|done|] end. destruct req as [r|]; [|done].
  assert (Hc : service_ok (if Contains (lr_Message r) "TRACE:SEND:"
    then set_counts (<[lr_ClusterId r := wrap_u64 (count (totalRPCs s) (lr_ClusterId r) + 1)]> (totalRPCs s))
           (totalWrites s) (recentKeys s) s else s)).
  { destruct (Contains _ _); [|done]. by apply (service_ok_same s). }
  revert Hc. generalize (if Contains (lr_Message r) "TRACE:SEND:" then
    set_counts (<[lr_ClusterId r := wrap_u64 (count (totalRPCs s) (lr_ClusterId r) + 1)]> (totalRPCs s))
      (totalWrites s) (recentKeys s) s else s). intros s1 Hs1.
  destruct (HasPrefix _ _); [|done]. unfold handleTimelineLog. destruct (parseTimelineLog r); [|done]. by apply ok_event.
Qed.

Context {W : Type} `{Protobuf, NodeOperator W}.

Lemma ok_sample_keys now cid nodes keys s w : service_ok s → service_ok (sample_keys now cid nodes keys s w).2.
Proof.
  revert s w; induction keys as [|key keys IH]; intros s w Hs; [done|]. cbn [sample_keys].
  destruct (sample_nodes cid key s nodes ∅ w) as [w' [states|]]; apply IH; [|done].
  by apply (service_ok_session (OpSnapshot cid key now states)).
Qed.

Lemma ok_sample now cid s w : service_ok s → service_ok (sampleAllTrackedKeys now cid s w).2.
Proof.
  intros Hs. unfold sampleAllTrackedKeys. destruct (IsActive cid (metrics s)); [|done]. cbn.
  destruct (GetSession cid (metrics s)); [|done]. case_bool_decide; [done|].
  destruct (GetNodes cid (cluster s)) as [[|n nodes]|]; [done| |done]. by apply ok_sample_keys.
Qed.

Lemma ok_stop now now' cid s w : service_ok s → service_ok (StopMetricsSession now now' cid s w).1.2.
Proof.
  intros Hs. unfold StopMetricsSession. pose proof (ok_sample now (TrimSpace cid) s w Hs) as Hs1.
  destruct (sampleAllTrackedKeys now (TrimSpace cid) s w) as [w1 s1]. cbn [snd] in Hs1. cbv zeta.
  set (s2 := set_sampling _ _ s1). assert (Hs2 : service_ok s2) by (by apply (service_ok_same s1)).
  set (s3 := set_metrics (UpdateSessionStats (TrimSpace cid) (stats_since (TrimSpace cid) s1) (metrics s2)) s2).
  assert (Hs3 : service_ok s3) by (by apply (service_ok_session (OpStats (TrimSpace cid) (stats_since (TrimSpace cid) s1)))).
  destruct (Stop (TrimSpace cid) now' (metrics s3)) as [m|] eqn:Hm; [|done].
  pose proof (service_ok_session (OpStop (TrimSpace cid) now') s3 Hs3) as Hok. cbn [session_do] in Hok. by rewrite Hm in Hok.
Qed.

Lemma ok_stop_active now now' cid s w : service_ok s → service_ok (StopMetricsSessionIfActive now now' cid s w).2.
Proof.
  intros Hs. unfold StopMetricsSessionIfActive. destruct (IsActive cid (metrics s)); [|done]. by apply ok_stop.
Qed.

Lemma ok_create now cid p s : service_ok s → service_ok (svc_CreateCluster now cid p s).1.
Proof.
  intros Hs. unfold svc_CreateCluster. pose proof (service_ok_manager tt (OpCreateCluster cid p) s Hs) as Hok.
  cbn [manager_do snd] in Hok. destruct (CreateCluster cid p (cluster s)) as [m [e|]]; [done|]. by apply ok_lifecycle.
Qed.

Lemma ok_remove_cluster cid s : service_ok s → service_ok (svc_RemoveCluster cid s).1.
Proof.
  intros Hs. unfold svc_RemoveCluster. pose proof (service_ok_manager tt (OpRemoveCluster cid) s Hs) as Hok.
  cbn [manager_do snd] in Hok. by destruct (RemoveCluster cid (cluster s)).
Qed.

Lemma ok_heartbeat now cid id s : service_ok s → service_ok (svc_Heartbeat now cid id s).1.
Proof.
  intros Hs. unfold svc_Heartbeat. pose proof (service_ok_manager tt (OpHeartbeat now cid id) s Hs) as Hok.
  cbn [manager_do snd] in Hok. by destruct (Heartbeat now cid id (cluster s)).
Qed.

Lemma ok_capabilities cid id key epoch caps t s :
  service_ok s → service_ok (ReportNodeCapabilities cid id key epoch caps t s).1.
Proof.
  intros Hs. unfold ReportNodeCapabilities.
  pose proof (service_ok_manager tt (OpSetCapabilities cid id key epoch caps t) s Hs) as Hok.
  cbn [manager_do snd] in Hok. by destruct (SetNodeCapabilities cid id key epoch caps t (cluster s)).
Qed.

Lemma ok_set_protocol cid p s (w : W) : service_ok s → service_ok (SetClusterProtocol cid p s w).1.2.
Proof.
  intros Hs. unfold SetClusterProtocol. destruct (GetNodes cid (cluster s)); [|done]. cbv zeta.
  pose proof (service_ok_manager tt (OpSwapProtocol cid (ToLower (TrimSpace p))) s Hs) as Hok.
  cbn [manager_do snd] in Hok. by destruct (SwapProtocol cid (ToLower (TrimSpace p)) (cluster s)).
Qed.

Lemma ok_fault_events now cid id old new s : service_ok s → service_ok (fault_events now cid id old new s).
Proof. intros Hs. unfold fault_events. repeat case_match; by repeat apply ok_lifecycle. Qed.

Lemma ok_set_fault (ns : fault_session W) now cid id f s w :
  service_ok s → service_ok (svc_SetFaultParams ns now cid id f s w).1.2.
Proof.
  intros Hs. unfold svc_SetFaultParams. pose proof (service_ok_manager w (OpSetFaultParams ns cid id f) s Hs) as Hok.
  cbn [manager_do snd] in Hok. destruct (SetFaultParams ns cid id f (cluster s) w) as [[w' m] [e|]]; cbn [fst snd] in *; [done|].
  destruct (GetNode cid id (cluster s)); [|done]. cbn [cluster set_cluster].
  destruct (heap m !! a); [|done]. by apply ok_fault_events.
Qed.

Lemma ok_register now now' cid id host port s (w : W) : service_ok s → service_ok (svc_RegisterNode now now' cid id host port s w).2.
Proof.
  intros Hs. unfold svc_RegisterNode. destruct (node_Ping host port w).
  pose proof (service_ok_manager tt (OpRegisterNode now cid id host port) s Hs) as Hok.
  cbn [manager_do snd] in Hok. destruct (RegisterNode now cid id host port (cluster s)). by apply ok_lifecycle.
Qed.

Lemma ok_remove_node cid id s (w w' : W) s' e : service_ok s → svc_RemoveNode cid id s w = Done (w', s', e) → service_ok s'.
Proof.
  intros Hs. unfold svc_RemoveNode. destruct (node_of cid id s); [|done]. destruct (node_StopNode _ _ _).
  unfold RemoveNodeC. pose proof (service_ok_manager tt (OpRemoveNode cid id) s Hs) as Hok.
  cbn [manager_do snd] in Hok. destruct (RemoveNode cid id (cluster s)). by intros [= <- <- <-].
Qed.

Lemma ok_put cid id key value s (w : W) : service_ok s → service_ok (ExecuteKVPut cid id key value s w).1.2.
Proof.
  intros Hs. unfold ExecuteKVPut. destruct (node_of cid id s); [|done]. cbv zeta.
  destruct (node_ExecuteAction _ _ _ _) as [w' [resp|]]; [|done]. destruct (rsp_Success resp); [|done].
  by apply (service_ok_same s).
Qed.
End Keeps.

(** ** Every step of the control plane keeps it *)

(** Forgetting processes. *)
Lemma lookup_delete_keys {V} keys (m : gmap string V) k :
  delete_keys keys m !! k = if decide (k ∈ keys) then None else m !! k.
Proof.
  unfold delete_keys. revert m; induction keys as [|key keys IH]; intros m; cbn [foldl].
  { by rewrite decide_False by set_solver. }
  rewrite IH. destruct (decide (k ∈ keys)); [by rewrite decide_True by set_solver|].
  destruct (decide (k = key)) as [->|Hne]; [rewrite decide_True by set_solver; apply lookup_delete_eq|].
  rewrite decide_False by set_solver. by rewrite lookup_delete_ne.
Qed.

Section Control.
Context {W : Type} `{RangeOrder, Protobuf, NodeOperator W, Clock W, Processes W}.
Context (ns : fault_session W) (ReadFile : string → W → result string) (decode : string → result Experiment).

Abbreviation St := (W * Actor)%type.

(** What the control plane does at a time: a command of its actor, a request of
    a node, a round of its own goroutines, a process that exits; the world may
    change on its own. *)
Inductive cp_step : St → St → Prop :=
  | step_command cmd st st' r : handle ns ReadFile decode cmd st = Done (st', r) → cp_step st st'
  | step_register req w a w' s' resp :
      server_RegisterNode req (w, a_service a) = ((w', s'), resp) → cp_step (w, a) (w', set_service s' a)
  | step_heartbeat req w a w' s' resp :
      server_Heartbeat req (w, a_service a) = ((w', s'), resp) → cp_step (w, a) (w', set_service s' a)
  | step_log req w a w' s' resp :
      server_ReportLog req (w, a_service a) = ((w', s'), resp) → cp_step (w, a) (w', set_service s' a)
  | step_capabilities req w a :
      cp_step (w, a) (w, set_service (server_ReportNodeCapabilities req (a_service a)).1 a)
  | step_sample now cid w a w' s' :
      sampler_round now cid (a_service a) w = (w', s') → cp_step (w, a) (w', set_service s' a)
  | step_cleanup now timeout w a :
      cp_step (w, a) (w, set_service (set_cluster (Cleanup now timeout (cluster (a_service a))) (a_service a)) a)
  | step_hypothesis cid keys f st : cp_step st (hyp_metrics cid keys f st).1
  | step_finish cid now now' w a w' s' r :
      StopMetricsSession now now' cid (a_service a) w = (w', s', r) → cp_step (w, a) (w', set_service s' a)
  | step_listeners listeners w a : cp_step (w, a) (w, set_service (set_listeners listeners (a_service a)) a)
  | step_exit key w a : cp_step (w, a) (w, process_exited key a)
  | step_stop st : cp_step st (stopAllManagedNodeProcesses st)
  | step_world w w' a : cp_step (w, a) (w', a).

Definition actor_ok (st : St) : Prop := service_ok (a_service st.2) ∧ processes_ok st.2.

(** A call of the service that keeps the service. *)
Lemma on_service_ok {A} (call : Service → W → W * Service * A) st :
  (∀ s w, service_ok s → service_ok (call s w).1.2) → actor_ok st → actor_ok (on_service call st).1.
Proof.
  destruct st as [w a]. intros Hcall [Hs Hp]. unfold on_service. pose proof (Hcall (a_service a) w Hs) as Hok.
  destruct (call (a_service a) w) as [[w' s'] x]. by split; [|destruct Hp].
Qed.

Lemma timed_ok {A} (call : Z → Service → Service * A) st :
  (∀ now s, service_ok s → service_ok (call now s).1) → actor_ok st → actor_ok (timed call st).1.
Proof.
  intros Hcall. apply on_service_ok. intros s w Hs. destruct (time_Now w) as [w' now].
  pose proof (Hcall now s Hs). by destruct (call now s).
Qed.

Lemma actor_ok_service w w' s a : service_ok s → actor_ok (w, a) → actor_ok (w', set_service s a).
Proof. intros Hs [_ Hp]. by split; [|destruct Hp]. Qed.

Lemma actor_ok_world w w' a : actor_ok (w, a) → actor_ok (w', a).
Proof. done. Qed.

Lemma processes_ok_delete keys a :
  processes_ok a → processes_ok (set_procs (delete_keys keys (nodeProcs a)) (delete_keys keys (nodeMeta a)) a).
Proof.
  intros [Hm Hk Hp]. split; cbn [set_procs nodeProcs nodeMeta].
  - intros key. rewrite !lookup_delete_keys. destruct (decide (key ∈ keys)); [done|apply Hm].
  - intros key c. rewrite lookup_delete_keys. destruct (decide (key ∈ keys)); [done|apply Hk].
  - intros key p. rewrite lookup_delete_keys. destruct (decide (key ∈ keys)); [done|apply Hp].
Qed.

Lemma processes_ok_forget key a : processes_ok a → processes_ok (forget_process key a).
Proof. apply (processes_ok_delete [key]). Qed.

(** fork(2) answers a positive pid. *)
Definition positive_pids : Prop := ∀ dir args w w' pid, os_Start dir args w = (w', Ok pid) → 0 < pid.

Lemma startNodeProcess_ok cmd st : positive_pids → actor_ok st → actor_ok (startNodeProcess cmd st).1.
Proof.
  intros Hpid. destruct st as [w a]. intros [Hs [Hm Hk Hp]]. unfold startNodeProcess. cbv zeta.
  destruct (nodeProcs a !! _) eqn:Hn; [done|].
  destruct (os_Start _ _ w) as [w' [pid|]] eqn:Hos; [|done]. apply Hpid in Hos.
  split; [done|]. split; cbn [fst snd set_procs nodeProcs nodeMeta]; intros key.
  - destruct (decide (key = managedProcessKey (or_string (cmd_ClusterID cmd) "default") (cmd_NodeID cmd))) as [->|Hne].
    + rewrite !lookup_insert_eq. by split; intros _; eexists.
    + rewrite !lookup_insert_ne by done. apply Hm.
  - intros c [[<- <-]|[Hne Hc]]%lookup_insert_Some; [by eexists|by apply Hk in Hc].
  - intros p [[<- <-]|[Hne Hc]]%lookup_insert_Some; [by eexists|by apply Hp in Hc].
Qed.

Lemma stopNodeProcess_ok id st : actor_ok st → actor_ok (stopNodeProcess id st).1.
Proof.
  destruct st as [w a]. intros [Hs Hp]. unfold stopNodeProcess.
  destruct (findManagedProcessByNodeID id a) as [[key [pid|]]|]; [|done|done].
  destruct (killProcessTree (Some pid) w) as [w' [e|]]; [done|]. split; [done|]. by apply processes_ok_forget.
Qed.

Lemma killCluster_ok cid st : actor_ok st → actor_ok (killCluster cid st).1.
Proof.
  intros Hst. unfold killCluster. cbv zeta. case_bool_decide; [done|].
  match goal with |- context [on_service ?c st] => pose proof (on_service_ok c st) as Hok; destruct (on_service c st) as [[w a] u] end.
  destruct Hok as [Hs Hp]; [|done|].
  { intros s w0 Hs. destruct (time_Now w0) as [w1 now], (time_Now w1) as [w2 now']. cbn [fst snd].
    pose proof (ok_stop_active now now' (TrimSpace cid) s w2 Hs). by destruct (StopMetricsSessionIfActive _ _ _ _ _). }
  cbn [fst snd] in *. destruct (kill_processes _ _ _) as [[w' stopped] [e|]]; [by split|].
  set (a' := set_procs _ _ a). assert (Hp' : processes_ok a') by (by apply processes_ok_delete).
  assert (Hs' : service_ok (a_service a')) by done.
  destruct (is_ok _); [|by apply (actor_ok_service w' w')].
  pose proof (ok_remove_cluster (TrimSpace cid) (a_service a') Hs') as Hr.
  destruct (svc_RemoveCluster _ _) as [s [e|]]; by apply (actor_ok_service w' w').
Qed.

Lemma setFault_ok cid id f st : actor_ok st → actor_ok (setFault ns cid id f st).1.
Proof.
  apply on_service_ok. intros s w Hs. destruct (time_Now w) as [w' now]. by apply ok_set_fault.
Qed.

Lemma updateFault_ok cid id f st : actor_ok st → actor_ok (updateFault ns cid id f st).1.
Proof. intros Hst. unfold updateFault. destruct (node_of _ _ _); [|done]. by apply setFault_ok. Qed.

Lemma setPartition_ok cid id peer b st : actor_ok st → actor_ok (setPartition ns cid id peer b st).1.
Proof.
  intros Hst. unfold setPartition. pose proof (updateFault_ok cid id (update_partition peer b) st Hst) as Hok.
  destruct (updateFault ns cid id _ st) as [st' [e|]]; [done|]. cbn [fst] in *. by apply updateFault_ok.
Qed.

Lemma runHypothesis_ok cmd st : actor_ok st → actor_ok (runHypothesis ReadFile decode cmd st).1.
Proof.
  destruct st as [w a]. intros [Hs Hp]. unfold runHypothesis. cbv zeta. case_bool_decide; [done|].
  destruct (LoadFile _ _) as [e|]; [|done]. case_bool_decide; [done|].
  destruct (Compile _ _); [|done]. by split; [|destruct Hp].
Qed.

Lemma watch_keys_ok cid keys s : service_ok s → service_ok (watch_keys cid keys s).1.
Proof.
  revert s; induction keys as [|key keys IH]; intros s Hs; [done|]. cbn [watch_keys].
  destruct (AddMetricsWatchKey cid key s) as [s'|] eqn:Hw; [|done]. apply IH. by eapply ok_watch.
Qed.

Lemma hyp_metrics_ok cid keys f st : actor_ok st → actor_ok (hyp_metrics cid keys f st).1.
Proof.
  intros Hst. unfold hyp_metrics.
  pose proof (timed_ok (λ now s, StartMetricsSessionIfInactive now cid s) st (λ now s, ok_start_inactive now cid s) Hst) as Hst1.
  assert (Hx : ∀ st' ms, actor_ok st' →
    actor_ok (if ms && negb (watchRegistered f) then
      let '(w, a) := st' in let '(s, all) := watch_keys cid keys (a_service a) in
      ((w, set_service s a), {| metricsStarted := ms; watchRegistered := all |})
    else (st', {| metricsStarted := ms; watchRegistered := watchRegistered f |})).1).
  { intros [w a] ms Hok. destruct (ms && _); [|done]. pose proof (watch_keys_ok cid keys (a_service a) (proj1 Hok)) as Hw.
    destruct (watch_keys cid keys (a_service a)). by apply (actor_ok_service w w). }
  destruct (metricsStarted f); [by apply Hx|]. destruct (timed _ st) as [st' [b|e]]; by apply Hx.
Qed.

Lemma handle_ok cmd st st' r : positive_pids → actor_ok st → handle ns ReadFile decode cmd st = Done (st', r) → actor_ok st'.
Proof.
  intros Hpid Hst. unfold handle, createCluster, addNode, removeNode, listNodes, listClusters, kvPut, kvGet, metricsStart, metricsStop, metricsWatchKey, metricsShow, logLifecycleEvent.
  destruct (cmd_Type cmd); cbv zeta; unfold status_reply.
  all: try (intros [= <- <-]; assumption).
  - pose proof (timed_ok _ st (λ now s, ok_create now (cmd_ClusterID cmd) (cmd_Protocol cmd) s) Hst) as Hok.
    destruct (timed _ st). by intros [= <- <-].
  - pose proof (startNodeProcess_ok cmd st Hpid Hst). destruct (startNodeProcess cmd st). by intros [= <- <-].
  - intros [= Heq]. pose proof (stopNodeProcess_ok (cmd_NodeID cmd) st Hst) as Hok. by rewrite Heq in Hok.
  - match goal with |- context [on_service ?c st] => pose proof (on_service_ok c st) as Hok; destruct (on_service c st) end.
    intros [= <- <-]. apply Hok; [|done]. intros s w Hs. destruct (time_Now w) as [w1 t1], (time_Now w1) as [w2 t2].
    pose proof (ok_register t1 t2 (cmd_ClusterID cmd) (cmd_NodeID cmd) (cmd_Host cmd) (cmd_Port cmd) s w2 Hs).
    by destruct (svc_RegisterNode _ _ _ _ _ _ _ _).
  - destruct (svc_RemoveNode _ _ _ _) as [[[w' s'] e]|] eqn:Hr; [|done]. intros [= <- <-].
    destruct st as [w0 a0]. apply (actor_ok_service w0 w'); [|done]. eapply ok_remove_node; [exact (proj1 Hst)|exact Hr].
  - intros [= <- <-]. by apply setFault_ok.
  - intros [= <- <-]. by apply updateFault_ok.
  - intros [= <- <-]. by apply updateFault_ok.
  - intros [= <- <-]. by apply updateFault_ok.
  - intros [= <- <-]. by apply updateFault_ok.
  - intros [= Heq]. pose proof (setPartition_ok (cmd_ClusterID cmd) (cmd_NodeID cmd) (cmd_PeerID cmd) (cmd_Enabled cmd) st Hst) as Hok.
    by rewrite Heq in Hok.
  - pose proof (on_service_ok (λ s w, ExecuteKVPut (cmd_ClusterID cmd) (cmd_NodeID cmd) (cmd_Key cmd) (cmd_Value cmd) s w) st
      (λ s w Hs, ok_put _ _ _ _ s w Hs) Hst) as Hok.
    destruct (on_service _ st) as [[w a] [e|]]; intros [= <- <-]; [done|]. cbn [fst] in Hok.
    apply (actor_ok_service w w); [|done]. apply ok_write_key, Hok.
  - destruct (ExecuteKVGet _ _ _ _ _) as [w [res|e]]; intros [= <- <-]; by destruct st.
  - intros [= <- <-]. apply on_service_ok; [|done]. intros s w Hs. by apply ok_set_protocol.
  - pose proof (runHypothesis_ok cmd st Hst) as Hok. intros [= Heq]. by rewrite Heq in Hok.
  - pose proof (killCluster_ok (cmd_ClusterID cmd) st Hst). destruct (killCluster _ st). by intros [= <- <-].
  - pose proof (timed_ok _ st (λ now s, ok_start_inactive now (cmd_ClusterID cmd) s) Hst) as Hok.
    destruct (timed _ st). by intros [= <- <-].
  - match goal with |- context [on_service ?c st] => pose proof (on_service_ok c st) as Hok; destruct (on_service c st) end.
    intros [= <- <-]. apply Hok; [|done]. intros s w Hs. destruct (time_Now w) as [w1 t1], (time_Now w1) as [w2 t2].
    by apply ok_stop.
  - destruct (AddMetricsWatchKey _ _ _) eqn:Hw; intros [= <- <-]; [|done]. destruct st as [w0 a0].
    apply (actor_ok_service w0 w0); [|done]. eapply ok_watch; [|exact Hw]. apply Hst.
  - pose proof (timed_ok (λ now s, (RecordLifecycleEvent now (cmd_ClusterID cmd) (cmd_NodeID cmd) (cmd_EventType cmd) (cmd_Value cmd) s, tt))
      st (λ now s, ok_lifecycle now _ _ _ _ s) Hst) as Hok.
    destruct (timed _ st). by intros [= <- <-].
Qed.

Lemma actor_ok_step st st' : positive_pids → cp_step st st' → actor_ok st → actor_ok st'.
Proof.
  intros Hpid Hstep Hst.
  destruct Hstep as [cmd st st' r Hh|req w a w' s' resp Hr|req w a w' s' resp Hr|req w a w' s' resp Hr|req w a|now cid w a w' s' Hr|
    now timeout w a|cid keys f st|cid now now' w a w' s' r Hr|listeners w a|key w a|st|w w' a].
  - by eapply handle_ok.
  - apply (actor_ok_service w w'); [|done]. unfold server_RegisterNode in Hr.
    destruct (time_Now w) as [w1 t1], (time_Now w1) as [w2 t2].
    pose proof (ok_register t1 t2 (rr_ClusterId req) (rr_NodeId req) (rr_Address req) (rr_Port req) (a_service a) w2 (proj1 Hst)) as Hok.
    destruct (svc_RegisterNode _ _ _ _ _ _ _ _). by injection Hr as <- <- <-.
  - apply (actor_ok_service w w'); [|done]. unfold server_Heartbeat in Hr. destruct (time_Now w) as [w1 t1].
    pose proof (ok_heartbeat t1 (hb_ClusterId req) (hb_Id req) (a_service a) (proj1 Hst)) as Hok.
    destruct (svc_Heartbeat _ _ _ _) as [s [e|]]; by injection Hr as <- <- <-.
  - apply (actor_ok_service w w'); [|done]. unfold server_ReportLog in Hr. destruct (time_Now w) as [w1 t1].
    injection Hr as <- <- <-. apply ok_broadcast, Hst.
  - apply (actor_ok_service w w); [|done]. unfold server_ReportNodeCapabilities. cbv zeta.
    match goal with |- context [ReportNodeCapabilities ?c ?i ?k ?e ?x ?t ?s] => pose proof (ok_capabilities c i k e x t s (proj1 Hst)) as Hok;
      by destruct (ReportNodeCapabilities c i k e x t s) as [s' [err|]] end.
  - apply (actor_ok_service w w'); [|done]. unfold sampler_round in Hr.
    pose proof (ok_sample now cid (a_service a) w (proj1 Hst)) as Hok.
    case_bool_decide; [by rewrite Hr in Hok|]. injection Hr as <- <-. apply Hst.
  - apply (actor_ok_service w w); [|done]. apply (service_ok_manager tt (OpCleanup now timeout)), Hst.
  - by apply hyp_metrics_ok.
  - apply (actor_ok_service w w'); [|done]. pose proof (ok_stop now now' cid (a_service a) w (proj1 Hst)) as Hok. by rewrite Hr in Hok.
  - apply (actor_ok_service w w); [|done]. by apply (service_ok_same (a_service a)), Hst.
  - destruct Hst as [Hs Hp]. split; [done|]. by apply processes_ok_forget.
  - destruct st as [w a], Hst as [Hs Hp]. split; [done|]. by apply processes_ok_delete.
  - done.
Qed.

(** C23: Whatever commands are given, whatever the nodes report and whatever its own
    goroutines do, the control plane keeps its tables consistent: every cluster
    is stored under its id with a supported protocol and its nodes under theirs,
    a cluster has at most fifty sessions of which only the last can be active,
    and every process it manages has a pid and is stored, with its cluster,
    under the key of that cluster. *)
Theorem control_plane_invariant opts w st :
  positive_pids →
  rtc cp_step (w, NewActor (NewClusterService NewManager) opts) st →
  manager_ok (cluster (a_service st.2)) ∧ sessions_ok (metrics (a_service st.2)) ∧ processes_ok st.2.
Proof.
  intros Hpid Hr. assert (∀ x y, rtc cp_step x y → actor_ok x → actor_ok y) as Hstar.
  { induction 1 as [|x y z Hxy _ IH]; [done|]. intros Hx. by apply IH, (actor_ok_step x). }
  destruct (Hstar _ _ Hr) as [[? ?] ?]; [|done].
  split; [split; [apply manager_ok_new|apply map_Forall_empty]|]. split; cbn.
  - intros key. by rewrite !lookup_empty.
  - intros key c. by rewrite lookup_empty.
  - intros key p. by rewrite lookup_empty.
Qed.
End Control.

(** ** Witnesses *)

#[local] Existing Instance canonical_order.
#[local] Existing Instance demo_protobuf.
#[local] Existing Instance demo_operator.
#[local] Instance actor_clock : Clock (gmap string string) := stopped_clock _ 7.

(** Every process gets the pid 42, every kill succeeds. *)
#[local] Instance demo_processes : Processes (gmap string string) := docile_processes _ 42.

Definition demo_actor_options : ActorOptions :=
  {| ao_ProjectRoot := EmptyString; ao_DefaultCPHost := EmptyString; ao_DefaultCPPort := 0; ao_NodeBinaryPath := EmptyString |}.
Definition demo_actor : Actor := NewActor (NewClusterService one_node) demo_actor_options.
Definition no_files (path : string) (w : gmap string string) : result string := Err (Errorf "no such file" []).
Definition no_yaml (text : string) : result Experiment := Err (Errorf "bad yaml" []).
Definition start_n1 : Command := (NewCommand CmdStartNodeProcess) <| cmd_ClusterID := "c1" |> <| cmd_NodeID := "n1" |> <| cmd_Port := 7001 |>.

(** Runs a command on the demo world. *)
Definition run_demo (cmd : Command) (a : Actor) : option (Actor * CommandResult) :=
  match handle None no_files no_yaml cmd (demo_store, a) with Done (st, r) => Some (st.2, r) | Panic _ => None end.

Lemma positive_demo : positive_pids (W := gmap string string).
Proof. intros dir args w w' pid Heq. change ((w, Ok 42) = (w', Ok pid)) in Heq. by injection Heq as <- <-. Qed.

Lemma control_plane_invariant_witness :
  ∃ st : gmap string string * Actor,
    manager_ok (cluster (a_service st.2)) ∧ processes_ok st.2 ∧ nodeProcs st.2 !! "c1::n1" = Some (Some 42).
Proof.
  pose (st := (demo_store, set_procs {["c1::n1" := Some 42]} {["c1::n1" := "c1"]} (NewActor (NewClusterService NewManager) demo_actor_options))).
  exists st. destruct (control_plane_invariant None no_files no_yaml demo_actor_options demo_store st positive_demo) as (Hm & _ & Hp).
  - eapply rtc_l; [|apply rtc_refl]. apply (step_command _ _ _ start_n1 _ _ {| cr_Data := Some (DStarted true "n1"); cr_Error := None |}).
    vm_compute. reflexivity.
  - split_and!; [exact Hm|exact Hp|]. vm_compute. reflexivity.
Defined.
