(* ===== verification/ActorProps.v ===== *)
(** * Properties of the actor

    What the commands of the control plane do to faults, processes and
    hypotheses, and what they answer. *)

From Stdlib Require Import SpecFloat.
From S2P Require Import Prelude GoStrings GoSort Fault Messages Commands CommandProps Experiment ExperimentProps Cluster Metrics Sessions Service World Actor ControlPlane.

Section Faults.
Context {W : Type} `{RangeOrder, Protobuf, NodeOperator W, Clock W, Processes W}.
Context (ns : fault_session W) (ReadFile : string → W → result string) (decode : string → result Experiment).

(** ** Faults *)

Lemma node_of_spec cid id s :
  manager_ok (cluster s) →
  match node_of cid id s with Ok n => node_at cid id (cluster s) = Some n | Err _ => node_at cid id (cluster s) = None end.
Proof.
  intros Hm. unfold node_of, GetNode, find_node, node_at.
  destruct (clusters (cluster s) !! cid) as [c|] eqn:Hc; cbn; [|done].
  destruct (c_Nodes c !! id) as [r|] eqn:Hr; cbn; [|done].
  destruct (ok_ref _ Hm _ _ _ _ Hc Hr) as (_ & n & -> & _). done.
Qed.

Lemma cluster_fault_events now cid id old new s : cluster (fault_events now cid id old new s) = cluster s.
Proof.
  unfold fault_events, RecordLifecycleEvent, record_event. by repeat case_match.
Qed.

(** Setting the faults of a node, seen from the table of the control plane. *)
Lemma setFault_spec cid id f w a :
  manager_ok (cluster (a_service a)) →
  let '(st', e) := setFault ns cid id f (w, a) in
  let w1 := (time_Now w).1 in
  nodeProcs st'.2 = nodeProcs a ∧ manager_ok (cluster (a_service st'.2)) ∧
  match node_at cid id (cluster (a_service a)) with
  | None => st' = (w1, a) ∧ is_Some e
  | Some n =>
      node_at cid id (cluster (a_service st'.2)) = Some (with_fault f (if fs_Crashed f then "crashed" else "active") n) ∧
      (∀ cid' id', (cid', id') ≠ (cid, id) → node_at cid' id' (cluster (a_service st'.2)) = node_at cid' id' (cluster (a_service a))) ∧
      (st'.1, e) = match ns with
                   | None => (w1, None)
                   | Some call => call {| fc_Host := n_Address n; fc_Port := n_Port n; fc_NodeID := id; fc_Params := f |} w1
                   end
  end.
Proof.
  intros Hm. unfold setFault, on_service. destruct (time_Now w) as [w1 now]. cbn [fst].
  unfold svc_SetFaultParams. pose proof (SetFaultParams_node ns cid id f (cluster (a_service a)) w1 Hm) as Hn.
  pose proof (manager_do_ok (w1, cluster (a_service a)) (OpSetFaultParams ns cid id f) Hm) as Hok. cbn [manager_do] in Hok.
  destruct (SetFaultParams ns cid id f (cluster (a_service a)) w1) as [[w2 m] e]. cbn [fst snd] in Hok.
  assert (∃ s', cluster s' = m ∧
    (match e with
     | Some e => (w2, set_cluster m (a_service a), Some e)
     | None =>
         match GetNode cid id (cluster (a_service a)) with
         | Ok r => match heap (cluster (set_cluster m (a_service a))) !! r with
                   | Some n => (w2, fault_events now cid id (n_Fault n) f (set_cluster m (a_service a)), None)
                   | None => (w2, set_cluster m (a_service a), None)
                   end
         | Err _ => (w2, set_cluster m (a_service a), None)
         end
     end) = (w2, s', e)) as (s' & Hs & Heq).
  { assert (Hset : ∀ x : option error, ∃ s', cluster s' = m ∧ (w2, set_cluster m (a_service a), x) = (w2, s', x)).
    { intros x. exists (set_cluster m (a_service a)). done. }
    destruct e; [apply Hset|]. destruct (GetNode _ _ _) as [r|]; [|apply Hset]. destruct (heap _ !! r); [|apply Hset].
    eexists. split; [|reflexivity]. by rewrite cluster_fault_events. }
  cbv zeta. rewrite Heq. cbn [fst snd a_service set_service nodeProcs]. rewrite Hs. split_and!; [done..|].
  destruct (node_at _ _ _); [exact Hn|]. destruct Hn as (-> & -> & [err ->]). injection Heq as <-. split; [|done].
  by destruct a as [[] ? ? ? ?].
Qed.

Lemma updateFault_spec cid id f w a :
  manager_ok (cluster (a_service a)) →
  let '(st', e) := updateFault ns cid id f (w, a) in
  nodeProcs st'.2 = nodeProcs a ∧ manager_ok (cluster (a_service st'.2)) ∧
  match node_at cid id (cluster (a_service a)) with
  | None => st' = (w, a) ∧ is_Some e
  | Some n =>
      let p := f (n_Fault n) in
      node_at cid id (cluster (a_service st'.2)) = Some (with_fault p (if fs_Crashed p then "crashed" else "active") n) ∧
      (∀ cid' id', (cid', id') ≠ (cid, id) → node_at cid' id' (cluster (a_service st'.2)) = node_at cid' id' (cluster (a_service a))) ∧
      (st'.1, e) = match ns with
                   | None => ((time_Now w).1, None)
                   | Some call => call {| fc_Host := n_Address n; fc_Port := n_Port n; fc_NodeID := id; fc_Params := p |} (time_Now w).1
                   end
  end.
Proof.
  intros Hm. unfold updateFault. cbn [snd]. pose proof (node_of_spec cid id (a_service a) Hm) as Hn.
  destruct (node_of cid id (a_service a)) as [n|e].
  - pose proof (setFault_spec cid id (f (n_Fault n)) w a Hm) as Hs. rewrite Hn in *. by destruct (setFault ns cid id _ (w, a)).
  - rewrite Hn. cbn. by eauto.
Qed.

(** The change a fault command makes to the fault state of its node. *)
Definition fault_change (cmd : Command) : option (FaultState → FaultState) :=
  match cmd_Type cmd with
  | CmdSetFaultParams =>
      Some (λ _, {| fs_Crashed := cmd_Crashed cmd; fs_DropRate := cmd_DropRate cmd; fs_DelayMs := cmd_DelayMs cmd;
                    fs_Partition := cmd_Partition cmd |})
  | CmdCrashNode => Some (with_crashed true)
  | CmdRecoverNode => Some (with_crashed false)
  | CmdSetDropRate => Some (with_drop_rate (cmd_DropRate cmd))
  | CmdSetDelay => Some (with_delay (cmd_DelayMs cmd))
  | _ => None
  end.

(** C32: The fault commands of a single node (set-fault, fault-crash, fault-recover,
    fault-drop and fault-delay; fault-partition, which changes two nodes, is apart).
    When the control plane, whose tables are well formed, knows the node, the fault
    state it keeps for it becomes the old one with the one field replaced (all of
    them for set-fault), its status follows the crash flag, even when the call to
    the node then fails, no other node of its tables and no process is touched, and
    the node is sent the whole new state; the command answers ok or the error of
    that call. For a node it does not know it answers an error and the whole state
    of the control plane is what it was; no node is called, at most the clock is
    read. *)
Theorem fault_commands_spec cmd f w a :
  manager_ok (cluster (a_service a)) → fault_change cmd = Some f →
  ∃ st' r, handle ns ReadFile decode cmd (w, a) = Done (st', r) ∧ nodeProcs st'.2 = nodeProcs a ∧
    cr_Data r = (if bool_decide (cr_Error r = None) then Some DStatusOk else None) ∧
    match node_at (cmd_ClusterID cmd) (cmd_NodeID cmd) (cluster (a_service a)) with
    | None => st'.2 = a ∧ (st'.1 = w ∨ st'.1 = (time_Now w).1) ∧ is_Some (cr_Error r)
    | Some n =>
        let p := f (n_Fault n) in
        node_at (cmd_ClusterID cmd) (cmd_NodeID cmd) (cluster (a_service st'.2)) =
          Some (with_fault p (if fs_Crashed p then "crashed" else "active") n) ∧
        (∀ cid' id', (cid', id') ≠ (cmd_ClusterID cmd, cmd_NodeID cmd) →
           node_at cid' id' (cluster (a_service st'.2)) = node_at cid' id' (cluster (a_service a))) ∧
        (st'.1, cr_Error r) =
          match ns with
          | None => ((time_Now w).1, None)
          | Some call =>
              call {| fc_Host := n_Address n; fc_Port := n_Port n; fc_NodeID := cmd_NodeID cmd; fc_Params := p |} (time_Now w).1
          end
    end.
Proof.
  intros Hm Hf.
  assert (Hd : ∀ e, cr_Data (reply_of (Some DStatusOk) e) = if bool_decide (cr_Error (reply_of (Some DStatusOk) e) = None) then Some DStatusOk else None)
    by (by intros [e|]).
  assert (He : ∀ e, cr_Error (reply_of (Some DStatusOk) e) = e) by (by intros [e|]).
  assert (Hupd : fault_change cmd = Some f → cmd_Type cmd ≠ CmdSetFaultParams →
    handle ns ReadFile decode cmd (w, a) = status_reply (updateFault ns (cmd_ClusterID cmd) (cmd_NodeID cmd) f (w, a))).
  { unfold fault_change, handle. destruct (cmd_Type cmd); try done; by intros [= <-]. }
  destruct (decide (cmd_Type cmd = CmdSetFaultParams)) as [Ht|Ht].
  - unfold fault_change, handle in *. rewrite Ht in *. injection Hf as <-. clear Hupd.
    match goal with |- context [status_reply (setFault ns ?c ?i ?p ?st)] => pose proof (setFault_spec c i p w a Hm) as Hs;
      destruct (setFault ns c i p st) as [st' e] end.
    exists st', (reply_of (Some DStatusOk) e). split; [done|]. rewrite Hd, He. destruct Hs as (Hp & _ & Hs). split_and!; [done..|].
    destruct (node_at _ _ (cluster (a_service a))); [exact Hs|]. destruct Hs as [-> ?]. split_and!; [done|by right|done].
  - rewrite (Hupd Hf Ht). pose proof (updateFault_spec (cmd_ClusterID cmd) (cmd_NodeID cmd) f w a Hm) as Hs.
    destruct (updateFault ns _ _ f (w, a)) as [st' e]. exists st', (reply_of (Some DStatusOk) e). split; [done|]. rewrite Hd, He.
    destruct Hs as (Hp & _ & Hs). split_and!; [done..|].
    destruct (node_at _ _ (cluster (a_service a))); [exact Hs|]. destruct Hs as [-> ?]. split_and!; [done|by left|done].
Qed.

End Faults.

(** ** Processes *)

Lemma SplitPair_free s t : byte_free ":" s = true → SplitPair "::" (s +:+ "::" +:+ t) = Some (s, t).
Proof.
  unfold byte_free. induction s as [|a s IH].
  - intros _. change (EmptyString +:+ ?x) with x. change ("::" +:+ t) with (String ":" (String ":" t)). cbn [SplitPair].
    change (String ":" (String ":" t)) with ("::" +:+ t). by rewrite HasPrefix_app, TrimPrefix_app.
  - cbn [str_forallb]. intros [Ha Hs]%andb_true_iff. change (String a s +:+ ?x) with (String a (s +:+ x)). cbn [SplitPair].
    assert (HasPrefix (String a (s +:+ "::" +:+ t)) "::" = false) as ->.
    { apply negb_true_iff, Ascii.eqb_neq in Ha. unfold HasPrefix. cbn [String.prefix].
      destruct (Ascii.ascii_dec ":" a) as [He|]; [by destruct Ha|done]. }
    by rewrite IH.
Qed.

(** The cluster and the node of a key are read back when the cluster id has no
    colon. *)
Lemma process_key_roundtrip c id : byte_free ":" c = true → parseManagedProcessKey (managedProcessKey c id) = (c, id).
Proof. intros Hc. unfold parseManagedProcessKey, managedProcessKey. by rewrite SplitPair_free. Qed.

Section Managed.
Context {W : Type} `{RangeOrder, Processes W}.

Lemma elem_of_matches id (a : Actor) key p :
  (key, p) ∈ filter (λ '(key, _), (parseManagedProcessKey key).2 = id) (range 853 (nodeProcs a)) ↔
  (parseManagedProcessKey key).2 = id ∧ nodeProcs a !! key = Some p.
Proof. by rewrite list_elem_of_filter, elem_of_range. Qed.

Lemma find_none id a : (∀ key p, nodeProcs a !! key = Some p → (parseManagedProcessKey key).2 ≠ id) →
  findManagedProcessByNodeID id a = Err (Errorf "node process not running: %s" [AStr id]).
Proof.
  intros Hn. unfold findManagedProcessByNodeID.
  destruct (filter _ _) as [|[key p] rest] eqn:Hf; [done|]. exfalso.
  assert (Hin : (key, p) ∈ filter (λ '(key, _), (parseManagedProcessKey key).2 = id) (range 853 (nodeProcs a))) by (rewrite Hf; by left).
  apply elem_of_matches in Hin as [Hk Hp]. by apply (Hn key p).
Qed.

Lemma find_unique id a key p :
  findManagedProcessByNodeID id a = Ok (key, p) →
  nodeProcs a !! key = Some p ∧ (parseManagedProcessKey key).2 = id ∧
  ∀ key' p', nodeProcs a !! key' = Some p' → (parseManagedProcessKey key').2 = id → key' = key.
Proof.
  unfold findManagedProcessByNodeID. destruct (filter _ _) as [|found [|]] eqn:Hf; [done| |done]. intros [= ->].
  assert (Hin : ∀ k q, (k, q) ∈ [(key, p)] ↔ (parseManagedProcessKey k).2 = id ∧ nodeProcs a !! k = Some q).
  { intros k q. rewrite <-Hf. apply elem_of_matches. }
  destruct (Hin key p) as [Hk _]. destruct Hk as [Hk Hp]; [by left|]. split_and!; [done..|].
  intros k q Hq Hid. assert (Hx : (k, q) ∈ [(key, p)]) by (by apply Hin).
  apply elem_of_cons in Hx as [[= -> ->]|Hx%elem_of_nil]; done.
Qed.

Lemma startNodeProcess_None cmd w a w' a' :
  startNodeProcess cmd (w, a) = ((w', a'), None) →
  let c := or_string (cmd_ClusterID cmd) "default" in
  let key := managedProcessKey c (cmd_NodeID cmd) in
  nodeProcs a !! key = None ∧ ∃ pid, nodeProcs a' = <[key := Some pid]> (nodeProcs a) ∧ nodeMeta a' = <[key := c]> (nodeMeta a).
Proof.
  unfold startNodeProcess. cbv zeta. destruct (nodeProcs a !! _) eqn:Hn; [done|].
  destruct (os_Start _ _ w) as [w1 [pid|]]; [|done]. intros [= <- <-]. split; [done|]. by exists pid.
Qed.

(** C37: A process that is stopped and started again is lost: the goroutine that
    waits for the first one forgets the key when it sees it exit, which is the
    key of the second by then.  The second process goes on running, but the
    control plane no longer knows it and refuses to stop it. *)
Theorem restart_loses_process cmd cmd' w a w1 a1 w2 a2 w3 a3 :
  let c := or_string (cmd_ClusterID cmd) "default" in
  let key := managedProcessKey c (cmd_NodeID cmd) in
  byte_free ":" c = true →
  cmd_NodeID cmd' = cmd_NodeID cmd → or_string (cmd_ClusterID cmd') "default" = c →
  startNodeProcess cmd (w, a) = ((w1, a1), None) →
  stopNodeProcess (cmd_NodeID cmd) (w1, a1) = ((w2, a2), reply (DStopped (cmd_NodeID cmd))) →
  startNodeProcess cmd' (w2, a2) = ((w3, a3), None) →
  is_Some (nodeProcs a3 !! key) ∧
  ∀ w4, stopNodeProcess (cmd_NodeID cmd) (w4, process_exited key a3) =
    ((w4, process_exited key a3), reply_error (Errorf "node process not running: %s" [AStr (cmd_NodeID cmd)])).
Proof.
  intros c key Hc Hid Hcl (_ & pid1 & Hp1 & _)%startNodeProcess_None Hstop (_ & pid3 & Hp3 & _)%startNodeProcess_None.
  rewrite Hid, Hcl in Hp3. fold c in Hp1, Hp3. fold key in Hp1, Hp3.
  split; [rewrite Hp3, lookup_insert_eq; by eexists|]. intros w4. unfold stopNodeProcess. rewrite find_none; [done|].
  unfold stopNodeProcess in Hstop. destruct (findManagedProcessByNodeID (cmd_NodeID cmd) a1) as [[k p]|e] eqn:Hf; [|done].
  apply find_unique in Hf as (Hk & Hkid & Huniq).
  assert (Hkey : key = k).
  { apply (Huniq key (Some pid1)); [by rewrite Hp1, lookup_insert_eq|]. unfold key. by rewrite process_key_roundtrip. }
  subst k. destruct p as [pid|]; [|done]. destruct (killProcessTree (Some pid) w1) as [w5 [e|]]; [done|].
  injection Hstop as <- <-. intros k q Hq Hqid. cbn [process_exited forget_process set_procs nodeProcs] in Hq.
  apply lookup_delete_Some in Hq as [Hne Hq]. rewrite Hp3, lookup_insert_ne in Hq by done.
  cbn [forget_process set_procs nodeProcs] in Hq. apply lookup_delete_Some in Hq as [_ Hq].
  by apply Hne, (eq_sym (Huniq k q Hq Hqid)).
Qed.

End Managed.

Section Kills.
Context {W : Type} `{RangeOrder, Protobuf, NodeOperator W, Clock W, Processes W}.

(** The kills that do not fail. *)
Definition kills_succeed : Prop := ∀ pid w w' e, os_Kill pid w ≠ (w', KillError e).

Lemma killProcessTree_ok pid w : kills_succeed → 0 < pid → ∃ w', killProcessTree (Some pid) w = (w', None).
Proof.
  intros Hk Hp. unfold killProcessTree. destruct (Z.leb_spec pid 0); [lia|].
  destruct (os_Kill pid w) as [w' [| |e]] eqn:He; [by eexists..|]. by apply Hk in He.
Qed.

Lemma kill_processes_ok procs n w :
  kills_succeed → (∀ key p, (key, p) ∈ procs → ∃ pid, p = Some pid ∧ 0 < pid) →
  ∃ w', kill_processes procs n w = (w', n + Z.of_nat (length procs), None).
Proof.
  intros Hk. revert n w; induction procs as [|[key p] procs IH]; intros n w Hp.
  { exists w. cbn. by rewrite Z.add_0_r. }
  destruct (Hp key p) as (pid & -> & Hpos); [by left|]. cbn [kill_processes length].
  destruct (killProcessTree_ok pid w Hk Hpos) as [w1 ->].
  destruct (IH (n + 1) w1) as [w' ->]; [intros k q Hq; apply (Hp k q); by right|].
  exists w'. f_equal. f_equal. lia.
Qed.

Lemma sample_keys_cluster now cid nodes keys s w : cluster (sample_keys now cid nodes keys s w).2 = cluster s.
Proof.
  revert s w; induction keys as [|key keys IH]; intros s w; [done|]. cbn [sample_keys].
  destruct (sample_nodes cid key s nodes ∅ w) as [w' [states|]]; by rewrite IH.
Qed.

Lemma stop_cluster now now' cid s w : cluster (StopMetricsSession now now' cid s w).1.2 = cluster s.
Proof.
  unfold StopMetricsSession. assert (Hs : cluster (sampleAllTrackedKeys now (TrimSpace cid) s w).2 = cluster s).
  { unfold sampleAllTrackedKeys. repeat case_match; try done. by apply sample_keys_cluster. }
  destruct (sampleAllTrackedKeys now (TrimSpace cid) s w) as [w1 s1]. cbn [snd] in Hs. cbv zeta.
  by destruct (Stop _ _ _).
Qed.

Lemma elem_of_killed cid (a : Actor) key p :
  (key, p) ∈ filter (λ '(key, _), default EmptyString (nodeMeta a !! key) = cid) (range 624 (nodeProcs a)) ↔
  default EmptyString (nodeMeta a !! key) = cid ∧ nodeProcs a !! key = Some p.
Proof. by rewrite list_elem_of_filter, elem_of_range. Qed.

(** The processes managed for a cluster. *)
Definition processes_of (cid : string) (a : Actor) : gmap string (option Z) :=
  filter (λ '(key, _), nodeMeta a !! key = Some cid) (nodeProcs a).

Lemma length_killed cid a :
  processes_ok a → cid ≠ EmptyString →
  length (filter (λ '(key, _), default EmptyString (nodeMeta a !! key) = cid) (range 624 (nodeProcs a))) = size (processes_of cid a).
Proof.
  intros [Hm _ _] Hne. unfold processes_of. rewrite <-length_map_to_list. apply Permutation_length.
  apply NoDup_Permutation; [|apply NoDup_map_to_list|].
  - apply NoDup_filter, (NoDup_fmap_1 fst), range_NoDup.
  - intros [key p]. rewrite elem_of_killed, elem_of_map_to_list, map_lookup_filter_Some.
    destruct (nodeMeta a !! key); cbn; naive_solver.
Qed.

(** Killing a cluster, when no kill fails: every process managed for it is
    killed and forgotten and every other is kept, the cluster is gone from the
    table and the others stay.  The answer is the number of killed processes;
    when there were none it is an error, although the cluster has been removed. *)
Theorem killCluster_spec c w a :
  kills_succeed → processes_ok a → TrimSpace c ≠ EmptyString →
  let cid := TrimSpace c in
  let '(st', r) := killCluster c (w, a) in
  (∀ key, nodeProcs st'.2 !! key =
     if decide (nodeMeta a !! key = Some cid) then None else nodeProcs a !! key) ∧
  clusters (cluster (a_service st'.2)) = delete cid (clusters (cluster (a_service a))) ∧
  r = (if decide (processes_of cid a = ∅)
       then Err (Errorf "no managed node processes found for cluster %s" [AStr cid])
       else Ok (Z.of_nat (size (processes_of cid a)))).
Proof.
  intros Hk Hp Hne cid. unfold killCluster. fold cid. cbv zeta. rewrite bool_decide_false by done.
  unfold on_service. destruct (time_Now w) as [w1 t1], (time_Now w1) as [w2 t2].
  assert (Hcl : cluster (StopMetricsSessionIfActive t1 t2 cid (a_service a) w2).2 = cluster (a_service a)).
  { unfold StopMetricsSessionIfActive. destruct (IsActive _ _); [|done]. apply stop_cluster. }
  destruct (StopMetricsSessionIfActive t1 t2 cid (a_service a) w2) as [w3 s3]. cbn [snd] in Hcl.
  cbn [nodeProcs nodeMeta set_service].
  set (toKill := filter (λ '(key, _), default EmptyString (nodeMeta a !! key) = cid) (range 624 (nodeProcs a))).
  destruct (kill_processes_ok toKill 0 w3 Hk) as [w4 Hkill].
  { intros key p [_ Hin]%elem_of_killed. by apply (procs_pid _ Hp key). }
  assert (Hlen : length toKill = size (processes_of cid a)) by (by apply length_killed).
  rewrite Hkill, Hlen, Z.add_0_l.
  assert (Hprocs : ∀ key, delete_keys toKill.*1 (nodeProcs a) !! key =
            if decide (nodeMeta a !! key = Some cid) then None else nodeProcs a !! key).
  { intros key. rewrite lookup_delete_keys. destruct (decide (key ∈ toKill.*1)) as [Hin|Hout].
    - apply list_elem_of_fmap in Hin as ([k p] & -> & [Hmeta Hpr]%elem_of_killed). cbn [fst].
      assert (is_Some (nodeMeta a !! k)) as [c' Hc'] by (apply (procs_meta _ Hp); by eexists).
      rewrite Hc' in Hmeta. cbn in Hmeta. subst c'. by rewrite decide_True.
    - destruct (decide (nodeMeta a !! key = Some cid)) as [Hmeta|]; [|done].
      destruct (nodeProcs a !! key) as [p|] eqn:Hpr; [|done]. exfalso. apply Hout. apply list_elem_of_fmap.
      exists (key, p). split; [done|]. apply elem_of_killed. by rewrite Hmeta. }
  assert (Hr : (if Z.of_nat (size (processes_of cid a)) =? 0 then Err (Errorf "no managed node processes found for cluster %s" [AStr cid])
                else Ok (Z.of_nat (size (processes_of cid a)))) =
               (if decide (processes_of cid a = ∅) then Err (Errorf "no managed node processes found for cluster %s" [AStr cid])
                else Ok (Z.of_nat (size (processes_of cid a))) : result Z)).
  { case_decide as He; [by rewrite He, map_size_empty|]. destruct (Z.eqb_spec (Z.of_nat (size (processes_of cid a))) 0); [|done].
    destruct He. apply map_size_empty_inv. lia. }
  rewrite Hr. cbn [a_service set_procs set_service]. unfold GetCluster, svc_RemoveCluster, RemoveCluster. rewrite Hcl.
  destruct (clusters (cluster (a_service a)) !! cid) as [cl|] eqn:Hc; cbn; (split_and!; [done| |done]); [done|].
  rewrite Hcl. by rewrite delete_id.
Qed.
End Kills.

(** ** The lines of a hypothesis *)

(** The first letters of the lines experiments compile to. *)
Definition plain_start (line : string) : Prop := ∃ a s, line = String a s ∧ a ∈ ["c"; "l"; "s"; "m"; "f"; "k"]%char.

Lemma plain_start_not_nested line : plain_start line → nested_hypothesis line = false.
Proof.
  intros (a & s & -> & Ha). unfold nested_hypothesis.
  assert (space_len (String a s) = 0%nat ∧ a ≠ "r"%char) as [Hl Hr].
  { repeat (apply elem_of_cons in Ha as [->|Ha]; [split; [destruct s as [|? [|? ?]]; reflexivity|discriminate]|]). by apply elem_of_nil in Ha. }
  assert (TrimSpace (String a s) = String a (trim_right s)) as ->.
  { unfold TrimSpace. cbn -[space_len]. rewrite Hl. cbn -[space_len]. by rewrite Hl. }
  unfold HasPrefix. cbn [String.prefix]. destruct (Ascii.ascii_dec "r" a) as [Heq|]; [by destruct Hr|done].
Qed.

Lemma compileCommands_start cid host port c s ls :
  compileCommands cid host port c s = Ok ls → Forall plain_start ls.
Proof.
  assert (Hin : ∀ (a : Ascii.ascii) t, a ∈ ["c"; "l"; "s"; "m"; "f"; "k"]%char → plain_start (String a t)) by (intros a t Ha; by exists a, t).
  assert (Hpart : ∀ b cmds, compilePartitionCommands cid (st_Groups s) b c = Ok cmds → Forall plain_start cmds).
  { intros b cmds. unfold compilePartitionCommands. case_bool_decide; [done|]. intros Hm%result_mapM_Ok.
    induction Hm as [|[l r] line pairs lines Hline _ IH]; constructor; [|done]. unfold partition_line in Hline.
    apply result_bind_Ok in Hline as (l' & _ & Hline). apply result_bind_Ok in Hline as (r' & _ & [= <-]). apply Hin. set_solver. }
  unfold compileCommands. cbv zeta. case_bool_decide.
  { intros [= <-]. unfold compileStartClusterCommands. constructor; [apply Hin; set_solver|].
    constructor; [apply Hin; set_solver|]. apply Forall_forall. intros line (i & _ & Hi)%list_elem_of_omap.
    unfold start_node_line in Hi. destruct (resolveMember i c) as [[[id p] h]|]; [|done]. injection Hi as <-. apply Hin. set_solver. }
  case_bool_decide; [intros [= <-]; constructor; [apply Hin; set_solver|done]|].
  case_bool_decide; [intros (cmds & Hc & [= <-])%result_bind_Ok; constructor; [apply Hin; set_solver|by eapply Hpart]|].
  case_bool_decide; [intros (cmds & Hc & [= <-])%result_bind_Ok; constructor; [apply Hin; set_solver|by eapply Hpart]|].
  case_bool_decide.
  { intros (ids & _ & [= <-])%result_bind_Ok. apply Forall_forall. intros line (id & -> & _)%list_elem_of_fmap. apply Hin. set_solver. }
  case_bool_decide; [|done]. intros [= <-]. apply Forall_forall. intros line (m & -> & _)%list_elem_of_fmap. apply Hin. set_solver.
Qed.

Section Commands.
Context {W : Type} `{RangeOrder, Protobuf, NodeOperator W, Clock W, Processes W}.
Context (ns : fault_session W) (ReadFile : string → W → result string) (decode : string → result Experiment).

Abbreviation St := (W * Actor)%type.

(** ** Hypotheses *)

(** Commands one after the other, up to the first that fails. *)
Fixpoint run_commands (others : nat → St → St) (j : nat) (cmds : list Command) (st : St) : outcome (St * bool) :=
  match cmds with
  | [] => Done (st, true)
  | cmd :: rest =>
      match handle ns ReadFile decode cmd (others j st) with
      | Panic why => Panic why
      | Done (st, r) => if cr_Error r then Done (st, false) else run_commands others (S j) rest st
      end
  end.

(** The steps of an experiment, each with the commands it stands for. *)
Fixpoint run_steps (waits : nat → St → St) (others : nat → nat → St → St) (cid : string) (keys : list string)
    (i : nat) (steps : list (Z * list Command)) (f : hyp_flags) (st : St) : outcome (St * hyp_flags * bool) :=
  match steps with
  | [] => Done (st, f, true)
  | (_, cmds) :: rest =>
      let '(st, f) := hyp_metrics cid keys f (waits i st) in
      match run_commands (others i) 0 cmds st with
      | Panic why => Panic why
      | Done (st, false) => Done (st, f, false)
      | Done (st, true) => run_steps waits others cid keys (S i) rest f st
      end
  end.

Lemma hyp_commands_reads others j lines cmds st :
  Forall plain_start lines → Forall2 reads_as lines cmds →
  hyp_commands ns ReadFile decode others j lines st = run_commands others j cmds st.
Proof.
  intros Hs Hr. revert j st Hs; induction Hr as [|line cmd lines cmds Hl _ IH]; intros j st Hs; [done|].
  apply Forall_cons in Hs as [Hh Hs]. cbn [hyp_commands run_commands]. rewrite plain_start_not_nested by done.
  unfold ExecuteRuntimeCommand. unfold reads_as in Hl. rewrite Hl.
  destruct (handle ns ReadFile decode cmd (others j st)) as [[st' r]|why]; [|done].
  destruct (cr_Error r); [done|]. by apply IH.
Qed.

(** C26: Running a hypothesis runs its steps.  Take a valid experiment, with words
    for names and addresses and ports that fit an int, whose start_cluster steps
    come with at least two members and whose writes and reads are of words, and
    let it compile.  Then to each step of its timeline there are the commands that
    it means, at its time, and executing the batches does, whatever happens in
    between, what these commands do one after another up to the first that fails:
    no line is misread, skipped or added. *)
Theorem hypothesis_runs_its_steps opts e batches :
  valid_experiment e →
  plain_cluster (option_cluster opts e) (option_host opts) (option_port opts) (x_Cluster e) →
  (∀ s, s ∈ x_Timeline e → plain_step (x_Cluster e) s) →
  Compile opts (Some e) = Ok batches →
  ∃ steps,
    Forall2 (λ s step, step.1 = st_At s ∧
      step_means (option_cluster opts e) (option_host opts) (option_port opts) (x_Cluster e) s step.2) (x_Timeline e) steps ∧
    ∀ waits others cid keys f st,
      hyp_batches ns ReadFile decode waits others cid keys 0 batches f st = run_steps waits others cid keys 0 steps f st.
Proof.
  intros Hv Hp Hs Hc. pose proof (Compile_reads opts e Hv Hp Hs) as Hrel. rewrite Hc in Hrel.
  destruct (result_mapM _ _) as [steps|] eqn:Hsteps; [|done]. cbn in Hrel. exists steps. split.
  { apply batches_mean in Hsteps; [|done]. eapply Forall2_impl; [exact Hsteps|]. intros s p (? & ? & _). done. }
  assert (Hplain : Forall (λ b, Forall plain_start (b_Commands b)) batches).
  { unfold Compile in Hc. destruct (Validate (Some e)); [done|]. apply result_mapM_Ok in Hc. clear -Hc.
    induction Hc as [|s b tl bs Hb _ IH]; constructor; [|done]. unfold compile_batch in Hb.
    apply result_bind_Ok in Hb as (ls & Hls & [= <-]). by eapply compileCommands_start. }
  intros waits others cid keys f st. clear Hc Hsteps. revert f st. generalize 0%nat as i.
  induction Hrel as [|b [at_ cmds] batches steps [_ Hb] _ IH]; intros i f st; [done|].
  apply Forall_cons in Hplain as [Hpb Hplain]. cbn [hyp_batches run_steps].
  destruct (hyp_metrics cid keys f (waits i st)) as [st1 f1]. rewrite (hyp_commands_reads _ _ _ cmds) by done.
  destruct (run_commands (others i) 0 cmds st1) as [[st2 []]|why]; [|done|done]. by apply IH.
Qed.

(** ** Answers *)

(** The data a command answers with. *)
Definition reply_shape (t : CommandType) (d : ReplyData) : bool :=
  match t, d with
  | CmdStartNodeProcess, DStarted _ _ | CmdStopNodeProcess, DStopped _ | CmdListNodeProcesses, DProcesses _
  | CmdListNodes, DNodes _ | CmdListClusters, DClusters _
  | (CmdSetFaultParams | CmdCrashNode | CmdRecoverNode | CmdSetDropRate | CmdSetDelay | CmdKVPut | CmdSetClusterProtocol
     | CmdMetricsWatchKey | CmdLogLifecycleEvent), DStatusOk
  | CmdSetPartition, DSymmetric | CmdKVGet, DValue _ _ | CmdKillCluster, DKilled _ _ | CmdMetricsStart, DMetricsStarted _ _
  | (CmdMetricsStop | CmdMetricsShow), DMetrics _ | CmdMetricsHistory, DHistory _ | CmdRunHypothesis, DHypothesis _ _ _ _ _
  | CmdHelp, DHelp _ => true
  | _, _ => false
  end.

(** An answer of the form the command has: an error without data, data of that
    form without an error, nothing at all for three commands; start-node answers
    data either way. *)
Definition well_typed (t : CommandType) (r : CommandResult) : Prop :=
  match cr_Data r with
  | Some d => reply_shape t d = true ∧ (is_Some (cr_Error r) → t = CmdStartNodeProcess)
  | None => is_Some (cr_Error r) ∨ t ∈ [CmdCreateCluster; CmdAddNode; CmdRemoveNode]
  end.

Lemma typed_error t e : well_typed t (reply_error e).
Proof. left. by eexists. Qed.

Lemma typed_data t d : reply_shape t d = true → well_typed t (reply d).
Proof. split; [done|]. by intros []. Qed.

Lemma typed_of t d e : reply_shape t d = true → well_typed t (reply_of (Some d) e).
Proof. destruct e; [intros _; apply typed_error|apply typed_data]. Qed.

Lemma typed_nil t e : t ∈ [CmdCreateCluster; CmdAddNode; CmdRemoveNode] → well_typed t (reply_of None e).
Proof. destruct e; [intros _; apply typed_error|by right]. Qed.

Lemma typed_result {A} t (x : result A) (f : A → ReplyData) :
  (∀ a, reply_shape t (f a) = true) → well_typed t (match x with Ok a => reply (f a) | Err e => reply_error e end).
Proof. destruct x; [intros Hf; by apply typed_data|intros _; apply typed_error]. Qed.

Lemma typed_stop id st : well_typed CmdStopNodeProcess (stopNodeProcess id st).2.
Proof.
  unfold stopNodeProcess. destruct st as [w a]. destruct (findManagedProcessByNodeID id a) as [[key [pid|]]|]; try apply typed_error.
  destruct (killProcessTree _ w) as [w' [e|]]; [apply typed_error|by apply typed_data].
Qed.

Lemma typed_partition cid id peer b st : well_typed CmdSetPartition (setPartition ns cid id peer b st).2.
Proof.
  unfold setPartition. destruct (updateFault ns cid id _ st) as [st' [e|]]; [apply typed_error|by apply typed_data].
Qed.

Lemma typed_hypothesis cmd st : well_typed CmdRunHypothesis (runHypothesis ReadFile decode cmd st).2.
Proof.
  unfold runHypothesis. destruct st as [w a]. cbv zeta. case_bool_decide; [apply typed_error|].
  destruct (LoadFile _ _) as [e|]; [|apply typed_error]. case_bool_decide; [apply typed_error|].
  destruct (Compile _ _); [by apply typed_data|apply typed_error].
Qed.

Lemma handle_typed cmd st st' r :
  handle ns ReadFile decode cmd st = Done (st', r) →
  well_typed (cmd_Type cmd) r.
Proof.
  unfold handle, createCluster, addNode, removeNode, listNodes, listClusters, kvPut, kvGet, metricsStart, metricsStop, metricsWatchKey, metricsShow, logLifecycleEvent.
  destruct (cmd_Type cmd); cbv zeta; unfold status_reply.
  all: try (intros [= <- <-]; by first [apply typed_of | apply typed_data | apply typed_result]).
  - destruct (timed _ st). intros [= <- <-]. apply typed_nil. set_solver.
  - destruct (startNodeProcess cmd st). by intros [= <- <-].
  - intros [= Heq]. pose proof (typed_stop (cmd_NodeID cmd) st) as Ht. by rewrite Heq in Ht.
  - destruct (on_service _ st). intros [= <- <-]. right. set_solver.
  - destruct (svc_RemoveNode _ _ _ _) as [[[w s] e]|]; [|done]. intros [= <- <-]. apply typed_nil. set_solver.
  - intros [= Heq]. pose proof (typed_partition (cmd_ClusterID cmd) (cmd_NodeID cmd) (cmd_PeerID cmd) (cmd_Enabled cmd) st) as Ht.
    by rewrite Heq in Ht.
  - destruct (on_service _ st) as [[w a] [e|]]; intros [= <- <-]; [apply typed_error|by apply typed_data].
  - destruct (ExecuteKVGet _ _ _ _ _) as [w [res|e]]; intros [= <- <-]; [by apply typed_data|apply typed_error].
  - intros [= Heq]. pose proof (typed_hypothesis cmd st) as Ht. by rewrite Heq in Ht.
  - destruct (killCluster _ st). intros [= <- <-]. by apply typed_result.
  - destruct (timed _ st) as [st1 [b|e]]; intros [= <- <-]; [by apply typed_data|apply typed_error].
  - destruct (on_service _ st). intros [= <- <-]. by apply typed_result.
  - destruct (AddMetricsWatchKey _ _ _); intros [= <- <-]; [by apply typed_data|apply typed_error].
  - destruct (timed _ st). intros [= <- <-]. by apply typed_data.
Qed.

(** C33: The answer to a command has the type of the command.  When a command does not
    panic (remove-node of a node its cluster does not have does), the data of its
    answer without an error is of the one form the command has, or nothing at all
    for new-cluster, add-node and remove-node; the only command that answers data
    with an error is start-node.  So the type assertions the clients make on the
    data cannot fail. *)
Theorem reply_type cmd st st' r :
  handle ns ReadFile decode cmd st = Done (st', r) →
  well_typed (cmd_Type cmd) r.
Proof. apply handle_typed. Qed.
End Commands.

(** ** Witnesses *)

#[local] Existing Instance canonical_order.
#[local] Existing Instance demo_protobuf.
#[local] Existing Instance demo_operator.
#[local] Existing Instance actor_clock.
#[local] Existing Instance demo_processes.

Lemma kills_demo : kills_succeed (W := gmap string string).
Proof. intros pid w w' e Heq. by change ((w, Killed) = (w', KillError e)) in Heq. Qed.

Lemma fault_commands_spec_witness :
  match run_demo ((NewCommand CmdCrashNode) <| cmd_ClusterID := "c1" |> <| cmd_NodeID := "n1" |>) demo_actor with
  | Some (a, _) => n_Status <$> node_at "c1" "n1" (cluster (a_service a))
  | None => None
  end = Some "crashed".
Proof.
  pose proof (fault_commands_spec (W := gmap string string) None no_files no_yaml
    ((NewCommand CmdCrashNode) <| cmd_ClusterID := "c1" |> <| cmd_NodeID := "n1" |>) (with_crashed true) demo_store demo_actor
    (manager_ok_register (H:=canonical_order) 0 "c1" "n1" "localhost" 7001 NewManager manager_ok_new) eq_refl) as Hspec.
  destruct Hspec as (st' & r & Hh & _ & _ & Hn). unfold run_demo. rewrite Hh. 
  destruct (node_at _ _ (cluster (a_service demo_actor))) as [n|] eqn:Hn1; [|by vm_compute in Hn1].
  destruct Hn as (Hn & _). cbn -[node_at] in Hn |- *. by rewrite Hn.
Defined.

Lemma restart_loses_process_witness :
  ∃ a3 : Actor, nodeProcs a3 !! "c1::n1" = Some (Some 42) ∧
    stopNodeProcess "n1" (demo_store, process_exited "c1::n1" a3) =
      ((demo_store, process_exited "c1::n1" a3), reply_error (Errorf "node process not running: %s" [AStr "n1"])).
Proof.
  pose (a1 := set_procs {["c1::n1" := Some 42]} {["c1::n1" := "c1"]} demo_actor).
  exists a1. split; [reflexivity|].
  destruct (restart_loses_process (W := gmap string string) start_n1 start_n1 demo_store demo_actor demo_store a1 demo_store demo_actor demo_store a1)
    as [_ Hstop]; [vm_compute; reflexivity..|]. apply (Hstop demo_store).
Defined.

Lemma killCluster_spec_witness :
  let '(st', r) := killCluster " c1 " (demo_store, set_procs {["c1::n1" := Some 42]} {["c1::n1" := "c1"]} demo_actor) in
  r = Ok 1 ∧ clusters (cluster (a_service st'.2)) !! "c1" = None ∧ nodeProcs st'.2 !! "c1::n1" = None.
Proof.
  pose (a := set_procs {["c1::n1" := Some 42]} {["c1::n1" := "c1"]} demo_actor).
  assert (Hp : processes_ok a).
  { split.
    - intros key. unfold a. cbn [set_procs nodeProcs nodeMeta]. destruct (decide (key = "c1::n1")) as [->|Hne].
      + rewrite !lookup_singleton_eq. split; by eexists.
      + by rewrite !lookup_singleton_ne.
    - intros key c Hc. unfold a in Hc. cbn [set_procs nodeMeta] in Hc. apply lookup_singleton_Some in Hc as [<- <-]. by exists "n1".
    - intros key p Hc. unfold a in Hc. cbn [set_procs nodeProcs] in Hc. apply lookup_singleton_Some in Hc as [<- <-]. by exists 42. }
  pose proof (killCluster_spec (W := gmap string string) " c1 " demo_store a kills_demo Hp ltac:(done)) as Hspec. fold a.
  destruct (killCluster " c1 " (demo_store, a)) as [st' r]. destruct Hspec as (Hk & Hc & ->).
  split_and!; [vm_compute; reflexivity|rewrite Hc; apply lookup_delete_eq|]. rewrite Hk. vm_compute. reflexivity.
Defined.

Lemma hypothesis_runs_its_steps_witness :
  ∃ batches steps, Compile demo_options (Some demo) = Ok batches ∧
    Forall2 (λ s step, step.1 = st_At s ∧ step_means "c1" "localhost" 9091 demo_cluster s step.2) (x_Timeline demo) steps ∧
    ∀ waits others keys f st,
      hyp_batches (W := gmap string string) None no_files no_yaml waits others "c1" keys 0 batches f st =
      run_steps None no_files no_yaml waits others "c1" keys 0 steps f st.
Proof.
  destruct (Compile demo_options (Some demo)) as [batches|] eqn:Hc; [|by vm_compute in Hc].
  destruct (hypothesis_runs_its_steps (W := gmap string string) None no_files no_yaml demo_options demo batches demo_valid demo_plain_cluster
    demo_plain_steps Hc) as (steps & Ht & Hrun).
  exists batches, steps. split_and!; [done|exact Ht|]. intros waits others keys f st. apply Hrun.
Defined.

Lemma reply_type_witness :
  ∃ a r, run_demo (NewCommand CmdListClusters) demo_actor = Some (a, r) ∧ well_typed CmdListClusters r.
Proof.
  destruct (handle None no_files no_yaml (NewCommand CmdListClusters) (demo_store, demo_actor)) as [[st r]|] eqn:Hh; [|by vm_compute in Hh].
  exists st.2, r. split; [unfold run_demo; by rewrite Hh|]. exact (reply_type _ _ _ _ _ _ _ Hh).
Defined.
