(* ===== verification/ActorLoop.v ===== *)
(** * The loop of the actor and its clients (internal/controlplane/actor.go, command.go)

    Clients of the actor are goroutines: handlers of requests, the bootstrap and
    the hypotheses that run.  Each makes a command, submits it to the channel of
    the actor and waits for the reply; the loop takes one command at a time.  The
    actor is a [Server]: every command is answered, Submit looks at the context of
    the actor, MapWait looks at no context. *)

From S2P Require Import Prelude GoStrings Fault Messages Commands Experiment Cluster Metrics Sessions Service World CPServer ServerLoop ServerLoopProps Actor ControlPlane ActorProps.

(** The room of [cmdCh]. *)
Definition cmdCh_cap : nat := 32.

Section Loop.
Context {W : Type} `{RangeOrder, Protobuf, NodeOperator W, Clock W, Processes W}.
Context (ns : fault_session W) (ReadFile : string → W → result string) (decode : string → result Experiment).

Abbreviation St := (W * Actor)%type.

Definition actor_server : Server := {|
  sv_State := St;
  sv_Command := Command;
  sv_Result := CommandResult;
  sv_perform := handle ns ReadFile decode;
  sv_answers := λ _, true;
  sv_cap := cmdCh_cap;
  sv_submit_looks := true;
  sv_wait_looks := false;
|}.

(** [Stop] kills the processes and then cancels the context (LCancel); the loop
    may take commands in between. *)
Definition Stop_kill : label actor_server := LOther (S := actor_server) stopAllManagedNodeProcesses.

(** C24: The clients see one command after another.  However the goroutines are
    scheduled, there is a history that has one command for each round of the loop,
    and where another goroutine changes the state that change and nothing else; it
    does the commands in the order they were submitted in, none twice and those in
    the channel not yet; carried out from the first state, each command at once on
    the state it finds, it ends in the state the control plane is in; and what a
    client is returned is the result of the command it made, there.  A command is
    one step of the loop: a goroutine that is no client (a report of a node, the
    sampler, the exit of a process) changes the state between two commands and not
    within one. *)
Theorem actor_linearizable (st0 : St) (tr : list (label actor_server)) s :
  loop_run tr (NewLoop (S := actor_server) st0) = Some s →
  ∃ ops : list (op actor_server), history tr ops ∧ sequential ops st0 (lp_state s) ∧
    omap submits tr = omap op_id ops ++ (lp_cmdCh s).*1 ∧ NoDup (omap submits tr) ∧
    (∀ id cmd r, Did id cmd r ∈ ops → LCall id cmd ∈ tr) ∧
    (∀ id r, returned id s = Some r → ∃ cmd, Did id cmd r ∈ ops ∧ LCall id cmd ∈ tr).
Proof. apply (loop_linearizable (S := actor_server)). Qed.

(** C25: Every client is answered.  While the actor is not stopped and no command
    panics, the clients and the loop together make at most [work] moves (three for
    a command that is not submitted yet), however they are scheduled and whatever
    else changes the state; and as long as a client has not been returned its
    result, one of them can move: nobody waits for a full channel, for a command
    that the loop has lost, or for a reply that is not sent. *)
Theorem clients_answered (st0 : St) (tr : list (label actor_server)) s sched s' :
  loop_run tr (NewLoop (S := actor_server) st0) = Some s → Forall (λ l, moves l || changes l = true) sched →
  loop_run sched s = Some s' → unstopped s' →
  (length (filter (λ l, moves l = true) sched) + work s' = work s)%nat ∧
  ((∀ id rq, lp_requests s' !! id = Some rq → ∃ r, rq_at rq = Returned r) ∨ ∃ l s'', moves l = true ∧ loop_step l s' = Some s'').
Proof.
  intros Hrun Hf Hsched Hu. destruct (loop_progress (S := actor_server) st0 tr s sched s') as [Hw Hrest]; [cbn; unfold cmdCh_cap; lia|done..|].
  split; [done|]. destruct Hrest as [Hrest|?]; [left|by right]. intros id rq Hid.
  apply (rest_returned (S := actor_server) (tr ++ sched) st0 s' id rq); [done..| |done|by eapply Hrest].
  by rewrite <-loop_run_app, Hrun.
Qed.

(** C36: A stopped actor leaves its clients waiting.  A client whose Submit gave up
    because the context is done waits for a reply all the same, and no later step
    sends one; and once the loop has returned, a client that has no result yet, in
    its channel or received, never gets one. *)
Theorem stop_strands_clients (st0 : St) (tr : list (label actor_server)) s tr' s' id :
  loop_run tr (NewLoop (S := actor_server) st0) = Some s → loop_run tr' s = Some s' →
  (∀ s1, loop_step (LGiveUp id) s = Some s1 → ∀ tr1 s2, loop_run tr1 s1 = Some s2 → returned id s2 = None) ∧
  (lp_running s = false → answer id s = None → returned id s' = None).
Proof.
  intros Hrun Hrun'. pose proof (re_ok _ _ _ (run_has_effect _ _ _ (loop_ok_new (S := actor_server) st0) Hrun)) as Hok. split.
  - intros s1 Hg tr1 s2 Hr. destruct (abandon_lost s s1 id Hok Hg) as [Hlost Hno].
    apply answer_none_returned. by rewrite (run_lost tr1 s1 s2 id (se_ok _ _ _ (step_has_effect _ _ _ Hok Hg)) Hr Hlost).
  - intros Hstop Hno. apply answer_none_returned. by rewrite (stopped_answer tr' s s' id Hok Hrun' Hstop).
Qed.

(** ** The states of the control plane *)

(** What the other goroutines do are steps of the control plane. *)
Fixpoint others_step (tr : list (label actor_server)) (s : Loop actor_server) : Prop :=
  match tr with
  | [] => True
  | l :: tr =>
      match l with LOther f => cp_step ns ReadFile decode (lp_state s) (f (lp_state s)) | _ => True end ∧
      match loop_step l s with Some s' => others_step tr s' | None => True end
  end.

(** So the states that the goroutines reach together are those of the step
    relation of the control plane, whose invariant they keep. *)
Lemma loop_states tr s s' :
  others_step tr s → loop_run tr s = Some s' → rtc (cp_step ns ReadFile decode) (lp_state s) (lp_state s').
Proof.
  revert s; induction tr as [|l tr IH]; intros s; cbn [others_step loop_run]; [by intros _ [= ->]|]. intros [Hl Htr].
  destruct (loop_step l s) as [s1|] eqn:Hs; [|done]. intros Hr. specialize (IH s1 Htr Hr).
  assert (lp_state s1 = lp_state s ∨ cp_step ns ReadFile decode (lp_state s) (lp_state s1)) as [<-|Hcp];
    [|done|by eapply rtc_l]. revert Hs Hl. clear. unfold loop_step. destruct (lp_crashed s); [done|].
  destruct l; unfold make_command, Submit, Wait, Timeout, Run_return, Cancel.
  all: try (repeat case_match; try done; intros [= <-] _; by left).
  - unfold Run_command. destruct (lp_running s); [|done]. cbn. destruct (lp_cmdCh s) as [|[id cmd] rest]; [done|].
    destruct (handle _ _ _ _ _) as [[st r]|] eqn:Hh; [|intros [= <-] _; by left].
    unfold Reply. repeat case_match; try done. intros [= <-] _. right. by eapply step_command.
  - intros [= <-] ?. by right.
Qed.

(** ** A hypothesis is a client *)

(** What is done of a list of commands that a goroutine gives one after the
    other, up to the first that fails, and whether all of them succeeded. *)
Inductive client_log : list Command → list (Command * CommandResult) → bool → Prop :=
  | log_end : client_log [] [] true
  | log_ok cmd r cmds l ok : cr_Error r = None → client_log cmds l ok → client_log (cmd :: cmds) ((cmd, r) :: l) ok
  | log_failed cmd r e cmds : cr_Error r = Some e → client_log (cmd :: cmds) [(cmd, r)] false.

(** The commands of the requests [ids]. *)
Definition own (ids : gset nat) (o : op actor_server) : option (Command * CommandResult) :=
  match o with Did id cmd r => if decide (id ∈ ids) then Some (cmd, r) else None | Other _ => None end.

Lemma own_split ids (ops : list (op actor_server)) cmd r l :
  omap (own ids) ops = (cmd, r) :: l →
  ∃ ops1 id ops2, ops = ops1 ++ Did id cmd r :: ops2 ∧ omap (own ids) ops2 = l.
Proof.
  induction ops as [|o ops IH]; cbn; [done|]. destruct (own ids o) as [[cmd' r']|] eqn:Ho.
  - intros [= -> -> <-]. destruct o as [id c r'|st]; [|done]. cbn in Ho. case_decide; [|done]. injection Ho as -> ->.
    by exists [], id, ops.
  - intros (ops1 & id & ops2 & -> & Hl)%IH. by exists (o :: ops1), id, ops2.
Qed.

Lemma sequential_split (ops1 ops2 : list (op actor_server)) st st2 :
  sequential (ops1 ++ ops2) st st2 → ∃ st1, sequential ops1 st st1 ∧ sequential ops2 st1 st2.
Proof.
  revert st; induction ops1 as [|[id cmd r|f] ops1 IH]; intros st; cbn; [by eexists| |apply IH].
  intros (st' & Hh & (st1 & H1' & H2')%IH). exists st1. split; [by exists st'|done].
Qed.

Lemma run_commands_shift others j cmds st :
  run_commands ns ReadFile decode others (S j) cmds st = run_commands ns ReadFile decode (λ j, others (S j)) j cmds st.
Proof.
  revert j st; induction cmds as [|cmd cmds IH]; intros j st; [done|]. cbn.
  destruct (handle _ _ _ _ _) as [[st' r]|]; [|done]. destruct (cr_Error r); [done|]. apply IH.
Qed.

Lemma client_interleaved ids (ops : list (op actor_server)) cmds ok st st' :
  sequential ops st st' → client_log cmds (omap (own ids) ops) ok →
  ∃ others stn rest, run_commands ns ReadFile decode others 0 cmds st = Done (stn, ok) ∧ sequential (S := actor_server) rest stn st'.
Proof.
  intros Hseq Hlog. remember (omap (own ids) ops) as l eqn:Hl. revert ops st Hseq Hl.
  induction Hlog as [|cmd r cmds l ok Hr _ IH|cmd r e cmds Hr]; intros ops st Hseq Hl.
  - by exists (λ _, id), st, ops.
  - symmetry in Hl. apply own_split in Hl as (ops1 & id & ops2 & -> & Hl).
    apply sequential_split in Hseq as (st1 & _ & (st2 & Hh & Hseq)). symmetry in Hl.
    destruct (IH ops2 st2 Hseq Hl) as (others & stn & rest & Hrun & Hrest).
    exists (λ j, match j with O => λ _, st1 | S j => others j end), stn, rest. split; [|done]. cbn in Hh |- *. rewrite Hh, Hr.
    by rewrite run_commands_shift.
  - symmetry in Hl. apply own_split in Hl as (ops1 & id & ops2 & -> & Hl).
    apply sequential_split in Hseq as (st1 & _ & (st2 & Hh & Hseq)).
    exists (λ _ _, st1), st2, ops2. split; [|done]. cbn in Hh |- *. by rewrite Hh, Hr.
Qed.

(** So a hypothesis may be run as [hypothesis_runs_its_steps] has it, whatever the
    other clients do: when its requests have been answered, some [others] explain
    what came in between. *)
Lemma hypothesis_is_client st0 tr s ids cmds ok :
  loop_run tr (NewLoop (S := actor_server) st0) = Some s → client_log cmds (omap (own ids) (performed tr (NewLoop (S := actor_server) st0))) ok →
  ∃ others stn rest, run_commands ns ReadFile decode others 0 cmds st0 = Done (stn, ok) ∧ sequential (S := actor_server) rest stn (lp_state s).
Proof.
  intros Hrun. apply client_interleaved, (re_sequential _ _ _ (run_has_effect _ _ _ (loop_ok_new st0) Hrun)).
Qed.
End Loop.

(** ** Two clients *)

#[local] Existing Instance canonical_order.
#[local] Existing Instance demo_protobuf.
#[local] Existing Instance demo_operator.
#[local] Existing Instance actor_clock.
#[local] Existing Instance demo_processes.

Definition demo_put : Command :=
  (NewCommand CmdKVPut) <| cmd_ClusterID := "c1" |> <| cmd_NodeID := "n1" |> <| cmd_Key := "k" |> <| cmd_Value := "v" |>.
Definition demo_get : Command := (NewCommand CmdKVGet) <| cmd_ClusterID := "c1" |> <| cmd_NodeID := "n1" |> <| cmd_Key := "k" |>.

#[local] Abbreviation demo_server := (actor_server (W := gmap string string) None no_files no_yaml).

Definition demo_run (tr : list (label demo_server)) : option (Loop demo_server) :=
  loop_run tr (NewLoop (S := demo_server) (demo_store, demo_actor)).

(** The first client writes and the second reads; both have made their commands
    before either is done. *)
Definition two_calls : list (label demo_server) := [LCall (S := demo_server) 0 demo_put; LCall (S := demo_server) 1 demo_get].
Definition two_answers : list (label demo_server) := [LSubmit 0; LSubmit 1; LTake; LTake; LReturn 1; LReturn 0].

Definition second_answer (s : Loop demo_server) : option ReplyData := (returned 1 s : option CommandResult) ≫= cr_Data.

(** What a successful run shows, computed. *)
Lemma demo_run_some {A} tr (f : Loop demo_server → A) a :
  f <$> demo_run tr = Some a → ∃ s, demo_run tr = Some s ∧ f s = a.
Proof. destruct (demo_run tr) as [s|]; [|done]. intros [= <-]. by exists s. Qed.

Lemma actor_linearizable_witness :
  ∃ s, demo_run (two_calls ++ two_answers) = Some s ∧ second_answer s = Some (DValue "v" (Some (1, "n1"))) ∧
    ∃ ops : list (op demo_server), history (two_calls ++ two_answers) ops ∧ sequential ops (demo_store, demo_actor) (lp_state s) ∧
      omap op_id ops ++ (lp_cmdCh s).*1 = [0; 1]%nat.
Proof.
  destruct (demo_run_some (two_calls ++ two_answers) second_answer (Some (DValue "v" (Some (1, "n1"))))) as (s & Hrun & Hs);
    [vm_compute; reflexivity|].
  exists s. split_and!; [done..|].
  destruct (actor_linearizable None no_files no_yaml (demo_store, demo_actor) (two_calls ++ two_answers) s Hrun) as (ops & Hh & Hseq & Hfifo & _).
  exists ops. split_and!; [done..|]. symmetry. exact Hfifo.
Defined.

Lemma clients_answered_witness :
  ∃ s s', demo_run two_calls = Some s ∧ work s = 6%nat ∧ loop_run two_answers s = Some s' ∧ work s' = 0%nat.
Proof.
  destruct (demo_run_some two_calls (λ s, (work s, (λ s', (lp_done s', lp_crashed s')) <$> loop_run two_answers s)) (6%nat, Some (false, false)))
    as (s & Hrun & [= Hw Hs']); [vm_compute; reflexivity|].
  apply fmap_Some in Hs' as (s' & Hsched & [= Hd Hc]). exists s, s'. split_and!; [done..|].
  destruct (clients_answered None no_files no_yaml (demo_store, demo_actor) two_calls s two_answers s' Hrun) as [Hwork _];
    [by repeat constructor|done|by split|].
  rewrite Hw in Hwork. change (6 + work s' = 6)%nat in Hwork. lia.
Defined.

(** A client submits while the actor is stopped: its command is in the channel,
    but the loop returns first. *)
Definition stopped_client : list (label demo_server) := [LCall (S := demo_server) 0 demo_put; LCancel; LSubmit 0; LExit].

Lemma stop_strands_clients_witness :
  ∃ s, demo_run stopped_client = Some s ∧ lp_running s = false ∧ answer 0 s = None ∧
    ∀ tr s', loop_run tr s = Some s' → returned 0 s' = None.
Proof.
  destruct (demo_run_some stopped_client (λ s, (lp_running s, answer 0 s)) (false, None)) as (s & Hrun & [= Hs Ha]); [vm_compute; reflexivity|].
  exists s. split_and!; [done..|]. intros tr s' Hr.
  by apply (stop_strands_clients None no_files no_yaml (demo_store, demo_actor) stopped_client s tr s' 0%nat Hrun Hr).
Defined.

(** A node that is started while the actor stops is missed: the loop takes the
    command after the processes were killed and before the context is cancelled. *)
Example stop_misses_start :
  (λ s : Loop demo_server, nodeProcs (lp_state s : gmap string string * Actor).2 !! "c1::n1") <$>
    demo_run [LCall (S := demo_server) 0 start_n1; LSubmit 0;
              Stop_kill None no_files no_yaml; LTake; LCancel; LExit] =
  Some (Some (Some 42)).
Proof. vm_compute. reflexivity. Qed.
