(* ===== verification/Launch.v ===== *)
(** * From an experiment to a running node

    The node process that a start-node line of an experiment launches: what the
    actor starts, with which arguments, and the node these arguments make. *)

From S2P Require Import Prelude GoStrings GoTime GoFlag ConfigFile Protocol VectorClock Conflict Gossip Baseline Fault NodeConfig NodeSession Messages NodeRuntime Commands CommandProps Experiment ExperimentProps Cluster Metrics Sessions Service World CPServer NodeMain Actor ControlPlane ActorProps.

(** ** The arguments of a node *)

Section Flags.
Context (rest : list string) (f : node_flags).

Lemma flag_id v : parse_flags node_flag ("-id" :: v :: rest) f = parse_flags node_flag rest f <| nf_id := v |>.
Proof. reflexivity. Qed.
Lemma flag_cluster v : parse_flags node_flag ("-cluster-id" :: v :: rest) f = parse_flags node_flag rest f <| nf_cluster_id := v |>.
Proof. reflexivity. Qed.
Lemma flag_host v : parse_flags node_flag ("-host" :: v :: rest) f = parse_flags node_flag rest f <| nf_host := v |>.
Proof. reflexivity. Qed.
Lemma flag_cp_host v : parse_flags node_flag ("-cp-host" :: v :: rest) f = parse_flags node_flag rest f <| nf_cp_host := v |>.
Proof. reflexivity. Qed.
Lemma flag_peers v : parse_flags node_flag ("-peers" :: v :: rest) f = parse_flags node_flag rest f <| nf_peers := v |>.
Proof. reflexivity. Qed.

Lemma flag_port v : in_i64 v → parse_flags node_flag ("-port" :: itoa v :: rest) f = parse_flags node_flag rest f <| nf_port := v |>.
Proof.
  intros Hv. change (parse_flags node_flag ("-port" :: itoa v :: rest) f) with
    (match set_flag (FInt (λ v f, f <| nf_port := v |>)) "port" (itoa v) f with Err e => Err e | Ok f => parse_flags node_flag rest f end).
  cbn [set_flag]. unfold set_or. by rewrite ParseInt0_itoa.
Qed.
Lemma flag_cp_port v : in_i64 v → parse_flags node_flag ("-cp-port" :: itoa v :: rest) f = parse_flags node_flag rest f <| nf_cp_port := v |>.
Proof.
  intros Hv. change (parse_flags node_flag ("-cp-port" :: itoa v :: rest) f) with
    (match set_flag (FInt (λ v f, f <| nf_cp_port := v |>)) "cp-port" (itoa v) f with Err e => Err e | Ok f => parse_flags node_flag rest f end).
  cbn [set_flag]. unfold set_or. by rewrite ParseInt0_itoa.
Qed.
End Flags.

(** The flags a node reads from the arguments the actor gives it. *)
Definition given_flags (cmd : Command) (clusterID host cpHost : string) (cpPort : Z) : node_flags :=
  {| nf_config := EmptyString; nf_id := cmd_NodeID cmd; nf_port := cmd_Port cmd; nf_peers := cmd_PeersCSV cmd;
     nf_cluster_id := clusterID; nf_host := host; nf_cp_host := cpHost; nf_cp_port := cpPort |}.

Lemma parse_node_args cmd clusterID host cpHost cpPort :
  in_i64 (cmd_Port cmd) → in_i64 cpPort →
  parse_flags node_flag (node_args cmd clusterID host cpHost cpPort) default_flags = Ok (given_flags cmd clusterID host cpHost cpPort, []).
Proof.
  intros Hp Hc. unfold node_args. cbn [app].
  rewrite flag_id, flag_port, flag_cluster, flag_host, flag_cp_host, flag_cp_port by done.
  case_bool_decide as He; [|by rewrite flag_peers]. unfold given_flags. by rewrite He.
Qed.

(** What main makes of them, whatever the file system: the address of the control
    plane is the one given, where one is given. *)
Lemma main_node_args files cmd clusterID host cpHost cpPort cfg :
  in_i64 (cmd_Port cmd) → in_i64 cpPort → cpHost ≠ EmptyString → cpPort ≠ 0 →
  NewConfig (cmd_NodeID cmd) (cmd_Port cmd) (cmd_PeersCSV cmd) = Ok cfg →
  configured files (node_args cmd clusterID host cpHost cpPort) =
  Ok {| cfg_ID := cfg_ID cfg; cfg_Port := cfg_Port cfg; cfg_Peers := cfg_Peers cfg; cfg_ClusterID := clusterID; cfg_Host := host;
        cfg_ControlPlaneHost := cpHost; cfg_ControlPlanePort := cpPort |}.
Proof.
  intros Hp Hc Hh H0 Hcfg. unfold configured. rewrite parse_node_args by done. cbn [mbind result_bind].
  unfold runtime_options. cbn [given_flags nf_config nf_cp_host nf_cp_port].
  rewrite (bool_decide_true (EmptyString = EmptyString)) by done. cbn [mbind result_bind].
  rewrite (bool_decide_false (cpHost = EmptyString)) by done. rewrite (proj2 (Z.eqb_neq _ _)) by done.
  unfold node_config. cbn [given_flags nf_id nf_port nf_peers nf_cluster_id nf_host]. by rewrite Hcfg.
Qed.

(** ** From the experiment to the node *)

Lemma or_string_word x y : word x → or_string x y = x.
Proof. intros Hx. unfold or_string. by rewrite bool_decide_false by by apply word_non_empty. Qed.

(** What a start-node command with all its options set starts. *)
Lemma start_process {W} `{Processes W} cmd w (a : Actor) w' pid :
  word (cmd_ClusterID cmd) → word (cmd_Host cmd) → word (cmd_CPHost cmd) → cmd_CPPort cmd ≠ 0 →
  nodeProcs a !! managedProcessKey (cmd_ClusterID cmd) (cmd_NodeID cmd) = None →
  os_Start (or_string (or_string (cmd_ProjectRoot cmd) (ao_ProjectRoot (a_options a))) ".")
    (["go"; "run"; "./cmd/node"] ++ node_args cmd (cmd_ClusterID cmd) (cmd_Host cmd) (cmd_CPHost cmd) (cmd_CPPort cmd)) w = (w', Ok pid) →
  ∃ a', startNodeProcess cmd (w, a) = ((w', a'), None) ∧
    nodeProcs a' !! managedProcessKey (cmd_ClusterID cmd) (cmd_NodeID cmd) = Some (Some pid).
Proof.
  intros Hc Hh Hch Hp Hk Hos. unfold startNodeProcess. rewrite (or_string_word (cmd_ClusterID cmd)), Hk by done.
  rewrite (or_string_word (cmd_Host cmd)), (or_string_word (cmd_CPHost cmd)), (or_string_word (cmd_CPHost cmd)) by done.
  unfold or_int. rewrite (proj2 (Z.eqb_neq (cmd_CPPort cmd) 0)) by done. rewrite (proj2 (Z.eqb_neq (cmd_CPPort cmd) 0)) by done.
  rewrite Hos. eexists. split; [reflexivity|]. cbn. by rewrite lookup_insert_eq.
Qed.

Section Launch.
Context {W : Type} `{RangeOrder, Protobuf, NodeOperator W, Clock W, Processes W}.
Context (ns : fault_session W) (ReadFile : string → W → result string) (decode : string → result Experiment).

(** C19: The start-node line of a member of an experiment's cluster launches a
    process whose arguments make it the node of the experiment: its id, port and
    host, the cluster and the address of the control plane, and for peers all the
    other members, under their ids and ports; whatever hosts the experiment gives
    them, the node looks for them on localhost.  The actor records the process
    under the cluster and the node, and answers that it started.  This is for a
    cluster of at least two members (the line of an only member is rejected by the
    parser), with words for its id, hosts and the address of the control plane,
    member ids that a peer list can carry (non-empty, with no white space and
    none of the characters that separate peers, ids, hosts and ports), positive
    ports, a control-plane port other than 0, when the actor has no process
    recorded for that node and the operating system starts the process. *)
Theorem launched_node files clusterID cpHost cpPort c i m w a :
  plain_cluster clusterID cpHost cpPort c → (2 ≤ length (cc_Members c))%nat → Forall wf_member (cc_Members c) →
  cc_Members c !! i = Some m → cpPort ≠ 0 → nodeProcs a !! managedProcessKey clusterID (m_ID m) = None →
  ∃ line root args,
    start_node_line clusterID cpHost cpPort c (Z.of_nat i + 1) = Some line ∧
    (∀ w' pid, os_Start root (["go"; "run"; "./cmd/node"] ++ args) w = (w', Ok pid) →
      ∃ a', ExecuteRuntimeCommand ns ReadFile decode line (w, a) = Done ((w', a'), Ok (Some (DStarted true (m_ID m)))) ∧
        nodeProcs a' !! managedProcessKey clusterID (m_ID m) = Some (Some pid)) ∧
    ∃ cfg, configured files args = Ok cfg ∧
      cfg = {| cfg_ID := m_ID m; cfg_Port := m_Port m; cfg_Peers := told_peer <$> delete i (cc_Members c); cfg_ClusterID := clusterID;
               cfg_Host := member_host m; cfg_ControlPlaneHost := cpHost; cfg_ControlPlanePort := cpPort |} ∧
      node_main files args =
        Ok (NewControlplaneSession (m_ID m) clusterID cpHost cpPort (member_host m) (m_Port m),
            runtime_Start (Some NewEngine) (NewRuntime cfg (NewNodeSession (member_host m) (m_ID m) (m_Port m)))).
Proof.
  intros Hp Hlen Hwf Hm Hcp Hkey.
  assert (Z.of_nat i + 1 ∈ member_indices c) as Hi.
  { apply member_indices_spec. exists m. replace (Z.to_nat (Z.of_nat i + 1 - 1)) with i by lia. split; [done|lia]. }
  destruct (read_start clusterID cpHost cpPort c Hp _ Hlen Hi) as (line & cmd & Hline & Hcmd & Hreads).
  destruct (started_node_peers clusterID cpHost cpPort c i m cmd Hwf Hm Hcmd) as (cfg & Hcfg & Hid & Hport & Hpeers).
  pose proof (resolveMember_spec (Z.of_nat i + 1) c) as Hr. unfold start_command in Hcmd.
  replace (Z.to_nat (Z.of_nat i + 1 - 1)) with i in Hr by lia. rewrite Hm in Hr.
  destruct (resolveMember _ c) as [[[id port] host]|]; [|done]. destruct Hr as (_ & m' & [= <-] & -> & -> & ->).
  injection Hcmd as <-. set (cmd := _ <| cmd_CPPort := cpPort |>) in *.
  apply list_elem_of_lookup_2 in Hm. destruct (plain_member _ _ _ _ Hp m Hm) as (_ & Hhost & Hpi).
  pose proof (plain_id _ _ _ _ Hp) as Hcid. pose proof (plain_cp_host _ _ _ _ Hp) as Hch. pose proof (plain_cp_port _ _ _ _ Hp) as Hcpi.
  exists line, (or_string (or_string EmptyString (ao_ProjectRoot (a_options a))) "."),
    (node_args cmd clusterID (member_host m) cpHost cpPort).
  split; [done|]. split.
  - intros w' pid Hos. unfold ExecuteRuntimeCommand. rewrite Hreads. unfold handle. cbn [cmd cmd_Type].
    destruct (start_process cmd w a w' pid) as (a' & -> & Hk); [done..|]. exists a'. split; [done|exact Hk].
  - cbn [cmd cmd_NodeID cmd_Port cmd_PeersCSV] in Hcfg.
    assert (configured files (node_args cmd clusterID (member_host m) cpHost cpPort) =
      Ok {| cfg_ID := m_ID m; cfg_Port := m_Port m; cfg_Peers := told_peer <$> delete i (cc_Members c); cfg_ClusterID := clusterID;
            cfg_Host := member_host m; cfg_ControlPlaneHost := cpHost; cfg_ControlPlanePort := cpPort |}) as Hconf.
    { rewrite (main_node_args files cmd clusterID (member_host m) cpHost cpPort cfg); [by rewrite Hid, Hport, Hpeers|done|done| |done|done].
      by apply word_non_empty. }
    eexists. split_and!; [exact Hconf|reflexivity|]. unfold node_main. rewrite Hconf. reflexivity.
Qed.
End Launch.

(** ** The second node of the experiment *)

#[local] Existing Instance canonical_order.
#[local] Existing Instance demo_protobuf.
#[local] Existing Instance demo_operator.
#[local] Existing Instance actor_clock.
#[local] Existing Instance demo_processes.

Lemma launched_node_witness :
  ∃ line root args cfg,
    start_node_line "c1" "localhost" 9091 demo_cluster 2 = Some line ∧
    (∀ w' pid, os_Start root (["go"; "run"; "./cmd/node"] ++ args) demo_store = (w', Ok pid) →
      ∃ a', ExecuteRuntimeCommand None no_files no_yaml line (demo_store, demo_actor) = Done ((w', a'), Ok (Some (DStarted true "b")))) ∧
    configured (λ _, Err (Errorf "no such file" [])) args = Ok cfg ∧
    cfg_Peers cfg = [{| peer_ID := "a"; peer_Host := "localhost"; peer_Port := 9001 |}].
Proof.
  destruct (launched_node None no_files no_yaml (λ _, Err (Errorf "no such file" [])) "c1" "localhost" 9091 demo_cluster 1 (demo_member "b" 9002)
    demo_store demo_actor) as (line & root & args & Hl & Hrun & cfg & Hc & He & _).
  - exact demo_plain_cluster.
  - cbn. lia.
  - repeat constructor; vm_compute; done.
  - reflexivity.
  - done.
  - vm_compute. reflexivity.
  - exists line, root, args, cfg. split_and!; [exact Hl| |exact Hc|by rewrite He].
    intros w' pid Hos. destruct (Hrun w' pid Hos) as (a' & Ha & _). by exists a'.
Defined.
