(* ===== verification/ActorNet.v ===== *)
(** * Partitions, from a command to the nodes

    The actor over a network of node processes: what a partition command, and
    the partition step of an experiment, do to the messages between the nodes. *)

From Stdlib Require Import SpecFloat.
From S2P Require Import Prelude GoStrings Protocol VectorClock Conflict Gossip Baseline Fault NodeConfig NodeSession Messages NodeRuntime RuntimeProps Commands Experiment ExperimentProps Cluster Metrics Sessions Service World NodeServer CPServerProps Actor ControlPlane ActorProps.

Section Partitions.
Context `{Env, Codec GossipMessage, Codec MembershipEvent, Protobuf, PeerRPC, SendEnv, Clock network, Processes network}.
Context (ReadFile : string → network → result string) (decode : string → result Experiment).

(** Reading the clock leaves the nodes alone. *)
Context (still_clock : ∀ w : network, (time_Now w).1 = w).

Abbreviation St := (network * Actor)%type.

(** A node of the table runs as a process of the network, with a fault engine. *)
Record runs (w : network) (n : Node) (p : NodeProcess) (e : Engine) : Prop := {
  runs_at : w !! (n_Address n, n_Port n) = Some p;
  runs_up : np_stopped p = false;
  runs_engine : fault (np_runtime p) = Some e;
  runs_id : cfg_ID (config (np_runtime p)) = n_ID n;
}.

(** Fault parameters a node accepts: a drop rate within 0 and 1, a delay that
    fits the wire format. *)
Definition sendable (f : FaultState) : Prop :=
  SFltb (fs_DropRate f) f64_zero = false ∧ SFltb f64_one (fs_DropRate f) = false ∧ 0 ≤ fs_DelayMs f < 2 ^ 31.

Lemma wrap_i32_id z : 0 ≤ z < 2 ^ 31 → wrap_i32 z = z.
Proof. intros Hz. unfold wrap_i32. rewrite Z.mod_small; lia. Qed.

Lemma session_call w n p e params :
  runs w n p e → sendable params →
  ∃ e', session_SetFaultParams {| fc_Host := n_Address n; fc_Port := n_Port n; fc_NodeID := n_ID n; fc_Params := params |} w =
      (<[(n_Address n, n_Port n) := set_runtime (set_fault e' (np_runtime p)) p]> w, None) ∧
    ∀ id, IsPartitioned id e' =
      if decide (id ∈ fs_Partition params ∧ id ≠ EmptyString ∧ id ≠ n_ID n) then true
      else if decide (id ∈ peer_ids (config (np_runtime p))) then false else IsPartitioned id e.
Proof.
  intros [Hat Hup He Hid] (Hd0 & Hd1 & Hms). unfold session_SetFaultParams, on_node. cbn [fc_Host fc_Port fc_NodeID fc_Params].
  rewrite Hat, Hup. unfold rpc_SetFaultParams, runtime_SetFaultParams. rewrite He. cbn [faultRequest fr_NodeId fr_DropRate fr_DelayMs].
  rewrite (bool_decide_false (n_ID n ≠ cfg_ID _)) by (rewrite Hid; naive_solver). rewrite andb_false_r, Hd0, Hd1. cbn [orb].
  rewrite wrap_i32_id by done. destruct (Z.ltb_spec (fs_DelayMs params) 0); [lia|].
  eexists. split; [reflexivity|]. intros id.
  pose proof (apply_fault_spec (cfg_ID (config (np_runtime p))) (peer_ids (config (np_runtime p))) (faultRequest (n_ID n) params) e)
    as (_ & _ & _ & Hp).
  rewrite Hp, Hid. done.
Qed.

(** The table entry and the process after a node's partition list is changed. *)
Definition partitioned_node (other : string) (b : bool) (n : Node) : Node :=
  let f := update_partition other b (n_Fault n) in with_fault f (if fs_Crashed f then "crashed" else "active") n.

Definition with_engine (e : Engine) (p : NodeProcess) : NodeProcess := set_runtime (set_fault e (np_runtime p)) p.

Definition table (st : St) : Manager := cluster (a_service st.2).

Lemma update_partition_net w a cid id n p e other b :
  manager_ok (cluster (a_service a)) → node_at cid id (cluster (a_service a)) = Some n → n_ID n = id →
  runs w n p e → sendable (n_Fault n) →
  ∃ a' e', updateFault (Some session_SetFaultParams) cid id (update_partition other b) (w, a) =
      ((<[(n_Address n, n_Port n) := with_engine e' p]> w, a'), None) ∧
    manager_ok (cluster (a_service a')) ∧
    node_at cid id (cluster (a_service a')) = Some (partitioned_node other b n) ∧
    (∀ cid' id', (cid', id') ≠ (cid, id) → node_at cid' id' (cluster (a_service a')) = node_at cid' id' (cluster (a_service a))) ∧
    runs (<[(n_Address n, n_Port n) := with_engine e' p]> w) (partitioned_node other b n) (with_engine e' p) e' ∧
    ∀ q, IsPartitioned q e' =
      if decide (q ∈ partition_update other b (fs_Partition (n_Fault n)) ∧ q ≠ EmptyString ∧ q ≠ id) then true
      else if decide (q ∈ peer_ids (config (np_runtime p))) then false else IsPartitioned q e.
Proof.
  intros Hm Hn <- Hr Hs.
  pose proof (updateFault_spec (Some session_SetFaultParams) cid (n_ID n) (update_partition other b) w a Hm) as Hu.
  destruct (updateFault _ cid (n_ID n) _ (w, a)) as [[w' a'] err]. rewrite Hn in Hu. destruct Hu as (_ & Hm' & Hn' & Ho & Hc).
  destruct (session_call w n p e (update_partition other b (n_Fault n)) Hr Hs) as (e' & Hcall & Hp).
  rewrite still_clock, Hcall in Hc. injection Hc as Hw ->. cbn [fst] in Hw. subst w'.
  exists a', e'. split_and!; [done..| |exact Hp]. destruct Hr. split; cbn; [by rewrite lookup_insert_eq|done..].
Qed.

(** ** Healthy clusters *)

(** Every node of the table of a cluster runs where the table says, with its
    engine blocking what the table lists for it. *)
Record healthy (cid : string) (st : St) : Prop := {
  healthy_table : manager_ok (table st);
  healthy_node id n : node_at cid id (table st) = Some n →
    n_ID n = id ∧ id ≠ EmptyString ∧ sendable (n_Fault n) ∧
    ∃ p e, runs st.1 n p e ∧ ∀ q, q ∈ fs_Partition (n_Fault n) → q ≠ EmptyString → q ≠ id → IsPartitioned q e = true;
  healthy_addr id id' n n' : node_at cid id (table st) = Some n → node_at cid id' (table st) = Some n' →
    n_Address n = n_Address n' → n_Port n = n_Port n' → id = id';
}.

Lemma elem_of_partition_update q other b ps :
  q ∈ partition_update other b ps ↔ if decide (q = other) then b = true else q ∈ ps.
Proof.
  unfold partition_update. destruct b; cbn [andb].
  - assert (Hf : q ∈ filter (λ p, p ≠ other ∨ true = true) ps ↔ q ∈ ps) by (rewrite list_elem_of_filter; naive_solver).
    case_bool_decide as Hin; cbn [negb]; [|rewrite elem_of_app, list_elem_of_singleton]; rewrite Hf; destruct (decide (q = other)); naive_solver.
  - rewrite list_elem_of_filter. destruct (decide (q = other)); naive_solver.
Qed.

(** One update keeps a cluster healthy. *)
Lemma healthy_update cid st id n other b :
  healthy cid st → node_at cid id (table st) = Some n →
  ∃ st', updateFault (Some session_SetFaultParams) cid id (update_partition other b) st = (st', None) ∧
    healthy cid st' ∧ node_at cid id (table st') = Some (partitioned_node other b n) ∧
    (∀ id', id' ≠ id → node_at cid id' (table st') = node_at cid id' (table st)) ∧
    ∃ p e e', runs st.1 n p e ∧ st'.1 = <[(n_Address n, n_Port n) := with_engine e' p]> st.1 ∧
      runs st'.1 (partitioned_node other b n) (with_engine e' p) e' ∧
      ∀ q, IsPartitioned q e' =
        if decide (q ∈ partition_update other b (fs_Partition (n_Fault n)) ∧ q ≠ EmptyString ∧ q ≠ id) then true
        else if decide (q ∈ peer_ids (config (np_runtime p))) then false else IsPartitioned q e.
Proof.
  intros [Hm Hnode Haddr] Hn. destruct st as [w a]. unfold table in *. cbn [fst snd] in *.
  destruct (Hnode id n Hn) as (Hid & Hne & Hs & p & e & Hr & _).
  destruct (update_partition_net w a cid id n p e other b Hm Hn Hid Hr Hs) as (a' & e' & Hu & Hm' & Hn' & Ho & Hr' & Hp').
  assert (Ho' : ∀ id', id' ≠ id → node_at cid id' (cluster (a_service a')) = node_at cid id' (cluster (a_service a))).
  { intros id' Hne'. apply Ho. congruence. }
  assert (Hback : ∀ id' n', node_at cid id' (cluster (a_service a')) = Some n' →
    ∃ n0, node_at cid id' (cluster (a_service a)) = Some n0 ∧ n_Address n' = n_Address n0 ∧ n_Port n' = n_Port n0).
  { intros id' n' Hn1. destruct (decide (id' = id)) as [->|Hne']; [|rewrite Ho' in Hn1 by done; by eauto].
    rewrite Hn' in Hn1. injection Hn1 as <-. by exists n. }
  eexists. split; [exact Hu|]. split; [|split_and!; [done|done|by exists p, e, e']].
  split; unfold table; cbn [fst snd]; [exact Hm'| |].
  - intros id' n' Hn1. destruct (decide (id' = id)) as [->|Hne'].
    + rewrite Hn' in Hn1. injection Hn1 as <-. split_and!; [done|done|exact Hs|]. exists (with_engine e' p), e'. split; [exact Hr'|].
      intros q Hq Hq1 Hq2. rewrite Hp'. by rewrite decide_True.
    + rewrite Ho' in Hn1 by done. destruct (Hnode id' n' Hn1) as (Hid' & Hne1 & Hs' & p' & e1 & [Hat Hup He Hi] & Hp1).
      split_and!; [done..|]. exists p', e1. split; [|done]. split; [|done..].
      rewrite lookup_insert_ne; [done|]. intros [= Ha Hpt]. by apply Hne', (eq_sym (Haddr id id' n n' Hn Hn1 Ha Hpt)).
  - intros id1 id2 n1 n2 Hx1 Hx2 Ha Hpt. destruct (Hback _ _ Hx1) as (m1 & Hm1 & Ha1 & Hp1), (Hback _ _ Hx2) as (m2 & Hm2 & Ha2 & Hp2).
    apply (Haddr id1 id2 m1 m2 Hm1 Hm2); congruence.
Qed.

(** ** A partition command *)

(** The peers the table lists as blocked for a node. *)
Definition blocked (cid : string) (st : St) (id q : string) : Prop :=
  ∃ n, node_at cid id (table st) = Some n ∧ q ∈ fs_Partition (n_Fault n).

Definition partition_cmd (cid id peer : string) (b : bool) : Command :=
  (NewCommand CmdSetPartition) <| cmd_ClusterID := cid |> <| cmd_NodeID := id |> <| cmd_PeerID := peer |> <| cmd_Enabled := b |>.

Lemma partition_command_step cid st id peer n m b :
  healthy cid st → node_at cid id (table st) = Some n → node_at cid peer (table st) = Some m → id ≠ peer →
  ∃ st', handle (Some session_SetFaultParams) ReadFile decode (partition_cmd cid id peer b) st = Done (st', reply DSymmetric) ∧
    healthy cid st' ∧
    (∀ x, is_Some (node_at cid x (table st')) ↔ is_Some (node_at cid x (table st))) ∧
    (∀ x q, blocked cid st' x q ↔
       if decide ((x = id ∧ q = peer) ∨ (x = peer ∧ q = id)) then b = true else blocked cid st x q).
Proof.
  intros Hh Hn Hm Hne.
  destruct (healthy_update cid st id n peer b Hh Hn) as (st1 & Hu1 & Hh1 & Hn1 & Ho1 & _).
  assert (Hm1 : node_at cid peer (table st1) = Some m) by (by rewrite Ho1).
  destruct (healthy_update cid st1 peer m id b Hh1 Hm1) as (st2 & Hu2 & Hh2 & Hm2 & Ho2 & _).
  exists st2. split.
  { unfold handle, partition_cmd. cbn [cmd_Type cmd_ClusterID cmd_NodeID cmd_PeerID cmd_Enabled]. cbn.
    unfold setPartition. by rewrite Hu1, Hu2. }
  split; [done|]. split.
  { intros x. destruct (decide (x = peer)) as [->|Hx]; [by rewrite Hm2, Hm|]. rewrite Ho2 by done.
    destruct (decide (x = id)) as [->|Hx']; [by rewrite Hn1, Hn|]. by rewrite Ho1. }
  intros x q. unfold blocked. destruct (decide (x = peer)) as [->|Hx].
  - rewrite Hm2, Hm. transitivity (q ∈ partition_update id b (fs_Partition (n_Fault m))).
    { split; [by intros (? & [= <-] & Hq)|]. intros Hq. by eexists. }
    rewrite elem_of_partition_update. destruct (decide (q = id)) as [->|Hq].
    + rewrite decide_True by naive_solver. done.
    + rewrite decide_False by naive_solver. naive_solver.
  - rewrite Ho2 by done. destruct (decide (x = id)) as [->|Hx'].
    + rewrite Hn1, Hn. transitivity (q ∈ partition_update peer b (fs_Partition (n_Fault n))).
      { split; [by intros (? & [= <-] & Hq)|]. intros Hq. by eexists. }
      rewrite elem_of_partition_update. destruct (decide (q = peer)) as [->|Hq].
      * rewrite decide_True by naive_solver. done.
      * rewrite decide_False by naive_solver. naive_solver.
    + rewrite Ho1 by done. by rewrite decide_False by naive_solver.
Qed.

(** No message from [q] gets through to the node [id]. *)
Definition refuses (cid : string) (st : St) (id q : string) : Prop :=
  ∃ n p, node_at cid id (table st) = Some n ∧ st.1 !! (n_Address n, n_Port n) = Some p ∧
    ∀ req, envelope_sender (er_From req) = q → ∃ err, rpc_SendEnvelope (Some req) p = (p, Err err).

Lemma blocked_refuses cid st id q :
  healthy cid st → blocked cid st id q → q ≠ EmptyString → q ≠ id → refuses cid st id q.
Proof.
  intros Hh (n & Hn & Hq) Hne Hid. destruct (healthy_node _ _ Hh id n Hn) as (_ & _ & _ & p & e & [Hat Hup He Hi] & Hp).
  exists n, p. split_and!; [done..|]. intros req Hreq. unfold rpc_SendEnvelope.
  destruct (negb (node_gate p)); [by eexists|]. rewrite Hreq. unfold runtime_BeforeReceive. rewrite He. unfold BeforeReceive.
  rewrite (Hp q Hq Hne Hid). by destruct (IsCrashed e); eexists.
Qed.

(** ** The partition step of an experiment *)

Lemma partition_intent_pairs cid groups b c cmds :
  partition_intent cid groups b c = Ok cmds →
  Forall2 (λ '(x, y) cmd, ∃ id peer, TrimSpace x = id ∧ TrimSpace y = peer ∧ cmd = partition_cmd cid id peer b) (group_pairs groups) cmds.
Proof.
  unfold partition_intent. case_bool_decide; [done|]. intros Hm%result_mapM_Ok. induction Hm as [|[x y] cmd pairs cmds Hc _ IH]; constructor; [|done].
  unfold partition_command in Hc. apply result_bind_Ok in Hc as (l & Hl & Hc). apply result_bind_Ok in Hc as (r & Hr & [= <-]).
  assert (Ht : ∀ z z', resolveGroupNodeID z c = Ok z' → z' = TrimSpace z).
  { intros z z'. unfold resolveGroupNodeID. cbv zeta. case_bool_decide; [done|]. by case_match; [intros [= <-]|]. }
  apply Ht in Hl as ->. apply Ht in Hr as ->. by exists (TrimSpace x), (TrimSpace y).
Qed.

Lemma run_partition cid pairs cmds st :
  healthy cid st →
  (∀ x y, (x, y) ∈ pairs → is_Some (node_at cid (TrimSpace x) (table st)) ∧ is_Some (node_at cid (TrimSpace y) (table st)) ∧ TrimSpace x ≠ TrimSpace y) →
  Forall2 (λ '(x, y) cmd, ∃ id peer, TrimSpace x = id ∧ TrimSpace y = peer ∧ cmd = partition_cmd cid id peer true) pairs cmds →
  ∀ j, ∃ st', run_commands (Some session_SetFaultParams) ReadFile decode (λ _ st, st) j cmds st = Done (st', true) ∧ healthy cid st' ∧
    (∀ x, is_Some (node_at cid x (table st')) ↔ is_Some (node_at cid x (table st))) ∧
    (∀ x q, blocked cid st x q → blocked cid st' x q) ∧
    (∀ x y, (x, y) ∈ pairs → blocked cid st' (TrimSpace x) (TrimSpace y) ∧ blocked cid st' (TrimSpace y) (TrimSpace x)).
Proof.
  intros Hh Hreg Hcmds. revert st Hh Hreg. induction Hcmds as [|[x y] cmd pairs cmds (id & peer & <- & <- & ->) _ IH]; intros st Hh Hreg j.
  { exists st. split_and!; try done. by intros x y ?%elem_of_nil. }
  destruct (Hreg x y) as ([n Hn] & [m Hm] & Hne); [by left|].
  destruct (partition_command_step cid st (TrimSpace x) (TrimSpace y) n m true Hh Hn Hm Hne) as (st1 & Hcmd & Hh1 & Hdom & Hbl).
  destruct (IH st1 Hh1) with (j := S j) as (st2 & Hrun & Hh2 & Hdom2 & Hkeep & Hall).
  { intros x' y' Hin. rewrite !Hdom. apply Hreg. by right. }
  exists st2. cbn [run_commands]. rewrite Hcmd. cbn [cr_Error reply]. split_and!; [done|done| | |].
  - intros z. by rewrite Hdom2, Hdom.
  - intros z q Hz. apply Hkeep, Hbl. case_decide; done.
  - intros x' y' [[= -> ->]|Hin]%elem_of_cons; [|by apply Hall].
    split; apply Hkeep, Hbl; rewrite decide_True by naive_solver; done.
Qed.

(** The pairs the four loops visit. *)
Lemma elem_of_group_pairs groups x y :
  (x, y) ∈ group_pairs groups ↔
  ∃ i j gi gj, (i < j)%nat ∧ groups !! i = Some gi ∧ groups !! j = Some gj ∧ x ∈ gi ∧ y ∈ gj.
Proof.
  induction groups as [|g groups IH]; cbn [group_pairs].
  { split; [by intros ?%elem_of_nil|]. by intros (i & j & gi & gj & _ & Hi & _). }
  rewrite elem_of_app, IH. split.
  - intros [Hin|(i & j & gi & gj & Hij & Hi & Hj & Hx & Hy)].
    + apply list_elem_of_bind in Hin as (other & Hin & Ho). apply list_elem_of_bind in Hin as (l & Hin & Hl).
      apply list_elem_of_bind in Hin as (r & Hin & Hr). apply list_elem_of_singleton in Hin as [= -> ->].
      apply list_elem_of_lookup in Ho as [j Hj]. exists 0%nat, (S j), g, other. split_and!; try done. lia.
    + exists (S i), (S j), gi, gj. split_and!; try done. lia.
  - intros (i & j & gi & gj & Hij & Hi & Hj & Hx & Hy). destruct j as [|j]; [lia|]. cbn in Hj. destruct i as [|i]; cbn in Hi.
    + injection Hi as ->. left. apply list_elem_of_bind. exists gj. split; [|by eapply list_elem_of_lookup_2].
      apply list_elem_of_bind. exists x. split; [|done]. apply list_elem_of_bind. exists y. split; [by left|done].
    + right. exists i, j, gi, gj. split_and!; try done. lia.
Qed.

(** Only the nodes and the table matter. *)
Lemma healthy_ext cid st st' : st'.1 = st.1 → table st' = table st → healthy cid st → healthy cid st'.
Proof. intros Hw Ht [? ? ?]. split; rewrite ?Hw, ?Ht; done. Qed.

Lemma lifecycle_step cid type text st :
  ∃ st', handle (Some session_SetFaultParams) ReadFile decode (lifecycle cid type text) st = Done (st', reply DStatusOk) ∧
    st'.1 = st.1 ∧ table st' = table st.
Proof.
  destruct st as [w a]. unfold handle, logLifecycleEvent, lifecycle. cbn [cmd_Type]. cbn. pose proof (still_clock w) as Hw.
  destruct (time_Now w) as [w' now]. cbn in Hw. subst w'. eexists. split; [reflexivity|]. split; [done|].
  unfold table. cbn. unfold RecordLifecycleEvent. by destruct (IsActive _ _).
Qed.

(** The lines of a partition or heal step, run one after the other. *)
Lemma group_step_runs cid host port c s lines st (b : bool) :
  plain_cluster cid host port c → TrimSpace (st_Action s) = (if b then "partition" else "heal_partition") →
  compileCommands cid host port c s = Ok lines →
  ∃ st1 cmds, st1.1 = st.1 ∧ table st1 = table st ∧
    Forall2 (λ '(x, y) cmd, ∃ id peer, TrimSpace x = id ∧ TrimSpace y = peer ∧ cmd = partition_cmd cid id peer b) (group_pairs (st_Groups s)) cmds ∧
    hyp_commands (Some session_SetFaultParams) ReadFile decode (λ _ st, st) 0 lines st =
    run_commands (Some session_SetFaultParams) ReadFile decode (λ _ st, st) 1 cmds st1.
Proof.
  intros Hp Hact Hlines. assert (Hstep : plain_step c s) by (unfold plain_step; rewrite Hact; by destruct b).
  pose proof (compileCommands_reads cid host port c Hp s Hstep) as Hrel. rewrite Hlines in Hrel.
  destruct (step_intent cid host port c s) as [cmds|] eqn:Hi; [|done]. cbn in Hrel.
  assert (Hmore : ∃ type text pcmds, cmds = lifecycle cid type text :: pcmds ∧ partition_intent cid (st_Groups s) b c = Ok pcmds).
  { unfold step_intent in Hi. rewrite Hact in Hi.
    destruct b; cbn -[partition_intent itoa lifecycle] in Hi; apply result_bind_Ok in Hi as (pcmds & Hpc & [= <-]); by eexists _, _, _. }
  destruct Hmore as (type & text & pcmds & -> & Hpc). destruct (lifecycle_step cid type text st) as (st1 & Hrun & Hw1 & Ht1).
  exists st1, pcmds. split_and!; [done|done|by apply (partition_intent_pairs cid (st_Groups s) b c)|].
  rewrite (hyp_commands_reads _ _ _ _ _ _ (lifecycle cid type text :: pcmds)) by (done || by eapply compileCommands_start).
  cbn [run_commands]. by rewrite Hrun.
Qed.

(** The names of two groups of a step are nodes of the cluster, and different. *)
Definition registered_groups (cid : string) (st : St) (s : TimelineStep) : Prop :=
  (∀ i g x, st_Groups s !! i = Some g → x ∈ g → is_Some (node_at cid (TrimSpace x) (table st))) ∧
  (∀ i j g h x y, i ≠ j → st_Groups s !! i = Some g → st_Groups s !! j = Some h → x ∈ g → y ∈ h → TrimSpace x ≠ TrimSpace y).

Lemma registered_pairs cid st s x y :
  registered_groups cid st s → (x, y) ∈ group_pairs (st_Groups s) →
  is_Some (node_at cid (TrimSpace x) (table st)) ∧ is_Some (node_at cid (TrimSpace y) (table st)) ∧ TrimSpace x ≠ TrimSpace y.
Proof.
  intros [Hreg Hdis] (i & j & gi & gj & Hij & Hgi & Hgj & Hx & Hy)%elem_of_group_pairs.
  split_and!; [exact (Hreg i gi x Hgi Hx)|exact (Hreg j gj y Hgj Hy)|]. apply (Hdis i j gi gj); try done. lia.
Qed.

(** A pair of different groups is visited one way or the other. *)
Lemma across_groups groups (R : string → string → Prop) :
  (∀ x y, (x, y) ∈ group_pairs groups → R x y ∧ R y x) →
  ∀ i j g h x y, i ≠ j → groups !! i = Some g → groups !! j = Some h → x ∈ g → y ∈ h → R x y.
Proof.
  intros HR i j g h x y Hij Hg Hh Hx Hy. destruct (decide (i < j)%nat).
  - apply (HR x y). apply elem_of_group_pairs. by exists i, j, g, h.
  - apply (HR y x). apply elem_of_group_pairs. exists j, i, h, g. split_and!; try done. lia.
Qed.

(** C21: The partition step of an experiment splits a healthy cluster: the lines it
    compiles to are all read and all succeed, and afterwards no message from a
    node of one group is accepted by a node of another, in either direction. *)
Theorem partition_step_splits_cluster cid host port c s lines st :
  plain_cluster cid host port c → TrimSpace (st_Action s) = "partition" →
  compileCommands cid host port c s = Ok lines →
  healthy cid st → registered_groups cid st s →
  ∃ st', hyp_commands (Some session_SetFaultParams) ReadFile decode (λ _ st, st) 0 lines st = Done (st', true) ∧ healthy cid st' ∧
    ∀ i j g h x y, i ≠ j → st_Groups s !! i = Some g → st_Groups s !! j = Some h → x ∈ g → y ∈ h →
      refuses cid st' (TrimSpace x) (TrimSpace y).
Proof.
  intros Hp Hact Hlines Hh Hreg.
  destruct (group_step_runs cid host port c s lines st true Hp Hact Hlines) as (st1 & pcmds & Hw1 & Ht1 & Hcmds & ->).
  destruct (run_partition cid (group_pairs (st_Groups s)) pcmds st1) with (j := 1%nat) as (st' & Hrun & Hh' & Hdom & _ & Hall).
  { by apply (healthy_ext cid st). }
  { intros x y. rewrite Ht1. by apply registered_pairs. }
  { done. }
  exists st'. split_and!; [done|done|].
  apply (across_groups _ (λ x y, refuses cid st' (TrimSpace x) (TrimSpace y))). intros x y Hin.
  destruct (registered_pairs cid st s x y Hreg Hin) as (Hx & Hy & Hne). destruct (Hall x y Hin) as [Hb1 Hb2].
  assert (∀ z, is_Some (node_at cid z (table st)) → z ≠ EmptyString) as Hn.
  { intros z Hz. rewrite <-Ht1 in Hz. apply Hdom in Hz as [m Hm]. by destruct (healthy_node _ _ Hh' _ _ Hm) as (_ & ? & _). }
  split; apply blocked_refuses; try done; by apply Hn.
Qed.

(** ** The heal step *)

(** The process of a node, with the peers it has been told of and the engine that
    lets a peer through. *)
Definition told (cid : string) (st : St) (id q : string) : Prop :=
  ∃ n p e, node_at cid id (table st) = Some n ∧ runs st.1 n p e ∧ q ∈ peer_ids (config (np_runtime p)).

Definition admits (cid : string) (st : St) (id q : string) : Prop :=
  ∃ n p e, node_at cid id (table st) = Some n ∧ runs st.1 n p e ∧ IsPartitioned q e = false.

(** Only the process of the updated node changes. *)
Lemma runs_other cid st id id' n n' p p' e' w' :
  healthy cid st → node_at cid id (table st) = Some n → node_at cid id' (table st) = Some n' → id' ≠ id →
  w' = <[(n_Address n, n_Port n) := p]> st.1 → runs st.1 n' p' e' → runs w' n' p' e'.
Proof.
  intros Hh Hn Hn' Hne -> [Hat Hup He Hi]. split; [|done..]. rewrite lookup_insert_ne; [done|]. intros [= Ha Hpt].
  by apply Hne, (eq_sym (healthy_addr _ _ Hh id id' n n' Hn Hn' Ha Hpt)).
Qed.

Lemma runs_unique w n p e p' e' : runs w n p e → runs w n p' e' → p = p' ∧ e = e'.
Proof. intros [Hp _ He _] [Hp' _ He' _]. rewrite Hp in Hp'. injection Hp' as <-. rewrite He in He'. by injection He' as <-. Qed.

(** Taking a peer off the list of a node that was told of it lets it through; who
    was let through still is. *)
Lemma update_opens cid st id n other :
  healthy cid st → node_at cid id (table st) = Some n →
  ∃ st', updateFault (Some session_SetFaultParams) cid id (update_partition other false) st = (st', None) ∧
    healthy cid st' ∧ (∀ x, is_Some (node_at cid x (table st')) ↔ is_Some (node_at cid x (table st))) ∧
    (∀ x q, told cid st x q → told cid st' x q) ∧
    (∀ x q, q ≠ EmptyString → q ≠ x → admits cid st x q → admits cid st' x q) ∧
    (told cid st id other → admits cid st' id other).
Proof.
  intros Hh Hn. destruct (healthy_update cid st id n other false Hh Hn) as (st' & Hu & Hh' & Hn' & Ho & p & e & e' & Hr & Hw & Hr' & Hp).
  exists st'. split_and!; [done|done| | | |].
  - intros x. destruct (decide (x = id)) as [->|Hx]; [by rewrite Hn', Hn|]. by rewrite Ho.
  - intros x q (n0 & p0 & e0 & Hn0 & Hr0 & Hq). destruct (decide (x = id)) as [->|Hx].
    + rewrite Hn in Hn0. injection Hn0 as <-. destruct (runs_unique _ _ _ _ _ _ Hr0 Hr) as [-> ->].
      by exists (partitioned_node other false n), (with_engine e' p), e'.
    + exists n0, p0, e0. split_and!; [by rewrite Ho|by apply (runs_other cid st id x n n0 (with_engine e' p))|done].
  - intros x q Hq0 Hqx (n0 & p0 & e0 & Hn0 & Hr0 & Hq). destruct (decide (x = id)) as [->|Hx].
    + rewrite Hn in Hn0. injection Hn0 as <-. destruct (runs_unique _ _ _ _ _ _ Hr0 Hr) as [-> ->].
      exists (partitioned_node other false n), (with_engine e' p), e'. split_and!; [done|done|]. rewrite Hp. rewrite decide_False.
      { by case_decide. }
      intros [Hl _]. destruct (healthy_node _ _ Hh id n Hn) as (_ & _ & _ & p1 & e1 & Hr1 & Hb).
      destruct (runs_unique _ _ _ _ _ _ Hr1 Hr) as [-> ->]. rewrite elem_of_partition_update in Hl. case_decide; [done|].
      by rewrite (Hb q) in Hq.
    + exists n0, p0, e0. split_and!; [by rewrite Ho|by apply (runs_other cid st id x n n0 (with_engine e' p))|done].
  - intros (n0 & p0 & e0 & Hn0 & Hr0 & Hq). rewrite Hn in Hn0. injection Hn0 as <-. destruct (runs_unique _ _ _ _ _ _ Hr0 Hr) as [-> ->].
    exists (partitioned_node other false n), (with_engine e' p), e'. split_and!; [done|done|].
    rewrite Hp, decide_False by (rewrite elem_of_partition_update, decide_True by done; naive_solver). by rewrite decide_True.
Qed.

Lemma run_heal cid pairs cmds st :
  healthy cid st →
  (∀ x y, (x, y) ∈ pairs → is_Some (node_at cid (TrimSpace x) (table st)) ∧ is_Some (node_at cid (TrimSpace y) (table st)) ∧ TrimSpace x ≠ TrimSpace y) →
  (∀ x y, (x, y) ∈ pairs → told cid st (TrimSpace x) (TrimSpace y) ∧ told cid st (TrimSpace y) (TrimSpace x)) →
  Forall2 (λ '(x, y) cmd, ∃ id peer, TrimSpace x = id ∧ TrimSpace y = peer ∧ cmd = partition_cmd cid id peer false) pairs cmds →
  ∀ j, ∃ st', run_commands (Some session_SetFaultParams) ReadFile decode (λ _ st, st) j cmds st = Done (st', true) ∧ healthy cid st' ∧
    (∀ x q, q ≠ EmptyString → q ≠ x → admits cid st x q → admits cid st' x q) ∧
    (∀ x y, (x, y) ∈ pairs → admits cid st' (TrimSpace x) (TrimSpace y) ∧ admits cid st' (TrimSpace y) (TrimSpace x)).
Proof.
  intros Hh Hreg Ht Hcmds. revert st Hh Hreg Ht. induction Hcmds as [|[x y] cmd pairs cmds (id & peer & <- & <- & ->) _ IH]; intros st Hh Hreg Ht j.
  { exists st. split_and!; try done. by intros x y ?%elem_of_nil. }
  destruct (Hreg x y) as ([n Hn] & [m Hm] & Hne); [by left|]. destruct (Ht x y) as [Hxy Hyx]; [by left|].
  destruct (healthy_node _ _ Hh _ _ Hn) as (_ & Hx0 & _). destruct (healthy_node _ _ Hh _ _ Hm) as (_ & Hy0 & _).
  destruct (update_opens cid st (TrimSpace x) n (TrimSpace y) Hh Hn) as (st1 & Hu1 & Hh1 & Hd1 & Ht1 & Ha1 & Ho1).
  destruct (proj2 (Hd1 (TrimSpace y))) as [m1 Hm1]; [by eexists|].
  destruct (update_opens cid st1 (TrimSpace y) m1 (TrimSpace x) Hh1 Hm1) as (st2 & Hu2 & Hh2 & Hd2 & Ht2 & Ha2 & Ho2).
  destruct (IH st2 Hh2) with (j := S j) as (st3 & Hrun & Hh3 & Ha3 & Hall).
  { intros x' y' Hin. rewrite !Hd2, !Hd1. apply Hreg. by right. }
  { intros x' y' Hin. destruct (Ht x' y') as [Ha Hb]; [by right|]. split; by apply Ht2, Ht1. }
  assert (handle (Some session_SetFaultParams) ReadFile decode (partition_cmd cid (TrimSpace x) (TrimSpace y) false) st = Done (st2, reply DSymmetric)) as Hc.
  { unfold handle, partition_cmd. cbn [cmd_Type cmd_ClusterID cmd_NodeID cmd_PeerID cmd_Enabled]. cbn. unfold setPartition. by rewrite Hu1, Hu2. }
  exists st3. cbn [run_commands]. rewrite Hc. cbn [cr_Error reply]. split_and!; [done|done| |].
  - intros z q Hq Hqz Hz. by apply Ha3, Ha2, Ha1.
  - intros x' y' [[= -> ->]|Hin]%elem_of_cons; [|by apply Hall].
    pose proof (not_eq_sym Hne) as Hne'. split; apply Ha3; try done; [apply Ha2; try done; by apply Ho1|by apply Ho2, Ht1].
Qed.

(** A message from [q] gets through to the node [id], unless it is crashed. *)
Definition delivers (cid : string) (st : St) (id q : string) : Prop :=
  ∃ n p e, node_at cid id (table st) = Some n ∧ st.1 !! (n_Address n, n_Port n) = Some p ∧ fault (np_runtime p) = Some e ∧
    ∀ req, envelope_sender (er_From req) = q → IsCrashed e = false →
      rpc_SendEnvelope (Some req) p = (set_runtime (HandleEnvelope req (np_runtime p)) p, Ok (true, "delivered")).

Lemma admits_delivers cid st id q : admits cid st id q → delivers cid st id q.
Proof.
  intros (n & p & e & Hn & [Hat Hup He Hi] & Hp). exists n, p, e. split_and!; [done..|]. intros req Hreq Hc.
  unfold rpc_SendEnvelope, node_gate, runtime_BeforeTick, runtime_BeforeReceive. rewrite He, Hreq. unfold BeforeTick, BeforeReceive. by rewrite Hc, Hp.
Qed.

(** C22: The heal step of an experiment joins the groups again. Let the cluster be
    healthy: every node the control plane knows is up, answers under an address and
    a port of its own and keeps in its fault engine the partitions that the control
    plane keeps for it, and its fault state can be sent to it; let the nodes of the
    groups be registered and have been told of each other (a partition of a peer a
    node was never told of stays), names and addresses be words, and nothing else
    change the cluster while the step runs. Then the lines the step compiles to are
    all read and all succeed, the cluster is healthy afterwards, and whatever
    partitions were in force before, a message from a node of one group to a node of
    another that is not crashed by a fault is delivered, in either direction. *)
Theorem heal_step_rejoins_cluster cid host port c s lines st :
  plain_cluster cid host port c → TrimSpace (st_Action s) = "heal_partition" →
  compileCommands cid host port c s = Ok lines →
  healthy cid st → registered_groups cid st s →
  (∀ i j g h x y, i ≠ j → st_Groups s !! i = Some g → st_Groups s !! j = Some h → x ∈ g → y ∈ h → told cid st (TrimSpace x) (TrimSpace y)) →
  ∃ st', hyp_commands (Some session_SetFaultParams) ReadFile decode (λ _ st, st) 0 lines st = Done (st', true) ∧ healthy cid st' ∧
    ∀ i j g h x y, i ≠ j → st_Groups s !! i = Some g → st_Groups s !! j = Some h → x ∈ g → y ∈ h →
      delivers cid st' (TrimSpace x) (TrimSpace y).
Proof.
  intros Hp Hact Hlines Hh Hreg Htold.
  destruct (group_step_runs cid host port c s lines st false Hp Hact Hlines) as (st1 & pcmds & Hw1 & Ht1 & Hcmds & ->).
  destruct (run_heal cid (group_pairs (st_Groups s)) pcmds st1) with (j := 1%nat) as (st' & Hrun & Hh' & _ & Hall).
  { by apply (healthy_ext cid st). }
  { intros x y. rewrite Ht1. by apply registered_pairs. }
  { intros x y (i & j & gi & gj & Hij & Hgi & Hgj & Hx & Hy)%elem_of_group_pairs. unfold told. rewrite Hw1, Ht1.
    split; [apply (Htold i j gi gj)|apply (Htold j i gj gi)]; try done; lia. }
  { done. }
  exists st'. split_and!; [done|done|].
  apply (across_groups _ (λ x y, delivers cid st' (TrimSpace x) (TrimSpace y))). intros x y Hin.
  destruct (Hall x y Hin) as [Hb1 Hb2]. split; by apply admits_delivers.
Qed.
End Partitions.

(** ** Witness: two nodes in two groups *)

#[local] Existing Instance demo_peers.
#[local] Existing Instance demo_sends.
#[local] Existing Instance demo_protobuf.
#[local] Existing Instance server_gossip_codec.
#[local] Existing Instance server_membership_codec.
#[local] Existing Instance server_env.
#[local] Instance network_clock : Clock network := stopped_clock _ 7.
#[local] Instance network_processes : Processes network := docile_processes _ 42.

Definition idle_process (id : string) (port : Z) : NodeProcess :=
  {| np_runtime := {| config := {| cfg_ID := id; cfg_Port := port; cfg_Peers := []; cfg_ClusterID := "c1"; cfg_Host := "localhost";
                                   cfg_ControlPlaneHost := "localhost"; cfg_ControlPlanePort := 9091 |};
                      started := true; ns := NewNodeSession "localhost" id port; r_proto := None; eventCh := [];
                      fault := Some NewEngine |};
     np_stopped := false |}.

Definition two_nodes : network := {[("localhost", 9001) := idle_process "a" 9001; ("localhost", 9002) := idle_process "b" 9002]}.
Definition two_table : Manager := (RegisterNode 0 "c1" "b" "localhost" 9002 (RegisterNode 0 "c1" "a" "localhost" 9001 NewManager).1).1.
Definition two_actor : Actor := NewActor (NewClusterService two_table) demo_actor_options.
Definition split_step : TimelineStep := demo_step 5 "partition" EmptyString EmptyString EmptyString [["a"]; [" b "]].
Definition no_file (path : string) (w : network) : result string := Err (Errorf "no such file" []).

Lemma two_table_nodes id n :
  node_at "c1" id two_table = Some n →
  (id = "a" ∧ n = newNode "a" "localhost" 9001 0) ∨ (id = "b" ∧ n = newNode "b" "localhost" 9002 0).
Proof.
  unfold two_table. rewrite !node_at_register; [|apply manager_ok_new|apply manager_ok_register, manager_ok_new].
  case_bool_decide as Hb; [intros [= <-]; right; by destruct Hb|].
  case_bool_decide as Ha; [intros [= <-]; left; by destruct Ha|]. done.
Qed.

Lemma two_healthy : healthy "c1" (two_nodes, two_actor).
Proof.
  split.
  - apply manager_ok_register, manager_ok_register, manager_ok_new.
  - intros id n [[-> ->]|[-> ->]]%two_table_nodes; (split_and!; [done|done|by vm_compute|]).
    + exists (idle_process "a" 9001), NewEngine. split; [by split|]. by intros q ?%elem_of_nil.
    + exists (idle_process "b" 9002), NewEngine. split; [by split|]. by intros q ?%elem_of_nil.
  - intros id id' n n' [[-> ->]|[-> ->]]%two_table_nodes [[-> ->]|[-> ->]]%two_table_nodes; done.
Qed.

Lemma network_still (w : network) : (time_Now w).1 = w.
Proof. reflexivity. Qed.

Lemma partition_step_splits_cluster_witness :
  ∃ lines st', compileCommands "c1" "localhost" 9091 demo_cluster split_step = Ok lines ∧
    hyp_commands (Some session_SetFaultParams) no_file no_yaml (λ _ st, st) 0 lines (two_nodes, two_actor) = Done (st', true) ∧
    refuses "c1" st' "a" "b" ∧ refuses "c1" st' "b" "a".
Proof.
  destruct (compileCommands "c1" "localhost" 9091 demo_cluster split_step) as [lines|] eqn:Hl; [|by vm_compute in Hl].
  destruct (partition_step_splits_cluster no_file no_yaml network_still "c1" "localhost" 9091 demo_cluster split_step lines
    (two_nodes, two_actor) demo_plain_cluster eq_refl Hl two_healthy) as (st' & Hrun & _ & Hall).
  - split.
    + intros [|[|i]] g x; cbn; intros [= <-] ->%list_elem_of_singleton; vm_compute; by eexists.
    + intros [|[|i]] [|[|j]] g h x y Hij; cbn; intros [= <-] [= <-] ->%list_elem_of_singleton ->%list_elem_of_singleton; try done; by vm_compute.
  - exists lines, st'. split_and!; [done|exact Hrun| |].
    + by apply (Hall 0%nat 1%nat ["a"] [" b "] "a" " b "); [..|set_solver|set_solver].
    + by apply (Hall 1%nat 0%nat [" b "] ["a"] " b " "a"); [..|set_solver|set_solver].
Defined.

(** The same nodes, told of each other, with a partition in force. *)
Definition told_process (id : string) (port : Z) (peer : string) (peer_port : Z) : NodeProcess :=
  {| np_runtime := {| config := {| cfg_ID := id; cfg_Port := port;
                                   cfg_Peers := [{| peer_ID := peer; peer_Host := "localhost"; peer_Port := peer_port |}];
                                   cfg_ClusterID := "c1"; cfg_Host := "localhost";
                                   cfg_ControlPlaneHost := "localhost"; cfg_ControlPlanePort := 9091 |};
                      started := true; ns := NewNodeSession "localhost" id port; r_proto := None; eventCh := [];
                      fault := Some (Partition peer NewEngine) |};
     np_stopped := false |}.

Definition cut_nodes : network := {[("localhost", 9001) := told_process "a" 9001 "b" 9002; ("localhost", 9002) := told_process "b" 9002 "a" 9001]}.
Definition heal_step : TimelineStep := demo_step 9 "heal_partition" EmptyString EmptyString EmptyString [["a"]; [" b "]].

Lemma cut_healthy : healthy "c1" (cut_nodes, two_actor).
Proof.
  split.
  - apply manager_ok_register, manager_ok_register, manager_ok_new.
  - intros id n [[-> ->]|[-> ->]]%two_table_nodes; (split_and!; [done|done|by vm_compute|]).
    + eexists (told_process "a" 9001 "b" 9002), _. split; [by split|]. by intros q ?%elem_of_nil.
    + eexists (told_process "b" 9002 "a" 9001), _. split; [by split|]. by intros q ?%elem_of_nil.
  - intros id id' n n' [[-> ->]|[-> ->]]%two_table_nodes [[-> ->]|[-> ->]]%two_table_nodes; done.
Qed.

Lemma cut_told : told "c1" (cut_nodes, two_actor) "a" "b" ∧ told "c1" (cut_nodes, two_actor) "b" "a".
Proof.
  split; [exists (newNode "a" "localhost" 9001 0), (told_process "a" 9001 "b" 9002)|exists (newNode "b" "localhost" 9002 0), (told_process "b" 9002 "a" 9001)];
    (eexists; split_and!; [by vm_compute|by split|by left]).
Qed.

Lemma heal_step_rejoins_cluster_witness :
  ∃ lines st', compileCommands "c1" "localhost" 9091 demo_cluster heal_step = Ok lines ∧
    hyp_commands (Some session_SetFaultParams) no_file no_yaml (λ _ st, st) 0 lines (cut_nodes, two_actor) = Done (st', true) ∧
    delivers "c1" st' "a" "b" ∧ delivers "c1" st' "b" "a".
Proof.
  destruct (compileCommands "c1" "localhost" 9091 demo_cluster heal_step) as [lines|] eqn:Hl; [|by vm_compute in Hl].
  destruct (heal_step_rejoins_cluster no_file no_yaml network_still "c1" "localhost" 9091 demo_cluster heal_step lines
    (cut_nodes, two_actor) demo_plain_cluster eq_refl Hl cut_healthy) as (st' & Hrun & _ & Hall).
  - split.
    + intros [|[|i]] g x; cbn; intros [= <-] ->%list_elem_of_singleton; vm_compute; by eexists.
    + intros [|[|i]] [|[|j]] g h x y Hij; cbn; intros [= <-] [= <-] ->%list_elem_of_singleton ->%list_elem_of_singleton; try done; by vm_compute.
  - intros [|[|i]] [|[|j]] g h x y Hij; cbn; intros [= <-] [= <-] ->%list_elem_of_singleton ->%list_elem_of_singleton; try done; apply cut_told.
  - exists lines, st'. split_and!; [done|exact Hrun| |].
    + by apply (Hall 0%nat 1%nat ["a"] [" b "] "a" " b "); [..|set_solver|set_solver].
    + by apply (Hall 1%nat 0%nat [" b "] ["a"] " b " "a"); [..|set_solver|set_solver].
Defined.
