(* ===== verification/Http.v ===== *)
(** * HTTP (net/http)

    The methods and the status codes the two HTTP servers of the control plane
    use. *)

From S2P Require Import Prelude.

Inductive HttpMethod := GET | POST | PATCH | DELETE | OPTIONS | OtherMethod.

#[export] Instance HttpMethod_eq_dec : EqDecision HttpMethod.
Proof. solve_decision. Defined.

Definition StatusOK : Z := 200.
Definition StatusMovedPermanently : Z := 301.
Definition StatusBadRequest : Z := 400.
Definition StatusUnauthorized : Z := 401.
Definition StatusNotFound : Z := 404.
Definition StatusMethodNotAllowed : Z := 405.
Definition StatusInternalServerError : Z := 500.
