(* ===== verification/Rest.v ===== *)
(** * The REST API (internal/controlplane/rest/server.go)

    Every request of the API: its route, the command it submits to the actor and
    the answer it makes of the reply.  The JSON decoder is an interface: it fills
    in a request and may answer an error.  The encoder writes the data of the
    reply, which is what an answer carries here; headers are left out. *)

From S2P Require Import Prelude GoStrings GoPath Http Fault Messages Commands Experiment Cluster Metrics Sessions Service World Actor.

(** ** Requests and answers *)

Record HttpRequest := { hq_Method : HttpMethod; hq_Path : string; hq_Body : string }.

Inductive HttpBody :=
  | BNone
  | BError (e : error)                 (* http.Error *)
  | BStatusOk                          (* {"status": "ok"} *)
  | BData (d : option ReplyData)       (* the reply, encoded *)
  | BStream (clusterID : string) (ch : nat)  (* the log entries of a cluster, from a channel *)
  | BRedirect (path : string).

Record HttpResponse := { hp_Status : Z; hp_Body : HttpBody }.

Definition http_error (e : error) (status : Z) : HttpResponse := {| hp_Status := status; hp_Body := BError e |}.
Definition http_ok (b : HttpBody) : HttpResponse := {| hp_Status := StatusOK; hp_Body := b |}.

(** The request bodies. *)
Record createClusterReq := { cq_ID : string; cq_Protocol : string }.
Record addNodeReq := { aq_NodeID : string; aq_Address : string; aq_Port : Z }.
Record setFaultReq := { fq_Crashed : bool; fq_DropRate : SpecFloat.spec_float; fq_DelayMs : Z; fq_Partition : list string }.
Record setPartitionReq := { pq_PeerID : string; pq_Enabled : bool }.
Record kvReq := { kq_Key : string; kq_Value : string }.

(** What the decoder makes of a body: the request, as far as it was filled in,
    and the error.  The requests with one field are that field. *)
Class RequestJSON := {
  Decode_createCluster : string → createClusterReq * option error;
  Decode_addNode : string → addNodeReq * option error;
  Decode_setFault : string → setFaultReq * option error;
  Decode_setDropRate : string → SpecFloat.spec_float * option error;
  Decode_setDelay : string → Z * option error;
  Decode_setPartition : string → setPartitionReq * option error;
  Decode_kv : string → kvReq * option error;
  Decode_swapProtocol : string → string * option error;
  Decode_startMetrics : string → Z * option error;
  Decode_watchKey : string → string * option error;
}.

Section Server.
Context {W : Type} `{RangeOrder, Protobuf, NodeOperator W, Clock W, Processes W, RequestJSON}.
Context (ns : fault_session W) (ReadFile : string → W → result string) (decode : string → result Experiment).

Abbreviation St := (W * Actor)%type.
Abbreviation Answer := (outcome (St * HttpResponse)).

(** Submit the command and wait: an error is answered with the given status,
    the data of the reply as [body] makes it. *)
Definition submit (cmd : Command) (status : Z) (body : option ReplyData → HttpBody) (st : St) : Answer :=
  match handle ns ReadFile decode cmd st with
  | Panic why => Panic why
  | Done (st, r) =>
      Done (st, match cr_Error r with Some e => http_error e status | None => http_ok (body (cr_Data r)) end)
  end.

Definition status_ok_body (_ : option ReplyData) : HttpBody := BStatusOk.

(** A body that does not decode is a bad request. *)
Definition decoded {A} (d : A * option error) (k : A → St → Answer) (st : St) : Answer :=
  match d with
  | (_, Some e) => Done (st, http_error e StatusBadRequest)
  | (req, None) => k req st
  end.

Definition cluster_command (t : CommandType) (clusterID : string) : Command := (NewCommand t) <| cmd_ClusterID := clusterID |>.
Definition node_command (t : CommandType) (clusterID nodeID : string) : Command :=
  (NewCommand t) <| cmd_ClusterID := clusterID |> <| cmd_NodeID := nodeID |>.

(** ** Clusters *)

Definition getClusters (st : St) : Answer := submit (NewCommand CmdListClusters) StatusInternalServerError BData st.

Definition rest_createCluster (body : string) : St → Answer :=
  decoded (Decode_createCluster body) (λ req,
    submit ((cluster_command CmdCreateCluster (cq_ID req)) <| cmd_Protocol := cq_Protocol req |>) StatusBadRequest status_ok_body).

Definition HandleClusters (r : HttpRequest) (st : St) : Answer :=
  if bool_decide (hq_Method r = OPTIONS) then Done (st, http_ok BNone)
  else if bool_decide (hq_Method r = GET) then getClusters st
  else if bool_decide (hq_Method r = POST) then rest_createCluster (hq_Body r) st
  else Done (st, http_error (Errorf "Method not allowed" []) StatusMethodNotAllowed).

(** ** Nodes *)

Definition rest_addNode (clusterID body : string) : St → Answer :=
  decoded (Decode_addNode body) (λ req,
    submit ((node_command CmdAddNode clusterID (aq_NodeID req)) <| cmd_Host := aq_Address req |> <| cmd_Port := aq_Port req |>)
      StatusInternalServerError status_ok_body).

Definition rest_removeNode (clusterID nodeID : string) : St → Answer :=
  submit (node_command CmdRemoveNode clusterID nodeID) StatusInternalServerError status_ok_body.

Definition rest_setFault (clusterID nodeID body : string) : St → Answer :=
  decoded (Decode_setFault body) (λ req,
    submit ((node_command CmdSetFaultParams clusterID nodeID) <| cmd_Crashed := fq_Crashed req |>
              <| cmd_DropRate := fq_DropRate req |> <| cmd_DelayMs := fq_DelayMs req |> <| cmd_Partition := fq_Partition req |>)
      StatusInternalServerError status_ok_body).

Definition handleFaultCommand (clusterID nodeID action body : string) (st : St) : Answer :=
  let go cmd := submit cmd StatusInternalServerError status_ok_body in
  if bool_decide (action = "crash") then go (node_command CmdCrashNode clusterID nodeID) st
  else if bool_decide (action = "recover") then go (node_command CmdRecoverNode clusterID nodeID) st
  else if bool_decide (action = "drop-rate") then
    decoded (Decode_setDropRate body) (λ rate, go ((node_command CmdSetDropRate clusterID nodeID) <| cmd_DropRate := rate |>)) st
  else if bool_decide (action = "delay") then
    decoded (Decode_setDelay body) (λ ms, go ((node_command CmdSetDelay clusterID nodeID) <| cmd_DelayMs := ms |>)) st
  else if bool_decide (action = "partition") then
    decoded (Decode_setPartition body) (λ req,
      go ((node_command CmdSetPartition clusterID nodeID) <| cmd_PeerID := pq_PeerID req |> <| cmd_Enabled := pq_Enabled req |>)) st
  else Done (st, http_error (Errorf "unknown fault action" []) StatusBadRequest).

(** A stub: it does not reach the actor. *)
Definition rest_heartbeat (clusterID nodeID : string) (st : St) : Answer := Done (st, http_ok BStatusOk).

(** ** The log stream *)

(** A turn of the stream: the next entry of its queue, which is sent when it is
    of the cluster.  A nil entry is dereferenced. *)
Definition stream_next (ch : nat) (clusterID : string) (s : Service) : outcome (Service * option LogRequest) :=
  match logListeners s !! ch with
  | Some (entry :: queue) =>
      let s := set_listeners (<[ch := queue]> (logListeners s)) s in
      match entry with
      | None => Panic "nil pointer dereference"
      | Some e => Done (s, if bool_decide (lr_ClusterId e = clusterID) then Some e else None)
      end
  | _ => Done (s, None)
  end.

(** The stream subscribes a new channel, which it drops when the client goes
    away. *)
Definition streamLogs (clusterID : string) (st : St) : Answer :=
  let ch := fresh (dom (logListeners (a_service st.2))) in
  Done ((st.1, set_service (SubscribeLogs ch (a_service st.2)) st.2), http_ok (BStream clusterID ch)).

Definition stream_close (ch : nat) (st : St) : St := (st.1, set_service (UnsubscribeLogs ch (a_service st.2)) st.2).

(** ** Keys, protocols and metrics *)

Definition handleKV (r : HttpRequest) (clusterID nodeID : string) (st : St) : Answer :=
  let parts := Split (hq_Path r) "/" in
  if bool_decide (hq_Method r = POST) then
    decoded (Decode_kv (hq_Body r)) (λ req,
      submit ((node_command CmdKVPut clusterID nodeID) <| cmd_Key := kq_Key req |> <| cmd_Value := kq_Value req |>)
        StatusInternalServerError status_ok_body) st
  else if bool_decide (hq_Method r = GET) then
    if bool_decide (length parts < 8)%nat then Done (st, http_error (Errorf "key is required for GET /kv" []) StatusBadRequest)
    else submit ((node_command CmdKVGet clusterID nodeID) <| cmd_Key := nth 7 parts EmptyString |>) StatusNotFound BData st
  else Done (st, http_error (Errorf "method not allowed" []) StatusMethodNotAllowed).

Definition swapProtocol (clusterID body : string) : St → Answer :=
  decoded (Decode_swapProtocol body) (λ protocol,
    submit ((cluster_command CmdSetClusterProtocol clusterID) <| cmd_Protocol := protocol |>) StatusInternalServerError status_ok_body).

(** The error of the decoder is dropped. *)
Definition startMetrics (clusterID body : string) : St → Answer :=
  submit ((cluster_command CmdMetricsStart clusterID) <| cmd_IntervalMs := (Decode_startMetrics body).1 |>) StatusBadRequest BData.

Definition stopMetrics (clusterID : string) : St → Answer := submit (cluster_command CmdMetricsStop clusterID) StatusBadRequest BData.
Definition getMetrics (clusterID : string) : St → Answer := submit (cluster_command CmdMetricsShow clusterID) StatusBadRequest BData.
Definition getMetricsHistory (clusterID : string) : St → Answer :=
  submit (cluster_command CmdMetricsHistory clusterID) StatusBadRequest BData.

Definition watchMetricsKey (clusterID body : string) : St → Answer :=
  decoded (Decode_watchKey body) (λ key,
    submit ((cluster_command CmdMetricsWatchKey clusterID) <| cmd_Key := key |>) StatusBadRequest BData).

(** ** Routing *)

Definition HandleNodes (r : HttpRequest) (st : St) : Answer :=
  let m := hq_Method r in
  let body := hq_Body r in
  if bool_decide (m = OPTIONS) then Done (st, http_ok BNone) else
  let parts := Split (hq_Path r) "/" in
  let n := length parts in
  let part i := nth i parts EmptyString in
  if bool_decide (n < 5)%nat then Done (st, http_error (Errorf "invalid path" []) StatusBadRequest) else
  let clusterID := part 3%nat in
  let nodeID := part 5%nat in
  if bool_decide (m = POST ∧ n = 5%nat) then rest_addNode clusterID body st
  else if bool_decide (m = GET ∧ n = 5%nat ∧ part 4%nat = "logs") then streamLogs clusterID st
  else if bool_decide (m = GET ∧ n = 5%nat ∧ part 4%nat = "metrics") then getMetrics clusterID st
  else if bool_decide (m = GET ∧ n = 6%nat ∧ part 4%nat = "metrics" ∧ part 5%nat = "history") then getMetricsHistory clusterID st
  else if bool_decide (m = POST ∧ n = 6%nat ∧ part 4%nat = "metrics" ∧ part 5%nat = "start") then startMetrics clusterID body st
  else if bool_decide (m = POST ∧ n = 6%nat ∧ part 4%nat = "metrics" ∧ part 5%nat = "stop") then stopMetrics clusterID st
  else if bool_decide (m = POST ∧ n = 6%nat ∧ part 4%nat = "metrics" ∧ part 5%nat = "watch") then watchMetricsKey clusterID body st
  else if bool_decide (m = DELETE ∧ n = 6%nat) then rest_removeNode clusterID nodeID st
  else if bool_decide ((m = PATCH ∨ m = POST) ∧ n = 7%nat ∧ part 6%nat = "fault") then rest_setFault clusterID nodeID body st
  else if bool_decide (m = POST ∧ n = 8%nat ∧ part 6%nat = "faults") then
    handleFaultCommand clusterID nodeID (part 7%nat) body st
  else if bool_decide (m = POST ∧ n = 7%nat ∧ part 6%nat = "heartbeat") then rest_heartbeat clusterID nodeID st
  else if bool_decide (m = PATCH ∧ n = 5%nat ∧ part 4%nat = "protocol") then swapProtocol clusterID body st
  else if bool_decide ((m = POST ∨ m = GET) ∧ (7 ≤ n)%nat ∧ part 6%nat = "kv") then handleKV r clusterID nodeID st
  else Done (st, http_error (Errorf "method not allowed or invalid path" []) StatusBadRequest).

(** The mux of main: a path that is not clean is redirected to the clean one,
    which keeps a slash at its end. *)
Definition ends_in_slash (p : string) : bool := bool_decide (last (Split p "/") = Some EmptyString).

Definition cleanPath (p : string) : string :=
  if bool_decide (p = EmptyString) then "/" else
  let p := if HasPrefix p "/" then p else "/" +:+ p in
  let np := Clean p in
  if ends_in_slash p && negb (bool_decide (np = "/")) then np +:+ "/" else np.

Definition serve (r : HttpRequest) (st : St) : Answer :=
  let path := cleanPath (hq_Path r) in
  if negb (bool_decide (path = hq_Path r)) then
    Done (st, {| hp_Status := StatusMovedPermanently; hp_Body := BRedirect path |})
  else if bool_decide (path = "/api/clusters") then HandleClusters r st
  else if HasPrefix path "/api/clusters/" then HandleNodes r st
  else Done (st, http_error (Errorf "404 page not found" []) StatusNotFound).
End Server.
