(* ===== verification/RestProps.v ===== *)
(** * The REST API says what the command line says

    A well-formed request submits one command; its answer is what the command
    line of that command answers, and it leaves the same control plane. *)

From S2P Require Import Prelude GoStrings GoPath Http Protocol VectorClock Conflict Gossip Baseline Fault NodeConfig NodeSession Messages NodeRuntime RuntimeProps Commands CommandProps Experiment ExperimentProps Cluster Metrics Sessions Service World NodeServer CPServerProps Actor ControlPlane ActorProps ActorNet Rest.

(** ** Paths *)

(** A piece of a path that cleaning leaves alone. *)
Definition segment (s : string) : bool :=
  byte_free "/" s && bool_decide (s ∉ [EmptyString; "."; ".."]).

Definition api_path (rest : list string) : string := Join (EmptyString :: "api" :: "clusters" :: rest) "/".

Lemma clean_parts_segments rooted acc parts :
  forallb segment parts = true → clean_parts rooted acc parts = rev acc ++ parts.
Proof.
  revert acc. induction parts as [|p parts IH]; intros acc; [by rewrite app_nil_r|].
  cbn [forallb clean_parts]. intros [[_ Hp%bool_decide_eq_true]%andb_true_iff Hps]%andb_true_iff.
  rewrite !bool_decide_eq_false_2 by set_solver. rewrite IH by done. cbn [rev]. by rewrite <-app_assoc.
Qed.

Lemma segments_free parts : forallb segment parts = true → forallb (byte_free "/") parts = true.
Proof.
  induction parts as [|p parts IH]; [done|]. cbn [forallb]. intros [[-> _]%andb_true_iff Hps]%andb_true_iff. by apply IH.
Qed.

Lemma Split_api rest : forallb segment rest = true →
  Split (api_path rest) "/" = EmptyString :: "api" :: "clusters" :: rest.
Proof. intros Hr. apply Split_Join; [done|]. cbn [forallb]. by rewrite segments_free. Qed.

Lemma Clean_api rest : forallb segment rest = true → Clean (api_path rest) = api_path rest.
Proof.
  intros Hr. unfold Clean. rewrite Split_api by done. change (IsAbs (api_path rest)) with true.
  change (clean_parts true [] (EmptyString :: "api" :: "clusters" :: rest)) with (clean_parts true ["clusters"; "api"] rest).
  rewrite clean_parts_segments by done. reflexivity.
Qed.

Lemma last_segment c rest : forallb segment (c :: rest) = true → last (c :: rest) ≠ Some EmptyString.
Proof.
  intros Hr He%last_Some_elem_of. by pose proof (proj1 (forallb_elem_of _ _) Hr _ He).
Qed.

Lemma cleanPath_api c rest : forallb segment (c :: rest) = true → cleanPath (api_path (c :: rest)) = api_path (c :: rest).
Proof.
  intros Hr. unfold cleanPath. change (bool_decide (api_path (c :: rest) = EmptyString)) with false.
  change (HasPrefix (api_path (c :: rest)) "/") with true. cbv iota. rewrite Clean_api by done.
  enough (ends_in_slash (api_path (c :: rest)) = false) as -> by done.
  unfold ends_in_slash. rewrite Split_api by done. apply bool_decide_eq_false. exact (last_segment c rest Hr).
Qed.

Lemma api_path_prefix c rest : HasPrefix (api_path (c :: rest)) "/api/clusters/" = true.
Proof.
  exact (HasPrefix_app "/api/clusters/" (Join (c :: rest) "/")).
Qed.

Lemma api_path_not_root c rest : api_path (c :: rest) ≠ "/api/clusters".
Proof. intros He. pose proof (api_path_prefix c rest) as Hp. by rewrite He in Hp. Qed.

(** ** Requests *)

Section Requests.
Context `{RequestJSON}.

Definition request (m : HttpMethod) (path : list string) (body : string) : HttpRequest :=
  {| hq_Method := m; hq_Path := api_path path; hq_Body := body |}.

(** The request submits this command; the status of a failure and the body of a
    success. *)
Inductive api_request : HttpRequest → Command → Z → (option ReplyData → HttpBody) → Prop :=
  | api_list body : api_request (request GET [] body) (NewCommand CmdListClusters) 500 BData
  | api_create body cid p : Decode_createCluster body = ({| cq_ID := cid; cq_Protocol := p |}, None) →
      api_request (request POST [] body) (NewCommand CmdCreateCluster) <| cmd_ClusterID := cid |> <| cmd_Protocol := p |>
        400 status_ok_body
  | api_add cid body id host port : segment cid = true →
      Decode_addNode body = ({| aq_NodeID := id; aq_Address := host; aq_Port := port |}, None) →
      api_request (request POST [cid; "nodes"] body)
        (NewCommand CmdAddNode) <| cmd_ClusterID := cid |> <| cmd_NodeID := id |> <| cmd_Host := host |> <| cmd_Port := port |>
        500 status_ok_body
  | api_remove cid id body : segment cid = true → segment id = true →
      api_request (request DELETE [cid; "nodes"; id] body) (NewCommand CmdRemoveNode) <| cmd_ClusterID := cid |> <| cmd_NodeID := id |>
        500 status_ok_body
  | api_fault m cid id body crashed rate delay peers : m ∈ [PATCH; POST] → segment cid = true → segment id = true →
      Decode_setFault body = ({| fq_Crashed := crashed; fq_DropRate := rate; fq_DelayMs := delay; fq_Partition := peers |}, None) →
      api_request (request m [cid; "nodes"; id; "fault"] body)
        (NewCommand CmdSetFaultParams) <| cmd_ClusterID := cid |> <| cmd_NodeID := id |> <| cmd_Crashed := crashed |>
          <| cmd_DropRate := rate |> <| cmd_DelayMs := delay |> <| cmd_Partition := peers |>
        500 status_ok_body
  | api_crash action t cid id body : (action, t) ∈ [("crash", CmdCrashNode); ("recover", CmdRecoverNode)] →
      segment cid = true → segment id = true →
      api_request (request POST [cid; "nodes"; id; "faults"; action] body) (NewCommand t) <| cmd_ClusterID := cid |> <| cmd_NodeID := id |>
        500 status_ok_body
  | api_drop cid id body rate : segment cid = true → segment id = true → Decode_setDropRate body = (rate, None) →
      api_request (request POST [cid; "nodes"; id; "faults"; "drop-rate"] body)
        (NewCommand CmdSetDropRate) <| cmd_ClusterID := cid |> <| cmd_NodeID := id |> <| cmd_DropRate := rate |> 500 status_ok_body
  | api_delay cid id body delay : segment cid = true → segment id = true → Decode_setDelay body = (delay, None) →
      api_request (request POST [cid; "nodes"; id; "faults"; "delay"] body)
        (NewCommand CmdSetDelay) <| cmd_ClusterID := cid |> <| cmd_NodeID := id |> <| cmd_DelayMs := delay |> 500 status_ok_body
  | api_partition cid id body peer b : segment cid = true → segment id = true →
      Decode_setPartition body = ({| pq_PeerID := peer; pq_Enabled := b |}, None) →
      api_request (request POST [cid; "nodes"; id; "faults"; "partition"] body)
        (NewCommand CmdSetPartition) <| cmd_ClusterID := cid |> <| cmd_NodeID := id |> <| cmd_PeerID := peer |> <| cmd_Enabled := b |>
        500 status_ok_body
  | api_put cid id body key value : segment cid = true → segment id = true →
      Decode_kv body = ({| kq_Key := key; kq_Value := value |}, None) →
      api_request (request POST [cid; "nodes"; id; "kv"] body)
        (NewCommand CmdKVPut) <| cmd_ClusterID := cid |> <| cmd_NodeID := id |> <| cmd_Key := key |> <| cmd_Value := value |>
        500 status_ok_body
  | api_get cid id key body : segment cid = true → segment id = true → segment key = true →
      api_request (request GET [cid; "nodes"; id; "kv"; key] body)
        (NewCommand CmdKVGet) <| cmd_ClusterID := cid |> <| cmd_NodeID := id |> <| cmd_Key := key |> 404 BData
  | api_protocol cid body p : segment cid = true → Decode_swapProtocol body = (p, None) →
      api_request (request PATCH [cid; "protocol"] body)
        (NewCommand CmdSetClusterProtocol) <| cmd_ClusterID := cid |> <| cmd_Protocol := p |> 500 status_ok_body
  | api_start cid body : segment cid = true →
      api_request (request POST [cid; "metrics"; "start"] body)
        (NewCommand CmdMetricsStart) <| cmd_ClusterID := cid |> <| cmd_IntervalMs := (Decode_startMetrics body).1 |> 400 BData
  | api_stop cid body : segment cid = true →
      api_request (request POST [cid; "metrics"; "stop"] body) (NewCommand CmdMetricsStop) <| cmd_ClusterID := cid |> 400 BData
  | api_show cid body : segment cid = true →
      api_request (request GET [cid; "metrics"] body) (NewCommand CmdMetricsShow) <| cmd_ClusterID := cid |> 400 BData
  | api_watch cid body key : segment cid = true → Decode_watchKey body = (key, None) →
      api_request (request POST [cid; "metrics"; "watch"] body)
        (NewCommand CmdMetricsWatchKey) <| cmd_ClusterID := cid |> <| cmd_Key := key |> 400 BData.
End Requests.

(** ** What a request does *)

Section Server.
Context {W : Type} `{RangeOrder, Protobuf, NodeOperator W, Clock W, Processes W, RequestJSON}.
Context (ns : fault_session W) (ReadFile : string → W → result string) (decode : string → result Experiment).

(** The answer to a request, of what the command line answers. *)
Definition answer_of (status : Z) (body : option ReplyData → HttpBody)
    (x : outcome ((W * Actor) * result (option ReplyData))) : outcome ((W * Actor) * HttpResponse) :=
  match x with
  | Panic why => Panic why
  | Done (st, Err e) => Done (st, http_error e status)
  | Done (st, Ok d) => Done (st, http_ok (body d))
  end.

Lemma serve_nodes m c rest body st : forallb segment (c :: rest) = true →
  serve ns ReadFile decode (request m (c :: rest) body) st = HandleNodes ns ReadFile decode (request m (c :: rest) body) st.
Proof.
  intros Hr. unfold serve. cbn [request hq_Path]. rewrite cleanPath_api by done.
  rewrite bool_decide_true by done. rewrite bool_decide_false by apply api_path_not_root. by rewrite api_path_prefix.
Qed.

(** A request submits its command. *)
Lemma api_submits r c status body st : api_request r c status body →
  serve ns ReadFile decode r st = submit ns ReadFile decode c status body st.
Proof.
  destruct 1; members; simplify_eq;
    try (rewrite serve_nodes by (cbn [forallb]; all_words); unfold HandleNodes; cbn [hq_Path hq_Method hq_Body request]; rewrite Split_api by (cbn [forallb]; all_words)).
  all: try reflexivity.
  all: unfold rest_addNode, rest_setFault, handleFaultCommand, handleKV, swapProtocol, watchMetricsKey;
    cbn [hq_Path hq_Method hq_Body request]; rewrite ?Split_api by (cbn [forallb]; all_words);
    try match goal with Hd : _ = (_, None) |- _ => rewrite Hd end; try reflexivity.
  change (rest_createCluster ns ReadFile decode body st = submit ns ReadFile decode
    (NewCommand CmdCreateCluster) <| cmd_ClusterID := cid |> <| cmd_Protocol := p |> 400 status_ok_body st).
  unfold rest_createCluster.
  match goal with Hd : _ = (_, None) |- _ => by rewrite Hd end.
Qed.

(** Submitting a command is running the line that says it. *)
Lemma submit_line drop c status body st : spoken drop c →
  submit ns ReadFile decode c status body st = answer_of status body (ExecuteRuntimeCommand ns ReadFile decode (render drop c) st).
Proof.
  intros Hc. unfold submit, ExecuteRuntimeCommand. rewrite runtime_render by done.
  destruct (handle ns ReadFile decode c st) as [[st' [d [e|]]]|why]; done.
Qed.

(** The routes that answer the data of the reply. *)
Definition answers_data (t : CommandType) : Prop :=
  t ∈ [CmdListClusters; CmdKVGet; CmdMetricsStart; CmdMetricsStop; CmdMetricsShow; CmdMetricsWatchKey].

Lemma api_body r c status body : api_request r c status body →
  body = (if decide (answers_data (cmd_Type c)) then BData else status_ok_body).
Proof. destruct 1; members; simplify_eq; reflexivity. Qed.

End Server.

(** ** A concrete run *)

Definition demo_json : RequestJSON := {|
  Decode_createCluster := λ b, ({| cq_ID := b; cq_Protocol := "gossip" |}, None);
  Decode_addNode := λ b, ({| aq_NodeID := b; aq_Address := "localhost"; aq_Port := 9001 |}, None);
  Decode_setFault := λ b, ({| fq_Crashed := false; fq_DropRate := f64_zero; fq_DelayMs := 0; fq_Partition := [b] |}, None);
  Decode_setDropRate := λ _, (f64_zero, None);
  Decode_setDelay := λ b, match Atoi b with Some n => (n, None) | None => (0, Some (Errorf "EOF" [])) end;
  Decode_setPartition := λ b, ({| pq_PeerID := b; pq_Enabled := true |}, None);
  Decode_kv := λ b, ({| kq_Key := b; kq_Value := b |}, None);
  Decode_swapProtocol := λ b, (b, None);
  Decode_startMetrics := λ b, match Atoi b with Some n => (n, None) | None => (0, Some (Errorf "EOF" [])) end;
  Decode_watchKey := λ b, (b, None);
|}.

#[local] Existing Instance demo_json.
#[local] Existing Instance demo_peers.
#[local] Existing Instance demo_sends.
#[local] Existing Instance demo_protobuf.
#[local] Existing Instance server_gossip_codec.
#[local] Existing Instance server_membership_codec.
#[local] Existing Instance server_env.
#[local] Existing Instance network_clock.
#[local] Existing Instance network_processes.

Definition delay_request : HttpRequest := request POST ["c1"; "nodes"; "a"; "faults"; "delay"] "40".

Definition delay_command : Command :=
  (NewCommand CmdSetDelay) <| cmd_ClusterID := "c1" |> <| cmd_NodeID := "a" |> <| cmd_DelayMs := 40 |>.

