(* ===== verification/Listener.v ===== *)
(** * The command listener (internal/controlplane/command_listener.go)

    The HTTP endpoint of the command-line client: who may use it, what it runs,
    and the text it answers.  A text is a list of parts: lines, of which the
    numbers and durations are written out, and tables, of which the cells are
    kept; ListenerText writes the parts out. *)

From Stdlib Require Import SpecFloat.
From S2P Require Import Prelude GoStrings GoSort GoTime Http Fault Messages Commands Experiment Cluster Metrics Sessions Service World Actor.

Record CommandListenerConfig := { cl_Port : Z; cl_AuthToken : string }.

(** ** Texts *)

Record node_row := {
  nr_ID : string; nr_Address : string; nr_Port : Z; nr_Status : string;
  nr_Crashed : bool; nr_Drop : spec_float; nr_DelayMs : Z; nr_Partitions : Z;
}.

Record key_row := {
  kr_Key : string; kr_Final : bool; kr_Convergence : string; kr_Peak : Z; kr_AUC : string; kr_TopStale : string;
}.

Inductive Out :=
  | OLine (s : string)
  | ONodes (rows : list node_row)               (* ID ADDRESS PORT STATUS CRASHED DROP DELAY_MS PARTITIONS *)
  | OClusters (rows : list (string * string * Z))  (* CLUSTER_ID PROTOCOL NODES *)
  | OKeys (rows : list key_row)                 (* KEY FINAL CONVERGENCE PEAK AUC TOP_STALE *)
  | OMetrics (clusterID : string) (started : Z) (stopped : option Z)  (* METRICS cluster= started= stopped= *)
  | OPrint (d : ReplyData).                     (* the data, as %+v prints it *)

(** ** Who may use it *)

Record CommandRequest := {
  cr_Method : HttpMethod;
  cr_CommandToken : string;       (* X-Command-Token *)
  cr_Authorization : string;
  cr_Body : result string;        (* what io.ReadAll answers *)
}.

Definition authorizeCommandListener (r : CommandRequest) (token : string) : bool :=
  if bool_decide (TrimSpace token = EmptyString) then true
  else if bool_decide (cr_CommandToken r = token) then true
  else if HasPrefix (cr_Authorization r) "Bearer " then bool_decide (TrimPrefix (cr_Authorization r) "Bearer " = token)
  else false.

(** ** What it answers *)

Definition commandName (raw : string) : string :=
  match Fields (TrimSpace raw) with
  | [] => EmptyString
  | name :: rest => if bool_decide (name = "cp") then default EmptyString (head rest) else name
  end.

Definition row_of_node (n : Node) : node_row :=
  {| nr_ID := n_ID n; nr_Address := n_Address n; nr_Port := n_Port n; nr_Status := n_Status n;
     nr_Crashed := fs_Crashed (n_Fault n); nr_Drop := fs_DropRate (n_Fault n); nr_DelayMs := fs_DelayMs (n_Fault n);
     nr_Partitions := Z.of_nat (length (fs_Partition (n_Fault n))) |}.

Definition formatNodesTable (nodes : list Node) : list Out :=
  match nodes with
  | [] => [OLine "no nodes found"]
  | _ => [ONodes (row_of_node <$> nodes)]
  end.

(** [sort.Slice] by a name; the ones this is used for are different. *)
Fixpoint insert_named {A} (name : A → string) (x : A) (l : list A) : list A :=
  match l with
  | [] => [x]
  | y :: l' => if str_lt (name y) (name x) then y :: insert_named name x l' else x :: l
  end.

Definition sort_named {A} (name : A → string) (l : list A) : list A := foldr (insert_named name) [] l.

Definition cluster_part (c : ClusterInfo) : list Out :=
  OLine EmptyString :: OLine ("[" +:+ ci_ID c +:+ "] protocol=" +:+ ci_Protocol c) ::
  match ci_Nodes c with
  | [] => [OLine "  no nodes"]
  | nodes => [ONodes (row_of_node <$> sort_named n_ID nodes)]
  end.

Definition formatClustersTable (cs : list ClusterInfo) : list Out :=
  match cs with
  | [] => [OLine "no clusters found"]
  | _ =>
      let items := sort_named ci_ID cs in
      OClusters ((λ c, (ci_ID c, ci_Protocol c, Z.of_nat (length (ci_Nodes c)))) <$> items) :: (items ≫= cluster_part)
  end.

(** ** Metrics *)

(** A step of the search for the node that was stale the longest: a longer one,
    or as long a one with a smaller name. *)
Definition stale_step (best entry : string * Z) : string * Z :=
  if (best.2 <? entry.2) || (entry.2 =? best.2) && str_lt entry.1 best.1 then entry else best.

Definition stale_node (entries : list (string * Z)) : string :=
  let '(node, d) := foldl stale_step (EmptyString, -1) entries in
  if bool_decide (node = EmptyString) then "-" else node +:+ "=" +:+ Duration_String d.

Record metricsInsightRow := {
  ir_Key : string; ir_Final : bool; ir_Convergence : option Z; ir_Peak : Z; ir_AUC : Z;
  ir_TopStale : string; ir_StaleByNode : gmap string Z;
}.

Section Metrics.
Context `{RangeOrder}.

Definition readTopStaleNode (r : Result) : string :=
  if bool_decide (StaleDurationPerNode r = ∅) then "-" else stale_node (range 622 (StaleDurationPerNode r)).

Definition insight_row (key : string) (r : Result) : metricsInsightRow :=
  {| ir_Key := key; ir_Final := FinalConsistent r; ir_Convergence := ConvergenceTime r; ir_Peak := PeakDivergence r;
     ir_AUC := AreaUnderDivergence r; ir_TopStale := readTopStaleNode r; ir_StaleByNode := StaleDurationPerNode r |}.

Definition key_cells (row : metricsInsightRow) : key_row :=
  {| kr_Key := ir_Key row; kr_Final := ir_Final row;
     kr_Convergence := match ir_Convergence row with Some d => Duration_String d | None => "-" end;
     kr_Peak := ir_Peak row; kr_AUC := Duration_String (ir_AUC row); kr_TopStale := ir_TopStale row |}.

(** The key of the largest area, the first of several. *)
Definition worst_step (best : string * Z) (row : metricsInsightRow) : string * Z :=
  if best.2 <? ir_AUC row then (ir_Key row, ir_AUC row) else best.

Definition peak_step (maxPeak : Z) (row : metricsInsightRow) : Z := if maxPeak <? ir_Peak row then ir_Peak row else maxPeak.

(** Durations add up in 64 bits. *)
Definition add_entry (agg : gmap string Z) (entry : string * Z) : gmap string Z :=
  <[entry.1 := wrap_i64 (default 0 (agg !! entry.1) + entry.2)]> agg.

Definition agg_step (agg : gmap string Z) (row : metricsInsightRow) : gmap string Z :=
  foldl add_entry agg (range 473 (ir_StaleByNode row)).

Definition appendMetricsInsights (rows : list metricsInsightRow) : list Out :=
  match rows with
  | [] => []
  | _ =>
      let divergent := ir_Key <$> filter (λ row, ir_Final row = false) rows in
      let '(worstKey, worstAUC) := foldl worst_step (EmptyString, -1) rows in
      let maxPeak := foldl peak_step 0 rows in
      let worstNode := stale_node (range 482 (foldl agg_step ∅ rows)) in
      [OLine EmptyString; OLine "INSIGHTS";
       OLine (if bool_decide (divergent = []) then "- all tracked keys are currently converged"
              else "- keys still divergent: " +:+ Join (sort_Strings divergent) ", ")]
      ++ (if bool_decide (worstKey = EmptyString) then []
          else [OLine ("- highest inconsistency area: " +:+ worstKey +:+ " (" +:+ Duration_String worstAUC +:+ ")")])
      ++ [OLine ("- highest observed peak divergence: " +:+ itoa maxPeak);
          OLine ("- most stale node overall: " +:+ worstNode)]
      ++ (if bool_decide (divergent = []) then []
          else [OLine "- hint: if this is a finished run, add a longer settle window or inspect partition/heal timing"])
  end.

(** The results of the keys, in the order of the keys. *)
Definition insight_rows (results : gmap string Result) : list metricsInsightRow :=
  omap (λ key, insight_row key <$> results !! key) (sort_Strings (range 393 results).*1).

Definition formatMetricsResult (v : MetricsView) : list Out :=
  let tracked := sort_Strings (mv_trackedKeys v) in
  [OMetrics (mv_clusterId v) (mv_startedAt v) (mv_stoppedAt v);
   OLine ("tracked keys: " +:+ if bool_decide (tracked = []) then "(none)" else Join tracked ", ")]
  ++ (if bool_decide (mv_results v = ∅) then [OLine "no per-key metrics yet"]
      else
        let rows := insight_rows (mv_results v) in
        OKeys (key_cells <$> rows) :: appendMetricsInsights rows).

(** The name of the command says which table, the data whether there is one. *)
Definition formatCommandResult (rawCmd : string) (res : ReplyData) : list Out :=
  let name := commandName rawCmd in
  match res with
  | DNodes nodes => if bool_decide (name = "list-nodes") then formatNodesTable nodes else [OPrint res]
  | DClusters cs => if bool_decide (name = "list-clusters") then formatClustersTable cs else [OPrint res]
  | DMetrics v => if bool_decide (name = "metrics-show" ∨ name = "metrics-stop") then formatMetricsResult v else [OPrint res]
  | _ => [OPrint res]
  end.
End Metrics.

(** ** The endpoint *)

Inductive CommandAnswer :=
  | CError (e : error)           (* http.Error *)
  | CText (t : list Out).

Section Listener.
Context {W : Type} `{RangeOrder, Protobuf, NodeOperator W, Clock W, Processes W}.
Context (ns : fault_session W) (ReadFile : string → W → result string) (decode : string → result Experiment).

Abbreviation St := (W * Actor)%type.

(** The handler of /command. *)
Definition handle_command (cfg : CommandListenerConfig) (r : CommandRequest) (st : St) : outcome (St * (Z * CommandAnswer)) :=
  let refuse e status := Done (st, (status, CError e)) in
  if negb (bool_decide (cr_Method r = POST)) then refuse (Errorf "method not allowed" []) StatusMethodNotAllowed
  else if negb (authorizeCommandListener r (cl_AuthToken cfg)) then refuse (Errorf "unauthorized" []) StatusUnauthorized
  else match cr_Body r with
  | Err e => refuse (Wrapf "failed to read command: %v" [] e) StatusBadRequest
  | Ok body =>
      let cmd := TrimSpace body in
      if bool_decide (cmd = EmptyString) then refuse (Errorf "empty command" []) StatusBadRequest
      else match ExecuteRuntimeCommand ns ReadFile decode cmd st with
      | Panic why => Panic why
      | Done (st, Err e) => Done (st, (StatusBadRequest, CError e))
      | Done (st, Ok None) => Done (st, (StatusOK, CText [OLine "ok"]))
      | Done (st, Ok (Some res)) => Done (st, (StatusOK, CText (formatCommandResult cmd res)))
      end
  end.

(** Without a port there is no listener. *)
Definition StartCommandListener (cfg : CommandListenerConfig) : option (CommandRequest → St → outcome (St * (Z * CommandAnswer))) :=
  if cl_Port cfg <=? 0 then None else Some (handle_command cfg).
End Listener.
