(* ===== verification/ListenerProps.v ===== *)
(** * The command listener: its texts

    The text of an answer does not depend on the order a map is visited in, is
    chosen by the type of the data, and is given only to who may use the
    listener. *)

From S2P Require Import Prelude GoStrings GoSort GoTime Http Protocol VectorClock Conflict Gossip Baseline Fault NodeConfig NodeSession Messages NodeRuntime RuntimeProps Commands CommandProps Experiment ExperimentProps Cluster Metrics Sessions Service World NodeServer CPServerProps Actor ControlPlane ActorProps ActorNet RestProps Listener.

(** ** The stalest node *)

(** [x] goes before [y]. *)
Definition staler (x y : string * Z) : bool := (y.2 <? x.2) || (x.2 =? y.2) && str_lt x.1 y.1.

Lemma stale_step_staler best x : stale_step best x = if staler x best then x else best.
Proof. reflexivity. Qed.

Lemma staler_trans x y z : staler x y = true → staler y z = true → staler x z = true.
Proof.
  unfold staler. rewrite !orb_true_iff, !andb_true_iff, !Z.ltb_lt, !Z.eqb_eq.
  intros [?|[? Hxy]] [?|[? Hyz]]; [left; lia..|right]. split; [lia|by eapply str_lt_trans].
Qed.

Lemma staler_asym x y : staler x y = true → staler y x = false.
Proof.
  intros Hxy. destruct (staler y x) eqn:Hyx; [|done]. pose proof (staler_trans _ _ _ Hxy Hyx) as Hxx.
  unfold staler in Hxx. rewrite str_lt_irrefl, andb_false_r, orb_false_r, Z.ltb_lt in Hxx. lia.
Qed.

Lemma staler_total x y : x ≠ y → staler x y = true ∨ staler y x = true.
Proof.
  destruct x as [a c], y as [b d]. unfold staler. cbn [fst snd]. intros Hne.
  destruct (Z.lt_trichotomy c d) as [?|[->|?]].
  - right. apply orb_true_iff. left. by apply Z.ltb_lt.
  - destruct (str_lt_total a b) as [Hl|Hl]; [congruence|left|right]; by rewrite Z.eqb_refl, Hl, orb_true_r.
  - left. apply orb_true_iff. left. by apply Z.ltb_lt.
Qed.

(** Two entries may be tried in either order. *)
Lemma stale_step_comm best x y : stale_step (stale_step best x) y = stale_step (stale_step best y) x.
Proof.
  rewrite !stale_step_staler. destruct (decide (x = y)) as [->|Hne]; [done|].
  destruct (staler x best) eqn:Hx, (staler y best) eqn:Hy; rewrite ?Hx, ?Hy; try done.
  - destruct (staler_total x y Hne) as [H|H]; rewrite H; by rewrite (staler_asym _ _ H).
  - destruct (staler y x) eqn:Hyx; [|done]. by rewrite (staler_trans _ _ _ Hyx Hx) in Hy.
  - destruct (staler x y) eqn:Hxy; [|done]. by rewrite (staler_trans _ _ _ Hxy Hy) in Hx.
Qed.

Lemma foldl_comm_perm {A B} (f : A → B → A) (a : A) l1 l2 :
  (∀ a x y, f (f a x) y = f (f a y) x) → l1 ≡ₚ l2 → foldl f a l1 = foldl f a l2.
Proof.
  intros Hf Hp. revert a. induction Hp as [|x l1 l2 _ IH|x y l|l1 l2 l3 _ IH1 _ IH2]; intros a; cbn [foldl]; [done|by rewrite IH| |by rewrite IH1, IH2].
  by rewrite Hf.
Qed.

Lemma stale_node_perm l1 l2 : l1 ≡ₚ l2 → stale_node l1 = stale_node l2.
Proof. intros Hp. unfold stale_node. by rewrite (foldl_comm_perm _ _ l1 l2 stale_step_comm Hp). Qed.

(** ** Any order of the maps *)

Lemma add_entry_comm agg x y : add_entry (add_entry agg x) y = add_entry (add_entry agg y) x.
Proof.
  destruct x as [a c], y as [b d]. unfold add_entry. cbn [fst snd]. destruct (decide (a = b)) as [->|Hne].
  - rewrite !lookup_insert_eq, !insert_insert_eq. change (default 0 (Some ?z)) with z. f_equal. rewrite !wrap_i64_add. f_equal. lia.
  - rewrite !lookup_insert_ne by done. by rewrite insert_insert_ne.
Qed.

Section Orders.
Context (o1 o2 : RangeOrder).

Lemma range_orders {V} s1 s2 (m : gmap string V) : @range o1 V s1 m ≡ₚ @range o2 V s2 m.
Proof. by rewrite !range_perm. Qed.

Lemma top_stale_orders r : @readTopStaleNode o1 r = @readTopStaleNode o2 r.
Proof. unfold readTopStaleNode. case_bool_decide; [done|]. apply stale_node_perm, range_orders. Qed.

Lemma insight_rows_orders results : @insight_rows o1 results = @insight_rows o2 results.
Proof.
  unfold insight_rows. rewrite (sort_Strings_unique (@range o1 _ _ results).*1 (@range o2 _ 393 results).*1) by by rewrite range_orders.
  apply list_omap_ext, Forall2_same_length_lookup_2; [done|]. intros i k k' Hk Hk'. simplify_eq.
  destruct (results !! k) as [r|]; [|done]. cbn. unfold insight_row. by rewrite top_stale_orders.
Qed.

Lemma agg_orders agg rows : foldl (@agg_step o1) agg rows = foldl (@agg_step o2) agg rows.
Proof.
  revert agg. induction rows as [|row rows IH]; intros agg; [done|]. cbn [foldl]. rewrite IH. f_equal.
  apply foldl_comm_perm; [apply add_entry_comm|apply range_orders].
Qed.

Lemma insights_orders rows : @appendMetricsInsights o1 rows = @appendMetricsInsights o2 rows.
Proof.
  unfold appendMetricsInsights. destruct rows as [|row rows]; [done|]. rewrite agg_orders.
  by rewrite (stale_node_perm (@range o1 _ _ _) (@range o2 _ 482 _) (range_orders 482 482 _)).
Qed.

Lemma metrics_text_orders v : @formatMetricsResult o1 v = @formatMetricsResult o2 v.
Proof. unfold formatMetricsResult. by rewrite insight_rows_orders, insights_orders. Qed.

(** The text a client is answered is the same whatever the order in which the
    maps of the results are visited: the keys are sorted, the node that was
    stale the longest is the one with the smallest name among the longest, and
    the durations of a node add up alike. *)
Theorem answer_text_order_free raw d : @formatCommandResult o1 raw d = @formatCommandResult o2 raw d.
Proof.
  unfold formatCommandResult. destruct d as [| | | | | | | | | |v| | |]; try done. by rewrite metrics_text_orders.
Qed.
End Orders.

(** ** What a line is answered *)

(** The text of the data of a reply. *)
Definition present `{RangeOrder} (d : ReplyData) : list Out :=
  match d with
  | DNodes nodes => formatNodesTable nodes
  | DClusters cs => formatClustersTable cs
  | DMetrics v => formatMetricsResult v
  | d => [OPrint d]
  end.

Lemma commandName_line name args :
  forallb is_word (name :: args) = true → name ≠ "cp" → commandName (Join (name :: args) " ") = name.
Proof.
  intros Hw Hcp. unfold commandName. rewrite TrimSpace_Join, Fields_Join by done. by rewrite bool_decide_false.
Qed.

Lemma commandName_render drop c :
  spoken drop c → Some (commandName (render drop c)) = head (render_words drop c).
Proof.
  intros Hc. pose proof (render_is_words drop c Hc) as Hw. pose proof (render_head drop c Hc) as Hh. unfold render.
  destruct (render_words drop c) as [|name args]; [done|]. apply String.eqb_neq in Hh. by rewrite commandName_line.
Qed.

(** The name of the line and the type of the data choose the same table. *)
Lemma format_render `{RangeOrder} drop c d :
  spoken drop c → reply_shape (cmd_Type c) d = true → formatCommandResult (render drop c) d = present d.
Proof.
  intros Hc. pose proof (commandName_render drop c Hc) as Hn. unfold render_words in Hn. unfold formatCommandResult, present.
  destruct (cmd_Type c), d; try done; intros _; cbn in Hn; injection Hn as ->; done.
Qed.

Section Handler.
Context {W : Type} `{RangeOrder, Protobuf, NodeOperator W, Clock W, Processes W}.
Context (ns : fault_session W) (ReadFile : string → W → result string) (decode : string → result Experiment).

(** The answer to a command, of the reply of the actor. *)
Definition answer_to (r : CommandResult) : Z * CommandAnswer :=
  match cr_Error r, cr_Data r with
  | Some e, _ => (StatusBadRequest, CError e)
  | None, None => (StatusOK, CText [OLine "ok"])
  | None, Some d => (StatusOK, CText (present d))
  end.

(** C29: A line that says a command, sent by a client that may use the listener,
    runs the command, and is answered with its error as a bad request, with the
    table of its data where the data has one, with the data otherwise, and with
    ok when there is none. *)
Theorem command_line_answer cfg r drop c st st' res :
  cr_Method r = POST → authorizeCommandListener r (cl_AuthToken cfg) = true →
  cr_Body r = Ok (render drop c) → spoken drop c → handle ns ReadFile decode c st = Done (st', res) →
  handle_command ns ReadFile decode cfg r st = Done (st', answer_to res).
Proof.
  intros Hm Ha Hb Hc Hh. unfold handle_command. rewrite Hm, Ha, Hb. cbn [negb].
  rewrite (bool_decide_true (POST = POST)) by done. cbn [negb].
  pose proof (render_is_words drop c Hc) as Hw. assert (TrimSpace (render drop c) = render drop c) as -> by by apply TrimSpace_Join.
  rewrite bool_decide_false.
  2: { unfold render. destruct (render_words drop c) as [|name args] eqn:Hr; [by pose proof (render_head drop c Hc) as Hn; rewrite Hr in Hn|].
       apply Join_non_empty, word_non_empty. by apply andb_true_iff in Hw as [? _]. }
  unfold ExecuteRuntimeCommand. rewrite runtime_render, Hh by done.
  pose proof (handle_typed ns ReadFile decode c st st' res Hh) as Ht. unfold well_typed in Ht. unfold answer_to.
  destruct (cr_Error res); [done|]. destruct (cr_Data res) as [d|]; [|done]. destruct Ht as [Ht _]. by rewrite format_render.
Qed.

(** A client that shows neither the token nor it as a bearer is refused, and
    nothing changes: its command does not reach the actor. *)
Theorem unauthorized_changes_nothing cfg r st :
  let token := cl_AuthToken cfg in
  TrimSpace token ≠ EmptyString → cr_CommandToken r ≠ token → cr_Authorization r ≠ "Bearer " +:+ token →
  ∃ e, handle_command ns ReadFile decode cfg r st =
       Done (st, (if bool_decide (cr_Method r = POST) then StatusUnauthorized else StatusMethodNotAllowed, CError e)).
Proof.
  intros token Ht Hc Ha. unfold handle_command. destruct (bool_decide (cr_Method r = POST)); cbn [negb]; [|by eexists].
  fold token. assert (authorizeCommandListener r token = false) as ->; [|by eexists].
  unfold authorizeCommandListener. rewrite !bool_decide_false by done. destruct (HasPrefix _ _) eqn:Hp; [|done].
  apply bool_decide_eq_false. intros He. apply Ha. rewrite <-He. by apply HasPrefix_cut.
Qed.
End Handler.

(** ** Concrete runs *)

#[local] Existing Instance canonical_order.
#[local] Existing Instance demo_peers.
#[local] Existing Instance demo_sends.
#[local] Existing Instance demo_protobuf.
#[local] Existing Instance server_gossip_codec.
#[local] Existing Instance server_membership_codec.
#[local] Existing Instance server_env.
#[local] Existing Instance network_clock.
#[local] Existing Instance network_processes.

Definition demo_listener : CommandListenerConfig := {| cl_Port := 9091; cl_AuthToken := "secret" |}.

Definition list_request (auth : string) : CommandRequest :=
  {| cr_Method := POST; cr_CommandToken := EmptyString; cr_Authorization := auth; cr_Body := Ok "list-clusters" |}.

Definition list_answer : list Out :=
  let row id port := {| nr_ID := id; nr_Address := "localhost"; nr_Port := port; nr_Status := "active"; nr_Crashed := false;
                        nr_Drop := f64_zero; nr_DelayMs := 0; nr_Partitions := 0 |} in
  [OClusters [("c1", "gossip", 2)]; OLine EmptyString; OLine "[c1] protocol=gossip"; ONodes [row "a" 9001; row "b" 9002]].

Lemma command_line_answer_witness :
  ∃ st', handle_command (Some session_SetFaultParams) no_file no_yaml demo_listener (list_request "Bearer secret") (two_nodes, two_actor)
         = Done (st', (200, CText list_answer)).
Proof.
  destruct (handle (Some session_SetFaultParams) no_file no_yaml (NewCommand CmdListClusters) (two_nodes, two_actor)) as [[st' res]|] eqn:Hh;
    [|by vm_compute in Hh].
  exists st'. rewrite (command_line_answer (Some session_SetFaultParams) no_file no_yaml demo_listener (list_request "Bearer secret")
    EmptyString (NewCommand CmdListClusters) (two_nodes, two_actor) st' res eq_refl eq_refl eq_refl (say_list_clusters _) Hh).
  assert (answer_to res = (200, CText list_answer)) as ->; [|done].
  assert (match handle (Some session_SetFaultParams) no_file no_yaml (NewCommand CmdListClusters) (two_nodes, two_actor) with
          | Done (_, res) => answer_to res = (200, CText list_answer) | Panic _ => False end) as Ha by (vm_compute; reflexivity).
  by rewrite Hh in Ha.
Defined.

Lemma unauthorized_changes_nothing_witness :
  ∃ e, handle_command (Some session_SetFaultParams) no_file no_yaml demo_listener (list_request "Bearer guess") (two_nodes, two_actor)
       = Done ((two_nodes, two_actor), (401, CError e)).
Proof.
  by apply (unauthorized_changes_nothing (Some session_SetFaultParams) no_file no_yaml demo_listener (list_request "Bearer guess")).
Defined.
