(* ===== verification/ListenerReflect.v ===== *)
(** * The listener on dynamic values (internal/controlplane/command_listener.go)

    The code that writes the tables of clusters and of metrics gets an empty
    interface and reads it by reflection: fields by name, map keys, kinds.  This
    file has that code on dynamic values, and shows that on the data the actor
    replies with it writes what Listener.v says. *)

From Stdlib Require Import SpecFloat.
From S2P Require Import Prelude GoStrings GoSort GoTime Http Fault Messages Commands Experiment Cluster Metrics Sessions Service World Actor Listener ListenerProps.

(** A value with its kind.  [RDict] is a [map[string]any], [RMap] a map of any
    other type; their entries come in the order MapKeys gives. *)
Inductive rvalue :=
  | RInvalid
  | RString (s : string)
  | RInt (z : Z)                       (* int, int64 and time.Duration *)
  | RUint (z : Z)
  | RFloat (f : spec_float)
  | RBool (b : bool)
  | RTime (t : Z)                      (* time.Time *)
  | RSlice (l : list rvalue)
  | RMap (entries : list (rvalue * rvalue))
  | RDict (entries : list (string * rvalue))
  | RPtr (target : option rvalue)
  | RStruct (fields : list (string * rvalue)).

(** ** Reading *)

Definition named {A} (name : string) (l : list (string * A)) : option A :=
  snd <$> find (λ e, bool_decide (e.1 = name)) l.

Definition readField (v : rvalue) (fieldName : string) : option rvalue :=
  let fields v :=
    match v with
    | RStruct fields =>
        match named fieldName fields with
        | Some RInvalid | None => None
        | Some f => Some f
        end
    | _ => None
    end in
  match v with
  | RPtr None => None
  | RPtr (Some v) => fields v
  | v => fields v
  end.

Definition readStringField (v : rvalue) (fieldName : string) : string :=
  match readField v fieldName with Some (RString s) => s | _ => EmptyString end.

Definition readIntField (v : rvalue) (fieldName : string) : Z :=
  match readField v fieldName with Some (RInt z) => z | _ => 0 end.

Definition readFloatField (v : rvalue) (fieldName : string) : spec_float :=
  match readField v fieldName with Some (RFloat f) => f | _ => f64_zero end.

Definition readBoolField (v : rvalue) (fieldName : string) : bool :=
  match readField v fieldName with Some (RBool b) => b | _ => false end.

Definition readSliceLenField (v : rvalue) (fieldName : string) : Z :=
  match readField v fieldName with Some (RSlice l) => Z.of_nat (length l) | _ => 0 end.

Definition readDurationValue (v : rvalue) (fieldName : string) : Z :=
  match readField v fieldName with Some (RInt d) => d | _ => 0 end.

Definition readDurationPointerValue (v : rvalue) (fieldName : string) : option Z :=
  match readField v fieldName with Some (RPtr (Some (RInt d))) => Some d | _ => None end.

(** The entries of a map that have a text for a key and a whole number for a
    value, in their order. *)
Definition durations (entries : list (rvalue * rvalue)) : list (string * Z) :=
  omap (λ e, match e with (RString node, RInt d) => Some (node, d) | _ => None end) entries.

Definition readStaleDurationMap (v : rvalue) : gmap string Z :=
  match readField v "StaleDurationPerNode" with
  | Some (RMap entries) => foldl (λ m e, <[e.1 := e.2]> m) ∅ (durations entries)
  | _ => ∅
  end.

Definition reflected_TopStaleNode (v : rvalue) : string :=
  match readField v "StaleDurationPerNode" with
  | Some (RMap (e :: entries)) => stale_node (durations (e :: entries))
  | _ => "-"
  end.

(** Only the texts of a list count; a list that is not one of texts gives none. *)
Definition normalizeStringSlice (raw : rvalue) : list string :=
  match raw with
  | RSlice l => sort_Strings (omap (λ v, match v with RString s => Some s | _ => None end) l)
  | _ => []
  end.

(** A pointer is followed, once; nil is skipped. *)
Definition followed (v : rvalue) : option rvalue :=
  match v with RPtr t => t | v => Some v end.

Definition struct_of (v : rvalue) : option rvalue :=
  match followed v with Some (RStruct fields) => Some (RStruct fields) | _ => None end.

Section Format.
Context (print_any : rvalue → string).   (* %v *)

Definition readDurationField (v : rvalue) (fieldName : string) : string :=
  match readField v fieldName with
  | None => "0s"
  | Some (RInt d) => Duration_String d
  | Some f => print_any f
  end.

Definition readDurationPointerField (v : rvalue) (fieldName : string) : string :=
  match readField v fieldName with
  | Some (RPtr (Some (RInt d))) => Duration_String d
  | Some (RPtr (Some e)) => print_any e
  | _ => "-"
  end.

(** ** The table of clusters *)

Definition reflected_node (n : rvalue) : node_row :=
  let fault := default RInvalid (readField n "Fault") in
  {| nr_ID := readStringField n "ID"; nr_Address := readStringField n "Address"; nr_Port := readIntField n "Port";
     nr_Status := readStringField n "Status"; nr_Crashed := readBoolField fault "Crashed";
     nr_Drop := readFloatField fault "DropRate"; nr_DelayMs := readIntField fault "DelayMs";
     nr_Partitions := readSliceLenField fault "Partition" |}.

Definition nodes_of (c : rvalue) : list rvalue :=
  match readField c "Nodes" with Some (RSlice l) => l | _ => [] end.

Definition reflected_cluster_part (c : rvalue) : list Out :=
  OLine EmptyString :: OLine ("[" +:+ readStringField c "ID" +:+ "] protocol=" +:+ readStringField c "Protocol") ::
  match nodes_of c with
  | [] => [OLine "  no nodes"]
  | nodes => [ONodes (reflected_node <$> sort_named (λ n, readStringField n "ID") (omap struct_of nodes))]
  end.

(** [None] when the value is not such a table. *)
Definition reflected_ClustersTable (res : rvalue) : option (list Out) :=
  match followed res with
  | Some (RSlice []) => Some [OLine "no clusters found"]
  | Some (RSlice l) =>
      match omap struct_of l with
      | [] => None
      | items =>
          let items := sort_named (λ c, readStringField c "ID") items in
          Some (OClusters ((λ c, (readStringField c "ID", readStringField c "Protocol", Z.of_nat (length (nodes_of c)))) <$> items)
                :: (items ≫= reflected_cluster_part))
      end
  | _ => None
  end.

(** ** The metrics *)

Definition reflected_row (key : string) (resultVal : rvalue) : metricsInsightRow * key_row :=
  ({| ir_Key := key; ir_Final := readBoolField resultVal "FinalConsistent";
      ir_Convergence := readDurationPointerValue resultVal "ConvergenceTime";
      ir_Peak := readIntField resultVal "PeakDivergence"; ir_AUC := readDurationValue resultVal "AreaUnderDivergence";
      ir_TopStale := reflected_TopStaleNode resultVal; ir_StaleByNode := readStaleDurationMap resultVal |},
   {| kr_Key := key; kr_Final := readBoolField resultVal "FinalConsistent";
      kr_Convergence := readDurationPointerField resultVal "ConvergenceTime";
      kr_Peak := readIntField resultVal "PeakDivergence"; kr_AUC := readDurationField resultVal "AreaUnderDivergence";
      kr_TopStale := reflected_TopStaleNode resultVal |}).

(** [MapIndex] *)
Definition map_index (entries : list (rvalue * rvalue)) (key : string) : option rvalue :=
  snd <$> find (λ e, match e.1 with RString k => bool_decide (k = key) | _ => false end) entries.

(** The time.Time that was never set. *)
Definition zero_time : Z := - 62135596800 * ns_per_second.

Definition reflected_MetricsResult `{RangeOrder} (res : rvalue) : option (list Out) :=
  match res with
  | RDict payload =>
      let clusterID := match named "clusterId" payload with Some (RString s) => s | _ => EmptyString end in
      let startedAt := match named "startedAt" payload with Some (RTime t) => t | _ => zero_time end in
      let stoppedAt := match named "stoppedAt" payload with
                       | Some (RPtr (Some (RTime t))) | Some (RTime t) => Some t
                       | _ => None
                       end in
      let tracked := normalizeStringSlice (default RInvalid (named "trackedKeys" payload)) in
      Some ([OMetrics clusterID startedAt stoppedAt;
             OLine ("tracked keys: " +:+ if bool_decide (tracked = []) then "(none)" else Join tracked ", ")] ++
        match named "results" payload with
        | Some (RMap (e :: entries)) =>
            let entries := e :: entries in
            let keys := sort_Strings (omap (λ e, match e.1 with RString k => Some k | _ => None end) entries) in
            let rows := omap (λ key, resultVal ← map_index entries key; reflected_row key <$> followed resultVal) keys in
            OKeys rows.*2 :: appendMetricsInsights rows.*1
        | _ => [OLine "no per-key metrics yet"]
        end)
  | _ => None
  end.
End Format.

(** ** The data of the actor as dynamic values *)

Definition fault_value (f : FaultState) : rvalue :=
  RStruct [("Crashed", RBool (fs_Crashed f)); ("DropRate", RFloat (fs_DropRate f)); ("DelayMs", RInt (fs_DelayMs f));
           ("Partition", RSlice (RString <$> fs_Partition f))].

Definition capabilities_value (c : NodeActionCapabilities) : rvalue :=
  RStruct [("KVPut", RBool (KVPut c)); ("KVGet", RBool (KVGet c)); ("KVDelete", RBool (KVDelete c))].

(** NodeInfo of the actor *)
Definition node_value (n : Node) : rvalue :=
  RStruct [("ID", RString (n_ID n)); ("Address", RString (n_Address n)); ("Port", RInt (n_Port n));
           ("Status", RString (n_Status n)); ("Fault", fault_value (n_Fault n));
           ("ActiveProtocolKey", RString (n_ActiveProtocolKey n)); ("ActiveProtocolEpoch", RUint (n_ActiveProtocolEpoch n));
           ("Capabilities", capabilities_value (n_Capabilities n)); ("CapabilitiesAt", RInt (n_CapabilitiesAt n))].

Definition cluster_value (c : ClusterInfo) : rvalue :=
  RStruct [("ID", RString (ci_ID c)); ("Protocol", RString (ci_Protocol c)); ("Nodes", RSlice (node_value <$> ci_Nodes c))].

Section Values.
Context `{RangeOrder}.

(** The other fields of a result are not read; they are left out. *)
Definition result_value (r : Result) : rvalue :=
  RStruct [("ConvergenceTime", RPtr (RInt <$> ConvergenceTime r)); ("FinalConsistent", RBool (FinalConsistent r));
           ("PeakDivergence", RInt (PeakDivergence r)); ("AreaUnderDivergence", RInt (AreaUnderDivergence r));
           ("StaleDurationPerNode", RMap ((λ e, (RString e.1, RInt e.2)) <$> range 593 (StaleDurationPerNode r)))].

Definition metrics_value (v : MetricsView) : rvalue :=
  RDict [("isActive", RBool (mv_isActive v)); ("clusterId", RString (mv_clusterId v)); ("startedAt", RTime (mv_startedAt v));
         ("stoppedAt", RPtr (RTime <$> mv_stoppedAt v)); ("trackedKeys", RSlice (RString <$> mv_trackedKeys v));
         ("results", RMap ((λ e, (RString e.1, result_value e.2)) <$> range 387 (mv_results v)))].
End Values.

(** ** The two agree *)

Lemma insert_named_fmap {A B} (f : A → B) (name : B → string) x (l : list A) :
  insert_named name (f x) (f <$> l) = f <$> insert_named (λ a, name (f a)) x l.
Proof. induction l as [|y l IH]; [done|]. cbn. destruct (str_lt _ _); [|done]. cbn. by rewrite <-IH. Qed.

Lemma sort_named_fmap {A B} (f : A → B) (name : B → string) (l : list A) :
  sort_named name (f <$> l) = f <$> sort_named (λ a, name (f a)) l.
Proof.
  induction l as [|x l IH]; [done|]. cbn [fmap list_fmap]. unfold sort_named in *. cbn [foldr]. by rewrite IH, insert_named_fmap.
Qed.

Lemma omap_fmap_some {A B C} (f : A → B) (g : B → option C) (h : A → C) (l : list A) :
  (∀ a, g (f a) = Some (h a)) → omap g (f <$> l) = h <$> l.
Proof. intros Hg. induction l as [|a l IH]; [done|]. cbn. rewrite Hg. by f_equal. Qed.

Lemma struct_node n : struct_of (node_value n) = Some (node_value n).
Proof. done. Qed.
Lemma struct_cluster c : struct_of (cluster_value c) = Some (cluster_value c).
Proof. done. Qed.

Lemma reflected_node_value n : reflected_node (node_value n) = row_of_node n.
Proof.
  transitivity {| nr_ID := n_ID n; nr_Address := n_Address n; nr_Port := n_Port n; nr_Status := n_Status n;
     nr_Crashed := fs_Crashed (n_Fault n); nr_Drop := fs_DropRate (n_Fault n); nr_DelayMs := fs_DelayMs (n_Fault n);
     nr_Partitions := Z.of_nat (length (RString <$> fs_Partition (n_Fault n))) |}; [reflexivity|].
  by rewrite length_fmap.
Qed.

Lemma reflected_part c : reflected_cluster_part (cluster_value c) = cluster_part c.
Proof.
  unfold reflected_cluster_part, cluster_part. cbn [readStringField readField cluster_value named find fst snd].
  do 2 f_equal.
  change (nodes_of (cluster_value c)) with (node_value <$> ci_Nodes c).
  destruct (ci_Nodes c) as [|n nodes] eqn:Hn; [done|]. cbn [fmap list_fmap]. rewrite <-!fmap_cons.
  rewrite (omap_fmap_some node_value struct_of node_value) by done. rewrite sort_named_fmap, <-list_fmap_compose.
  do 2 f_equal. apply list_fmap_ext. intros i m _. apply reflected_node_value.
Qed.

Lemma reflected_clusters cs : reflected_ClustersTable (RSlice (cluster_value <$> cs)) = Some (formatClustersTable cs).
Proof.
  unfold reflected_ClustersTable. cbn [followed]. destruct cs as [|c cs]; [done|].
  rewrite (omap_fmap_some cluster_value struct_of cluster_value) by done. cbn [fmap list_fmap]. rewrite <-!fmap_cons.
  rewrite sort_named_fmap, <-list_fmap_compose. unfold formatClustersTable. f_equal. cbv zeta. f_equal.
  - f_equal. apply list_fmap_ext. intros i d _.
    change ((ci_ID d, ci_Protocol d, Z.of_nat (length (node_value <$> ci_Nodes d))) = (ci_ID d, ci_Protocol d, Z.of_nat (length (ci_Nodes d)))).
    by rewrite length_fmap.
  - change (sort_named (λ a, readStringField (cluster_value a) "ID")) with (sort_named ci_ID).
    generalize (sort_named ci_ID (c :: cs)). intros l. induction l as [|d l IH]; [done|].
    change (reflected_cluster_part (cluster_value d) ++ ((cluster_value <$> l) ≫= reflected_cluster_part) = cluster_part d ++ (l ≫= cluster_part)).
    by rewrite reflected_part, IH.
Qed.

Section Agree.
Context `{RangeOrder} (print_any : rvalue → string).

Definition text_entries {V} (f : V → rvalue) (l : list (string * V)) : list (rvalue * rvalue) := (λ e, (RString e.1, f e.2)) <$> l.

Lemma durations_entries l : durations (text_entries RInt l) = l.
Proof. unfold durations, text_entries. rewrite (omap_fmap_some _ _ id); [apply list_fmap_id|by intros []]. Qed.

Lemma insert_all {V} (l : list (string * V)) (m : gmap string V) : NoDup l.*1 →
  foldl (λ m e, <[e.1 := e.2]> m) m l = list_to_map l ∪ m.
Proof.
  revert m. induction l as [|[k v] l IH]; intros m; cbn [foldl fmap list_fmap list_to_map foldr fst snd]; [by rewrite (left_id_L ∅ (∪))|].
  intros [Hk Hnd]%NoDup_cons. rewrite IH by done. change (list_to_map ((k, v) :: l)) with (<[k := v]> (list_to_map l : gmap string V)).
  rewrite <-insert_union_l, insert_union_r; [done|]. by apply not_elem_of_list_to_map_1.
Qed.

Lemma stale_map r : readStaleDurationMap (result_value r) = StaleDurationPerNode r.
Proof.
  change (readStaleDurationMap (result_value r)) with
    (foldl (λ (m : gmap string Z) e, <[e.1 := e.2]> m) ∅ (durations (text_entries RInt (range 593 (StaleDurationPerNode r))))).
  rewrite durations_entries, insert_all by apply range_NoDup. by rewrite range_to_map, (right_id_L ∅ (∪)).
Qed.

Lemma top_stale r : reflected_TopStaleNode (result_value r) = readTopStaleNode r.
Proof.
  change (reflected_TopStaleNode (result_value r)) with
    (match text_entries RInt (range 593 (StaleDurationPerNode r)) with e :: entries => stale_node (durations (e :: entries)) | [] => "-" end).
  unfold readTopStaleNode. case_bool_decide as He.
  - rewrite He. assert (range 593 (∅ : gmap string Z) = []) as ->; [|done].
    apply Permutation_nil_r. rewrite range_perm. by rewrite map_to_list_empty.
  - destruct (range 593 (StaleDurationPerNode r)) as [|e entries] eqn:Hr; [by destruct He; apply (range_nil_inv 593)|].
    cbn [text_entries fmap list_fmap]. change ((RString e.1, RInt e.2) :: _) with (text_entries RInt (e :: entries)).
    rewrite durations_entries. apply stale_node_perm. by rewrite <-Hr, !range_perm.
Qed.

Lemma reflected_row_value key r :
  reflected_row print_any key (result_value r) = (insight_row key r, key_cells (insight_row key r)).
Proof.
  unfold reflected_row. rewrite top_stale, stale_map. unfold insight_row, key_cells. cbn [ir_Key ir_Final ir_Convergence ir_Peak ir_AUC ir_TopStale].
  by destruct (ConvergenceTime r) as [d|] eqn:Hc; unfold readDurationPointerValue, readDurationPointerField; cbn; rewrite Hc.
Qed.

Lemma map_index_entries {V} (f : V → rvalue) n (m : gmap string V) key :
  map_index (text_entries f (range n m)) key = f <$> m !! key.
Proof.
  unfold map_index. pose proof (elem_of_range n m key) as Hin. pose proof (range_NoDup n m) as Hnd. revert Hin Hnd.
  generalize (range n m). intros l Hin Hnd.
  assert (∀ o : option V, (∀ v, (key, v) ∈ l ↔ o = Some v) → snd <$> find (λ e : rvalue * rvalue, match e.1 with RString k => bool_decide (k = key) | _ => false end) (text_entries f l) = f <$> o) as Hfind; [|by apply Hfind].
  clear Hin m. induction l as [|[k v] l IH]; intros o Ho.
  { destruct o as [v|]; [|done]. by destruct (not_elem_of_nil (key, v) (proj2 (Ho v) eq_refl)). }
  apply NoDup_cons in Hnd as [Hk Hnd]. unfold text_entries. cbn [fmap list_fmap find fst snd]. case_bool_decide as Hkey.
  - subst k. assert (o = Some v) as -> by (apply Ho; left). done.
  - fold (text_entries f l). apply (IH Hnd). intros v'. rewrite <-Ho, elem_of_cons. split; [by right|]. intros [[=]|]; [by subst|done].
Qed.

Lemma fmap_omap {A B C} (f : B → C) (g : A → option B) (l : list A) : f <$> omap g l = omap (λ x, f <$> g x) l.
Proof. induction l as [|x l IH]; [done|]. cbn. destruct (g x); cbn; by rewrite <-IH. Qed.

Lemma reflected_rows (m : gmap string Result) (keys : list string) :
  omap (λ key, resultVal ← map_index (text_entries result_value (range 387 m)) key; reflected_row print_any key <$> followed resultVal) keys =
  (λ row, (row, key_cells row)) <$> omap (λ key, insight_row key <$> m !! key) keys.
Proof.
  rewrite fmap_omap. apply list_omap_ext, Forall2_same_length_lookup_2; [done|]. intros i k k' Hk Hk'. simplify_eq.
  rewrite map_index_entries. destruct (m !! k) as [r|]; [|done].
  change (Some (reflected_row print_any k (result_value r)) = Some (insight_row k r, key_cells (insight_row k r))).
  by rewrite reflected_row_value.
Qed.

Lemma text_keys {V} (f : V → rvalue) (l : list (string * V)) :
  omap (λ e : rvalue * rvalue, match e.1 with RString k => Some k | _ => None end) (text_entries f l) = l.*1.
Proof. unfold text_entries. by rewrite (omap_fmap_some _ _ fst). Qed.

Lemma normalize_texts (l : list string) : normalizeStringSlice (RSlice (RString <$> l)) = sort_Strings l.
Proof. unfold normalizeStringSlice. rewrite (omap_fmap_some _ _ id); [by rewrite list_fmap_id|done]. Qed.

Lemma reflected_metrics v : reflected_MetricsResult print_any (metrics_value v) = Some (formatMetricsResult v).
Proof.
  transitivity (let tracked := normalizeStringSlice (RSlice (RString <$> mv_trackedKeys v)) in
    Some ([OMetrics (mv_clusterId v) (mv_startedAt v) (mv_stoppedAt v);
           OLine ("tracked keys: " +:+ if bool_decide (tracked = []) then "(none)" else Join tracked ", ")] ++
      match text_entries result_value (range 387 (mv_results v)) with
      | e :: entries =>
          let keys := sort_Strings (omap (λ e : rvalue * rvalue, match e.1 with RString k => Some k | _ => None end) (e :: entries)) in
          let rows := omap (λ key, resultVal ← map_index (e :: entries) key; reflected_row print_any key <$> followed resultVal) keys in
          OKeys rows.*2 :: appendMetricsInsights rows.*1
      | [] => [OLine "no per-key metrics yet"]
      end)).
  { unfold metrics_value. destruct (mv_stoppedAt v); by destruct (text_entries result_value (range 387 (mv_results v))) eqn:He;
      unfold text_entries in He; rewrite He. }
  cbv zeta. rewrite normalize_texts. unfold formatMetricsResult. cbv zeta. f_equal. f_equal.
  case_bool_decide as He.
  - assert (range 387 (mv_results v) = []) as ->; [|done].
    rewrite He. apply Permutation_nil_r. rewrite range_perm. by rewrite map_to_list_empty.
  - destruct (range 387 (mv_results v)) as [|e entries] eqn:Hr; [by destruct He; apply (range_nil_inv 387)|].
    change (text_entries result_value (e :: entries)) with ((RString e.1, result_value e.2) :: text_entries result_value entries).
    cbv iota. change ((RString e.1, result_value e.2) :: text_entries result_value entries) with (text_entries result_value (e :: entries)).
    rewrite text_keys, <-Hr, reflected_rows, <-!list_fmap_compose.
    rewrite (sort_Strings_unique (range 387 (mv_results v)).*1 (range 393 (mv_results v)).*1) by (by rewrite !range_perm).
    fold (insight_rows (mv_results v)). by rewrite list_fmap_id.
Qed.
End Agree.

(** C30: The code that reads the replies of the actor by reflection writes the
    tables of the typed model, for the clusters and for the metrics, and does so
    whatever order MapKeys gives the entries of the maps in, and whatever order
    the typed model visits them in: a client is answered the same text. *)
Theorem reflection_agrees (o1 o2 : RangeOrder) (print_any : rvalue → string) cs v :
  reflected_ClustersTable (RSlice (cluster_value <$> cs)) = Some (formatClustersTable cs) ∧
  @reflected_MetricsResult print_any o1 (@metrics_value o1 v) = Some (@formatMetricsResult o2 v).
Proof.
  split; [apply reflected_clusters|]. rewrite reflected_metrics. f_equal. apply metrics_text_orders.
Qed.
