(* ===== verification/ListenerText.v ===== *)
(** * The text of an answer (internal/controlplane/command_listener.go)

    What the parts of an answer look like once they are written: the tables are
    laid out by text/tabwriter, rates have two decimals and times are in the
    layout RFC3339.  The offset of the local time zone at a time and the text
    [%+v] makes of data without a table are arguments.  A client can read the
    tables back. *)

From Stdlib Require Import SpecFloat.
From S2P Require Import Prelude GoStrings GoSort GoTime GoFmt TabWriter Http Fault Messages Commands CommandProps Experiment Cluster Metrics Sessions Service World Actor Listener.

Definition written_table (header : list string) (rows : list (list string)) : string := tabulate (table_text (header :: rows)).

Definition node_header : list string := ["ID"; "ADDRESS"; "PORT"; "STATUS"; "CRASHED"; "DROP"; "DELAY_MS"; "PARTITIONS"].

Definition node_cells (r : node_row) : list string :=
  [nr_ID r; nr_Address r; itoa (nr_Port r); nr_Status r; btoa (nr_Crashed r); fixed2 (nr_Drop r); itoa (nr_DelayMs r);
   itoa (nr_Partitions r)].

Definition cluster_header : list string := ["CLUSTER_ID"; "PROTOCOL"; "NODES"].

Definition cluster_cells (c : string * string * Z) : list string := [c.1.1; c.1.2; itoa c.2].

Definition key_header : list string := ["KEY"; "FINAL"; "CONVERGENCE"; "PEAK"; "AUC"; "TOP_STALE"].

Definition key_line (r : key_row) : list string :=
  [kr_Key r; btoa (kr_Final r); kr_Convergence r; itoa (kr_Peak r); kr_AUC r; kr_TopStale r].

Definition line_feed : Ascii.ascii := Ascii.ascii_of_nat 10.

Section Text.
Context (zone : Z → Z) (print_data : ReplyData → string).

Definition time_text (t : Z) : string := RFC3339 (zone (t / ns_per_second)) t.

Definition render_out (o : Out) : string :=
  match o with
  | OLine s => s +:+ newline
  | ONodes rows => written_table node_header (node_cells <$> rows)
  | OClusters rows => written_table cluster_header (cluster_cells <$> rows)
  | OKeys rows => written_table key_header (key_line <$> rows)
  | OMetrics clusterID started stopped =>
      "METRICS cluster=" +:+ clusterID +:+ " started=" +:+ time_text started +:+ " stopped=" +:+
      match stopped with Some t => time_text t | None => "active" end +:+ newline
  | OPrint d => print_data d +:+ newline
  end.

Definition answer_text (t : list Out) : string := foldr (λ o s, render_out o +:+ s) EmptyString t.

(** ** The tables are read back *)

Lemma plain_cell s : str_forallb plain s = true → s ≠ EmptyString → cell_word s = true.
Proof.
  intros Hp Hne. unfold cell_word, is_word. rewrite plain_no_space by done. apply andb_true_iff. split; [by destruct s|].
  eapply str_forallb_impl; [|exact Hp]. intros a Ha. apply negb_true_iff, Ascii.eqb_neq. intros ->. by vm_compute in Ha.
Qed.

Lemma itoa_cell z : cell_word (itoa z) = true.
Proof. destruct (itoa_bytes plain z is_digit_plain eq_refl) as [Hp Hne]. by apply plain_cell. Qed.

Lemma btoa_cell b : cell_word (btoa b) = true.
Proof. by destruct b. Qed.

Lemma pad_int_plain n z : str_forallb plain (pad_int n z) = true.
Proof.
  unfold pad_int. rewrite !str_forallb_app. destruct (itoa_bytes plain (Z.abs z) is_digit_plain eq_refl) as [-> _].
  assert (∀ k, str_forallb plain (zeros k) = true) as -> by (by induction k). by destruct (z <? 0).
Qed.

Lemma fixed2_cell f : cell_word (fixed2 f) = true.
Proof.
  destruct f as [[]|[]| |s m e]; [by vm_compute..|]. cbn [fixed2].
  destruct (itoa_bytes plain (hundredths (Z.pos m) e / 100) is_digit_plain eq_refl) as [Hp Hne]. apply plain_cell.
  - rewrite !str_forallb_app, Hp, pad_int_plain. by destruct s.
  - destruct s; [done|]. by destruct (itoa (hundredths (Z.pos m) e / 100)).
Qed.

(** The words of the lines of a text are these, whatever follows it. *)
Definition reads (text : string) (rows : list (list string)) : Prop :=
  ∀ t, Fields <$> Split (text +:+ t) line_feed = rows ++ (Fields <$> Split t line_feed).

Lemma reads_app text text' rows rows' : reads text rows → reads text' rows' → reads (text +:+ text') (rows ++ rows').
Proof. intros Hr Hr' t. by rewrite <-append_assoc, Hr, Hr', <-app_assoc. Qed.

Lemma reads_all text rows : reads text rows → Fields <$> Split text line_feed = rows ++ [[]].
Proof. intros Hr. specialize (Hr EmptyString). by rewrite append_nil_r in Hr. Qed.

Lemma reads_line s ws : s = Join ws " " → forallb is_word ws = true → reads (render_out (OLine s)) [ws].
Proof.
  intros -> Hw t. cbn [render_out]. rewrite <-append_assoc. change (newline +:+ t) with (String line_feed t).
  rewrite Split_app; [cbn [fmap list_fmap]; by rewrite Fields_Join|]. unfold byte_free. apply str_forallb_Join; [done|].
  apply forallb_elem_of. intros w Hin. rewrite forallb_elem_of in Hw. apply (no_space_free line_feed); [done|].
  by apply word_no_space, Hw.
Qed.

Lemma reads_table k header rows :
  (1 ≤ k)%nat → Forall (λ row, forallb cell_word row = true ∧ length row = S k) (header :: rows) →
  reads (written_table header rows) (header :: rows).
Proof. intros Hk Hrows t. unfold written_table. by rewrite (table_reads_back k). Qed.

Lemma answer_text_app l l' : answer_text (l ++ l') = answer_text l +:+ answer_text l'.
Proof. induction l as [|o l IH]; [done|]. cbn [answer_text foldr app]. unfold answer_text in IH. by rewrite IH, append_assoc. Qed.

(** The names of a node are words: not empty, without white space or the escape
    byte of the table writer. *)
Definition node_words (n : Node) : Prop :=
  cell_word (n_ID n) = true ∧ cell_word (n_Address n) = true ∧ cell_word (n_Status n) = true.

Definition cluster_words (c : ClusterInfo) : Prop :=
  cell_word (ci_ID c) = true ∧ cell_word (ci_Protocol c) = true ∧ Forall node_words (ci_Nodes c).

Lemma reads_nodes nodes : Forall node_words nodes →
  reads (render_out (ONodes (row_of_node <$> nodes))) (node_header :: (node_cells <$> (row_of_node <$> nodes))).
Proof.
  intros Hn. apply (reads_table 7); [lia|]. constructor; [by vm_compute|]. apply Forall_fmap, Forall_fmap.
  eapply Forall_impl; [exact Hn|]. intros m (Hi & Ha & Hs). split; [|done].
  cbn [node_cells row_of_node compose forallb nr_ID nr_Address nr_Port nr_Status nr_Crashed nr_Drop nr_DelayMs nr_Partitions].
  by rewrite Hi, Ha, Hs, !itoa_cell, btoa_cell, fixed2_cell.
Qed.

Lemma insert_named_perm {A} (name : A → string) x l : insert_named name x l ≡ₚ x :: l.
Proof.
  induction l as [|y l IH]; [done|]. cbn [insert_named]. destruct (str_lt (name y) (name x)); [|done].
  rewrite IH. by constructor.
Qed.

Lemma sort_named_perm {A} (name : A → string) l : sort_named name l ≡ₚ l.
Proof. induction l as [|x l IH]; [done|]. cbn. by rewrite insert_named_perm, IH. Qed.

(** A word after letters and before a bracket. *)
Lemma byte_before a s : plain a = true → no_space s = true → no_space (String a s) = true.
Proof.
  unfold plain. intros [Ha Hs]%andb_true_iff Hn. cbn [no_space]. rewrite Hn, andb_true_r. apply negb_true_iff in Hs.
  assert (is_byte 0xC2 a = false ∧ is_byte 0xE1 a = false ∧ is_byte 0xE2 a = false ∧ is_byte 0xE3 a = false) as (HC & H1 & H2 & H3).
  { apply N.ltb_lt in Ha. unfold is_byte. repeat split; apply N.eqb_neq; lia. }
  unfold space_len. rewrite Hs, HC, H1, H2, H3. cbn [andb]. by destruct s as [|? [|? ?]].
Qed.

Lemma text_before p s : str_forallb plain p = true → no_space s = true → no_space (p +:+ s) = true.
Proof.
  intros Hp Hs. induction p as [|a p IH]; [done|]. cbn [str_forallb] in Hp. apply andb_true_iff in Hp as [Ha Hp].
  change (String a p +:+ s) with (String a (p +:+ s)). apply byte_before; [done|by apply IH].
Qed.

(** What a client reads of a cluster below the summary. *)
Definition cluster_lines (c : ClusterInfo) : list (list string) :=
  [] :: ["[" +:+ ci_ID c +:+ "]"; "protocol=" +:+ ci_Protocol c] ::
  match ci_Nodes c with
  | [] => [["no"; "nodes"]]
  | nodes => node_header :: (node_cells <$> (row_of_node <$> sort_named n_ID nodes))
  end.

Lemma cell_is_word s : cell_word s = true → is_word s = true.
Proof. by intros [? _]%andb_true_iff. Qed.

Lemma reads_cluster c : cluster_words c → reads (answer_text (cluster_part c)) (cluster_lines c).
Proof.
  intros (Hi%cell_is_word & Hp%cell_is_word & Hn). unfold cluster_part, cluster_lines.
  apply (reads_app _ _ [[]]); [by apply (reads_line EmptyString [])|]. apply (reads_app _ _ [_]).
  - apply reads_line; [cbn [Join String.concat]; by rewrite <-!append_assoc|].
    cbn [forallb]. unfold is_word. change ("[" +:+ ?x) with (String "[" x). change ("protocol=" +:+ ?x) with (String "p" ("rotocol=" +:+ x)).
    cbn [non_empty andb]. rewrite andb_true_r. apply andb_true_iff. split.
    + apply byte_before; [done|]. rewrite no_space_app; [done|done|by apply word_no_space|done].
    + apply (text_before "protocol="); [done|]. by apply word_no_space.
  - destruct (ci_Nodes c) as [|n nodes] eqn:Hnodes; cbn [answer_text foldr]; rewrite append_nil_r.
    + intros t. reflexivity.
    + apply reads_nodes. by rewrite sort_named_perm.
Qed.

Lemma reads_clusters cs : Forall cluster_words cs → reads (answer_text (cs ≫= cluster_part)) (cs ≫= cluster_lines).
Proof.
  induction 1 as [|c cs Hc _ IH]; [by intros t|]. rewrite !bind_cons, answer_text_app. apply reads_app; [by apply reads_cluster|done].
Qed.

(** C31: A client can read back the answers to list-nodes and list-clusters that are
    not empty, when the names in them (the ids, addresses and statuses of nodes, the
    ids and protocols of clusters) are words: not empty, with no white space and no
    escape byte of the table writer (a name that is empty or has white space shifts
    the words of its line); the tables of metrics-show are not covered. The words of
    the lines of the text for list-nodes are the titles and then, node by node, the
    id, the address, the port, the status, the crash flag, the drop rate with two
    decimals, the delay and the number of partitions. Those of the text for
    list-clusters are such a table of the ids, in order, the protocols and the
    numbers of nodes, and then, cluster by cluster in that order, an empty line, the
    id in brackets with the protocol, and the table of its nodes in the order of
    their ids, or that it has none. *)
Theorem tables_read_back `{RangeOrder} raw nodes cs :
  Forall node_words nodes → Forall cluster_words cs →
  (commandName raw = "list-nodes" → nodes ≠ [] →
   Fields <$> Split (answer_text (formatCommandResult raw (DNodes nodes))) line_feed =
   (node_header :: (node_cells <$> (row_of_node <$> nodes))) ++ [[]]) ∧
  (commandName raw = "list-clusters" → cs ≠ [] →
   Fields <$> Split (answer_text (formatCommandResult raw (DClusters cs))) line_feed =
   ((cluster_header :: ((λ c, [ci_ID c; ci_Protocol c; itoa (Z.of_nat (length (ci_Nodes c)))]) <$> sort_named ci_ID cs)) ++
    (sort_named ci_ID cs ≫= cluster_lines)) ++ [[]]).
Proof.
  intros Hn Hc. split; intros Hname Hne; unfold formatCommandResult; cbv zeta; rewrite Hname, bool_decide_true by done; apply reads_all.
  - destruct nodes as [|n nodes]; [done|]. cbn [formatNodesTable answer_text foldr]. rewrite append_nil_r. by apply reads_nodes.
  - rewrite <-(sort_named_perm ci_ID) in Hc. unfold formatClustersTable. destruct cs as [|c0 cs0] eqn:Hcs; [done|]. rewrite <-Hcs in *. cbv zeta.
    apply reads_app; [|by apply reads_clusters]. cbn [render_out]. rewrite <-list_fmap_compose.
    apply (reads_table 2); [lia|]. constructor; [by vm_compute|]. apply Forall_fmap.
    eapply Forall_impl; [exact Hc|]. intros c (Hi & Hp & _). split; [|done]. cbn [cluster_cells compose forallb fst snd].
    by rewrite Hi, Hp, itoa_cell.
Qed.
End Text.

(** ** A table *)

Definition two_rows : list Node := [newNode "n1" "localhost" 7001 0; newNode "node-two" "h" 7 0].

Definition two_clusters : list ClusterInfo :=
  [{| ci_ID := "c2"; ci_Protocol := "raft"; ci_Nodes := [] |}; {| ci_ID := "c1"; ci_Protocol := "gossip"; ci_Nodes := two_rows |}].

Lemma tables_read_back_witness :
  answer_text (λ _, 0) (λ _, EmptyString) (@formatCommandResult canonical_order "list-nodes c1" (DNodes two_rows)) =
    "ID        ADDRESS    PORT  STATUS  CRASHED  DROP  DELAY_MS  PARTITIONS" +:+ newline +:+
    "n1        localhost  7001  active  false    0.00  0         0" +:+ newline +:+
    "node-two  h          7     active  false    0.00  0         0" +:+ newline ∧
  Fields <$> Split (answer_text (λ _, 0) (λ _, EmptyString) (@formatCommandResult canonical_order "list-nodes c1" (DNodes two_rows)))
      line_feed =
    [node_header; ["n1"; "localhost"; "7001"; "active"; "false"; "0.00"; "0"; "0"];
     ["node-two"; "h"; "7"; "active"; "false"; "0.00"; "0"; "0"]; []] ∧
  Fields <$> Split (answer_text (λ _, 0) (λ _, EmptyString) (@formatCommandResult canonical_order "list-clusters" (DClusters two_clusters)))
      line_feed =
    [cluster_header; ["c1"; "gossip"; "2"]; ["c2"; "raft"; "0"];
     []; ["[c1]"; "protocol=gossip"]; node_header; ["n1"; "localhost"; "7001"; "active"; "false"; "0.00"; "0"; "0"];
     ["node-two"; "h"; "7"; "active"; "false"; "0.00"; "0"; "0"];
     []; ["[c2]"; "protocol=raft"]; ["no"; "nodes"]; []].
Proof.
  split; [by vm_compute|].
  pose proof (λ raw, @tables_read_back (λ _, 0) (λ _, EmptyString) canonical_order raw two_rows two_clusters
    ltac:(repeat constructor) ltac:(repeat constructor)) as Hread. split.
  - rewrite (proj1 (Hread "list-nodes c1")); by vm_compute.
  - rewrite (proj2 (Hread "list-clusters")); by vm_compute.
Defined.
