(* ===== verification/Bootstrap.v ===== *)
(** * The control-plane process (cmd/controlplane/main.go, internal/engine)

    The runtime configuration and the flags, what they make of the control plane,
    and the commands the process runs when it starts.  The YAML decoder is an
    argument: it fills in a configuration and may answer an error.  The servers
    and loops main starts are the other files; here they are the turns
    [settle] the rest of the system takes between two commands. *)

From S2P Require Import Prelude GoStrings GoTime GoFlag Fault Messages Commands CommandProps Experiment ExperimentProps Cluster Metrics Sessions Service World Actor Listener.

(** ** runtime_config.go *)

Record ControlPlaneSection := {
  rc_Enabled : bool; rc_Port : Z; rc_NodeCleanupTimeout : string; rc_CommandPort : Z; rc_CommandAuthToken : string;
}.

Record NodeEntry := {
  ne_ID : string; ne_Port : Z; ne_ClusterID : string; ne_Host : string; ne_PeersCSV : string; ne_CPHost : string; ne_CPPort : Z;
}.

Record RuntimeConfig := {
  rc_ControlPlane : ControlPlaneSection;
  rc_Actor : ActorOptions;
  rc_Nodes : list NodeEntry;
  rc_Bootstrap : list string;
}.

Definition DefaultRuntimeConfig : RuntimeConfig :=
  {| rc_ControlPlane :=
       {| rc_Enabled := true; rc_Port := 9000; rc_NodeCleanupTimeout := "10s"; rc_CommandPort := 9091; rc_CommandAuthToken := EmptyString |};
     rc_Actor := {| ao_ProjectRoot := "."; ao_DefaultCPHost := "localhost"; ao_DefaultCPPort := 9000; ao_NodeBinaryPath := "bin/node" |};
     rc_Nodes := []; rc_Bootstrap := [] |}.

Definition LoadRuntimeConfig (Unmarshal : string → RuntimeConfig → RuntimeConfig * option error) (file : result string) :
    RuntimeConfig * option error :=
  match file with
  | Err e => (DefaultRuntimeConfig, Some (Wrapf "read runtime config: %w" [] e))
  | Ok raw =>
      match Unmarshal raw DefaultRuntimeConfig with
      | (cfg, Some e) => (cfg, Some (Wrapf "parse runtime config yaml: %w" [] e))
      | (cfg, None) => (cfg, None)
      end
  end.

Definition ControlPlaneTimeout (c : RuntimeConfig) : result Z :=
  let text := rc_NodeCleanupTimeout (rc_ControlPlane c) in
  if bool_decide (text = EmptyString) then Ok (10 * ns_per_second)
  else match ParseDuration text with
       | Some d => Ok d
       | None => Err (Errorf "invalid controlplane.node_cleanup_timeout %q: %w" [AStr text])
       end.

(** ** Flags *)

Record cp_flags := {
  pf_config : string; pf_port : Z; pf_http_port : Z; pf_command_port : Z; pf_auth_token : string; pf_heartbeat_timeout : Z;
}.

#[export] Instance cp_flags_settable : Settable cp_flags := λ f,
  Build_cp_flags (pf_config f) (pf_port f) (pf_http_port f) (pf_command_port f) (pf_auth_token f) (pf_heartbeat_timeout f).

Definition default_cp_flags : cp_flags :=
  {| pf_config := EmptyString; pf_port := 9000; pf_http_port := 8080; pf_command_port := 9091; pf_auth_token := EmptyString;
     pf_heartbeat_timeout := 5 * ns_per_second |}.

Definition cp_flag (name : string) : option (flag_kind cp_flags) :=
  if (name =? "config")%string then Some (FString (λ v f, f <| pf_config := v |>))
  else if (name =? "port")%string then Some (FInt (λ v f, f <| pf_port := v |>))
  else if (name =? "http-port")%string then Some (FInt (λ v f, f <| pf_http_port := v |>))
  else if (name =? "command-port")%string then Some (FInt (λ v f, f <| pf_command_port := v |>))
  else if (name =? "command-auth-token")%string then Some (FString (λ v f, f <| pf_auth_token := v |>))
  else if (name =? "heartbeat-timeout")%string then Some (FDuration (λ v f, f <| pf_heartbeat_timeout := v |>))
  else None.

(** ** The configuration of the process (lifecycle.go) *)

Record ControlPlane := {
  p_NodeCleanupTimeout : Z; p_Port : Z; p_CommandPort : Z; p_CommandAuthToken : string; p_options : ActorOptions;
}.

(** The ports and the timeout are the file's where one is named, the flags'
    otherwise; the token flag wins over the file. *)
Definition cp_config (f : cp_flags) (c : RuntimeConfig) (cpTimeout : Z) : ControlPlane :=
  let named := negb (bool_decide (pf_config f = EmptyString)) in
  let s := rc_ControlPlane c in
  {| p_NodeCleanupTimeout := if named then cpTimeout else pf_heartbeat_timeout f;
     p_Port := if named then rc_Port s else pf_port f;
     p_CommandPort := if named then rc_CommandPort s else pf_command_port f;
     p_CommandAuthToken :=
       if negb (bool_decide (pf_auth_token f = EmptyString)) then pf_auth_token f
       else if named then rc_CommandAuthToken s else pf_auth_token f;
     p_options := rc_Actor c |}.

(** The start of main: an error ends the process. *)
Definition configure (Unmarshal : string → RuntimeConfig → RuntimeConfig * option error) (ReadFile : string → result string)
    (args : list string) : result (RuntimeConfig * ControlPlane) :=
  '(f, _) ← parse_flags cp_flag args default_cp_flags;
  let loaded :=
    if bool_decide (pf_config f = EmptyString) then Ok DefaultRuntimeConfig
    else match LoadRuntimeConfig Unmarshal (ReadFile (pf_config f)) with
         | (_, Some e) => Err (Wrapf "failed to load runtime config: %v" [] e)
         | (c, None) => Ok c
         end in
  c ← loaded;
  match ControlPlaneTimeout c with
  | Err e => Err (Wrapf "invalid runtime config: %v" [] e)
  | Ok cpTimeout => Ok (c, cp_config f c cpTimeout)
  end.

(** The actor main creates: no cluster, no process. *)
Definition new_control_plane (p : ControlPlane) : Actor := NewActor (NewClusterService NewManager) (p_options p).

Definition listener_config (p : ControlPlane) : CommandListenerConfig :=
  {| cl_Port := p_CommandPort p; cl_AuthToken := p_CommandAuthToken p |}.

(** ** Bootstrap *)

Definition normalizeDefault (value fallback : string) : string :=
  if bool_decide (TrimSpace value = EmptyString) then fallback else value.
Definition normalizeDefaultInt (value fallback : Z) : Z := if value =? 0 then fallback else value.

Definition bootstrap_line (o : ActorOptions) (n : NodeEntry) : string :=
  "start-node " +:+ ne_ID n +:+ " " +:+ itoa (ne_Port n) +:+ " --cluster-id " +:+ normalizeDefault (ne_ClusterID n) "default"
  +:+ " --host " +:+ normalizeDefault (ne_Host n) "localhost" +:+ " --peers " +:+ ne_PeersCSV n
  +:+ " --cp-host " +:+ normalizeDefault (ne_CPHost n) (ao_DefaultCPHost o)
  +:+ " --cp-port " +:+ itoa (normalizeDefaultInt (ne_CPPort n) (ao_DefaultCPPort o)).

(** An entry without an id or a port is skipped. *)
Definition bootstrap_node (o : ActorOptions) (n : NodeEntry) : option string :=
  if bool_decide (ne_ID n = EmptyString ∨ ne_Port n ≤ 0) then None else Some (bootstrap_line o n).

(** The lines of the process, nodes first. *)
Definition bootstrap_lines (c : RuntimeConfig) (p : ControlPlane) : list string :=
  omap (bootstrap_node (p_options p)) (rc_Nodes c) ++ rc_Bootstrap c.

Section Run.
Context {W : Type} `{RangeOrder, Protobuf, NodeOperator W, Clock W, Processes W}.
Context (ns : fault_session W) (ReadFile : string → W → result string) (decode : string → result Experiment).

Abbreviation St := (W * Actor)%type.

Definition DispatchRuntimeCommand (raw : string) (st : St) : outcome (St * option error) :=
  match ExecuteRuntimeCommand ns ReadFile decode raw st with
  | Panic why => Panic why
  | Done (st, Err e) => Done (st, Some e)
  | Done (st, Ok _) => Done (st, None)
  end.

(** A line that fails is logged and the next one is run; [settle i] is what
    happens before the [i]-th line. *)
Fixpoint run_bootstrap (settle : nat → St → St) (i : nat) (lines : list string) (st : St) : outcome (St * list (option error)) :=
  match lines with
  | [] => Done (st, [])
  | line :: rest =>
      match DispatchRuntimeCommand line (settle i st) with
      | Panic why => Panic why
      | Done (st, e) =>
          match run_bootstrap settle (S i) rest st with
          | Panic why => Panic why
          | Done (st, es) => Done (st, e :: es)
          end
      end
  end.

(** [forwardCommandsToActor] of the engine: the lines of its channel, parsed
    without the word [cp]. *)
Definition forward_command (raw : string) (st : St) : outcome (St * option error) :=
  match Parse raw with
  | Err e => Done (st, Some e)
  | Ok cmd =>
      match handle ns ReadFile decode cmd st with
      | Panic why => Panic why
      | Done (st, r) => Done (st, cr_Error r)
      end
  end.
End Run.

(** ** What the bootstrap lines say *)

(** The command of an entry. *)
Definition bootstrap_command (o : ActorOptions) (n : NodeEntry) : Command :=
  (NewCommand CmdStartNodeProcess) <| cmd_NodeID := ne_ID n |> <| cmd_Port := ne_Port n |>
    <| cmd_ClusterID := normalizeDefault (ne_ClusterID n) "default" |> <| cmd_Host := normalizeDefault (ne_Host n) "localhost" |>
    <| cmd_PeersCSV := ne_PeersCSV n |> <| cmd_CPHost := normalizeDefault (ne_CPHost n) (ao_DefaultCPHost o) |>
    <| cmd_CPPort := normalizeDefaultInt (ne_CPPort n) (ao_DefaultCPPort o) |>.

(** A blank, or a word. *)
Definition blank_or_word (s : string) : Prop := TrimSpace s = EmptyString ∨ word s.

Record plain_entry (o : ActorOptions) (n : NodeEntry) : Prop := {
  pe_id : word (ne_ID n);
  pe_port : 0 < ne_Port n < two63;
  pe_cluster : blank_or_word (ne_ClusterID n);
  pe_host : blank_or_word (ne_Host n);
  pe_cp_host : blank_or_word (ne_CPHost n) ∧ word (ao_DefaultCPHost o);
  pe_cp_port : in_i64 (ne_CPPort n) ∧ in_i64 (ao_DefaultCPPort o);
}.

Lemma normalizeDefault_word value fallback : blank_or_word value → word fallback → word (normalizeDefault value fallback).
Proof.
  intros Hv Hf. unfold normalizeDefault. case_bool_decide as Hb; [done|]. by destruct Hv.
Qed.

(** The line the process runs for a node of its configuration is the start-node
    command of the entry, with the defaults filled in; but an entry without peers
    is refused: the parser takes the next option for the list, and the address of
    the control plane for an option. *)
Theorem bootstrap_line_reads o n :
  plain_entry o n →
  let cpHost := normalizeDefault (ne_CPHost n) (ao_DefaultCPHost o) in
  (word (ne_PeersCSV n) → runtime_command (bootstrap_line o n) = Ok (Some (bootstrap_command o n))) ∧
  (ne_PeersCSV n = EmptyString → cpHost ∉ ["--cluster-id"; "--host"; "--peers"; "--cp-host"; "--cp-port"] →
   runtime_command (bootstrap_line o n) = Err (Errorf "unknown option for start-node: %s" [AStr cpHost])).
Proof.
  intros [Hid Hp Hc Hh [Hch Hdh] [Hcp Hdp]] cpHost.
  assert (word (normalizeDefault (ne_ClusterID n) "default")) as Hcw by by apply normalizeDefault_word.
  assert (word (normalizeDefault (ne_Host n) "localhost")) as Hhw by by apply normalizeDefault_word.
  assert (word cpHost) as Hchw by by apply normalizeDefault_word.
  assert (in_i64 (normalizeDefaultInt (ne_CPPort n) (ao_DefaultCPPort o))) as Hpi by (unfold normalizeDefaultInt; by destruct (_ =? _)).
  assert (in_i64 (ne_Port n)) as Hpo by (unfold in_i64; lia).
  split.
  - intros Hpeers. rewrite <-(runtime_render EmptyString (bootstrap_command o n)).
    + f_equal. unfold render, render_words, bootstrap_command, bootstrap_line. fold cpHost.
      cbn -[Join itoa normalizeDefault normalizeDefaultInt String.append option_words cpHost]. unfold option_words.
      rewrite !bool_decide_false by by apply word_non_empty. reflexivity.
    + constructor; try done; by right.
  - intros Hpeers Hn. unfold bootstrap_line. rewrite Hpeers. by apply no_peers_line.
Qed.

Definition demo_entry (peers : string) : NodeEntry :=
  {| ne_ID := "a"; ne_Port := 9001; ne_ClusterID := EmptyString; ne_Host := " "; ne_PeersCSV := peers; ne_CPHost := EmptyString; ne_CPPort := 0 |}.

Lemma bootstrap_line_reads_witness :
  let o := rc_Actor DefaultRuntimeConfig in
  runtime_command (bootstrap_line o (demo_entry "b:9002")) = Ok (Some (bootstrap_command o (demo_entry "b:9002"))) ∧
  runtime_command (bootstrap_line o (demo_entry EmptyString)) = Err (Errorf "unknown option for start-node: %s" [AStr "localhost"]).
Proof.
  assert (∀ peers, plain_entry (rc_Actor DefaultRuntimeConfig) (demo_entry peers)) as Hp.
  { intros peers. split; try done; try (by left). split; [by left|done]. }
  split.
  - by apply (bootstrap_line_reads _ _ (Hp "b:9002")).
  - apply (bootstrap_line_reads _ _ (Hp EmptyString)); [done|]. by_evaluation.
Defined.
