(* ===== verification/Cli.v ===== *)
(** * The command-line client (cmd/cpcli/main.go)

    What the client does with its arguments and with each line typed at it, and
    the request it sends to the command listener.  A response is its status and
    the answer of the listener, read to its end; what is shown of it is in
    CliScreen.  The transport is an argument: it says which requests are answered
    in time, which fail, and which of those the listener has received. *)

From S2P Require Import Prelude GoStrings GoTime GoFlag Http Fault Messages Commands CommandProps Experiment Cluster Metrics Sessions Service World Actor ControlPlane ActorProps Listener Bootstrap.

Record cli_flags := { lf_host : string; lf_port : Z; lf_token : string; lf_timeout : Z; lf_interactive : bool }.

#[export] Instance cli_flags_settable : Settable cli_flags := λ f,
  Build_cli_flags (lf_host f) (lf_port f) (lf_token f) (lf_timeout f) (lf_interactive f).

Definition default_cli_flags : cli_flags :=
  {| lf_host := "localhost"; lf_port := 9091; lf_token := EmptyString; lf_timeout := 5 * ns_per_second; lf_interactive := false |}.

Definition cli_flag (name : string) : option (flag_kind cli_flags) :=
  if (name =? "host")%string then Some (FString (λ v f, f <| lf_host := v |>))
  else if (name =? "port")%string then Some (FInt (λ v f, f <| lf_port := v |>))
  else if (name =? "token")%string then Some (FString (λ v f, f <| lf_token := v |>))
  else if (name =? "timeout")%string then Some (FDuration (λ v f, f <| lf_timeout := v |>))
  else if (name =? "interactive")%string then Some (FBool (λ v f, f <| lf_interactive := v |>))
  else None.

Definition isLocalHelpCommand (command : string) : bool :=
  bool_decide (TrimSpace (ToLower command) ∈ ["help"; "--help"; "-h"; "?"]).

(** What a line asks of the client. *)
Inductive cli_action := CliNothing | CliExit | CliHelp | CliSend (command : string).

Definition typed_line (line : string) : cli_action :=
  let command := TrimSpace line in
  if bool_decide (command = EmptyString) then CliNothing
  else if bool_decide (command = "exit" ∨ command = "quit") then CliExit
  else if isLocalHelpCommand command then CliHelp
  else CliSend command.

(** The commands an interactive run sends, up to the line that ends it. *)
Fixpoint runInteractive (lines : list string) : list string :=
  match lines with
  | [] => []
  | line :: rest =>
      match typed_line line with
      | CliExit => []
      | CliSend command => command :: runInteractive rest
      | _ => runInteractive rest
      end
  end.

(** What the client sends: the words of its arguments as one command, or the
    lines typed at it. *)
Definition cli_commands (args stdin : list string) : result (cli_flags * list string) :=
  '(f, words) ← parse_flags cli_flag args default_cli_flags;
  let command := TrimSpace (Join words " ") in
  Ok (f,
    if lf_interactive f || bool_decide (command = EmptyString) then runInteractive stdin
    else if isLocalHelpCommand command then []
    else [command]).

Definition command_request (token command : string) : CommandRequest :=
  {| cr_Method := POST; cr_CommandToken := if bool_decide (TrimSpace token = EmptyString) then EmptyString else token;
     cr_Authorization := EmptyString; cr_Body := Ok command |}.

(** How a request fares (client.Do): it is answered, or it fails, because the
    listener is not reached, the answer takes longer than the timeout or the
    connection breaks; the listener may have received it nonetheless. *)
Inductive exchange := Answered | Failed (received : bool) (e : error).

(** What the client prints: an answer as a success or as an error, or an error of
    its own. *)
Inductive cli_result := CliPrinted (a : CommandAnswer) | CliRefused (a : CommandAnswer) | CliFailed (e : error).

Section Session.
Context {W : Type} `{RangeOrder, Protobuf, NodeOperator W, Clock W, Processes W}.
Context (ns : fault_session W) (ReadFile : string → W → result string) (decode : string → result Experiment).

(** [sendCommand]. A request that is not answered is an error, whatever the listener
    has made of it. *)
Definition sendCommand (x : exchange) (cfg : CommandListenerConfig) (token command : string) (st : W * Actor) :
    outcome ((W * Actor) * cli_result) :=
  match x with
  | Failed false e => Done (st, CliFailed (Wrapf "request failed: %w" [] e))
  | _ =>
      match handle_command ns ReadFile decode cfg (command_request token command) st with
      | Panic why => Panic why
      | Done (st, (status, a)) =>
          Done (st, match x with
                    | Failed _ e => CliFailed (Wrapf "request failed: %w" [] e)
                    | Answered => if 400 <=? status then CliRefused a else CliPrinted a
                    end)
      end
  end.

(** One command after the other, each after what the rest of the system does in
    between; [exchanges] says how the requests fare. *)
Fixpoint send_all (exchanges : nat → exchange) (settle : nat → W * Actor → W * Actor) (i : nat) (cfg : CommandListenerConfig) (token : string)
    (commands : list string) (st : W * Actor) : outcome ((W * Actor) * list cli_result) :=
  match commands with
  | [] => Done (st, [])
  | command :: rest =>
      match sendCommand (exchanges i) cfg token command (settle i st) with
      | Panic why => Panic why
      | Done (st, a) =>
          match send_all exchanges settle (S i) cfg token rest st with
          | Panic why => Panic why
          | Done (st, l) => Done (st, a :: l)
          end
      end
  end.

(** ** The client and the listener *)

(** The answer of the command line. *)
Definition cli_answer (raw : string) (r : result (option ReplyData)) : cli_result :=
  match r with
  | Err e => CliRefused (CError e)
  | Ok None => CliPrinted (CText [OLine "ok"])
  | Ok (Some d) => CliPrinted (CText (formatCommandResult raw d))
  end.

Lemma authorized_request token command : authorizeCommandListener (command_request token command) token = true.
Proof.
  unfold authorizeCommandListener, command_request. cbn [cr_CommandToken]. case_bool_decide as Hb; [done|].
  by rewrite bool_decide_true.
Qed.

(** A client with the token of the listener runs its command. *)
Lemma sendCommand_runs x cfg command st :
  TrimSpace command = command → command ≠ EmptyString →
  sendCommand x cfg (cl_AuthToken cfg) command st =
  match x with
  | Failed false e => Done (st, CliFailed (Wrapf "request failed: %w" [] e))
  | _ =>
      match ExecuteRuntimeCommand ns ReadFile decode command st with
      | Panic why => Panic why
      | Done (st, r) => Done (st, match x with Failed _ e => CliFailed (Wrapf "request failed: %w" [] e) | Answered => cli_answer command r end)
      end
  end.
Proof.
  intros Htr Hne. unfold sendCommand, handle_command. rewrite authorized_request. cbn [command_request cr_Method cr_Body].
  rewrite (bool_decide_true (POST = POST)) by done. cbn [negb]. rewrite Htr, bool_decide_false by done.
  destruct x as [|[] e]; [| |done]; by destruct (ExecuteRuntimeCommand _ _ _ _ _) as [[st' [[d|]|err]]|why].
Qed.

(** What is sent has no white space around it. *)
Definition sent (command : string) : Prop := TrimSpace command = command ∧ command ≠ EmptyString.

Lemma typed_line_sent line command : typed_line line = CliSend command → sent command.
Proof.
  unfold typed_line. cbv zeta. case_bool_decide; [done|]. case_bool_decide; [done|]. destruct (isLocalHelpCommand _); [done|].
  intros [= <-]. split; [apply TrimSpace_idem|done].
Qed.

Lemma runInteractive_sent lines : Forall sent (runInteractive lines).
Proof.
  induction lines as [|line lines IH]; cbn [runInteractive]; [done|]. destruct (typed_line line) as [| | |command] eqn:Hl; try done.
  constructor; [by eapply typed_line_sent|done].
Qed.

Lemma cli_commands_sent args stdin f commands : cli_commands args stdin = Ok (f, commands) → Forall sent commands.
Proof.
  unfold cli_commands. destruct (parse_flags _ _ _) as [[f' words]|e]; [|done]. cbn [mbind result_bind]. cbv zeta. intros [= <- <-].
  destruct (lf_interactive f'); [apply runInteractive_sent|]. cbn [orb]. case_bool_decide; [apply runInteractive_sent|].
  destruct (isLocalHelpCommand _); [done|]. repeat constructor; [apply TrimSpace_idem|done].
Qed.

(** An answer that reports the error of a line, or its success. *)
Definition reports (a : cli_result) (e : option error) : Prop :=
  match a, e with
  | CliRefused (CError e), Some e' => e = e'
  | CliPrinted (CText _), None => True
  | _, _ => False
  end.

Lemma send_all_runs exchanges settle cfg commands i st :
  Forall sent commands → (∀ k, (i ≤ k < i + length commands)%nat → exchanges k = Answered) →
  match send_all exchanges settle i cfg (cl_AuthToken cfg) commands st, run_bootstrap ns ReadFile decode settle i commands st with
  | Done (st1, answers), Done (st2, errors) => st1 = st2 ∧ Forall2 reports answers errors
  | Panic w1, Panic w2 => w1 = w2
  | _, _ => False
  end.
Proof.
  intros Hs. revert i st. induction Hs as [|command commands [Ht Hne] _ IH]; intros i st Hx; cbn [send_all run_bootstrap]; [done|].
  rewrite Hx, sendCommand_runs by (done || (cbn; lia)). unfold DispatchRuntimeCommand.
  destruct (ExecuteRuntimeCommand _ _ _ _ _) as [[st' r]|why]; [|done].
  specialize (IH (S i) st' ltac:(intros; apply Hx; cbn; lia)).
  destruct r as [d|e]; destruct (send_all _ _ _ _ _ _ _) as [[st1 l1]|w1], (run_bootstrap _ _ _ _ _ _ _) as [[st2 l2]|w2];
    try done; destruct IH as [-> IH]; (split; [done|]); constructor; try done. by destruct d.
Qed.

(** C20: A client that has the token of the listener, and whose requests are all
    answered within its timeout, leaves the control plane as the process itself
    would with the same lines among its bootstrap commands, and reports the same
    errors: whatever it is given as arguments or has typed at it, each command it
    sends is run once, in order.  When a request fails, because the listener is
    not reached or the command takes longer than the timeout, the client reports
    that failure and nothing of the answer; if the listener received the request
    the command is run to its end all the same, as a bootstrap command would be,
    and otherwise nothing changes. *)
Theorem client_is_bootstrap exchanges settle cfg args stdin f commands st :
  cli_commands args stdin = Ok (f, commands) → lf_token f = cl_AuthToken cfg →
  ((∀ k, (k < length commands)%nat → exchanges k = Answered) →
   match send_all exchanges settle 0 cfg (lf_token f) commands st, run_bootstrap ns ReadFile decode settle 0 commands st with
   | Done (st1, answers), Done (st2, errors) => st1 = st2 ∧ Forall2 reports answers errors
   | Panic w1, Panic w2 => w1 = w2
   | _, _ => False
   end) ∧
  ∀ command st' e, command ∈ commands →
    sendCommand (Failed false e) cfg (lf_token f) command st' = Done (st', CliFailed (Wrapf "request failed: %w" [] e)) ∧
    sendCommand (Failed true e) cfg (lf_token f) command st' =
    match DispatchRuntimeCommand ns ReadFile decode command st' with
    | Panic why => Panic why
    | Done (st1, _) => Done (st1, CliFailed (Wrapf "request failed: %w" [] e))
    end.
Proof.
  intros Hc ->. apply cli_commands_sent in Hc. split.
  - intros Hx. apply send_all_runs; [done|]. intros k Hk. apply Hx. lia.
  - intros command st' e Hin. rewrite Forall_forall in Hc. destruct (Hc command Hin) as [Ht Hne]. split; [done|].
    rewrite sendCommand_runs by done. unfold DispatchRuntimeCommand. by destruct (ExecuteRuntimeCommand _ _ _ _ _) as [[st1 [d|err]]|why].
Qed.
End Session.

(** ** A session *)

#[local] Existing Instance canonical_order.
#[local] Existing Instance demo_protobuf.
#[local] Existing Instance demo_operator.
#[local] Existing Instance actor_clock.
#[local] Existing Instance demo_processes.

Definition demo_listening : CommandListenerConfig := {| cl_Port := 9091; cl_AuthToken := "secret" |}.
Definition demo_cli_args : list string := ["-token=secret"; "--interactive"].
Definition demo_typed : list string := ["HELP"; "  fault-crash c1 n1 "; EmptyString; "launch n1"; "quit"; "list-clusters"].

Lemma client_is_bootstrap_witness :
  ∃ f st' answers, cli_commands demo_cli_args demo_typed = Ok (f, ["fault-crash c1 n1"; "launch n1"]) ∧
    send_all None no_files no_yaml (λ _, Answered) (λ _ st, st) 0 demo_listening (lf_token f) ["fault-crash c1 n1"; "launch n1"]
      (demo_store, demo_actor) = Done (st', answers) ∧
    Forall2 reports answers [None; Some (Errorf "unknown command" [])].
Proof.
  destruct (cli_commands demo_cli_args demo_typed) as [[f commands]|] eqn:Hc; [|by vm_compute in Hc].
  assert (lf_token f = "secret" ∧ commands = ["fault-crash c1 n1"; "launch n1"]) as [Ht ->] by (vm_compute in Hc; by injection Hc as <- <-).
  pose proof (proj1 (client_is_bootstrap None no_files no_yaml (λ _, Answered) (λ _ st, st) demo_listening demo_cli_args demo_typed f _
    (demo_store, demo_actor) Hc Ht) (λ _ _, eq_refl)) as Heq.
  assert (match run_bootstrap None no_files no_yaml (λ _ st, st) 0 ["fault-crash c1 n1"; "launch n1"] (demo_store, demo_actor) with
          | Done (_, errors) => errors = [None; Some (Errorf "unknown command" [])] | Panic _ => False end) as He by (vm_compute; reflexivity).
  exists f. destruct (send_all _ _ _ _ _ _ _ _ _ _) as [[st1 l1]|w1], (run_bootstrap _ _ _ _ _ _ _) as [[st2 l2]|w2]; try done.
  destruct Heq as [_ Hl]. rewrite He in Hl. by exists st1, l1.
Defined.
