(* ===== verification/CliScreen.v ===== *)
(** * What the command-line client shows (cmd/cpcli/main.go)

    The help, the colours, and the lines an interactive run or a single command
    prints.  The lines typed are those the scanner yields.  What the listener
    answers to the requests is an argument: the status line and the body, or the
    error of the request.  Then the help is
    compared with the parser of the control plane. *)

From S2P Require Import Prelude GoStrings GoTime GoFlag GoFloat TabWriter Commands CommandProps Http Fault Messages Experiment Cluster Metrics Sessions Service World Actor ControlPlane ActorProps Listener Bootstrap Cli.

(** ** Colours and streams *)

Definition escape (code : string) : string := String (Ascii.ascii_of_nat 27) ("[" +:+ code +:+ "m").
Definition clrReset : string := escape "0".
Definition clrBold : string := escape "1".
Definition clrRed : string := escape "31".
Definition clrGreen : string := escape "32".
Definition clrYellow : string := escape "33".
Definition clrCyan : string := escape "36".

Inductive output := Stdout (text : string) | Stderr (text : string).

Definition Println (text : string) : output := Stdout (text +:+ newline).
Definition printInfo (msg : string) : output := Println (clrCyan +:+ msg +:+ clrReset).
Definition printSuccess (msg : string) : output := Println (clrGreen +:+ msg +:+ clrReset).
Definition printError (text : string) : output := Stderr (clrRed +:+ text +:+ clrReset +:+ newline).

(** ** The help *)

Definition help_commands : list (string * list string) :=
  [("Cluster commands",
    ["  new-cluster <cluster-id> [--protocol <gossip|raft>]";
     "  kill-cluster <cluster-id>";
     "  list-clusters";
     "  set-protocol <cluster-id> <gossip|raft>"]);
   ("Node lifecycle commands",
    ["  start-node <node-id> <port> [--cluster-id <id>] [--host <host>] [--peers <csv>] [--cp-host <host>] [--cp-port <port>]";
     "  stop-node <node-id>";
     "  list-node-procs";
     "  add-node <cluster-id> <node-id> <host> <port>";
     "  remove-node <cluster-id> <node-id>";
     "  list-nodes <cluster-id>"]);
   ("Fault commands",
    ["  set-fault <cluster-id> <node-id> <crashed:true|false> <drop-rate:0..1> <delay-ms:int> [partition-csv]";
     "  fault-crash <cluster-id> <node-id>";
     "  fault-recover <cluster-id> <node-id>";
     "  fault-drop <cluster-id> <node-id> <drop-rate:0..1>";
     "  fault-delay <cluster-id> <node-id> <delay-ms:int>";
     "  fault-partition <cluster-id> <node-id> <peer-id> <enabled:true|false>"]);
   ("KV commands",
    ["  kv-put <cluster-id> <node-id> <key> <value>";
     "  kv-get <cluster-id> <node-id> <key>"]);
   ("Experiment commands",
    ["  run-hypothesis <relative-experiment-path>"])].

Definition heading (title : string) : string := clrBold +:+ title +:+ clrReset.

Definition printHelp : list string :=
  [clrBold +:+ clrYellow +:+ "cpcli Help" +:+ clrReset;
   EmptyString;
   heading "How to use";
   "  Interactive mode: run cpcli with no command";
   "  One-shot mode: run cpcli with a command";
   EmptyString;
   heading "Interactive shortcuts";
   "  help, ?, -h, --help  show this help";
   "  exit, quit          leave interactive mode"] ++
  mjoin ((λ s, [EmptyString; heading s.1] ++ s.2) <$> help_commands).

(** ** What a request shows *)

(** The status code, the status line and the body, or the error of building or
    sending the request as it reads. *)
Definition reply := (Z * string * string + string)%type.

(** The tail of [sendCommand], and what its caller prints of an error; the flag
    says that there was one. *)
Definition show_reply (r : reply) : bool * list output :=
  match r with
  | inr e => (true, [printError e])
  | inl (code, status, body) =>
      let text := TrimSpace body in
      if 400 <=? code then (true, [printError (if bool_decide (text = EmptyString) then status else text)])
      else (false, if bool_decide (text = EmptyString) then [] else [printSuccess text])
  end.

(** The prompt, and what each line shows; [i] counts the requests. *)
Fixpoint interactive_screen (send : nat → string → reply) (i : nat) (lines : list string) : list output :=
  Stdout (clrCyan +:+ "cpcli> " +:+ clrReset) ::
  match lines with
  | [] => [Println EmptyString]
  | line :: rest =>
      match typed_line line with
      | CliNothing => interactive_screen send i rest
      | CliExit => []
      | CliHelp => (Println <$> printHelp) ++ interactive_screen send i rest
      | CliSend command => (show_reply (send i command)).2 ++ interactive_screen send (S i) rest
      end
  end.

(** The whole run: its exit code and what it shows. *)
Definition cli_screen (send : nat → string → reply) (args stdin : list string) : result (Z * list output) :=
  '(f, words) ← parse_flags cli_flag args default_cli_flags;
  let command := TrimSpace (Join words " ") in
  Ok (if lf_interactive f || bool_decide (command = EmptyString) then
        (0, printInfo ("cpcli connected to " +:+ lf_host f +:+ ":" +:+ itoa (lf_port f)) ::
            Println "Type commands and press Enter. Type 'exit' or 'quit' to stop." :: interactive_screen send 0 stdin)
      else if isLocalHelpCommand command then (0, Println <$> printHelp)
      else let '(failed, out) := show_reply (send O command) in ((if failed then 1 else 0), out)).

(** ** Every request is shown, in order, and nothing else of the listener *)

(** The part of the screen that requests show. *)
Fixpoint shown (send : nat → string → reply) (i : nat) (commands : list string) : list output :=
  match commands with
  | [] => []
  | c :: rest => (show_reply (send i c)).2 ++ shown send (S i) rest
  end.

Lemma interactive_shows send i lines : shown send i (runInteractive lines) `sublist_of` interactive_screen send i lines.
Proof.
  revert i. induction lines as [|line lines IH]; intros i; [apply sublist_nil_l|].
  cbn [runInteractive interactive_screen]. apply sublist_cons. destruct (typed_line line) as [| | |command].
  - apply IH.
  - apply sublist_nil_l.
  - by apply sublist_inserts_l.
  - cbn [shown]. by apply sublist_app.
Qed.

(** The screen depends on the answers to the commands sent only. *)
Lemma interactive_screen_ext send send' i lines :
  (∀ k c, runInteractive lines !! k = Some c → send (i + k)%nat c = send' (i + k)%nat c) →
  interactive_screen send i lines = interactive_screen send' i lines.
Proof.
  revert i. induction lines as [|line lines IH]; intros i Hs; [done|]. cbn [runInteractive interactive_screen] in *. f_equal.
  destruct (typed_line line) as [| | |command]; [by apply IH|done|by rewrite (IH i)|].
  pose proof (Hs 0%nat command eq_refl) as H0. rewrite Nat.add_0_r in H0. rewrite H0. f_equal. apply IH. intros k c Hk.
  rewrite Nat.add_succ_comm. by apply (Hs (S k)).
Qed.

(** ** The help against the parser *)

(** A usage line: the name of the command, the words it needs, and what may
    follow, an option with its value or a word. *)
Inductive option_form := Option_flag (flag ph : string) | Option_word (ph : string).

Definition opening (w : string) : bool := HasPrefix w "[".

Fixpoint option_forms (ws : list string) : list option_form :=
  match ws with
  | [] => []
  | w :: rest =>
      if HasPrefix w "[--" then
        match rest with [] => [] | v :: rest => Option_flag (str_drop 1 w) (TrimSuffix v "]") :: option_forms rest end
      else Option_word (TrimSuffix (str_drop 1 w) "]") :: option_forms rest
  end.

Fixpoint needed (ws : list string) : list string * list string :=
  match ws with
  | [] => ([], [])
  | w :: rest => if opening w then ([], ws) else let '(n, o) := needed rest in (w :: n, o)
  end.

Record usage := { us_name : string; us_needed : list string; us_options : list option_form }.

Definition read_usage (line : string) : option usage :=
  match Fields line with
  | [] => None
  | name :: ws => let '(n, o) := needed ws in Some {| us_name := name; us_needed := n; us_options := option_forms o |}
  end.

Definition help_lines : list string := mjoin help_commands.*2.

(** A word that fits a placeholder. *)
Definition fills (ph w : string) : bool :=
  is_word w &&
  if HasSuffix ph ":true|false>" then bool_decide (is_Some (ParseBool w))
  else if HasSuffix ph ":0..1>" then match ParseFloat w with Some _ => true | None => false end
  else if HasSuffix ph ":int>" || (ph =? "<port>")%string then bool_decide (is_Some (Atoi w))
  else if (ph =? "<gossip|raft>")%string then bool_decide (w ∈ ["gossip"; "raft"])
  else true.

Definition fills_option (o : option_form) (ws : list string) : bool :=
  match o, ws with
  | Option_flag flag ph, [f; v] => (f =? flag)%string && fills ph v
  | Option_word ph, [v] => fills ph v
  | _, _ => false
  end.

(** A line made as a usage says: its options in any order and number. *)
Definition follows (u : usage) (line : string) : Prop :=
  ∃ ws opts, Forall2 (λ ph w, fills ph w = true) (us_needed u) ws ∧
    Forall (λ o, ∃ form, form ∈ us_options u ∧ fills_option form o = true) opts ∧
    line = Join (us_name u :: ws ++ mjoin opts) " ".

Lemma fills_word ph w : fills ph w = true → is_word w = true.
Proof. unfold fills. by intros [? _]%andb_true_iff. Qed.

Lemma fills_bool ph w : HasSuffix ph ":true|false>" = true → fills ph w = true → ∃ b, ParseBool w = Some b.
Proof. unfold fills. intros -> [_ Hb%bool_decide_eq_true]%andb_true_iff. done. Qed.

Lemma fills_rate ph w :
  HasSuffix ph ":true|false>" = false → HasSuffix ph ":0..1>" = true → fills ph w = true → ∃ r, ParseFloat w = Some r.
Proof. unfold fills. intros -> -> [_ Hr]%andb_true_iff. destruct (ParseFloat w) as [r|]; [by exists r|done]. Qed.

Lemma fills_int ph w :
  HasSuffix ph ":true|false>" = false → HasSuffix ph ":0..1>" = false → HasSuffix ph ":int>" || (ph =? "<port>")%string = true →
  fills ph w = true → ∃ z, Atoi w = Some z.
Proof. unfold fills. intros -> -> -> [_ Hz%bool_decide_eq_true]%andb_true_iff. done. Qed.

Definition chosen (forms : list option_form) (opts : list (list string)) : Prop :=
  Forall (λ o, ∃ form, form ∈ forms ∧ fills_option form o = true) opts.

Definition flag_of (o : option_form) : string := match o with Option_flag f _ => f | Option_word _ => "-" end.

Lemma chosen_words forms opts :
  forallb (λ o, is_word (flag_of o)) forms = true → chosen forms opts → forallb is_word (mjoin opts) = true.
Proof.
  intros Hf. induction 1 as [|o opts (form & Hin & Ho) _ IH]; [done|]. change (mjoin (o :: opts)) with (o ++ mjoin opts). rewrite forallb_app, IH, andb_true_r.
  rewrite forallb_forall in Hf. specialize (Hf form (proj1 (list_elem_of_In _ _) Hin)).
  destruct form as [flag ph|ph], o as [|a [|v [|? ?]]]; try done; cbn [fills_option] in Ho.
  - apply andb_true_iff in Ho as [->%String.eqb_eq Hv%fills_word]. cbn [forallb flag_of] in *. by rewrite Hf, Hv.
  - apply fills_word in Ho. cbn [forallb]. by rewrite Ho.
Qed.

Lemma chosen_nil opts : chosen [] opts → opts = [].
Proof. destruct 1 as [|o opts (form & Hin & _) _]; [done|]. by apply not_elem_of_nil in Hin. Qed.

Lemma start_options_chosen opts cmd :
  chosen [Option_flag "--cluster-id" "<id>"; Option_flag "--host" "<host>"; Option_flag "--peers" "<csv>";
          Option_flag "--cp-host" "<host>"; Option_flag "--cp-port" "<port>"] opts →
  ∃ c, parse_start_options (mjoin opts) cmd = Ok c.
Proof.
  intros Hc. revert cmd. induction Hc as [|o opts (form & Hin & Ho) _ IH]; intros cmd; [by eexists|].
  members; destruct o as [|a [|v [|? ?]]]; try done; cbn [fills_option] in Ho; apply andb_true_iff in Ho as [->%String.eqb_eq Hv];
    match goal with |- context [mjoin (?o :: opts)] => change (mjoin (o :: opts)) with (o ++ mjoin opts) end; cbn [app].
  1-4: apply IH.
  destruct (fills_int "<port>" v eq_refl eq_refl eq_refl Hv) as [z Hz].
  change (parse_start_options ("--cp-port" :: v :: mjoin opts) cmd) with
    (read_or "invalid --cp-port: %v" v (Atoi v) (λ port, parse_start_options (mjoin opts) cmd <| cmd_CPPort := port |>)).
  rewrite Hz. apply IH.
Qed.

Lemma protocol_options_chosen opts i p :
  chosen [Option_flag "--protocol" "<gossip|raft>"] opts → ∃ q, parse_protocol_options i (mjoin opts) p = Ok q.
Proof.
  intros Hc. revert i p. induction Hc as [|o opts (form & Hin & Ho) _ IH]; intros i p; [by eexists|].
  members. destruct o as [|a [|v [|? ?]]]; try done; cbn [fills_option] in Ho; apply andb_true_iff in Ho as [->%String.eqb_eq Hv].
  change (mjoin (["--protocol"; v] :: opts)) with ("--protocol" :: v :: mjoin opts). apply IH.
Qed.

(** Take the words of a usage apart. *)
Ltac take_words :=
  repeat match goal with
  | H : Forall2 _ (_ :: _) _ |- _ => let w := fresh "w" in let Hw := fresh "Hw" in apply Forall2_cons_inv_l in H as (w & ? & Hw & H & ->)
  | H : Forall2 _ [] _ |- _ => apply Forall2_nil_inv_l in H as ->
  end.

(** What the words that are read say. *)
Ltac read_words :=
  repeat match goal with
  | H : fills ?ph ?w = true |- _ =>
      first [ let x := fresh "x" in let Hx := fresh "Hx" in
              first [ destruct (fills_bool ph w eq_refl H) as [x Hx]
                    | destruct (fills_rate ph w eq_refl eq_refl H) as [x Hx]
                    | destruct (fills_int ph w eq_refl eq_refl eq_refl H) as [x Hx] ]
            | idtac ]; clear H
  end.

(** The help promises nothing that the parser does not accept: a line made as
    any of its usages says, the placeholders filled with words of their kind and
    the options in any order and number, is a command of the runtime. *)
Theorem help_is_accepted line u typed :
  line ∈ help_lines → read_usage line = Some u → follows u typed → ∃ c, runtime_command typed = Ok (Some c).
Proof.
  intros Hin Hu (ws & opts & Hws & Hopts & ->). change (chosen (us_options u) opts) in Hopts.
  assert (Hwords : forallb is_word ws = true).
  { clear -Hws. induction Hws as [|ph w phs ws Hw%fills_word _ IH]; [done|]. cbn [forallb]. by rewrite Hw, IH. }
  assert (Hshape : is_word (us_name u) = true ∧ us_name u ≠ "cp" ∧ forallb (λ o, is_word (flag_of o)) (us_options u) = true).
  { cbn in Hin. members; vm_compute in Hu; injection Hu as <-; by vm_compute. }
  destruct Hshape as (Hname & Hcp & Hflags).
  rewrite runtime_command_words; [|cbn [forallb]; by rewrite Hname, forallb_app, Hwords, (chosen_words _ _ Hflags Hopts)|done].
  assert (Hp : ∃ c, parse_words (us_name u) (ws ++ mjoin opts) = Ok c); [|destruct Hp as [c ->]; by exists c].
  clear Hwords Hname Hcp Hflags. cbn in Hin.
  members; vm_compute in Hu; injection Hu as <-; cbn [us_name us_needed us_options] in *; take_words; cbn [app];
    try (apply chosen_nil in Hopts as ->; change (mjoin []) with (@nil string)); read_words;
    cbn -[Atoi ParseBool ParseFloat mjoin parse_start_options parse_protocol_options bool_decide TrimSpace Split];
    repeat match goal with H : _ = Some _ |- _ => rewrite H; clear H; cbn [read_or] end; try by eexists.
  - destruct (protocol_options_chosen opts 2 "gossip" Hopts) as [q ->]. by eexists.
  - by apply start_options_chosen.
Qed.

(** The names the parser knows and the help does not tell. *)
Definition untold : list string :=
  ["help"; "run-experiment"; "stop-cluster"; "metrics-start"; "metrics-stop"; "metrics-watch-key"; "metrics-show"; "log-lifecycle"].

Definition told : list string := omap (λ line, us_name <$> read_usage line) help_lines.

Lemma parsed_name s c : Parse s = Ok c → ∃ name args, Fields s = name :: args ∧ (name ∈ told ∨ name ∈ untold).
Proof.
  unfold Parse. destruct (Fields s) as [|name args]; [done|]. intros Hp. exists name, args. split; [done|].
  rewrite <- elem_of_app. revert Hp. unfold parse_words.
  repeat match goal with
  | |- (if ?b then _ else _) = _ → _ =>
      let Hb := fresh in destruct b eqn:Hb;
      [rewrite ?orb_true_iff, ?String.eqb_eq in Hb; intros _; destruct_or?; subst; vm_compute; set_solver|]
  end.
  done.
Qed.
