(* ===== verification/Transport.v ===== *)
(** * The gRPC transport (internal/transport)

    An earlier way to reach a peer, which nothing uses.  Dialling and the ping of
    the generated client are parameters. *)

From S2P Require Import Prelude GoStrings.

Record Message := { msg_Type : string; msg_From : string; msg_Data : string }.

Section Transport.
Context {Handler : Type}.

Record GRPCTransport := {
  tr_peers : gmap string string;   (* id to address *)
  tr_handler : option Handler;
  tr_timeout : Z;
}.

Definition NewGRPCTransport (peers : gmap string string) : GRPCTransport :=
  {| tr_peers := peers; tr_handler := None; tr_timeout := 2 * 1000000000 |}.

Definition RegisterHandler (h : Handler) (t : GRPCTransport) : GRPCTransport :=
  {| tr_peers := tr_peers t; tr_handler := Some h; tr_timeout := tr_timeout t |}.

(** [dial] makes a connection, [ping] is the request over it, with the sender; the
    error of the ping is built and dropped. *)
Definition transport_Send {W} (dial : string → option error) (ping : string → string → Z → W → W * option error)
    (peerID : string) (msg : Message) (t : GRPCTransport) (w : W) : W * option error :=
  match tr_peers t !! peerID with
  | None => (w, Some (Errorf "peer not found: %s" [AStr peerID]))
  | Some addr =>
      match dial addr with
      | Some e => (w, Some (Wrapf "failed to establish connection : %s" [] e))
      | None => let '(w, _) := ping addr (msg_From msg) (tr_timeout t) w in (w, None)
      end
  end.

(** Only the ping is sent, and its failure does not show. *)
Lemma transport_Send_known {W} dial (ping : string → string → Z → W → W * option error) peerID addr msg t w :
  tr_peers t !! peerID = Some addr → dial addr = None →
  transport_Send dial ping peerID msg t w = ((ping addr (msg_From msg) (tr_timeout t) w).1, None).
Proof. intros Ha Hd. unfold transport_Send. rewrite Ha, Hd. by destruct (ping _ _ _ _). Qed.
End Transport.
